(* ===== verification/_CoqProject ===== *)
-Q . S2P
Prelude.v
Bits.v
Memory.v
Effects.v
Types.v
Runtime.v
Command.v
Error.v
Queue.v
DisDevice.v
DisMap.v
DisInterrupt.v
Ctrl.v
Dma.v
DisDma.v
Rpc.v
RpcHandles.v
RpcCommand.v
DisRpc.v
Admin.v
KTypes.v
KList.v
KMap.v
KMapUser.v
KRef.v
KCdev.v
KPci.v
KDriver.v
KAccount.v
KOps.v
KIoctl.v
KModule.v
KLedger.v
KRequest.v
KLink.v
Lane.v
Device.v
ReadBlocks.v
Transfer.v
TransferRun.v
CArgs.v
Options.v
Owned.v
Handles.v
SegmentHandles.v
AdminHandles.v
Programs.v
IdentifyModule.v
IdentifyUserspace.v
IdentifySmartio.v
Segment.v
BindingHandles.v
ServerHandles.v
RpcClient.v
RpcServer.v
RpcSignal.v
Threads.v
ReadPrograms.v
ReadModule.v
ReadSmartio.v
IntegrityQueues.v
Integrity.v
