(* ===== verification/Prelude.v ===== *)
(** * libnvm and its kernel module

    A verification development for ssd-gpu-dma: the userspace NVMe driver library
    under [include/] and [src/] of the repository, and the Linux module under
    [module/] that pins memory and maps it for a device. File names below are
    relative to [src/] of this tree, so that [src/queue.c] is [src/src/queue.c].

    ** The program

    A program opens a controller (a mapped register file, a character device of the
    kernel module, or a device borrowed over a PCIe network with SISCI), maps memory
    for it, creates an admin queue pair, and creates I/O queues by executing admin
    commands. I/O commands are then written to a submission ring and their
    completions read from a completion ring, without any further library state.
    Where the admin queues belong to another host, admin commands are sent there as
    messages. The parts call each other as the files below require each other.

    ** Files

    Foundations:
    - [Prelude]: machine integers as [Z] with explicit wrap-around ([u8] ... [u64]),
      bit tests, the scope [nvm_scope], the tactics all files use.
    - [Bits]: the mask, field and page macros of [include/nvm_util.h], [src/util.h].
    - [Memory]: memory shared with devices, a map from addresses to bytes, with
      little-endian accesses [ld]/[st], [memset], [memcpy].
    - [Effects]: the monad of all stateful code. An environment answers every call
      out of the modelled code as a function of the whole history and may change
      memory; all calls are logged; a computation returns, faults, or exhausts a
      loop bound. [wp] is total: it demands a result. Ledgers count what a log has
      acquired and released.

    The library:
    - [Types]: the structures of [include/nvm_types.h] and of the internal headers
      as records in a heap with numbered objects; the calls to libc, the kernel and
      SISCI; the ioctl requests of [src/ioctl.h].
    - [Runtime]: [malloc]/[free] and field accesses, the busy-retry idiom of the
      SISCI code, [_nvm_delay_remain], the ledgers of the library.
    - [Command]: [include/nvm_cmd.h] and the command builders of [src/admin.c].
    - [Error]: [include/nvm_error.h], [src/error.c].
    - [Queue]: [include/nvm_queue.h], [src/queue.c], the doorbells of [src/regs.h].
    - [DisDevice], [DisMap], [DisInterrupt]: [src/dis/device.c], [src/dis/local.c],
      [src/dis/map.c], [src/dis/interrupt.c].
    - [Ctrl]: [src/ctrl.c] and the register accessors of [src/regs.h].
    - [Dma]: [src/dma.c], stated against the class [DmaRelease] of callbacks that
      release a mapping; [DisDma] ([src/dis/dma.c]) is its instance.
    - [Rpc], [RpcHandles], [RpcCommand]: [src/rpc.c], stated against the class
      [RpcCallbacks] of stubs and deleters; [DisRpc] ([src/dis/rpc.c]) is its
      instance.
    - [Admin]: [src/admin.c].

    The example programs:
    - [Lane], [Device]: what they share of commands in flight: a submission queue
      with its PRP list pages, and a controller that follows the specification.
    - [ReadBlocks]: the threads of [examples/read-blocks/read.c]; [Transfer],
      [TransferRun]: those of [examples/integrity/transfer.c]; [Threads]: that none of
      them touches a handle or acquires anything.
    - [CArgs], [Options]: the command lines of all programs.
    - [Owned]: a linear separation logic on heap objects and resources, an instance of
      Iris's [bi]. In it, what a handle of the library owns and what each call does to
      it: [Handles], [SegmentHandles], [AdminHandles], [BindingHandles],
      [ServerHandles]; and [Programs], what a whole program may leave behind.
    - [IdentifyModule], [IdentifyUserspace], [IdentifySmartio]: the three programs of
      [examples/identify].
    - [Segment], [RpcClient], [RpcServer]: [examples/rpc]; [RpcSignal]: the signal
      handler of the server and the thread it interrupts.
    - [ReadPrograms], [ReadModule], [ReadSmartio]: the two programs of
      [examples/read-blocks].
    - [IntegrityQueues], [Integrity]: [util.c] and [integrity.c] of
      [examples/integrity].

    The kernel module:
    - [KTypes]: its calls, state and primitive accesses.
    - [KList]: [module/list.c] and its equivalence with sorted sequences.
    - [KMap]: [module/map.c], with the ledger of pins and mappings; [KMapUser] and
      [KRef] hold its properties (user pages; GPU memory and references).
    - [KCdev]: [module/cdev.c]; [KPci]: [module/pci.c].
    - [KDriver], [KAccount]: the invariant of the driver, and the account that ties
      the ledger to it; [KOps]: every operation keeps both; [KIoctl]: what a process
      gets for its requests; [KModule]: the transition system of the loaded module;
      [KLedger]: its resources.
    - [KRequest], [KLink]: a process's requests as a function of the kernel's state, and
      the library's [ioctl] calls answered by it.

    ** State and operations

    One definition per C function, under its name, composed as in the code, with
    its early returns. Structures embedded in containers are identified with them.
    Output parameters are returned next to the status code; a pointer argument that
    the code tests is an [option]. Function pointers are inductive types of the
    functions that are stored in them. Queues are plain records, because the code
    passes them by reference to inline functions only; what is in queue memory is
    in the shared memory, which the environment may change at every call, so that
    the interleaving with the controller is in every statement. The pure part of
    the library (commands, PRP lists, macros) is pure functions on memory.

    In the kernel model the tables [ctrl_devs] and [ctrl_refs] are lists, their
    elements are named by index, and the list headers that C embeds in structures
    are a map of their own, so that the doubly linked lists are modelled link by
    link. A file operation is a single step: handlers do not interleave with one
    another in the model (the source has atomic bit operations
    and no lock that would make the rest of a handler atomic).

    The example programs are computations of the same monad, from the options
    [getopt_long] returns to the exit status; what follows a label in C is a definition of
    its own, applied to the variables as they are at the [goto]. Addresses of local
    variables that reach the library are parameters. The programs that start threads
    are stated for any computation in the threads' place that ends and leaves handles
    alone; the threads themselves are transition systems with the controller as one
    of the parties ([ReadBlocks], [Transfer], [RpcSignal]).

    ** What the theorems show

    - Rings ([Queue]): the submission ring refines a bounded FIFO for power-of-two
      sizes; completions are dequeued in order, exactly once and unmodified in any
      interleaving; commands in flight have distinct slots and identifiers; the
      blocking dequeue ends, and not before its timeout.
    - Commands ([Command], [Admin]): the bus addresses the controller derives from a
      command are the caller's; builders encode the fields of the specification;
      PRP lists stay inside their page; queue creation hands out the right queue.
    - Controllers ([Ctrl]): capabilities, the ordering of a reset, and the balance of
      every life cycle: nothing leaks on any path.
    - Mappings ([Dma], [DisDma]): translation of every byte; balance.
    - References ([Rpc...], [DisRpc]): the list of handles as an association list;
      every callback runs once; execution of a command against the ring; binding,
      enabling and the exchange of messages, with the errors of each.
    - Kernel ([K...]): list operations are those of a sorted sequence; mapping and
      unmapping are inverse, as seen by the process that asks for them; a released reference leaves nothing behind; and in
      every reachable state of the module the tables and lists are well-formed and
      every event is handled to the end, and in a kernel that keeps to its own rules
      everything acquired and not given back belongs to an entry of a table or list.
    - Threads ([ReadBlocks], [TransferRun]): in every interleaving with the controller
      the commands arrive as meant, in order, exactly once, and cover the transfer;
      no thread faults; the read can always be finished.
    - Command lines ([Options]): printed arguments are parsed back to themselves;
      paths built from them fit their buffers, or by how much they do not.
    - Programs ([Identify...], [Read...], [Integrity], [Rpc...]): whatever the
      device and SISCI answer, they never access memory they do not own, end, and give
      back what they acquired, up to what the statement names: the library itself
      leaks a descriptor per admin queue pair and per local segment. The statements
      leave out faults of arithmetic on values the device supplies ([arithmetic]).
    - Both sides of [ioctl] ([KLink]): with the module answering, a handle of the library
      translates to the bus addresses of the pages the module pinned, and unmapping it
      restores the heap of the program and the state of the module.
    - Where the code does not do what it means to, a theorem states what it does
      (for example [Queue.sq_full_missed], [Ctrl.max_entries_wraps],
      [Error.completion_status_ignored], [Admin.request_num_queues_swaps],
      [Dma.dma_map_host_error_path_faults], [IdentifyUserspace.identify_ctrl_frees_twice],
      [TransferRun.transfer_flush_deadlock], [RpcSignal.catch_signal_deadlock]).

    ** Bounds and fuel

    The loops that repeat a call while SISCI answers busy have no bound in the code:
    they take [e_fuel] turns, and the theorems assume an environment that is not busy
    for longer ([busy_bounded]). Loops with a deadline are bounded by a number of
    turns computed from it, and proved to end within it. Loops over lists take as
    many turns as there are nodes, or handles, and one more, enough for every proper
    list, which the theorems show to be what the lists are. Array loops are
    structural. A number is printed with at most 64 digits. The server of the RPC
    programs waits for a signal for [e_fuel] turns, and [signalled] says that one arrives
    before. No theorem is about partial correctness only: [wp] fails for a
    computation that runs out of fuel.

    ** Assumptions

    Named hypotheses on the environment are documented behaviour of the callee:
    [busy_bounded], [pins] ([get_user_pages] returns between one and as many pages as
    asked for, or an error), [p2p_ok] (the NVIDIA driver maps the pages it was given),
    [min_addr] (nothing is mapped at address 0; a created device is not NULL),
    [lawful_event] (only probed devices are removed, and before unloading), [quiet]
    (user memory is accessible, and nobody else writes to it during a request).
    For the programs: [platform] (pages of 2^12 to 2^31 bytes, a failing call
    sets [errno], [mmap] and locking succeed, allocated memory is not at address 0, SISCI
    is not busy for ever), [maps_pages] (the kernel module accepts mapping requests:
    otherwise [Dma.dma_map_host_error_path_faults] applies), [pagemap] (the page map can be
    read), [sisci_starts], [whole_replies] (the server of an admin queue pair answers with
    whole messages), [signalled], [quiet_reader] and [quiet_transfers] (the threads end and
    leave handles alone: [Threads] shows the latter for every execution, [ReadBlocks] and
    [TransferRun] when they end), a build with assertions for the RPC programs. A
    failing [posix_memalign] leaves the pointer alone; the result of [rand] plus the counter
    wraps. In [KLink], [served_by] (the module answers mapping requests, and every
    descriptor the program uses is of the one device it has opened) and [opened].
    The kernel is at least 4.11 where the source selects by version. [_SISCI] is
    on; [NDEBUG] and [_CUDA] ([Types.Build]) and [has_CUDA] of the kernel module are
    parameters.

    ** Not modelled

    - [src/dprintf.h] and [printk]: printing only.
    - The programs under [benchmarks/]: C++ and CUDA clients of the library.
    - What the example programs print, [print_ctrl_info] among it, and how
      [getopt_long] splits the command line.
    - The RPC server's callback for messages while the server waits for a signal: it is
      modelled on its own ([DisRpc]), not interleaved with the wait.
    - The block operations of [include/nvm_queue.h] under [#if 0].
    - Concurrency between kernel handlers, memory ordering (the
      source has no barriers), and the pthread mutexes beyond lock and unlock calls
      in the log, but for the one of the RPC server ([RpcSignal]).
    - The build system and the documentation. *)
From Stdlib Require Export ZArith Lia.
From stdpp Require Export base tactics list gmap numbers.

#[global] Open Scope Z_scope.

Declare Scope nvm_scope.
Delimit Scope nvm_scope with nvm.
#[global] Open Scope nvm_scope.

(** ** Machine integers *)

(** Unsigned wrap-around to [w] bits: the conversion C performs when a value
    is stored in (or cast to) an unsigned [w]-bit type. *)
Definition wrap (w x : Z) : Z := x mod 2 ^ w.

Definition u8 (x : Z) : Z := wrap 8 x.
Definition u16 (x : Z) : Z := wrap 16 x.
Definition u32 (x : Z) : Z := wrap 32 x.
Definition u64 (x : Z) : Z := wrap 64 x.

(** C's logical negation, as an [int]. *)
Definition lnotb (x : Z) : Z := if x =? 0 then 1 else 0.

(** C's [!!x]. *)
Definition booln (x : Z) : Z := if x =? 0 then 0 else 1.

Notation "x 'in_u' w" := (0 <= x < 2 ^ w) (at level 70) : nvm_scope.

Lemma wrap_bound w x : 0 <= w -> (wrap w x) in_u w.
Proof. intros. unfold wrap. apply Z.mod_pos_bound. lia. Qed.

Lemma wrap_small w x : x in_u w -> wrap w x = x.
Proof. intros. unfold wrap. by apply Z.mod_small. Qed.

Lemma wrap_wrap w x : 0 <= w -> wrap w (wrap w x) = wrap w x.
Proof. intros. unfold wrap. by rewrite Z.mod_mod by lia. Qed.

Lemma wrap_land w x : 0 <= w -> wrap w x = Z.land x (Z.ones w).
Proof. intros. unfold wrap. by rewrite Z.land_ones. Qed.

Lemma u8_bound x : 0 <= u8 x < 256.
Proof. apply (wrap_bound 8); lia. Qed.
Lemma u16_bound x : 0 <= u16 x < 65536.
Proof. apply (wrap_bound 16); lia. Qed.
Lemma u32_bound x : 0 <= u32 x < 4294967296.
Proof. apply (wrap_bound 32); lia. Qed.
Lemma u64_bound x : 0 <= u64 x < 18446744073709551616.
Proof. apply (wrap_bound 64); lia. Qed.

Lemma u8_small x : 0 <= x < 256 -> u8 x = x.
Proof. apply (wrap_small 8). Qed.
Lemma u16_small x : 0 <= x < 65536 -> u16 x = x.
Proof. apply (wrap_small 16). Qed.
Lemma u32_small x : 0 <= x < 4294967296 -> u32 x = x.
Proof. apply (wrap_small 32). Qed.
Lemma u64_small x : 0 <= x < 18446744073709551616 -> u64 x = x.
Proof. apply (wrap_small 64). Qed.

(** Testing a bit of a wrapped value. *)
Lemma wrap_testbit w x i : 0 <= w -> 0 <= i ->
  Z.testbit (wrap w x) i = bool_decide (i < w) && Z.testbit x i.
Proof.
  intros. rewrite wrap_land, Z.land_spec by lia.
  case_bool_decide.
  - rewrite Z.ones_spec_low by lia. by rewrite andb_true_r.
  - rewrite Z.ones_spec_high by lia. by rewrite andb_false_r.
Qed.

(** ** Automation *)

Create HintDb nvm discriminated.
Create Rewrite HintDb bits.
Create Rewrite HintDb fields.
#[export] Hint Rewrite Z.land_spec Z.lor_spec Z.lxor_spec : bits.
#[export] Hint Rewrite Z.bits_0 andb_false_r andb_true_r orb_false_r
  orb_true_r andb_true_l andb_false_l orb_false_l orb_true_l : bits.

#[export] Hint Rewrite Z.shiftl_spec Z.shiftr_spec Z.lnot_spec using lia : bits.
#[export] Hint Rewrite wrap_testbit using lia : bits.

(** Equality of integers bit by bit. *)
Ltac bit_ext i :=
  apply Z.bits_inj'; intros i ?; autorewrite with bits.

(** Name the bounds of every wrapped term in sight, for [lia]. *)
Ltac pose_once t :=
  let T := type of t in
  lazymatch goal with H : T |- _ => fail | _ => pose proof t end.

Ltac word_bounds :=
  repeat match goal with
  | |- context [u8 ?x] => pose_once (u8_bound x)
  | |- context [u16 ?x] => pose_once (u16_bound x)
  | |- context [u32 ?x] => pose_once (u32_bound x)
  | |- context [u64 ?x] => pose_once (u64_bound x)
  | H : context [u8 ?x] |- _ => pose_once (u8_bound x)
  | H : context [u16 ?x] |- _ => pose_once (u16_bound x)
  | H : context [u32 ?x] |- _ => pose_once (u32_bound x)
  | H : context [u64 ?x] |- _ => pose_once (u64_bound x)
  end.

(** Split on every boolean comparison of the goal. *)
Ltac zcases :=
  repeat match goal with
  | |- context [?a =? ?b] => destruct (Z.eqb_spec a b)
  | |- context [?a <? ?b] => destruct (Z.ltb_spec a b)
  | |- context [?a <=? ?b] => destruct (Z.leb_spec a b)
  end.

(** Turn boolean equations between comparisons into propositions. *)
Ltac zbool :=
  repeat match goal with
  | H : (_ =? _) = true |- _ => apply Z.eqb_eq in H
  | H : (_ =? _) = false |- _ => apply Z.eqb_neq in H
  | H : (_ <? _) = true |- _ => apply Z.ltb_lt in H
  | H : (_ <? _) = false |- _ => apply Z.ltb_ge in H
  | H : (_ <=? _) = true |- _ => apply Z.leb_le in H
  | H : (_ <=? _) = false |- _ => apply Z.leb_gt in H
  | H : (_ && _) = true |- _ => apply andb_true_iff in H as [? ?]
  | H : (_ || _) = false |- _ => apply orb_false_iff in H as [? ?]
  end.

(** ** Errno values the library returns *)

Definition EPERM : Z := 1.
Definition EIO : Z := 5.
Definition EBADF : Z := 9.
Definition EAGAIN : Z := 11.
Definition ENOMEM : Z := 12.
Definition EEXIST : Z := 17.
Definition ENODEV : Z := 19.
Definition EINVAL : Z := 22.
Definition ENOSPC : Z := 28.
Definition ERANGE : Z := 34.
Definition ETIME : Z := 62.
Definition ENOTCONN : Z := 107.
Definition ETIMEDOUT : Z := 110.
Definition ECONNREFUSED : Z := 111.

(** The null pointer. *)
Definition NULL : Z := 0.

(** ** Arithmetic shared by the components *)

Lemma mod_add_one a n : 0 < n ->
  (a + 1) mod n = if decide (a mod n + 1 = n) then 0 else a mod n + 1.
Proof.
  intros Hn. pose proof (Z.div_mod a n ltac:(lia)) as E.
  pose proof (Z.mod_pos_bound a n Hn).
  case_decide.
  - symmetry. apply (Z.mod_unique_pos _ _ (a / n + 1)); lia.
  - symmetry. apply (Z.mod_unique_pos _ _ (a / n)); lia.
Qed.

Lemma div_add_one a n : 0 < n ->
  (a + 1) / n = if decide (a mod n + 1 = n) then a / n + 1 else a / n.
Proof.
  intros Hn. pose proof (Z.div_mod a n ltac:(lia)) as E.
  pose proof (Z.mod_pos_bound a n Hn).
  case_decide.
  - symmetry. apply (Z.div_unique_pos _ _ _ 0); lia.
  - symmetry. apply (Z.div_unique_pos _ _ _ (a mod n + 1)); lia.
Qed.

(** A power of two at most [2^32] divides [2^32]: the C code relies on it
    whenever it reduces a wrapped 32-bit difference modulo a queue size. *)
Lemma mod_u32_pow2 k x : 0 <= k <= 32 -> u32 x mod 2 ^ k = x mod 2 ^ k.
Proof.
  intros. unfold u32, wrap.
  rewrite Z.mod_mod_divide; [done|].
  exists (2 ^ (32 - k)). rewrite <- Z.pow_add_r by lia. f_equal. lia.
Qed.
