(* ===== verification/Bits.v ===== *)
(** * Bit-field and page arithmetic macros

    [include/nvm_util.h] and [src/util.h]: the masks [_RB]/[_WB] every register
    access goes through, the page alignment macros, and the base-2 logarithm
    used to encode page and entry sizes. *)
From S2P Require Import Prelude.

(** ** [_nvm_bitmask], [_RB], [_WB] *)

Fixpoint bitmask_loop (n : nat) (i mask : Z) : Z :=
  match n with
  | O => mask
  | S n' => bitmask_loop n' (i + 1) (Z.lor mask (u64 (Z.shiftl 1 i)))
  end.

Definition _nvm_bitmask (hi lo : Z) : Z :=
  bitmask_loop (Z.to_nat (hi - lo + 1)) lo 0.

Definition _RB (v hi lo : Z) : Z := Z.shiftr (Z.land v (_nvm_bitmask hi lo)) lo.

(** Every use of [_WB] shifts an [int] or a [uint32_t]. *)
Definition _WB (v hi lo : Z) : Z :=
  Z.land (u32 (Z.shiftl v lo)) (_nvm_bitmask hi lo).

(** ** Page macros *)

Definition NVM_PAGE_TO_BLOCK (page_size block_size pageno : Z) : Z :=
  u64 (page_size * pageno) / block_size.

Definition NVM_BLOCK_TO_PAGE (page_size block_size blockno : Z) : Z :=
  u64 (block_size * blockno) / page_size.

Definition NVM_PAGE_MASK (page_size : Z) : Z := u64 (Z.lnot (u64 (page_size - 1))).

Definition NVM_ADDR_MASK (addr page_size : Z) : Z :=
  Z.land (u64 addr) (NVM_PAGE_MASK page_size).

Definition NVM_PAGE_ALIGN (size page_size : Z) : Z :=
  Z.land (u64 (u64 (size + page_size) - 1)) (NVM_PAGE_MASK page_size).

Definition NVM_ADDR_OFFSET (addr page_size pageno : Z) : Z :=
  u64 (u64 addr + u64 (page_size * pageno)).

(** ** [src/util.h] *)

Definition _MIN (a b : Z) : Z := if a <=? b then a else b.
Definition _MAX (a b : Z) : Z := if a >? b then a else b.

(** [while (n > 0) { ++count; n >>= 1; }]: 32 rounds clear any [uint32_t]. *)
Fixpoint b2log_loop (fuel : nat) (count n : Z) : Z :=
  match fuel with
  | O => count
  | S fuel' => if n >? 0 then b2log_loop fuel' (u32 (count + 1)) (Z.shiftr n 1) else count
  end.

Definition _nvm_b2log (n : Z) : Z := u32 (b2log_loop 32 0 n - 1).

(** [_nvm_delay_remain] sleeps [delay_slice ns] nanoseconds and returns
    [delay_rest ns]; the sleep itself is an external call (see [Effects]). *)
Definition delay_slice (ns : Z) : Z := _MIN 1000000 ns.
Definition delay_rest (ns : Z) : Z := u64 (ns - _MIN 1000000 ns).

(** ** The mask is the interval of bits [lo..hi] *)

Lemma bitmask_loop_testbit n i mask j :
  0 <= i -> i + Z.of_nat n <= 64 -> 0 <= j ->
  Z.testbit (bitmask_loop n i mask) j
  = Z.testbit mask j || bool_decide (i <= j < i + Z.of_nat n).
Proof.
  revert i mask. induction n as [|n IH]; intros i mask Hi Hn Hj; simpl bitmask_loop.
  - rewrite bool_decide_eq_false_2 by lia. by rewrite orb_false_r.
  - rewrite IH by lia. unfold u64. autorewrite with bits.
    rewrite <- orb_assoc. f_equal.
    destruct (decide (j = i)) as [->|Hne].
    + rewrite Z.sub_diag. rewrite (bool_decide_eq_true_2 (i < 64)) by lia.
      rewrite (bool_decide_eq_true_2 (i <= i < _)) by lia. done.
    + replace (Z.testbit 1 (j - i)) with false
        by (symmetry; destruct (decide (j < i));
            [apply Z.testbit_neg_r; lia | by rewrite Z.bits_above_log2 by (simpl; lia)]).
      rewrite andb_false_r. simpl. apply bool_decide_ext. lia.
Qed.

Lemma bitmask_testbit hi lo j : 0 <= lo -> lo <= hi + 1 -> hi < 64 -> 0 <= j ->
  Z.testbit (_nvm_bitmask hi lo) j = bool_decide (lo <= j <= hi).
Proof.
  intros. unfold _nvm_bitmask. rewrite bitmask_loop_testbit by lia.
  rewrite Z.bits_0. simpl. apply bool_decide_ext. lia.
Qed.

Lemma bitmask_ones hi lo : 0 <= lo -> lo <= hi + 1 -> hi < 64 ->
  _nvm_bitmask hi lo = Z.shiftl (Z.ones (hi - lo + 1)) lo.
Proof.
  intros. bit_ext j. rewrite bitmask_testbit by lia.
  case_bool_decide.
  - by rewrite Z.ones_spec_low by lia.
  - destruct (decide (j < lo)); [by rewrite Z.testbit_neg_r by lia|].
    by rewrite Z.ones_spec_high by lia.
Qed.

(** ** What the field macros compute *)

Lemma RB_spec v hi lo : 0 <= lo -> lo <= hi + 1 -> hi < 64 ->
  _RB v hi lo = (v / 2 ^ lo) mod 2 ^ (hi - lo + 1).
Proof.
  intros. unfold _RB.
  rewrite <- Z.shiftr_div_pow2, <- Z.land_ones by lia.
  bit_ext j. rewrite bitmask_testbit by lia. f_equal. case_bool_decide.
  - by rewrite Z.ones_spec_low by lia.
  - by rewrite Z.ones_spec_high by lia.
Qed.

Lemma RB_bound v hi lo : 0 <= lo -> lo <= hi + 1 -> hi < 64 ->
  0 <= _RB v hi lo < 2 ^ (hi - lo + 1).
Proof. intros. rewrite RB_spec by lia. apply Z.mod_pos_bound. lia. Qed.

Lemma RB_testbit v hi lo i : 0 <= lo -> lo <= hi + 1 -> hi < 64 -> 0 <= i ->
  Z.testbit (_RB v hi lo) i = bool_decide (lo + i <= hi) && Z.testbit v (lo + i).
Proof.
  intros. unfold _RB. autorewrite with bits. rewrite bitmask_testbit by lia.
  rewrite (Z.add_comm i lo), andb_comm. f_equal. apply bool_decide_ext. lia.
Qed.

Lemma WB_testbit v hi lo i : 0 <= lo -> lo <= hi + 1 -> hi < 32 -> 0 <= i ->
  Z.testbit (_WB v hi lo) i = bool_decide (lo <= i <= hi) && Z.testbit v (i - lo).
Proof.
  intros. unfold _WB, u32. autorewrite with bits. rewrite bitmask_testbit by lia.
  repeat case_bool_decide; try lia;
    rewrite ?andb_true_r, ?andb_false_r; try done.
Qed.

(** A field starting above the value's width reads as zero. *)
Lemma RB_above w v hi lo : 0 <= w -> v in_u w -> w <= lo -> lo <= hi + 1 -> hi < 64 ->
  _RB v hi lo = 0.
Proof.
  intros Hw Hv ???. rewrite RB_spec by lia.
  rewrite Z.div_small; [by apply Z.mod_0_l; lia|].
  pose proof (Z.pow_le_mono_r 2 w lo). lia.
Qed.

(** Reading back a field that was just written. *)
Lemma RB_WB_same v hi lo : 0 <= lo -> lo <= hi -> hi < 32 ->
  _RB (_WB v hi lo) hi lo = v mod 2 ^ (hi - lo + 1).
Proof.
  intros. rewrite <- (Z.land_ones v) by lia. bit_ext i.
  rewrite RB_testbit, WB_testbit by lia.
  replace (lo + i - lo) with i by lia. case_bool_decide.
  - rewrite bool_decide_eq_true_2 by lia. rewrite Z.ones_spec_low by lia.
    by rewrite andb_true_r.
  - rewrite Z.ones_spec_high by lia. by rewrite andb_false_r.
Qed.

(** A field is blind to a disjoint field. *)
Lemma RB_WB_disjoint v hi lo hi' lo' :
  0 <= lo -> lo <= hi -> hi < 64 -> 0 <= lo' -> lo' <= hi' -> hi' < 32 ->
  hi < lo' \/ hi' < lo -> _RB (_WB v hi' lo') hi lo = 0.
Proof.
  intros. bit_ext i. rewrite RB_testbit, WB_testbit by lia.
  repeat case_bool_decide; simpl; try done; lia.
Qed.

Lemma RB_lor a b hi lo : 0 <= lo -> lo <= hi + 1 -> hi < 64 ->
  _RB (Z.lor a b) hi lo = Z.lor (_RB a hi lo) (_RB b hi lo).
Proof.
  intros. bit_ext i. rewrite !RB_testbit by lia. autorewrite with bits.
  by rewrite andb_orb_distrib_r.
Qed.

#[export] Hint Rewrite RB_lor using lia : fields.
#[export] Hint Rewrite RB_WB_same using lia : fields.
#[export] Hint Rewrite RB_WB_disjoint using lia : fields.
#[export] Hint Rewrite Z.lor_0_r Z.lor_0_l : fields.

(** ** Page rounding for power-of-two pages *)

Lemma page_mask_testbit k i : 0 <= k < 64 -> 0 <= i ->
  Z.testbit (NVM_PAGE_MASK (2 ^ k)) i = bool_decide (k <= i < 64).
Proof.
  intros. unfold NVM_PAGE_MASK, u64. autorewrite with bits.
  replace (2 ^ k - 1) with (Z.ones k) by (rewrite Z.ones_equiv; lia).
  destruct (decide (i < k)).
  - rewrite Z.ones_spec_low by lia. repeat case_bool_decide; try lia; done.
  - rewrite Z.ones_spec_high by lia. repeat case_bool_decide; try lia; done.
Qed.

Lemma land_page_mask x k : 0 <= k < 64 -> x in_u 64 ->
  Z.land x (NVM_PAGE_MASK (2 ^ k)) = x / 2 ^ k * 2 ^ k.
Proof.
  intros Hk Hx.
  rewrite <- Z.shiftr_div_pow2, <- Z.shiftl_mul_pow2 by lia.
  rewrite <- (wrap_small 64 x Hx) at 1.
  bit_ext i. rewrite page_mask_testbit by lia.
  destruct (decide (i < k)).
  - rewrite (Z.testbit_neg_r _ (i - k)) by lia.
    rewrite (bool_decide_eq_false_2 (k <= i < 64)) by lia. by rewrite andb_false_r.
  - rewrite Z.shiftr_spec by lia. replace (i - k + k) with i by lia.
    destruct (decide (i < 64)).
    + rewrite !bool_decide_eq_true_2 by lia. by rewrite andb_true_r.
    + rewrite !bool_decide_eq_false_2 by lia. simpl. symmetry.
      rewrite <- (wrap_small 64 x Hx), wrap_testbit by lia.
      by rewrite bool_decide_eq_false_2 by lia.
Qed.

(** [NVM_PAGE_ALIGN] rounds up to the next multiple of the page size. *)
Lemma page_align_spec size k : 0 <= k < 64 -> 0 <= size -> size + 2 ^ k <= 2 ^ 64 ->
  NVM_PAGE_ALIGN size (2 ^ k) = (size + 2 ^ k - 1) / 2 ^ k * 2 ^ k.
Proof.
  intros Hk Hs Hb. unfold NVM_PAGE_ALIGN.
  assert (u64 (u64 (size + 2 ^ k) - 1) = size + 2 ^ k - 1) as ->.
  { pose proof (Z.pow_pos_nonneg 2 k). unfold u64, wrap.
    rewrite Zminus_mod_idemp_l. apply Z.mod_small. lia. }
  apply land_page_mask; [done|]. pose proof (Z.pow_pos_nonneg 2 k). lia.
Qed.

(** [size <= align size < size + page] and the result is a multiple of the page. *)
Lemma page_align_bounds size k : 0 <= k < 64 -> 0 <= size -> size + 2 ^ k <= 2 ^ 64 ->
  size <= NVM_PAGE_ALIGN size (2 ^ k) < size + 2 ^ k
  /\ NVM_PAGE_ALIGN size (2 ^ k) mod 2 ^ k = 0.
Proof.
  intros. rewrite page_align_spec by done.
  pose proof (Z.pow_pos_nonneg 2 k).
  pose proof (Z.div_mod (size + 2 ^ k - 1) (2 ^ k) ltac:(lia)).
  pose proof (Z.mod_pos_bound (size + 2 ^ k - 1) (2 ^ k) ltac:(lia)).
  split; [lia|]. apply Z.mod_mul. lia.
Qed.

(** ** The logarithm *)

Lemma b2log_loop_spec fuel count n :
  0 <= count -> count + Z.of_nat fuel < 2 ^ 32 -> 0 <= n < 2 ^ Z.of_nat fuel ->
  b2log_loop fuel count n = if n =? 0 then count else count + Z.log2 n + 1.
Proof.
  revert count n. induction fuel as [|fuel IH]; intros count n Hc Hb Hn; simpl b2log_loop.
  - assert (n = 0) as -> by (simpl in Hn; lia). done.
  - rewrite Z.gtb_ltb. destruct (Z.ltb_spec 0 n); zcases; try lia.
    rewrite (u32_small (count + 1)) by lia.
    assert (Z.shiftr n 1 = n / 2) as Hs by (by rewrite Z.shiftr_div_pow2).
    rewrite Hs. rewrite IH; try lia.
    + zcases.
      * assert (n = 1) as -> by (pose proof (Z.div_mod n 2); pose proof (Z.mod_pos_bound n 2); lia).
        simpl. lia.
      * assert (0 < n / 2) by (pose proof (Z.div_pos n 2); lia).
        rewrite <- Hs, Z.log2_shiftr by lia.
        assert (1 <= Z.log2 n). { apply Z.log2_le_pow2; [lia|]. pose proof (Z.div_mod n 2); pose proof (Z.mod_pos_bound n 2); lia. }
        lia.
    + split; [apply Z.div_pos; lia|]. apply Z.div_lt_upper_bound; [lia|].
      replace (2 * 2 ^ Z.of_nat fuel) with (2 ^ Z.of_nat (S fuel)); [lia|].
      rewrite Nat2Z.inj_succ, Z.pow_succ_r by lia. done.
Qed.

(** For a non-zero [uint32_t] the loop computes the floor of the logarithm; on
    zero the decrement wraps around. *)
Lemma b2log_spec n : 0 < n < 2 ^ 32 -> _nvm_b2log n = Z.log2 n.
Proof.
  intros Hn. unfold _nvm_b2log. rewrite b2log_loop_spec by (simpl; lia).
  zcases; [lia|].
  assert (0 <= Z.log2 n < 32) by (split; [apply Z.log2_nonneg|apply Z.log2_lt_pow2; lia]).
  rewrite u32_small by lia. lia.
Qed.

Lemma b2log_zero : _nvm_b2log 0 = 2 ^ 32 - 1.
Proof. reflexivity. Qed.

(** ** The delay loop's measure *)

Lemma delay_rest_spec ns : 0 <= ns < 2 ^ 64 -> delay_rest ns = Z.max 0 (ns - 1000000).
Proof.
  intros. unfold delay_rest, _MIN. zcases; rewrite u64_small by lia; lia.
Qed.

Lemma delay_slice_rest ns : 0 <= ns < 2 ^ 64 -> delay_slice ns + delay_rest ns = ns.
Proof. intros. rewrite delay_rest_spec by done. unfold delay_slice, _MIN. zcases; lia. Qed.
