(* ===== verification/Memory.v ===== *)
(** * Byte-addressed memory

    Memory shared by the host, the controller and remote nodes is a finite map
    from addresses to bytes. [ld n m a] and [st n m a v] are the little-endian
    [n]-byte accesses the C code makes through [uint16_t*], [uint32_t*] and
    [uint64_t*]; [memset] and [memcpy] are the C library's. *)
From S2P Require Import Prelude.

Abbreviation mem := (gmap Z Z).

Definition ld8 (m : mem) (a : Z) : Z := default 0 (m !! a) mod 256.

Fixpoint ld (n : nat) (m : mem) (a : Z) : Z :=
  match n with
  | O => 0
  | S n' => ld8 m a + 256 * ld n' m (a + 1)
  end.

Fixpoint st (n : nat) (m : mem) (a v : Z) : mem :=
  match n with
  | O => m
  | S n' => st n' (<[a := v mod 256]> m) (a + 1) (v / 256)
  end.

Fixpoint memset (m : mem) (a v : Z) (n : nat) : mem :=
  match n with
  | O => m
  | S n' => memset (<[a := v mod 256]> m) (a + 1) v n'
  end.

(** Source bytes are read from [src_m], the memory before the copy: source and
    destination do not overlap. *)
Fixpoint copy_from (src_m m : mem) (dst src : Z) (n : nat) : mem :=
  match n with
  | O => m
  | S n' => copy_from src_m (<[dst := ld8 src_m src]> m) (dst + 1) (src + 1) n'
  end.

Definition memcpy (m : mem) (dst src : Z) (n : nat) : mem := copy_from m m dst src n.

(** The [n] bytes at [a]. *)
Definition bytes_at (n : nat) (m : mem) (a : Z) : list Z :=
  (fun i => ld8 m (a + Z.of_nat i)) <$> seq 0 n.

(** Writing a byte string. *)
Fixpoint st_bytes (m : mem) (a : Z) (bs : list Z) : mem :=
  match bs with
  | [] => m
  | b :: bs' => st_bytes (<[a := b mod 256]> m) (a + 1) bs'
  end.

(** The [n] bytes of [x], least significant first. *)
Fixpoint le_bytes (n : nat) (x : Z) : list Z :=
  match n with O => [] | S n' => x mod 256 :: le_bytes n' (x / 256) end.

(** [dword[i]] of a command or completion at [p]. *)
Abbreviation ld_dword m p i := (ld 4 m (p + 4 * i)).
Abbreviation st_dword m p i v := (st 4 m (p + 4 * i) v).

(** ** Byte-level equations *)

Lemma ld8_bound m a : 0 <= ld8 m a < 256.
Proof. unfold ld8. apply Z.mod_pos_bound. lia. Qed.

Lemma ld_bound n m a : 0 <= ld n m a < 2 ^ (8 * Z.of_nat n).
Proof.
  revert a. induction n as [|n IH]; intros a; [simpl; lia|].
  simpl ld. specialize (IH (a + 1)). pose proof (ld8_bound m a).
  replace (2 ^ (8 * Z.of_nat (S n))) with (256 * 2 ^ (8 * Z.of_nat n)); [lia|].
  change 256 with (2 ^ 8). rewrite <- Z.pow_add_r by lia. f_equal. lia.
Qed.

Lemma ld8_insert m a b v : ld8 (<[a := v]> m) b = if decide (a = b) then v mod 256 else ld8 m b.
Proof. unfold ld8. rewrite lookup_insert. by case_decide. Qed.

Lemma ld8_st n m a v b :
  ld8 (st n m a v) b
  = if decide (a <= b < a + Z.of_nat n) then (v / 256 ^ (b - a)) mod 256 else ld8 m b.
Proof.
  revert m a v. induction n as [|n IH]; intros m a v; simpl st.
  - rewrite decide_False by lia. done.
  - rewrite IH. destruct (decide (a = b)) as [->|Hne].
    + rewrite decide_False by lia. rewrite decide_True by lia.
      rewrite ld8_insert, decide_True by done. rewrite Z.sub_diag, Z.pow_0_r, Z.div_1_r.
      by rewrite Z.mod_mod by lia.
    + destruct (decide (a + 1 <= b < a + 1 + Z.of_nat n)).
      * rewrite decide_True by lia.
        replace (b - a) with (1 + (b - (a + 1))) by lia.
        rewrite Z.pow_add_r, Z.pow_1_r by lia. rewrite Z.div_div by lia. done.
      * rewrite decide_False by lia. by rewrite ld8_insert, decide_False.
Qed.

Lemma ld8_memset n m a v b :
  ld8 (memset m a v n) b = if decide (a <= b < a + Z.of_nat n) then v mod 256 else ld8 m b.
Proof.
  revert m a. induction n as [|n IH]; intros m a; simpl memset.
  - by rewrite decide_False by lia.
  - rewrite IH, ld8_insert. repeat case_decide; try lia; try done. by rewrite Z.mod_mod by lia.
Qed.

Lemma ld8_copy_from n sm m d s b :
  ld8 (copy_from sm m d s n) b
  = if decide (d <= b < d + Z.of_nat n) then ld8 sm (s + (b - d)) else ld8 m b.
Proof.
  revert m d s. induction n as [|n IH]; intros m d s; simpl copy_from.
  - by rewrite decide_False by lia.
  - rewrite IH, ld8_insert. repeat case_decide; try lia; try done.
    + f_equal; lia.
    + subst. rewrite Z.sub_diag, Z.add_0_r. apply Z.mod_small, ld8_bound.
Qed.

Lemma ld8_st_bytes bs m a b :
  ld8 (st_bytes m a bs) b
  = if decide (a <= b < a + Z.of_nat (length bs))
    then default 0 (bs !! Z.to_nat (b - a)) mod 256 else ld8 m b.
Proof.
  revert m a. induction bs as [|x bs IH]; intros m a; simpl st_bytes; simpl length.
  - by rewrite decide_False by lia.
  - rewrite IH, ld8_insert.
    destruct (decide (a = b)) as [->|Hne].
    + rewrite decide_False by lia. rewrite decide_True by lia.
      rewrite Z.sub_diag. simpl. by rewrite Z.mod_mod by lia.
    + destruct (decide (a + 1 <= b < a + 1 + Z.of_nat (length bs))).
      * rewrite decide_True by lia.
        replace (Z.to_nat (b - a)) with (S (Z.to_nat (b - (a + 1)))) by lia. done.
      * by rewrite decide_False by lia.
Qed.

(** Two memories that agree on the bytes of an access agree on the access. *)
Lemma ld_ext n m m' a a' :
  (forall i, 0 <= i < Z.of_nat n -> ld8 m (a + i) = ld8 m' (a' + i)) -> ld n m a = ld n m' a'.
Proof.
  revert a a'. induction n as [|n IH]; intros a a' H; [done|]. simpl ld. f_equal.
  - specialize (H 0 ltac:(lia)). by rewrite !Z.add_0_r in H.
  - f_equal. apply IH. intros i Hi.
    rewrite <- !Z.add_assoc. apply H. lia.
Qed.

(** ** Whole-access equations *)

Lemma ld_st_same n m a v : ld n (st n m a v) a = v mod 2 ^ (8 * Z.of_nat n).
Proof.
  revert m a v. induction n as [|n IH]; intros m a v.
  - simpl. by rewrite Z.mod_1_r.
  - simpl ld. simpl st. rewrite IH, ld8_st, decide_False by lia.
    rewrite ld8_insert, decide_True, Z.mod_mod by (done || lia).
    replace (2 ^ (8 * Z.of_nat (S n))) with (256 * 2 ^ (8 * Z.of_nat n)).
    + rewrite Z.rem_mul_r by lia. done.
    + change 256 with (2 ^ 8). rewrite <- Z.pow_add_r by lia. f_equal. lia.
Qed.

Lemma ld_st_disjoint n k m a v b :
  b + Z.of_nat n <= a \/ a + Z.of_nat k <= b -> ld n (st k m a v) b = ld n m b.
Proof. intros. apply ld_ext. intros i Hi. rewrite ld8_st. by rewrite decide_False by lia. Qed.

Lemma ld_memset_disjoint n k m a v b :
  b + Z.of_nat n <= a \/ a + Z.of_nat k <= b -> ld n (memset m a v k) b = ld n m b.
Proof. intros. apply ld_ext. intros i Hi. rewrite ld8_memset. by rewrite decide_False by lia. Qed.

Lemma ld_zero n m a : (forall i, 0 <= i < Z.of_nat n -> ld8 m (a + i) = 0) -> ld n m a = 0.
Proof.
  revert a. induction n as [|n IH]; intros a H; [done|]. simpl ld.
  rewrite <- (Z.add_0_r a) at 1. rewrite H by lia. rewrite IH; [done|].
  intros i Hi. rewrite <- Z.add_assoc. apply H. lia.
Qed.

Lemma ld_memset_zero n k m a b :
  a <= b -> b + Z.of_nat n <= a + Z.of_nat k -> ld n (memset m a 0 k) b = 0.
Proof.
  intros. apply ld_zero. intros i Hi. rewrite ld8_memset.
  by rewrite decide_True by lia.
Qed.

Lemma lookup_memset n m a v b :
  memset m a v n !! b = if decide (a <= b < a + Z.of_nat n) then Some (v mod 256) else m !! b.
Proof.
  revert m a. induction n as [|n IH]; intros m a; simpl memset.
  - by rewrite decide_False by lia.
  - rewrite IH, lookup_insert. repeat case_decide; try lia; done.
Qed.

(** Clearing two areas that do not overlap, in either order. *)
Lemma memset_comm n k m a b v u : a + Z.of_nat n <= b \/ b + Z.of_nat k <= a ->
  memset (memset m a v n) b u k = memset (memset m b u k) a v n.
Proof.
  intros. apply map_eq. intros x. rewrite !lookup_memset. repeat case_decide; try lia; done.
Qed.

Lemma ld_memcpy n k m d s b :
  d <= b -> b + Z.of_nat n <= d + Z.of_nat k -> ld n (memcpy m d s k) b = ld n m (s + (b - d)).
Proof.
  intros. apply ld_ext. intros i Hi. unfold memcpy. rewrite ld8_copy_from.
  rewrite decide_True by lia. f_equal. lia.
Qed.

Lemma ld_memcpy_disjoint n k m d s b :
  b + Z.of_nat n <= d \/ d + Z.of_nat k <= b -> ld n (memcpy m d s k) b = ld n m b.
Proof.
  intros. apply ld_ext. intros i Hi. unfold memcpy. rewrite ld8_copy_from.
  by rewrite decide_False by lia.
Qed.

(** Reading the upper half of a 32-bit word through a 16-bit pointer. *)
Lemma ld_split k n m a :
  ld (k + n) m a = ld k m a + 256 ^ Z.of_nat k * ld n m (a + Z.of_nat k).
Proof.
  revert a. induction k as [|k IH]; intros a.
  - simpl. rewrite Z.add_0_r. lia.
  - change (S k + n)%nat with (S (k + n)). simpl ld. rewrite IH.
    replace (a + 1 + Z.of_nat k) with (a + Z.of_nat (S k)) by lia.
    rewrite Nat2Z.inj_succ, Z.pow_succ_r by lia. lia.
Qed.

Lemma length_bytes_at n m a : length (bytes_at n m a) = n.
Proof. unfold bytes_at. by rewrite length_fmap, length_seq. Qed.

Lemma bytes_at_lookup n m a i :
  (i < n)%nat -> bytes_at n m a !! i = Some (ld8 m (a + Z.of_nat i)).
Proof.
  intros. unfold bytes_at. rewrite list_lookup_fmap.
  rewrite lookup_seq_lt by done. done.
Qed.

Lemma ld8_st_bytes_at n m m' s d b :
  ld8 (st_bytes m' d (bytes_at n m s)) b
  = if decide (d <= b < d + Z.of_nat n) then ld8 m (s + (b - d)) else ld8 m' b.
Proof.
  rewrite ld8_st_bytes, length_bytes_at. case_decide; [|done].
  rewrite bytes_at_lookup by lia. simpl. rewrite Z2Nat.id by lia.
  apply Z.mod_small, ld8_bound.
Qed.

(** [ld] and [st] decide their own overlaps: one tactic reads through any
    sequence of stores whose offsets [lia] can separate. *)
Create Rewrite HintDb memory.
#[export] Hint Rewrite ld_st_disjoint using (simpl Z.of_nat; lia) : memory.
#[export] Hint Rewrite ld_memset_disjoint using (simpl Z.of_nat; lia) : memory.
#[export] Hint Rewrite ld_memcpy_disjoint using (simpl Z.of_nat; lia) : memory.
#[export] Hint Rewrite ld_memset_zero using (simpl Z.of_nat; lia) : memory.
#[export] Hint Rewrite ld_st_same : memory.

Ltac mem_simp := autorewrite with memory.

#[global] Arguments ld : simpl never.
#[global] Arguments st : simpl never.
#[global] Arguments memset : simpl never.
#[global] Arguments memcpy : simpl never.

(** ** Byte strings *)

Lemma length_le_bytes n x : length (le_bytes n x) = n.
Proof. revert x. induction n; intros; simpl; auto. Qed.

Lemma ld_st_le_bytes n m a x tl : ld n (st_bytes m a (le_bytes n x ++ tl)) a = x mod 2 ^ (8 * Z.of_nat n).
Proof.
  revert m a x. induction n as [|n IH]; intros m a x.
  - simpl. by rewrite Z.mod_1_r.
  - cbn [le_bytes app st_bytes].
    match goal with |- ld (S n) ?m ?a = _ => change (ld (S n) m a) with (ld8 m a + 256 * ld n m (a + 1)) end.
    rewrite IH.
    rewrite ld8_st_bytes, decide_False by lia. rewrite ld8_insert, decide_True by done.
    rewrite !Z.mod_mod by lia.
    replace (2 ^ (8 * Z.of_nat (S n))) with (256 * 2 ^ (8 * Z.of_nat n)).
    + rewrite Z.rem_mul_r by lia. done.
    + change 256 with (2 ^ 8). rewrite <- Z.pow_add_r by lia. f_equal. lia.
Qed.

Lemma st_bytes_app m a l k : st_bytes m a (l ++ k) = st_bytes (st_bytes m a l) (a + Z.of_nat (length l)) k.
Proof.
  revert m a. induction l as [|x l IH]; intros m a; cbn [app st_bytes length].
  - by rewrite Z.add_0_r.
  - rewrite IH. f_equal. lia.
Qed.

Lemma ld_st_bytes_before n m a l b : b + Z.of_nat n <= a -> ld n (st_bytes m a l) b = ld n m b.
Proof. intros. apply ld_ext. intros i Hi. rewrite ld8_st_bytes. by rewrite decide_False by lia. Qed.

(** Reading a number from a byte string. *)
Definition u64_at (bytes : list Z) (i : nat) : Z :=
  foldr (fun b acc => b + 256 * acc) 0 (take 8 (drop i bytes)).

Lemma drop_bytes_at i n m a : (i <= n)%nat -> drop i (bytes_at n m a) = bytes_at (n - i) m (a + Z.of_nat i).
Proof.
  intros Hi. apply list_eq. intros j. rewrite lookup_drop. destruct (decide (i + j < n)%nat).
  - rewrite !bytes_at_lookup by lia. do 2 f_equal. lia.
  - rewrite !lookup_ge_None_2; [done|rewrite length_bytes_at; lia..].
Qed.

Lemma take_bytes_at k n m a : (k <= n)%nat -> take k (bytes_at n m a) = bytes_at k m a.
Proof.
  intros Hk. apply list_eq. intros j. destruct (decide (j < k)%nat).
  - rewrite lookup_take_lt by done. by rewrite !bytes_at_lookup by lia.
  - rewrite !lookup_ge_None_2; [done|rewrite length_bytes_at; lia|rewrite length_take; lia].
Qed.

Lemma foldr_bytes_at n m a : foldr (fun b acc => b + 256 * acc) 0 (bytes_at n m a) = ld n m a.
Proof.
  revert a. induction n as [|n IH]; intros a; [done|]. unfold bytes_at. rewrite <- cons_seq, fmap_cons. cbn [foldr].
  change (ld (S n) m a) with (ld8 m a + 256 * ld n m (a + 1)). rewrite Z.add_0_r, <- IH. unfold bytes_at. rewrite <- fmap_S_seq, <- list_fmap_compose. do 3 f_equal.
  apply list_fmap_ext. intros _ i _. unfold compose. f_equal. lia.
Qed.

Lemma u64_at_bytes n m a i : (i + 8 <= n)%nat -> u64_at (bytes_at n m a) i = ld 8 m (a + Z.of_nat i).
Proof.
  intros Hi. unfold u64_at. rewrite drop_bytes_at, take_bytes_at by lia. apply foldr_bytes_at.
Qed.

(** An array of 64-bit numbers. *)
Lemma ld_st_u64s m a xs j x : xs !! j = Some x ->
  ld 8 (st_bytes m a (concat (le_bytes 8 <$> xs))) (a + 8 * Z.of_nat j) = u64 x.
Proof.
  revert m a j. induction xs as [|y xs IH]; intros m a j Hj; [done|]. rewrite fmap_cons. cbn [concat]. destruct j as [|j].
  - injection Hj as ->. rewrite Z.add_0_r. apply ld_st_le_bytes.
  - rewrite st_bytes_app, length_le_bytes. replace (a + 8 * Z.of_nat (S j)) with (a + Z.of_nat 8 + 8 * Z.of_nat j) by lia. by apply IH.
Qed.

Lemma length_u64s xs : length (concat (le_bytes 8 <$> xs)) = (8 * length xs)%nat.
Proof. induction xs as [|x xs IH]; [done|]. rewrite fmap_cons. cbn [concat length]. rewrite length_app, length_le_bytes, IH. lia. Qed.
