(* ===== verification/Effects.v ===== *)
(** * A monad for C code that calls into its environment

    Library calls, system calls, register accesses and SISCI calls are not
    code of the repository: the model is parametric in an environment [env]
    that answers every call as a function of the whole history so far, and that
    may change memory while it does (the controller and remote hosts write to
    mapped memory). Everything a program does to the outside world is recorded
    in a log. A computation either returns, faults (undefined behaviour), or
    runs out of the loop bound [e_fuel]; [wp] demands that it returns. *)
From S2P Require Import Prelude Memory.

Inductive fault :=
  | NullDeref
  | BadPointer        (** a freed or never allocated object is accessed *)
  | DoubleFree
  | DivByZero
  | BadShift          (** a shift amount is not below the width of the shifted type *)
  | Uninitialised.    (** an indeterminate value is used *)

Section effects.
Context {call resp state : Type}.

Record world := World {
  w_mem : mem;
  w_st : state;
  w_log : list (call * resp);      (** newest first *)
}.

Record env := Env {
  e_resp : world -> call -> resp * mem;
  e_fuel : nat;
}.

Inductive result (A : Type) :=
  | Ok (a : A) (w : world)
  | Fault (f : fault) (w : world)
  | OutOfFuel (w : world).
#[global] Arguments Ok {A}.
#[global] Arguments Fault {A}.
#[global] Arguments OutOfFuel {A}.

Definition M (A : Type) := env -> world -> result A.

#[global] Instance M_ret : MRet M := fun A a _ w => Ok a w.
#[global] Instance M_bind : MBind M := fun A B f m e w =>
  match m e w with
  | Ok a w' => f a e w'
  | Fault x w' => Fault x w'
  | OutOfFuel w' => OutOfFuel w'
  end.
#[global] Instance M_fmap : FMap M := fun A B f m => m ≫= (fun a => mret (f a)).

Definition fail {A} (f : fault) : M A := fun _ w => Fault f w.
Definition out_of_fuel {A} : M A := fun _ w => OutOfFuel w.

Definition get_st : M state := fun _ w => Ok (w_st w) w.
Definition put_st (s : state) : M unit := fun _ w => Ok tt (World (w_mem w) s (w_log w)).
Definition get_mem : M mem := fun _ w => Ok (w_mem w) w.
Definition put_mem (m : mem) : M unit := fun _ w => Ok tt (World m (w_st w) (w_log w)).
Definition get_fuel : M nat := fun e w => Ok (e_fuel e) w.

(** The world after the environment answered [c]. *)
Definition after (e : env) (w : world) (c : call) : world :=
  World (snd (e_resp e w c)) (w_st w) ((c, fst (e_resp e w c)) :: w_log w).

Definition ext (c : call) : M resp := fun e w => Ok (fst (e_resp e w c)) (after e w c).

Definition run {A} (m : M A) (e : env) (w : world) : result A := m e w.

(** ** Weakest preconditions (total: a fault or a missing result satisfies nothing) *)

Definition wp {A} (e : env) (m : M A) (w : world) (Q : A -> world -> Prop) : Prop :=
  match m e w with Ok a w' => Q a w' | _ => False end.

Section rules.
Context (e : env).

Lemma wp_ret {A} (a : A) w Q : Q a w -> wp e (mret a) w Q.
Proof. done. Qed.

Lemma wp_bind {A B} (m : M A) (f : A -> M B) w Q :
  wp e m w (fun a w' => wp e (f a) w' Q) -> wp e (m ≫= f) w Q.
Proof. unfold wp, mbind, M_bind. by destruct (m e w). Qed.

Lemma wp_bind_inv {A B} (m : M A) (f : A -> M B) w Q :
  wp e (m ≫= f) w Q -> wp e m w (fun a w' => wp e (f a) w' Q).
Proof. unfold wp, mbind, M_bind. by destruct (m e w). Qed.

Lemma wp_fmap {A B} (f : A -> B) (m : M A) w Q :
  wp e m w (fun a w' => Q (f a) w') -> wp e (f <$> m) w Q.
Proof. unfold wp, fmap, M_fmap, mbind, M_bind. by destruct (m e w). Qed.

Lemma wp_mono {A} (m : M A) w (Q Q' : A -> world -> Prop) :
  wp e m w Q -> (forall a w', Q a w' -> Q' a w') -> wp e m w Q'.
Proof. unfold wp. destruct (m e w); auto. Qed.

Lemma wp_conj {A} (m : M A) w (Q Q' : A -> world -> Prop) :
  wp e m w Q -> wp e m w Q' -> wp e m w (fun a w' => Q a w' /\ Q' a w').
Proof. unfold wp. destruct (m e w); auto. Qed.

Lemma wp_ext c w Q : Q (fst (e_resp e w c)) (after e w c) -> wp e (ext c) w Q.
Proof. done. Qed.

Lemma wp_get_st w Q : Q (w_st w) w -> wp e get_st w Q.
Proof. done. Qed.
Lemma wp_put_st s w Q : Q tt (World (w_mem w) s (w_log w)) -> wp e (put_st s) w Q.
Proof. done. Qed.
Lemma wp_get_mem w Q : Q (w_mem w) w -> wp e get_mem w Q.
Proof. done. Qed.
Lemma wp_put_mem m w Q : Q tt (World m (w_st w) (w_log w)) -> wp e (put_mem m) w Q.
Proof. done. Qed.
Lemma wp_get_fuel w Q : Q (e_fuel e) w -> wp e get_fuel w Q.
Proof. done. Qed.

(** A proved [wp] names the result of running the computation. *)
Lemma wp_run {A} (m : M A) w Q :
  wp e m w Q -> exists a w', run m e w = Ok a w' /\ Q a w'.
Proof. unfold wp, run. destruct (m e w); naive_solver. Qed.

(** [m] ends in the fault [f]. *)
Definition faults {A} (m : M A) (w : world) (f : fault) : Prop :=
  match m e w with Fault f' _ => f' = f | _ => False end.

Lemma faults_fail {A} w f : faults (fail f : M A) w f.
Proof. done. Qed.

Lemma faults_bind {A B} (m : M A) (k : A -> M B) w f :
  wp e m w (fun a w' => faults (k a) w' f) -> faults (m ≫= k) w f.
Proof. unfold faults, wp, mbind, M_bind. by destruct (m e w). Qed.

Lemma faults_now {A B} (m : M A) (k : A -> M B) w f : faults m w f -> faults (m ≫= k) w f.
Proof. unfold faults, mbind, M_bind. by destruct (m e w). Qed.

End rules.

(** ** The call log *)

(** Number of consecutive occurrences of [c] at the end of the history. *)
Fixpoint trailing `{EqDecision call} (c : call) (l : list (call * resp)) : nat :=
  match l with
  | (c', _) :: l' => if decide (c' = c) then S (trailing c l') else O
  | [] => O
  end.

(** The calls made since [w], oldest first. *)
Definition calls_since (w w' : world) : list (call * resp) :=
  rev (take (length (w_log w') - length (w_log w)) (w_log w')).

Definition extends (w w' : world) : Prop := exists l, w_log w' = l ++ w_log w.

#[global] Instance extends_refl : Reflexive extends.
Proof. intros w. by exists []. Qed.
#[global] Instance extends_trans : Transitive extends.
Proof. intros w1 w2 w3 [l1 E1] [l2 E2]. exists (l2 ++ l1). by rewrite E2, E1, app_assoc. Qed.

Lemma extends_after e w c : extends w (after e w c).
Proof. by exists [(c, fst (e_resp e w c))]. Qed.

Lemma calls_since_spec w w' l : w_log w' = rev l ++ w_log w -> calls_since w w' = l.
Proof.
  intros E. unfold calls_since. rewrite E, length_app.
  rewrite Nat.add_sub, take_app_length. apply rev_involutive.
Qed.

End effects.

#[global] Arguments world : clear implicits.
#[global] Arguments env : clear implicits.
#[global] Arguments result : clear implicits.
#[global] Arguments M : clear implicits.

(** ** Ledgers: what a history has acquired and not given back *)

(** A ledger counts, per key, acquisitions minus releases. *)
Class Ledger (call resp key : Type) := delta : call -> resp -> key -> Z.

Section ledger.
Context {call resp state key : Type} `{Ledger call resp key}.

Fixpoint balance (l : list (call * resp)) (κ : key) : Z :=
  match l with
  | [] => 0
  | (c, r) :: l' => balance l' κ + delta c r κ
  end.

Definition bal (w : world call resp state) (κ : key) : Z := balance (w_log w) κ.

Lemma bal_after e w c κ :
  bal (after e w c) κ = bal w κ + delta c (fst (e_resp e w c)) κ.
Proof. done. Qed.

Lemma bal_app l l' κ : balance (l ++ l') κ = balance l κ + balance l' κ.
Proof. induction l as [|[c r] l IH]; simpl; lia. Qed.

End ledger.

(** One unit of key [κ]. *)
Definition one {key} `{EqDecision key} (κ κ' : key) : Z := if decide (κ = κ') then 1 else 0.

#[global] Arguments one : simpl never.
#[global] Arguments bal : simpl never.

(** Symbolic execution: peel one monadic step of a [wp] goal. *)
Ltac wp_step :=
  lazymatch goal with
  | |- wp _ (_ ≫= _) _ _ => apply wp_bind
  | |- wp _ (mret _) _ _ => apply wp_ret
  | |- wp _ (ext _) _ _ => apply wp_ext
  | |- wp _ (_ <$> _) _ _ => apply wp_fmap
  | |- wp _ get_st _ _ => apply wp_get_st
  | |- wp _ (put_st _) _ _ => apply wp_put_st
  | |- wp _ get_mem _ _ => apply wp_get_mem
  | |- wp _ (put_mem _) _ _ => apply wp_put_mem
  | |- wp _ get_fuel _ _ => apply wp_get_fuel
  | |- wp _ (match ?x with _ => _ end) _ _ => let E := fresh "E" in destruct x eqn:E
  end.

(** Apply the specification of a called function and continue from its result. *)
Ltac wp_call spec := eapply wp_mono; [eapply spec | simpl; intros].
