(* ===== verification/Types.v ===== *)
(** * Data of the userspace library

    The structures of [include/nvm_types.h] and of the internal headers, the
    heap they live in, and the calls the library makes to its environment. A
    pointer to a structure is the address of its heap object; a handle embedded
    in a container ([container->handle]) is identified with its container,
    which is what [container(ptr)] computes with [offsetof]. *)
From Stdlib Require Import Ascii.
From S2P Require Import Prelude Memory Effects.

(** ** Build configuration: [NDEBUG] and [_CUDA] *)

Class Build := { NDEBUG : bool; CUDA : bool }.

(** ** [include/nvm_types.h] *)

Record nvm_ctrl_t := Ctrl {
  ctrl_page_size : Z;
  ctrl_dstrd : Z;
  ctrl_timeout : Z;
  ctrl_max_entries : Z;
  ctrl_mm_size : Z;
  ctrl_mm_ptr : Z;
}.

Record nvm_dma_t := Dma {
  dma_vaddr : Z;
  dma_page_size : Z;
  dma_n_ioaddrs : Z;
  dma_ioaddrs : list Z;
}.

Record nvm_queue_t := Queue {
  q_no : Z;
  q_max_entries : Z;
  q_entry_size : Z;
  q_head : Z;
  q_tail : Z;
  q_phase : Z;
  q_last : Z;
  q_db : Z;
  q_vaddr : Z;
  q_ioaddr : Z;
}.

Definition set_head (h : Z) (q : nvm_queue_t) : nvm_queue_t :=
  Queue (q_no q) (q_max_entries q) (q_entry_size q) h (q_tail q) (q_phase q)
    (q_last q) (q_db q) (q_vaddr q) (q_ioaddr q).
Definition set_tail (t : Z) (q : nvm_queue_t) : nvm_queue_t :=
  Queue (q_no q) (q_max_entries q) (q_entry_size q) (q_head q) t (q_phase q)
    (q_last q) (q_db q) (q_vaddr q) (q_ioaddr q).
Definition set_phase (p : Z) (q : nvm_queue_t) : nvm_queue_t :=
  Queue (q_no q) (q_max_entries q) (q_entry_size q) (q_head q) (q_tail q) p
    (q_last q) (q_db q) (q_vaddr q) (q_ioaddr q).
Definition set_last (l : Z) (q : nvm_queue_t) : nvm_queue_t :=
  Queue (q_no q) (q_max_entries q) (q_entry_size q) (q_head q) (q_tail q) (q_phase q)
    l (q_db q) (q_vaddr q) (q_ioaddr q).

(** [sizeof(nvm_cpl_t)] and [sizeof(nvm_cmd_t)]. *)
Definition sizeof_cpl : Z := 16.
Definition sizeof_cmd : Z := 64.

Record nvm_ctrl_info := CtrlInfo {
  ci_nvme_version : Z; ci_page_size : Z; ci_db_stride : Z; ci_timeout : Z;
  ci_contiguous : Z; ci_max_entries : Z;
  ci_pci_vendor : list Z; ci_serial_no : list Z; ci_model_no : list Z; ci_firmware : list Z;
  ci_max_data_size : Z; ci_max_data_pages : Z; ci_cq_entry_size : Z; ci_sq_entry_size : Z;
  ci_max_out_cmds : Z; ci_max_n_ns : Z;
}.

Record nvm_ns_info := NsInfo {
  ns_ns_id : Z; ns_size : Z; ns_capacity : Z; ns_utilization : Z;
  ns_lba_data_size : Z; ns_metadata_size : Z;
}.

(** ** SISCI handles and descriptors ([src/dis/*.h]) *)

Record device := Device { dev_sd : Z; dev_device_id : Z; dev_device : Z }.

Inductive sci_flag :=
  | SCI_FLAG_BAR | SCI_FLAG_SHARED | SCI_FLAG_PRIVATE | SCI_FLAG_EMPTY
  | SCI_FLAG_CUDA_BUFFER | SCI_FLAG_READONLY_MAP | SCI_FLAG_IO_MAP_IOSPACE
  | SCI_FLAG_USE_CALLBACK.

Record device_memory := DeviceMemory {
  dm_device : device; dm_adapter : Z; dm_segment_no : Z; dm_segment : Z;
  dm_flags : list sci_flag;
}.

Inductive va_map_type := VA_MAP_NOT_MAPPED | VA_MAP_MAPPED_LOCAL | VA_MAP_MAPPED_REMOTE.
Record va_map := VaMap { va_type : va_map_type; va_md : Z; va_vaddr : Z }.

Inductive io_map_type := IO_MAP_NOT_MAPPED | IO_MAP_MAPPED_REMOTE | IO_MAP_MAPPED_LOCAL.
Record io_map := IoMap {
  io_type : io_map_type; io_lsegment : Z; io_rsegment : Z; io_device : Z;
  io_adapter : Z; io_ioaddr : Z;
}.

Record local_memory := LocalMemory {
  lm_sd : Z; lm_segment : Z; lm_id : Z; lm_size : Z; lm_flags : list sci_flag;
}.

(** The [adapter] field is [None] while it is indeterminate. *)
Inductive intr_callback := CB_handle_remote_command.
Record local_intr := LocalIntr {
  li_sd : Z; li_intr : Z; li_adapter : option Z; li_intr_no : Z; li_node_id : Z;
  li_data : Z; li_callback : option intr_callback;
}.
Record remote_intr := RemoteIntr { ri_sd : Z; ri_intr : Z }.

(** ** Internal containers *)

Inductive device_type := DEVICE_TYPE_UNKNOWN | DEVICE_TYPE_SYSFS | DEVICE_TYPE_SMARTIO.
Record controller := Controller {
  ct_type : device_type; ct_ref : Z; ct_fd : Z; ct_handle : nvm_ctrl_t;
}.
Record memory_reference := MemoryReference { mr_bar : device_memory; mr_map : va_map }.

Record dma_map := DmaMap { dm_vaddr : Z; dm_page_size : Z; dm_n_pages : Z }.

(** The functions stored as [dma_map_free_t] callbacks. *)
Inductive dma_map_free_t :=
  | REL_free | REL_remove_mapping | REL_remove_map_descriptor
  | REL_remove_local_segment | REL_disconnect_remote_segment.

Record dma := DmaContainer {
  d_map : Z; d_release : option dma_map_free_t; d_handle : nvm_dma_t;
}.

Inductive map_type := MAP_TYPE_HOST | MAP_TYPE_CUDA.
Record ioctl_mapping := IoctlMapping {
  im_mapping : dma_map; im_type : map_type; im_ioctl_fd : Z; im_mapped : bool;
}.

Record map_descriptor := MapDescriptor {
  md_dma_mapping : dma_map; md_device : device; md_va_mapping : va_map;
  md_io_mapping : io_map; md_segment : Z;
}.

Record local_admin := LocalAdmin { la_acq : nvm_queue_t; la_asq : nvm_queue_t; la_timeout : Z }.

(** The functions stored as [rpc_deleter_t] and [rpc_stub_t] callbacks. *)
Inductive rpc_deleter_t := DEL_remove_admin | DEL_remove_binding_handle | DEL_remove_binding.
Inductive rpc_stub_t := STUB_execute_command | STUB_remote_command.

Record rpc_handle := RpcHandle {
  rh_next : Z; rh_key : Z; rh_data : Z; rh_release : option rpc_deleter_t;
}.

(** [n_handles] is [None] while it is indeterminate. *)
Record nvm_admin_reference := AdminReference {
  ar_ctrl : Z; ar_n_handles : option Z; ar_handles : Z; ar_data : Z;
  ar_release : option rpc_deleter_t; ar_stub : option rpc_stub_t;
}.

(** A user filter callback ([nvm_dis_rpc_cb_t]) is known by its address. *)
Record binding_handle := BindingHandle {
  bh_dmem : device_memory; bh_rpc_ref : Z; bh_rpc_cb : Z; bh_intr : local_intr;
}.
Record binding := Binding { b_dmem : device_memory; b_lintr : local_intr; b_rintr : remote_intr }.

(** ** Descriptors of the integrity program ([examples/integrity/integrity.h]) *)

Record mem_buffer := MemBuffer { mb_id : Z; mb_adapter : Z; mb_dma : Z }.
Record queue_desc := QueueDesc { qd_qmem : mem_buffer; qd_queue : nvm_queue_t; qd_counter : Z }.

(** ** The heap *)

Inductive obj :=
  | OController (x : controller) | OMemRef (x : memory_reference) | ODma (x : dma)
  | ODmaMap (x : dma_map) | OIoctl (x : ioctl_mapping) | OMapDesc (x : map_descriptor)
  | OLocalMem (x : local_memory) | ODevMem (x : device_memory) | OLocalAdmin (x : local_admin)
  | ORpcHandle (x : rpc_handle) | OAqRef (x : nvm_admin_reference)
  | OBindingHandle (x : binding_handle) | OBinding (x : binding) | OBuffer (x : list Z)
  | OQueues (x : list queue_desc).

Record heap := Heap { h_objs : gmap Z obj; h_next : Z }.

(** A structure type is a constructor of [obj]. *)
Class Struct (A : Type) := { to_obj : A -> obj; of_obj : obj -> option A;
                             of_to_obj : forall a, of_obj (to_obj a) = Some a }.

#[export] Instance struct_controller : Struct controller :=
  {| to_obj := OController; of_obj o := if o is OController x then Some x else None; of_to_obj _ := eq_refl |}.
#[export] Instance struct_memref : Struct memory_reference :=
  {| to_obj := OMemRef; of_obj o := if o is OMemRef x then Some x else None; of_to_obj _ := eq_refl |}.
#[export] Instance struct_dma : Struct dma :=
  {| to_obj := ODma; of_obj o := if o is ODma x then Some x else None; of_to_obj _ := eq_refl |}.
#[export] Instance struct_dma_map : Struct dma_map :=
  {| to_obj := ODmaMap; of_obj o := if o is ODmaMap x then Some x else None; of_to_obj _ := eq_refl |}.
#[export] Instance struct_ioctl : Struct ioctl_mapping :=
  {| to_obj := OIoctl; of_obj o := if o is OIoctl x then Some x else None; of_to_obj _ := eq_refl |}.
#[export] Instance struct_mapdesc : Struct map_descriptor :=
  {| to_obj := OMapDesc; of_obj o := if o is OMapDesc x then Some x else None; of_to_obj _ := eq_refl |}.
#[export] Instance struct_localmem : Struct local_memory :=
  {| to_obj := OLocalMem; of_obj o := if o is OLocalMem x then Some x else None; of_to_obj _ := eq_refl |}.
#[export] Instance struct_devmem : Struct device_memory :=
  {| to_obj := ODevMem; of_obj o := if o is ODevMem x then Some x else None; of_to_obj _ := eq_refl |}.
#[export] Instance struct_localadmin : Struct local_admin :=
  {| to_obj := OLocalAdmin; of_obj o := if o is OLocalAdmin x then Some x else None; of_to_obj _ := eq_refl |}.
#[export] Instance struct_rpchandle : Struct rpc_handle :=
  {| to_obj := ORpcHandle; of_obj o := if o is ORpcHandle x then Some x else None; of_to_obj _ := eq_refl |}.
#[export] Instance struct_aqref : Struct nvm_admin_reference :=
  {| to_obj := OAqRef; of_obj o := if o is OAqRef x then Some x else None; of_to_obj _ := eq_refl |}.
#[export] Instance struct_bindinghandle : Struct binding_handle :=
  {| to_obj := OBindingHandle; of_obj o := if o is OBindingHandle x then Some x else None; of_to_obj _ := eq_refl |}.
#[export] Instance struct_binding : Struct binding :=
  {| to_obj := OBinding; of_obj o := if o is OBinding x then Some x else None; of_to_obj _ := eq_refl |}.
#[export] Instance struct_buffer : Struct (list Z) :=
  {| to_obj := OBuffer; of_obj o := if o is OBuffer x then Some x else None; of_to_obj _ := eq_refl |}.
#[export] Instance struct_queues : Struct (list queue_desc) :=
  {| to_obj := OQueues; of_obj o := if o is OQueues x then Some x else None; of_to_obj _ := eq_refl |}.

(** ** Calls to the environment *)

Inductive sci_error :=
  | SCI_ERR_OK | SCI_ERR_BUSY | SCI_ERR_TIMEOUT | SCI_ERR_OUT_OF_RANGE
  | SCI_ERR_SIZE_ALIGNMENT | SCI_ERR_OFFSET_ALIGNMENT | SCI_ERR_NOT_CONNECTED
  | SCI_ERR_ILLEGAL_OPERATION | SCI_ERR_SEGMENT_NOT_PREPARED | SCI_ERR_SEGMENTID_USED
  | SCI_ERR_OTHER (code : Z).

(** [enum nvm_ioctl_type] of [src/ioctl.h]. *)
Inductive nvm_ioctl_type := NVM_MAP_HOST_MEMORY | NVM_MAP_DEVICE_MEMORY | NVM_UNMAP_MEMORY.

#[export] Instance sci_error_eq : EqDecision sci_error.
Proof. solve_decision. Defined.
#[export] Instance sci_flag_eq : EqDecision sci_flag.
Proof. solve_decision. Defined.
#[export] Instance nvm_ioctl_type_eq : EqDecision nvm_ioctl_type.
Proof. solve_decision. Defined.

Inductive ctype :=
  | T_controller | T_memory_reference | T_dma | T_dma_map | T_ioctl_mapping | T_map_descriptor
  | T_local_memory | T_device_memory | T_local_admin | T_rpc_handle | T_admin_reference
  | T_binding_handle | T_binding | T_ioaddrs | T_queues.
#[export] Instance ctype_eq : EqDecision ctype.
Proof. solve_decision. Defined.
#[export] Instance ascii_eq : EqDecision ascii := ascii_dec.

Inductive call :=
  (* libc and system calls *)
  | Malloc (t : ctype) (extra : Z)
  | Sysconf_pagesize
  | Clock_nanosleep (ns : Z)
  | Dup (fd : Z) | Close (fd : Z) | Fcntl_setfd (fd : Z)
  | Mmap (len fd : Z) | Munmap (p len : Z)
  | Ioctl_map (fd : Z) (ty : nvm_ioctl_type) (vaddr n_pages : Z)
  | Ioctl_unmap (fd : Z) (vaddr : Z)
  | Mutex_init (p : Z) | Mutex_lock (p : Z) | Mutex_unlock (p : Z) | Mutex_destroy (p : Z)
  (* device registers *)
  | Mmio_read (bits addr : Z) | Mmio_write (bits addr v : Z)
  (* SISCI *)
  | SCIOpen | SCIClose (sd : Z)
  | SCIBorrowDevice (sd dev_id : Z) | SCIReturnDevice (dev : Z)
  | SCIConnectDeviceMemory (sd adapter dev segno : Z) (flags : list sci_flag)
  | SCIDisconnectSegment (seg : Z)
  | SCIGetRemoteSegmentSize (seg : Z)
  | SCICreateSegment (sd id size : Z) (flags : list sci_flag)
  | SCIRemoveSegment (seg : Z)
  | SCIAttachPhysicalMemory (ptr size seg : Z) (flags : list sci_flag)
  | SCIPrepareSegment (seg adapter : Z)
  | SCISetSegmentAvailable (seg adapter : Z)
  | SCIMapLocalSegment (seg size : Z)
  | SCIMapRemoteSegment (seg size : Z) (flags : list sci_flag)
  | SCIUnmapSegment (md : Z)
  | SCIMapLocalSegmentForDevice (seg adapter dev : Z)
  | SCIMapRemoteSegmentForDevice (seg dev : Z)
  | SCIUnmapLocalSegmentForDevice (seg adapter dev : Z)
  | SCIUnmapRemoteSegmentForDevice (seg dev : Z)
  | SCIGetLocalNodeId (adapter : Z)
  | SCICreateDataInterrupt (sd adapter : Z) (callback : bool) (data : Z) (flags : list sci_flag)
  | SCIRemoveDataInterrupt (intr : Z)
  | SCIWaitForDataInterrupt (intr maxlen timeout : Z)
  | SCIConnectDataInterrupt (sd node adapter no : Z)
  | SCIDisconnectDataInterrupt (intr : Z)
  | SCITriggerDataInterrupt (intr : Z) (data : list Z)
  (* user callbacks *)
  | Rpc_filter (cb cmd adapter node : Z)
  (* calls of the programs only *)
  | Posix_memalign (align size : Z) | Free_mem (p : Z)
  | Mlock (p len : Z) | Munlock (p len : Z)
  | Open (path : list ascii)
  | Fopen (path mode : list ascii) | Fclose (fp : Z) | Fseek_set (fp off : Z)
  | Fseek_end (fp : Z) | Ftell (fp : Z) | Rewind (fp : Z)
  | Fread (fp size n : Z) | Fwrite (fp : Z) (data : list Z)
  | Time | Gettimeofday | Srand (seed : Z) | Rand | Signal (signo : Z) | Cond_wait
  | SCIInitialize | SCITerminate
  | SCISetSegmentUnavailable (seg adapter : Z).

#[export] Instance call_eq : EqDecision call.
Proof. solve_decision. Defined.

Record resp := Resp {
  r_val : Z;            (** return value, or the handle written through a pointer *)
  r_val2 : Z;           (** second value written through a pointer *)
  r_errno : Z;
  r_sci : sci_error;
  r_list : list Z;      (** array contents written through a pointer *)
}.

Abbreviation uworld := (world call resp heap).
Abbreviation uenv := (env call resp heap).
Abbreviation UM := (M call resp heap).

(** ** Resources *)

Inductive key :=
  | KSd (sd : Z) | KDevice (dev : Z) | KRemoteSegment (seg : Z) | KLocalSegment (seg : Z)
  | KVaMap (md : Z) | KIoLocal (seg adapter dev : Z) | KIoRemote (seg dev : Z)
  | KLocalIntr (i : Z) | KRemoteIntr (i : Z)
  | KFd (fd : Z) | KMmap (p : Z) | KPinned (fd vaddr : Z) | KLock (p : Z)
  | KMem (p : Z) | KMlock (p : Z) | KFile (fp : Z) | KSci.

#[export] Instance key_eq : EqDecision key.
Proof. solve_decision. Defined.

(** Keys as numbers: a constructor and up to three arguments. *)
Definition encode_key (κ : key) : Z * (Z * Z * Z) :=
  match κ with
  | KSd a => (0, (a, 0, 0)) | KDevice a => (1, (a, 0, 0)) | KRemoteSegment a => (2, (a, 0, 0))
  | KLocalSegment a => (3, (a, 0, 0)) | KVaMap a => (4, (a, 0, 0)) | KIoLocal a b c => (5, (a, b, c))
  | KIoRemote a b => (6, (a, b, 0)) | KLocalIntr a => (7, (a, 0, 0)) | KRemoteIntr a => (8, (a, 0, 0))
  | KFd a => (9, (a, 0, 0)) | KMmap a => (10, (a, 0, 0)) | KPinned a b => (11, (a, b, 0))
  | KLock a => (12, (a, 0, 0)) | KMem a => (13, (a, 0, 0)) | KMlock a => (14, (a, 0, 0))
  | KFile a => (15, (a, 0, 0)) | KSci => (16, (0, 0, 0))
  end.

#[export] Instance key_countable : Countable key := inj_countable' encode_key
  (fun '(n, (a, b, c)) =>
     match n with
     | 0 => KSd a | 1 => KDevice a | 2 => KRemoteSegment a | 3 => KLocalSegment a | 4 => KVaMap a
     | 5 => KIoLocal a b c | 6 => KIoRemote a b | 7 => KLocalIntr a | 8 => KRemoteIntr a | 9 => KFd a
     | 10 => KMmap a | 11 => KPinned a b | 12 => KLock a | 13 => KMem a | 14 => KMlock a | 15 => KFile a
     | _ => KSci
     end) ltac:(by intros []).

(** [mmap]'s failure value. *)
Definition MAP_FAILED : Z := -1.

Definition is_ok (s : sci_error) : bool := bool_decide (s = SCI_ERR_OK).
Definition is_busy (s : sci_error) : bool := bool_decide (s = SCI_ERR_BUSY).

(** A successful acquisition counts one unit of the handle it returned; a
    release counts when it is no longer [SCI_ERR_BUSY]. *)
#[export] Instance udelta : Ledger call resp key := fun c r κ =>
  let acquire (b : bool) k := if b then one k κ else 0 in
  let release (b : bool) k := if b then - one k κ else 0 in
  let ok := is_ok (r_sci r) in
  let fin := negb (is_busy (r_sci r)) in
  match c with
  | Dup _ | Open _ => acquire (0 <=? r_val r) (KFd (r_val r))
  | Close fd => release true (KFd fd)
  | Mmap _ _ => acquire (negb (r_val r =? MAP_FAILED)) (KMmap (r_val r))
  | Munmap p _ => release true (KMmap p)
  | Ioctl_map fd _ v _ => acquire (0 <=? r_val r) (KPinned fd v)
  | Ioctl_unmap fd v => release true (KPinned fd v)
  | Mutex_lock p => acquire (r_val r =? 0) (KLock p)
  | Mutex_unlock p => release true (KLock p)
  | SCIOpen => acquire ok (KSd (r_val r))
  | SCIClose sd => release true (KSd sd)
  | SCIBorrowDevice _ _ => acquire ok (KDevice (r_val r))
  | SCIReturnDevice d => release true (KDevice d)
  | SCIConnectDeviceMemory _ _ _ _ _ => acquire ok (KRemoteSegment (r_val r))
  | SCIDisconnectSegment s => release fin (KRemoteSegment s)
  | SCICreateSegment _ _ _ _ => acquire ok (KLocalSegment (r_val r))
  | SCIRemoveSegment s => release fin (KLocalSegment s)
  | SCIMapLocalSegment _ _ => acquire ok (KVaMap (r_val2 r))
  | SCIMapRemoteSegment _ _ _ => acquire ok (KVaMap (r_val2 r))
  | SCIUnmapSegment m => release fin (KVaMap m)
  | SCIMapLocalSegmentForDevice s a d => acquire ok (KIoLocal s a d)
  | SCIUnmapLocalSegmentForDevice s a d => release fin (KIoLocal s a d)
  | SCIMapRemoteSegmentForDevice s d => acquire ok (KIoRemote s d)
  | SCIUnmapRemoteSegmentForDevice s d => release fin (KIoRemote s d)
  | SCICreateDataInterrupt _ _ _ _ _ => acquire ok (KLocalIntr (r_val r))
  | SCIRemoveDataInterrupt i => release fin (KLocalIntr i)
  | SCIConnectDataInterrupt _ _ _ _ => acquire ok (KRemoteIntr (r_val r))
  | SCIDisconnectDataInterrupt i => release true (KRemoteIntr i)
  | Posix_memalign _ _ => acquire (r_val r =? 0) (KMem (r_val2 r))
  | Free_mem p => release true (KMem p)
  | Mlock p _ => acquire (r_val r =? 0) (KMlock p)
  | Munlock p _ => release true (KMlock p)
  | Fopen _ _ => acquire (negb (r_val r =? 0)) (KFile (r_val r))
  | Fclose fp => release true (KFile fp)
  | SCIInitialize => acquire ok KSci
  | SCITerminate => release true KSci
  | _ => 0
  end.
