(* ===== verification/Runtime.v ===== *)
(** * Heap, retry loops and ledgers of the userspace library

    [malloc]/[free] and structure accesses on the heap of [Types], the
    [do ... while (err == SCI_ERR_BUSY)] idiom every SISCI release uses, the
    millisecond sleep of [_nvm_delay_remain], and their proof rules. *)
From S2P Require Import Prelude Bits Memory Effects Types.

(** ** Operations *)

Definition malloc {A} `{Struct A} (t : ctype) (extra : Z) (a : A) : UM Z :=
  r ← ext (Malloc t extra);
  if r_val r =? 0 then mret NULL
  else h ← get_st;
       put_st (Heap (<[h_next h := to_obj a]> (h_objs h)) (h_next h + 1));;
       mret (h_next h).

Definition load {A} `{Struct A} (p : Z) : UM A :=
  if p =? NULL then fail NullDeref
  else h ← get_st;
       match h_objs h !! p ≫= of_obj with
       | Some a => mret a
       | None => fail BadPointer
       end.

Definition store {A} `{Struct A} (p : Z) (a : A) : UM unit :=
  if p =? NULL then fail NullDeref
  else h ← get_st;
       match (h_objs h !! p ≫= of_obj : option A) with
       | Some _ => put_st (Heap (<[p := to_obj a]> (h_objs h)) (h_next h))
       | None => fail BadPointer
       end.

Definition free (p : Z) : UM unit :=
  if p =? NULL then mret tt
  else h ← get_st;
       match h_objs h !! p with
       | Some _ => put_st (Heap (delete p (h_objs h)) (h_next h))
       | None => fail DoubleFree
       end.

(** [do { c; } while (err == SCI_ERR_BUSY);] *)
Fixpoint do_while_busy (fuel : nat) (c : call) : UM sci_error :=
  match fuel with
  | O => out_of_fuel
  | S fuel' =>
      r ← ext c;
      if is_busy (r_sci r) then do_while_busy fuel' c else mret (r_sci r)
  end.

Definition retry (c : call) : UM sci_error := n ← get_fuel; do_while_busy n c.

(** [_nvm_delay_remain] of [src/util.h]. *)
Definition _nvm_delay_remain (remaining_nanoseconds : Z) : UM Z :=
  if remaining_nanoseconds =? 0 then mret 0
  else ext (Clock_nanosleep (delay_slice remaining_nanoseconds));;
       mret (delay_rest remaining_nanoseconds).

(** [_nvm_host_page_size] of [src/util.h]. *)
Definition _nvm_host_page_size `{Build} : UM Z :=
  r ← ext Sysconf_pagesize;
  if negb NDEBUG && (r_val r <? 0) then mret 0 else mret (u64 (r_val r)).

(** [NVM_PTR_OFFSET] and [NVM_DMA_OFFSET] of [nvm_util.h]. *)
Definition NVM_PTR_OFFSET (ptr page_size pageno : Z) : Z := ptr + u64 (page_size * pageno).
Definition NVM_DMA_OFFSET (d : nvm_dma_t) (pageno : Z) : Z :=
  NVM_PTR_OFFSET (dma_vaddr d) (dma_page_size d) pageno.

Definition ld_mem (n : nat) (a : Z) : UM Z := m ← get_mem; mret (ld n m a).
Definition upd_mem (f : mem -> mem) : UM unit := m ← get_mem; put_mem (f m).

(** ** Well-formed heaps *)

(** Addresses below [h_next] have been handed out, address 0 never is. *)
Definition heap_ok (w : uworld) : Prop :=
  0 < h_next (w_st w)
  /\ forall p o, h_objs (w_st w) !! p = Some o -> 0 < p < h_next (w_st w).

Abbreviation objs w := (h_objs (w_st w)).

Lemma heap_ok_fresh w : heap_ok w -> objs w !! h_next (w_st w) = None.
Proof.
  intros [_ H]. destruct (objs w !! h_next (w_st w)) eqn:E; [|done].
  apply H in E. lia.
Qed.

Lemma heap_ok_nonnull w : heap_ok w -> forall p o, objs w !! p = Some o -> p <> NULL.
Proof. intros [_ H] p o Hp ->. apply H in Hp. unfold NULL in Hp. lia. Qed.

Lemma heap_ok_st w w' : w_st w' = w_st w -> heap_ok w -> heap_ok w'.
Proof. unfold heap_ok. by intros ->. Qed.

(** ** Ledger updates *)

(** [w'] is [w] after acquiring [L]; heap and heap frontier are those of [st]. *)
Definition moved (w w' : uworld) (L : key -> Z) : Prop :=
  forall κ, bal w' κ = bal w κ + L κ.

Lemma moved_refl w : moved w w (fun _ => 0).
Proof. intros κ. lia. Qed.

Lemma moved_trans w1 w2 w3 L1 L2 :
  moved w1 w2 L1 -> moved w2 w3 L2 -> moved w1 w3 (fun κ => L1 κ + L2 κ).
Proof. intros H1 H2 κ. specialize (H1 κ). specialize (H2 κ). lia. Qed.

Lemma moved_ext w w' L L' : moved w w' L -> (forall κ, L κ = L' κ) -> moved w w' L'.
Proof. intros H E κ. rewrite <- E. apply H. Qed.

(** [r] is the environment's answer to [c] in [w]. *)
Definition answers (e : uenv) (w : uworld) (c : call) (r : resp) : Prop := r = fst (e_resp e w c).

(** ** Rules *)

Section rules.
Context (e : uenv).

Lemma wp_malloc {A} `{Struct A} t extra (a : A) w (Q : Z -> uworld -> Prop) :
  heap_ok w ->
  (forall r w', answers e w (Malloc t extra) r -> r_val r = 0 ->
     w_st w' = w_st w -> moved w w' (fun _ => 0) -> Q NULL w') ->
  (forall w', h_objs (w_st w') = <[h_next (w_st w) := to_obj a]> (objs w) ->
              objs w !! h_next (w_st w) = None ->
              h_next (w_st w') = h_next (w_st w) + 1 -> heap_ok w' ->
              moved w w' (fun _ => 0) -> Q (h_next (w_st w)) w') ->
  wp e (malloc t extra a) w Q.
Proof.
  intros Hok H0 H1. unfold malloc.
  assert (forall κ, balance ((Malloc t extra, fst (e_resp e w (Malloc t extra))) :: w_log w) κ
                    = bal w κ + 0) as Hm by done.
  repeat wp_step.
  - eapply H0; [reflexivity|by apply Z.eqb_eq|done|exact Hm].
  - apply H1; simpl; [done| |done| |exact Hm].
    + by apply heap_ok_fresh.
    + destruct Hok as [Hp Hd]. split; simpl; [lia|]. intros p o. simpl.
      rewrite lookup_insert. case_decide; intros E'; [lia|]. apply Hd in E'. lia.
Qed.

Lemma wp_load {A} `{Struct A} p (a : A) w (Q : A -> uworld -> Prop) :
  heap_ok w -> objs w !! p = Some (to_obj a) -> Q a w -> wp e (load p) w Q.
Proof.
  intros [_ Hok] Hp HQ. unfold load. pose proof (Hok _ _ Hp).
  unfold NULL. destruct (Z.eqb_spec p 0); [lia|].
  repeat wp_step; rewrite Hp in *; simpl in *; rewrite of_to_obj in *; congruence.
Qed.

Lemma wp_store {A} `{Struct A} p (a b : A) w (Q : unit -> uworld -> Prop) :
  heap_ok w -> objs w !! p = Some (to_obj b) ->
  (forall w', h_objs (w_st w') = <[p := to_obj a]> (objs w) ->
              h_next (w_st w') = h_next (w_st w) -> w_mem w' = w_mem w ->
              w_log w' = w_log w -> heap_ok w' -> moved w w' (fun _ => 0) -> Q tt w') ->
  wp e (store p a) w Q.
Proof.
  intros [Hn Hok] Hp HQ. unfold store. pose proof (Hok _ _ Hp).
  unfold NULL. destruct (Z.eqb_spec p 0); [lia|].
  repeat wp_step; rewrite Hp in *; simpl in *; rewrite of_to_obj in *; [|congruence].
  apply HQ; simpl; try done; [|intros κ; unfold bal; simpl; lia]. split; simpl; [done|].
  intros q o. rewrite lookup_insert. case_decide; intros; [lia|]. by eapply Hok.
Qed.

Lemma wp_free p o w (Q : unit -> uworld -> Prop) :
  heap_ok w -> objs w !! p = Some o ->
  (forall w', h_objs (w_st w') = delete p (objs w) ->
              h_next (w_st w') = h_next (w_st w) -> heap_ok w' ->
              moved w w' (fun _ => 0) -> Q tt w') ->
  wp e (free p) w Q.
Proof.
  intros [Hn Hok] Hp HQ. unfold free. pose proof (Hok _ _ Hp).
  unfold NULL. destruct (Z.eqb_spec p 0); [lia|].
  repeat wp_step; [|congruence]. apply HQ; simpl; try done.
  - split; simpl; [done|]. intros q o'. rewrite lookup_delete. case_decide; [done|]. by apply Hok.
  - intros κ. unfold bal. simpl. lia.
Qed.

(** Loading an object that is not there. *)
Lemma load_dangling {A} `{Struct A} p w :
  p <> NULL -> objs w !! p = None -> faults e (load (A:=A) p) w BadPointer.
Proof.
  intros Hp Hn. unfold load. rewrite (proj2 (Z.eqb_neq p NULL)) by done.
  apply faults_bind, wp_get_st. by rewrite Hn.
Qed.

(** The environment answers [SCI_ERR_BUSY] to a release only while it is
    transiently busy: at most [k] times in a row, with [k] below the loop bound. *)
Definition busy_bounded : Prop :=
  exists k, (k < e_fuel e)%nat
  /\ forall w c, (k <= trailing c (w_log w))%nat -> r_sci (fst (e_resp e w c)) <> SCI_ERR_BUSY.

(** [c] moves [L] unless it is answered [SCI_ERR_BUSY]; it releases [κ0] if that is
    one unit of [κ0] given back. *)
Definition settles (c : call) (L : key -> Z) : Prop :=
  forall r κ, delta c r κ = if negb (is_busy (r_sci r)) then L κ else 0.

Definition releases (c : call) (κ0 : key) : Prop := settles c (fun κ => - one κ0 κ).

Lemma wp_do_while_busy k c L n w (Q : sci_error -> uworld -> Prop) :
  (forall w c, (k <= trailing c (w_log w))%nat -> r_sci (fst (e_resp e w c)) <> SCI_ERR_BUSY) ->
  settles c L -> (0 < n)%nat -> (k < n + trailing c (w_log w))%nat ->
  (forall r w', w_st w' = w_st w -> moved w w' L -> r <> SCI_ERR_BUSY -> Q r w') ->
  wp e (do_while_busy n c) w Q.
Proof.
  intros Hb Hr. revert w. induction n as [|n IH]; intros w Hn Hk HQ; [lia|].
  simpl do_while_busy. repeat wp_step.
  - assert (trailing c (w_log w) < k)%nat as Hlt.
    { apply bool_decide_eq_true in E. destruct (decide (k <= trailing c (w_log w))%nat) as [Hge|]; [|lia].
      by destruct (Hb w c Hge). }
    apply IH; [lia| |].
    + simpl. rewrite decide_True by done. lia.
    + intros r w' Hst Hm Hne. apply HQ; [by rewrite Hst| |done].
      intros κ. rewrite (Hm κ), bal_after, (Hr _ κ), E. simpl. lia.
  - apply HQ; [done| |by apply bool_decide_eq_false in E].
    intros κ. rewrite bal_after, (Hr _ κ), E. done.
Qed.

Lemma wp_retry c L w (Q : sci_error -> uworld -> Prop) :
  busy_bounded -> settles c L ->
  (forall r w', w_st w' = w_st w -> moved w w' L -> r <> SCI_ERR_BUSY -> Q r w') ->
  wp e (retry c) w Q.
Proof.
  intros (k & Hk & Hb) Hr HQ. unfold retry. repeat wp_step.
  eapply wp_do_while_busy; eauto; lia.
Qed.

End rules.

(** ** Contracts

    What the resource-managing operations promise each other. [acquires e m L]:
    [m] returns a status and a descriptor; on status 0 it has acquired exactly
    [L descriptor], on any other status nothing. [gives_back e m L]: [m] has
    released exactly [L]. Neither touches the heap, and both return. *)

Definition acquires {A} (e : uenv) (m : UM (Z * A)) (L : A -> key -> Z) : Prop :=
  forall w, wp e m w (fun r w' => w_st w' = w_st w
    /\ (fst r = 0 -> moved w w' (L (snd r)))
    /\ (fst r <> 0 -> moved w w' (fun _ => 0))).

Definition gives_back {A} (e : uenv) (m : UM A) (L : key -> Z) : Prop :=
  forall w, wp e m w (fun _ w' => w_st w' = w_st w /\ moved w w' (fun κ => - L κ)).

Lemma retry_gives_back e c κ0 :
  busy_bounded e -> releases c κ0 -> gives_back e (retry c) (one κ0).
Proof. intros Hb Hr w. eapply wp_retry; eauto. Qed.

Lemma retry_moves_nothing e c :
  busy_bounded e -> settles c (fun _ => 0) -> gives_back e (retry c) (fun _ => 0).
Proof. intros Hb Hr w. eapply wp_retry; eauto. Qed.

(** Dereferencing a pointer argument modelled as an option. *)
Definition deref {A} (p : option A) : UM A :=
  match p with Some a => mret a | None => fail NullDeref end.

Lemma wp_ext_moved e c w (Q : resp -> uworld -> Prop) :
  (forall r w', answers e w c r -> w_st w' = w_st w -> moved w w' (delta c r) -> Q r w') ->
  wp e (ext c) w Q.
Proof. intros H. apply wp_ext, H; [done|done|]. intros κ. by rewrite bal_after. Qed.

Lemma wp_acquires {A} e (m : UM (Z * A)) L w (Q : Z * A -> uworld -> Prop) :
  acquires e m L ->
  (forall s d w', w_st w' = w_st w ->
     (s = 0 -> moved w w' (L d)) -> (s <> 0 -> moved w w' (fun _ => 0)) -> Q (s, d) w') ->
  wp e m w Q.
Proof.
  intros Ha HQ. eapply wp_mono; [apply Ha|]. intros [s d] w' (? & ? & ?). by apply HQ.
Qed.

Lemma wp_gives_back {A} e (m : UM A) L w (Q : A -> uworld -> Prop) :
  gives_back e m L ->
  (forall a w', w_st w' = w_st w -> moved w w' (fun κ => - L κ) -> Q a w') -> wp e m w Q.
Proof. intros Hg HQ. eapply wp_mono; [apply Hg|]. intros a w' [? ?]. by apply HQ. Qed.

(** The operations with a contract, for automatic use. *)
Create HintDb contracts discriminated.
#[export] Hint Resolve retry_gives_back : contracts.

(** Solve [releases] side conditions by computing the ledger. *)
Ltac solve_releases := intros [] ?; reflexivity.
#[export] Hint Extern 1 (releases _ _) => solve_releases : contracts.

(** Turn the tests decided along the current path into equations and use them. *)
Ltac path_simp :=
  repeat match goal with
  | H : negb _ = true |- _ => apply negb_true_iff in H
  | H : negb _ = false |- _ => apply negb_false_iff in H
  | H : (_ =? _) = true |- _ => apply Z.eqb_eq in H
  | H : (_ =? _) = false |- _ => apply Z.eqb_neq in H
  | H : r_sci ?r = _, H' : context [r_sci ?r] |- _ => rewrite H in H'
  | H : is_ok SCI_ERR_OK = false |- _ => discriminate H
  | H : is_ok (r_sci ?r) = _, H' : context [is_ok (r_sci ?r)] |- _ => rewrite H in H'
  | H : is_ok _ = ?b |- context [is_ok _] => rewrite H
  | H : ?x = 0, H' : ?x = 0 -> _ |- _ => specialize (H' H)
  | H : ?x <> 0, H' : ?x <> 0 -> _ |- _ => specialize (H' H)
  end.

(** Split on the tests left in the hypotheses. *)
Ltac split_tests :=
  repeat match goal with
  | H : context [if ?b then _ else _] |- _ => let E := fresh "E" in destruct b eqn:E
  end.

(** Establish [moved] by adding up what each step of the path moved. *)
Ltac clear_heap :=
  repeat match goal with
  | H : h_objs _ = _ |- _ => clear H
  | H : w_st _ = _ |- _ => clear H
  | H : _ !! _ = _ |- _ => clear H
  | H : heap_ok _ |- _ => clear H
  | H : answers _ _ _ _ |- _ => clear H
  end.

Ltac solve_moved :=
  let κ := fresh "κ" in
  intros κ; clear_heap; path_simp;
  repeat match goal with
  | H : moved _ _ _ |- _ => specialize (H κ)
  | H : forall k : key, _ = _ |- _ => specialize (H κ)
  end;
  unfold delta, udelta in *; path_simp; simpl in *;
  first [ lia | split_tests; path_simp; zbool; simpl in *; first [ lia | exfalso; tauto | congruence ] ].

(** One step of a ledger proof: environment calls and operations with a
    contract become their effect on heap and ledger. *)
Ltac led_step :=
  lazymatch goal with
  | |- wp _ (ext ?c) _ _ =>
      apply wp_ext_moved; let r := fresh "r" in let w := fresh "w" in
      let Ha := fresh "Hans" in
      let Hst := fresh "Hst" in let Hmv := fresh "Hmv" in intros r w Ha Hst Hmv
  | |- wp _ (_ ≫= _) _ _ => apply wp_bind
  | |- wp _ (mret _) _ _ => apply wp_ret
  | |- wp _ (_ <$> _) _ _ => apply wp_fmap
  | |- wp _ (deref (Some _)) _ _ => apply wp_ret
  | |- wp _ (match ?x with _ => _ end) _ _ => let E := fresh "E" in destruct x eqn:E;
      try discriminate E
  | |- wp _ (let '(_, _) := ?x in _) _ _ => destruct x
  | |- wp _ _ _ _ =>
      first
      [ eapply wp_acquires; [solve [eauto with contracts]|];
        let s := fresh "s" in let d := fresh "d" in let w := fresh "w" in
        let Hst := fresh "Hst" in let H0 := fresh "Hok" in let H1 := fresh "Herr" in
        intros s d w Hst H0 H1
      | eapply wp_gives_back; [solve [eauto with contracts]|];
        let a := fresh "a" in let w := fresh "w" in
        let Hst := fresh "Hst" in let Hmv := fresh "Hmv" in
        intros a w Hst Hmv ]
  end; cbn beta iota.

(** Finish one path of an [acquires] or [gives_back] proof. *)
Ltac solve_contract :=
  cbn [fst snd]; split; [congruence|];
  first [ split; intros ?; first [ done | congruence | solve_moved ] | solve_moved ].

Ltac contract := intros ?w; repeat led_step; solve_contract.

(** ** Heap steps

    [track] propagates [heap_ok] along the path; [solve_lookup] reads the heap
    through the updates made so far. *)

Ltac track :=
  repeat match goal with
  | H : heap_ok ?w, E : w_st ?w' = w_st ?w |- _ =>
      lazymatch goal with
      | _ : heap_ok w' |- _ => fail
      | _ => pose proof (heap_ok_st w w' E H)
      end
  end.

Ltac heap_rewrite :=
  repeat match goal with
  | E : w_st ?w = _ |- context [w_st ?w] => rewrite E
  | E : h_objs (w_st ?w) = _ |- context [h_objs (w_st ?w)] => rewrite E
  | E : h_next (w_st ?w) = _ |- context [h_next (w_st ?w)] => rewrite E
  end.

Ltac solve_lookup := heap_rewrite; simplify_map_eq; try reflexivity; eauto.

(** A pointer [malloc] returned is not NULL. *)
Lemma heap_ok_next w : heap_ok w -> h_next (w_st w) <> NULL.
Proof. intros [? _]. unfold NULL. lia. Qed.

(** Refute a path on which NULL is not NULL, a fresh allocation is NULL, or a
    status is tested against what is known of it. *)
Ltac refute_path :=
  match goal with
  | E : (NULL =? NULL) = false |- _ => discriminate E
  | E : negb (?x =? 0) = false, H : ?x <> 0 |- _ =>
      exfalso; apply H, Z.eqb_eq, negb_false_iff, E
  | E : negb (?x =? 0) = true, H : ?x = 0 |- _ => rewrite H in E; discriminate E
  | E : (h_next (w_st ?w) =? NULL) = true |- _ =>
      apply Z.eqb_eq in E; exfalso; revert E; apply heap_ok_next; assumption
  | E : h_next (w_st ?w) = NULL |- _ => exfalso; revert E; apply heap_ok_next; assumption
  end.

(** Trace the freshness of addresses back to the heap the path started from, and
    record that they differ from the addresses in use. *)
Ltac norm_fresh :=
  repeat match goal with
  | Hf : h_objs (w_st ?w) !! _ = None, E : h_objs (w_st ?w) = _ |- _ => rewrite E in Hf
  | Hf : h_objs (w_st ?w) !! _ = None, E : w_st ?w = _ |- _ => rewrite E in Hf
  | Hf : <[_ := _]> _ !! _ = None |- _ => apply lookup_insert_None in Hf as [Hf ?]
  | Hf : h_objs (w_st ?w) !! ?h = None, H : h_objs (w_st ?w) !! ?p = Some _ |- _ =>
      lazymatch goal with
      | _ : p <> h |- _ => fail
      | _ => assert (p <> h) by congruence
      end
  end.

(** Compute the fields of the structures named in [H]. *)
Ltac proj_simp H :=
  cbn [
    to_obj struct_controller struct_memref struct_dma struct_dma_map struct_ioctl
    struct_mapdesc struct_localmem struct_devmem struct_localadmin struct_rpchandle
    struct_aqref struct_bindinghandle struct_binding struct_buffer ctrl_page_size
    ctrl_dstrd ctrl_timeout ctrl_max_entries ctrl_mm_size ctrl_mm_ptr dma_vaddr
    dma_page_size dma_n_ioaddrs dma_ioaddrs q_no q_max_entries q_entry_size q_head q_tail
    q_phase q_last q_db q_vaddr q_ioaddr dev_sd dev_device_id dev_device dm_device
    dm_adapter dm_segment_no dm_segment dm_flags va_type va_md va_vaddr io_type
    io_lsegment io_rsegment io_device io_adapter io_ioaddr lm_sd lm_segment lm_id lm_size
    lm_flags li_sd li_intr li_adapter li_intr_no li_node_id li_data li_callback ri_sd
    ri_intr ct_type ct_ref ct_fd ct_handle mr_bar mr_map dm_vaddr dm_page_size dm_n_pages
    d_map d_release d_handle im_mapping im_type im_ioctl_fd im_mapped md_dma_mapping
    md_device md_va_mapping md_io_mapping md_segment la_acq la_asq la_timeout rh_next
    rh_key rh_data rh_release ar_ctrl ar_n_handles ar_handles ar_data ar_release ar_stub
    bh_dmem bh_rpc_ref bh_rpc_cb bh_intr b_dmem b_lintr b_rintr ] in H.

Ltac heap_step :=
  track;
  lazymatch goal with
  | |- wp _ (malloc _ _ _) _ _ =>
      apply wp_malloc; [assumption|
        let r := fresh "r" in let w := fresh "w" in let Ha := fresh "Hans" in
        let Hnull := fresh "Hnull" in let Hst := fresh "Hst" in let Hmv := fresh "Hmv" in
        intros r w Ha Hnull Hst Hmv|
        let w := fresh "w" in let Ho := fresh "Ho" in let Hf := fresh "Hfresh" in
        let Hn := fresh "Hn" in let Hk := fresh "Hk" in let Hmv := fresh "Hmv" in
        intros w Ho Hf Hn Hk Hmv; proj_simp Ho]
  | |- wp _ (load _) _ _ => eapply wp_load; [assumption|solve [solve_lookup]|]
  | |- wp _ (store _ _) _ _ =>
      eapply wp_store; [assumption|solve [solve_lookup]|];
      let w := fresh "w" in let Ho := fresh "Ho" in let Hn := fresh "Hn" in
      let Hm := fresh "Hm" in let Hl := fresh "Hl" in let Hk := fresh "Hk" in
      let Hmv := fresh "Hmv" in
      intros w Ho Hn Hm Hl Hk Hmv; proj_simp Ho; clear Hm Hl
  | |- wp _ (free _) _ _ =>
      eapply wp_free; [assumption|solve [solve_lookup]|];
      let w := fresh "w" in let Ho := fresh "Ho" in let Hn := fresh "Hn" in
      let Hk := fresh "Hk" in let Hmv := fresh "Hmv" in
      intros w Ho Hn Hk Hmv
  | |- _ => led_step
  end; cbn beta iota; try refute_path.

(** ** Leaving no trace

    [clean w w']: since [w], nothing was allocated and not freed, and nothing
    acquired and not given back. *)
Definition clean (w w' : uworld) : Prop :=
  heap_ok w' /\ objs w' = objs w /\ moved w w' (fun _ => 0).

(** Equality of heaps after a sequence of allocations, stores and frees. *)
Ltac solve_objs :=
  repeat match goal with
  | H : moved _ _ _ |- _ => clear H
  | H : heap_ok _ |- _ => clear H
  | H : answers _ _ _ _ |- _ => clear H
  end;
  heap_rewrite;
  first
  [ reflexivity
  | apply map_eq; let i := fresh "i" in intros i;
    repeat first [rewrite lookup_insert | rewrite lookup_delete];
    repeat case_decide; subst; first [reflexivity | congruence | solve [auto]]
  | congruence ].

Ltac solve_clean := split; [track; assumption|split; [solve_objs|solve_moved]].

(** ** Concrete environments

    An environment that answers by the call alone, and the empty world; the
    witnesses run the operations in these. *)
Definition const_env (f : call -> resp) (fuel : nat) : uenv :=
  Env (fun w c => (f c, w_mem w)) fuel.

Definition resp_ok (v : Z) : resp := Resp v 0 0 SCI_ERR_OK [].

Definition empty_world : uworld := World empty (Heap empty 1) [].

Lemma empty_heap_ok : heap_ok empty_world.
Proof. split; [done|]. intros p o. simpl. by rewrite lookup_empty. Qed.

Lemma const_env_busy f n : (0 < n)%nat -> (forall c, r_sci (f c) <> SCI_ERR_BUSY) ->
  busy_bounded (const_env f n).
Proof. intros Hn Hf. exists 0%nat. split; [done|]. intros. apply Hf. Qed.
