(* ===== verification/Command.v ===== *)
(** * NVMe commands

    [include/nvm_cmd.h]: the command header and data pointer setters, PRP lists,
    and the opcode enumerations; the field accessors of [include/nvm_util.h];
    and the admin command builders [_nvm_admin_*] of [src/admin.c]. A command is
    64 bytes of memory at an address [cmd], read and written by dwords. *)
From S2P Require Import Prelude Bits Memory Effects Types.

(** ** Opcodes *)

Definition NVM_CMD_NS_ALL : Z := 0xffffffff.

Inductive nvm_io_command_set :=
  NVM_IO_FLUSH | NVM_IO_WRITE | NVM_IO_READ | NVM_IO_WRITE_ZEROES.

Definition opcode (group func dir : Z) : Z :=
  Z.lor (Z.lor (Z.shiftl group 7) (Z.shiftl func 2)) dir.

Definition io_opcode (c : nvm_io_command_set) : Z :=
  match c with
  | NVM_IO_FLUSH => opcode 0x00 0x00 0x00
  | NVM_IO_WRITE => opcode 0x00 0x00 0x01
  | NVM_IO_READ => opcode 0x00 0x00 0x02
  | NVM_IO_WRITE_ZEROES => opcode 0x00 0x02 0x00
  end.

Inductive nvm_admin_command_set :=
  | NVM_ADMIN_DELETE_SUBMISSION_QUEUE | NVM_ADMIN_CREATE_SUBMISSION_QUEUE
  | NVM_ADMIN_DELETE_COMPLETION_QUEUE | NVM_ADMIN_CREATE_COMPLETION_QUEUE
  | NVM_ADMIN_IDENTIFY | NVM_ADMIN_ABORT | NVM_ADMIN_SET_FEATURES | NVM_ADMIN_GET_FEATURES.

Definition admin_opcode (c : nvm_admin_command_set) : Z :=
  match c with
  | NVM_ADMIN_DELETE_SUBMISSION_QUEUE => opcode 0x00 0x00 0x00
  | NVM_ADMIN_CREATE_SUBMISSION_QUEUE => opcode 0x00 0x00 0x01
  | NVM_ADMIN_DELETE_COMPLETION_QUEUE => opcode 0x00 0x01 0x00
  | NVM_ADMIN_CREATE_COMPLETION_QUEUE => opcode 0x00 0x01 0x01
  | NVM_ADMIN_IDENTIFY => opcode 0x00 0x01 0x02
  | NVM_ADMIN_ABORT => opcode 0x00 0x02 0x00
  | NVM_ADMIN_SET_FEATURES => opcode 0x00 0x02 0x01
  | NVM_ADMIN_GET_FEATURES => opcode 0x00 0x02 0x02
  end.

(** ** Fields of commands and completions ([_REG] offsets) *)

Definition NVM_CMD_CID (p : Z) : Z := p + 2.
Definition NVM_CPL_CID (p : Z) : Z := p + 12.
Definition NVM_CPL_SQHD (p : Z) : Z := p + 8.
Definition NVM_CPL_SQID (p : Z) : Z := p + 10.
Definition NVM_CPL_STATUS (p : Z) : Z := p + 14.

(** ** Command setters *)

Definition nvm_cmd_header (m : mem) (cmd opc ns_id : Z) : mem :=
  let m := st_dword m cmd 0 (Z.land (ld_dword m cmd 0) 0xffff0000) in
  let m := st_dword m cmd 0
    (Z.lor (ld_dword m cmd 0)
       (Z.lor (Z.lor (Z.shiftl 0x00 14) (Z.shiftl 0x00 8)) (Z.land (u8 opc) 0x7f))) in
  st_dword m cmd 1 ns_id.

Definition nvm_cmd_data_ptr (m : mem) (cmd prp1 prp2 : Z) : mem :=
  let m := st_dword m cmd 0
    (Z.land (ld_dword m cmd 0) (u32 (Z.lnot (Z.lor (Z.shiftl 0x03 14) (Z.shiftl 0x03 8))))) in
  let m := st_dword m cmd 6 (u32 prp1) in
  let m := st_dword m cmd 7 (u32 (Z.shiftr prp1 32)) in
  let m := st_dword m cmd 8 (u32 prp2) in
  st_dword m cmd 9 (u32 (Z.shiftr prp2 32)).

Definition nvm_cmd_rw_blks (m : mem) (cmd start_lba n_blks : Z) : mem :=
  let m := st_dword m cmd 10 start_lba in
  let m := st_dword m cmd 11 (Z.shiftr start_lba 32) in
  st_dword m cmd 12
    (Z.lor (Z.land (ld_dword m cmd 12) 0xffff0000) (Z.land (n_blks - 1) 0xffff)).

(** ** PRP lists *)

(** [for (; i_prp < n_pages; ++i_prp) list[i_prp] = data_ioaddrs[i_prp];] *)
Fixpoint prp_list_loop (n : nat) (i : Z) (m : mem) (list data_ioaddrs : Z) : mem :=
  match n with
  | O => m
  | S n' => prp_list_loop n' (i + 1)
              (st 8 m (list + 8 * i) (ld 8 m (data_ioaddrs + 8 * i))) list data_ioaddrs
  end.

Definition nvm_prp_list (m : mem) (page_size n_pages list_ptr data_ioaddrs : Z) : Z * mem :=
  let prps_per_page := page_size / 8 in
  let n_pages := if prps_per_page <? n_pages then prps_per_page else n_pages in
  (n_pages, prp_list_loop (Z.to_nat n_pages) 0 m list_ptr data_ioaddrs).

Definition nvm_cmd_data `{Build} (m : mem)
    (cmd page_size n_pages list_ptr list_ioaddr data_ioaddrs : Z) : Z * mem :=
  if negb NDEBUG && (n_pages =? 0) then (0, m)
  else
    let dptr0 := ld 8 m data_ioaddrs in
    let prp := 1 in
    if (n_pages >? 2) && negb (list_ptr =? NULL) then
      let '(n, m') := nvm_prp_list m page_size (n_pages - 1) list_ptr (data_ioaddrs + 8 * prp) in
      (prp + n, nvm_cmd_data_ptr m' cmd dptr0 list_ioaddr)
    else if n_pages >=? 2 then
      (prp + 1, nvm_cmd_data_ptr m cmd dptr0 (ld 8 m (data_ioaddrs + 8 * prp)))
    else
      (prp, nvm_cmd_data_ptr m cmd dptr0 0).

(** ** Admin command builders ([src/admin.c]) *)

Definition _nvm_admin_cq_create (m : mem) (cmd : Z) (cq : nvm_queue_t) : mem :=
  let m := nvm_cmd_header m cmd (admin_opcode NVM_ADMIN_CREATE_COMPLETION_QUEUE) 0 in
  let m := nvm_cmd_data_ptr m cmd (q_ioaddr cq) 0 in
  let m := st_dword m cmd 10 (Z.lor (u32 (Z.shiftl (u32 (q_max_entries cq - 1)) 16)) (q_no cq)) in
  st_dword m cmd 11 (Z.lor (Z.lor (Z.shiftl 0x0000 16) (Z.shiftl 0x00 1)) 0x01).

Definition _nvm_admin_sq_create (m : mem) (cmd : Z) (sq cq : nvm_queue_t) : mem :=
  let m := nvm_cmd_header m cmd (admin_opcode NVM_ADMIN_CREATE_SUBMISSION_QUEUE) 0 in
  let m := nvm_cmd_data_ptr m cmd (q_ioaddr sq) 0 in
  let m := st_dword m cmd 10 (Z.lor (u32 (Z.shiftl (u32 (q_max_entries sq - 1)) 16)) (q_no sq)) in
  st_dword m cmd 11 (Z.lor (Z.lor (u32 (Z.shiftl (q_no cq) 16)) (Z.shiftl 0x00 1)) 0x01).

Definition _nvm_admin_current_num_queues (m : mem) (cmd : Z) (set : bool) (n_cqs n_sqs : Z) : mem :=
  let m := nvm_cmd_header m cmd
    (admin_opcode (if set then NVM_ADMIN_SET_FEATURES else NVM_ADMIN_GET_FEATURES)) 0 in
  let m := nvm_cmd_data_ptr m cmd 0 0 in
  let m := st_dword m cmd 10 (Z.lor (Z.shiftl 0x00 8) 0x07) in
  st_dword m cmd 11 (if set then Z.lor (Z.shiftl (n_cqs - 1) 16) (n_sqs - 1) else 0).

Definition _nvm_admin_identify_ctrl (m : mem) (cmd ioaddr : Z) : mem :=
  let m := nvm_cmd_header m cmd (admin_opcode NVM_ADMIN_IDENTIFY) 0 in
  let m := nvm_cmd_data_ptr m cmd ioaddr 0 in
  let m := st_dword m cmd 10 (Z.lor (Z.shiftl 0 16) 0x01) in
  st_dword m cmd 11 0.

Definition _nvm_admin_identify_ns (m : mem) (cmd ns_id ioaddr : Z) : mem :=
  let m := nvm_cmd_header m cmd (admin_opcode NVM_ADMIN_IDENTIFY) ns_id in
  let m := nvm_cmd_data_ptr m cmd ioaddr 0 in
  let m := st_dword m cmd 10 (Z.lor (Z.shiftl 0 16) 0x00) in
  st_dword m cmd 11 0.

(** The sixteen dwords of the command at [p]. *)
Definition dwords (m : mem) (p : Z) : list Z :=
  (fun i => ld_dword m p (Z.of_nat i)) <$> seq 0 16.

(** ** Reading commands back *)

Lemma dwords_eq m p :
  dwords m p =
  [ld_dword m p 0; ld_dword m p 1; ld_dword m p 2; ld_dword m p 3;
   ld_dword m p 4; ld_dword m p 5; ld_dword m p 6; ld_dword m p 7;
   ld_dword m p 8; ld_dword m p 9; ld_dword m p 10; ld_dword m p 11;
   ld_dword m p 12; ld_dword m p 13; ld_dword m p 14; ld_dword m p 15].
Proof. reflexivity. Qed.

Lemma ld4_wrap x : x mod 2 ^ (8 * Z.of_nat 4) = u32 x.
Proof. reflexivity. Qed.

(** Masking two dwords of which one is zero. *)
Lemma u32_lor_low a b : a in_u 32 -> b in_u 32 -> u32 (Z.lor a b) = Z.lor a b.
Proof.
  intros. apply u32_small. change 4294967296 with (2 ^ 32).
  split; [apply Z.lor_nonneg; lia|].
  destruct (decide (Z.lor a b = 0)) as [->|]; [lia|].
  apply Z.log2_lt_pow2; [pose proof (proj2 (Z.lor_nonneg a b)); lia|].
  rewrite Z.log2_lor by lia.
  destruct (decide (a = 0)), (decide (b = 0)); subst; simpl;
    repeat match goal with |- context [Z.log2 ?x] =>
      pose_once (Z.log2_nonneg x) end;
    try (assert (Z.log2 a < 32) by (apply Z.log2_lt_pow2; lia));
    try (assert (Z.log2 b < 32) by (apply Z.log2_lt_pow2; lia)); lia.
Qed.

(** The recombined 64-bit pointer of two consecutive dwords. *)
Lemma ld8_dwords m a : ld 8 m a = ld 4 m a + 2 ^ 32 * ld 4 m (a + 4).
Proof. change 8%nat with (4 + 4)%nat. rewrite ld_split. reflexivity. Qed.

Lemma u64_halves x : x in_u 64 -> u32 x + 2 ^ 32 * u32 (Z.shiftr x 32) = x.
Proof.
  intros. rewrite Z.shiftr_div_pow2 by lia. unfold u32 at 1, wrap.
  rewrite (u32_small (x / 2 ^ 32)).
  - pose proof (Z.div_mod x (2 ^ 32)). lia.
  - split; [apply Z.div_pos; lia|]. apply Z.div_lt_upper_bound; lia.
Qed.

(** ** Correctness of the setters *)

Section setters.
Context (m : mem) (cmd : Z).

(** Only bytes of the command are written. *)
Lemma cmd_header_frame opc ns n b :
  b + Z.of_nat n <= cmd \/ cmd + 64 <= b -> ld n (nvm_cmd_header m cmd opc ns) b = ld n m b.
Proof. intros. unfold nvm_cmd_header. rewrite !ld_st_disjoint by lia. done. Qed.

Lemma cmd_data_ptr_frame p1 p2 n b :
  b + Z.of_nat n <= cmd \/ cmd + 64 <= b -> ld n (nvm_cmd_data_ptr m cmd p1 p2) b = ld n m b.
Proof. intros. unfold nvm_cmd_data_ptr. rewrite !ld_st_disjoint by lia. done. Qed.

Lemma data_ptr_prps p1 p2 : p1 in_u 64 -> p2 in_u 64 ->
  ld 8 (nvm_cmd_data_ptr m cmd p1 p2) (cmd + 24) = p1
  /\ ld 8 (nvm_cmd_data_ptr m cmd p1 p2) (cmd + 32) = p2.
Proof.
  intros. unfold nvm_cmd_data_ptr. rewrite !ld8_dwords.
  change (cmd + 24) with (cmd + 4 * 6). change (cmd + 32) with (cmd + 4 * 8).
  replace (cmd + 4 * 6 + 4) with (cmd + 4 * 7) by lia.
  replace (cmd + 4 * 8 + 4) with (cmd + 4 * 9) by lia.
  mem_simp. rewrite !ld4_wrap. unfold u32 at 2 4 6 8. fold (u32 p1) (u32 p2).
  unfold u32. rewrite !wrap_wrap by lia. fold (u32 p1) (u32 p2).
  split; by apply u64_halves.
Qed.

End setters.

(** ** Correctness of the PRP list *)

Lemma prp_list_loop_frame k i m list data n b :
  0 <= i ->
  b + Z.of_nat n <= list + 8 * i \/ list + 8 * (i + Z.of_nat k) <= b ->
  ld n (prp_list_loop k i m list data) b = ld n m b.
Proof.
  revert i m. induction k as [|k IH]; intros i m Hi Hb; [done|]. simpl prp_list_loop.
  rewrite IH by lia. by rewrite ld_st_disjoint by lia.
Qed.

Lemma prp_list_loop_spec k i m list data j :
  0 <= i ->
  list + 8 * (i + Z.of_nat k) <= data + 8 * i \/ data + 8 * (i + Z.of_nat k) <= list + 8 * i ->
  i <= j < i + Z.of_nat k ->
  ld 8 (prp_list_loop k i m list data) (list + 8 * j) = ld 8 m (data + 8 * j).
Proof.
  revert i m. induction k as [|k IH]; intros i m Hi Hd Hj; [lia|]. simpl prp_list_loop.
  destruct (decide (j = i)) as [->|].
  - rewrite prp_list_loop_frame by lia. rewrite ld_st_same.
    apply Z.mod_small. apply (ld_bound 8).
  - rewrite IH by lia. by rewrite ld_st_disjoint by lia.
Qed.

Lemma prp_list_count m page_size n_pages list data :
  0 <= n_pages -> 0 <= page_size ->
  0 <= fst (nvm_prp_list m page_size n_pages list data) <= n_pages
  /\ 8 * fst (nvm_prp_list m page_size n_pages list data) <= page_size.
Proof.
  intros. simpl. pose proof (Z.div_pos page_size 8).
  pose proof (Z.div_mod page_size 8). pose proof (Z.mod_pos_bound page_size 8).
  destruct (Z.ltb_spec (page_size / 8) n_pages); lia.
Qed.

(** ** What the builders put on the wire

    Each builder is run on a zeroed command, as every caller does. *)

Definition zero_cmd (m : mem) (cmd : Z) : mem := memset m cmd 0 64.

Ltac cmd_dwords :=
  rewrite dwords_eq; unfold nvm_cmd_data_ptr, nvm_cmd_header, zero_cmd; mem_simp;
  rewrite ?ld4_wrap; reflexivity.

Lemma header_dwords m cmd opc ns :
  dwords (nvm_cmd_header (zero_cmd m cmd) cmd opc ns) cmd
  = [u32 (Z.lor 0 (Z.land (u8 opc) 0x7f)); u32 ns; 0; 0; 0; 0; 0; 0; 0; 0; 0; 0; 0; 0; 0; 0].
Proof. cmd_dwords. Qed.

(** The dwords of an admin command: opcode, namespace, PRP1 and the two
    command-specific dwords. *)
Definition admin_dwords (c : nvm_admin_command_set) (ns prp1 dw10 dw11 : Z) : list Z :=
  [admin_opcode c; u32 ns; 0; 0; 0; 0; u32 prp1; u32 (Z.shiftr prp1 32); 0; 0;
   u32 dw10; u32 dw11; 0; 0; 0; 0].

Lemma u32_u32 x : u32 (u32 x) = u32 x.
Proof. by apply wrap_wrap. Qed.

Lemma admin_cmd_dwords m cmd c ns prp1 dw10 dw11 :
  dwords (st_dword (st_dword (nvm_cmd_data_ptr
            (nvm_cmd_header (zero_cmd m cmd) cmd (admin_opcode c) ns) cmd prp1 0) cmd 10 dw10)
            cmd 11 dw11) cmd
  = admin_dwords c ns prp1 dw10 dw11.
Proof.
  rewrite dwords_eq. unfold nvm_cmd_data_ptr, nvm_cmd_header, zero_cmd. mem_simp.
  rewrite ?ld4_wrap, ?u32_u32. unfold admin_dwords.
  change (u32 (Z.shiftr 0 32)) with 0. change (u32 0) with 0.
  f_equal. destruct c; reflexivity.
Qed.

Lemma cq_create_dwords m cmd cq :
  dwords (_nvm_admin_cq_create (zero_cmd m cmd) cmd cq) cmd
  = admin_dwords NVM_ADMIN_CREATE_COMPLETION_QUEUE 0 (q_ioaddr cq)
      (Z.lor (u32 (Z.shiftl (u32 (q_max_entries cq - 1)) 16)) (q_no cq)) 1.
Proof. apply admin_cmd_dwords. Qed.

Lemma sq_create_dwords m cmd sq cq :
  dwords (_nvm_admin_sq_create (zero_cmd m cmd) cmd sq cq) cmd
  = admin_dwords NVM_ADMIN_CREATE_SUBMISSION_QUEUE 0 (q_ioaddr sq)
      (Z.lor (u32 (Z.shiftl (u32 (q_max_entries sq - 1)) 16)) (q_no sq))
      (Z.lor (Z.lor (u32 (Z.shiftl (q_no cq) 16)) 0) 1).
Proof. apply admin_cmd_dwords. Qed.

Lemma num_queues_dwords m cmd set n_cqs n_sqs :
  dwords (_nvm_admin_current_num_queues (zero_cmd m cmd) cmd set n_cqs n_sqs) cmd
  = admin_dwords (if set then NVM_ADMIN_SET_FEATURES else NVM_ADMIN_GET_FEATURES) 0 0 7
      (if set then Z.lor (Z.shiftl (n_cqs - 1) 16) (n_sqs - 1) else 0).
Proof. apply admin_cmd_dwords. Qed.

Lemma identify_ctrl_dwords m cmd ioaddr :
  dwords (_nvm_admin_identify_ctrl (zero_cmd m cmd) cmd ioaddr) cmd
  = admin_dwords NVM_ADMIN_IDENTIFY 0 ioaddr 1 0.
Proof. apply admin_cmd_dwords. Qed.

Lemma identify_ns_dwords m cmd ns_id ioaddr :
  dwords (_nvm_admin_identify_ns (zero_cmd m cmd) cmd ns_id ioaddr) cmd
  = admin_dwords NVM_ADMIN_IDENTIFY ns_id ioaddr 0 0.
Proof. apply admin_cmd_dwords. Qed.

(** Two 16-bit fields of a dword. *)
Lemma dword_fields hi lo : hi in_u 16 -> lo in_u 16 ->
  u32 (Z.lor (u32 (Z.shiftl hi 16)) lo) = hi * 65536 + lo.
Proof.
  intros Hh Hl. rewrite Z.shiftl_mul_pow2 by lia. rewrite (u32_small (hi * 2 ^ 16)) by lia.
  assert (Z.lor (hi * 2 ^ 16) lo = hi * 2 ^ 16 + lo) as ->.
  { symmetry. rewrite <- Z.lxor_lor; [apply Z.add_nocarry_lxor|];
      (bit_ext i; destruct (decide (i < 16));
        [rewrite Z.mul_pow2_bits_low by lia; done
        |rewrite <- (wrap_small 16 lo) by lia; rewrite wrap_testbit by lia;
         rewrite (bool_decide_eq_false_2 (i < 16)) by lia; by rewrite andb_false_r]). }
  rewrite u32_small by lia. lia.
Qed.

Lemma cq_create_fields m cmd cq : q_no cq in_u 16 -> 1 <= q_max_entries cq <= 65536 ->
  dwords (_nvm_admin_cq_create (zero_cmd m cmd) cmd cq) cmd
  = [5; 0; 0; 0; 0; 0; u32 (q_ioaddr cq); u32 (Z.shiftr (q_ioaddr cq) 32); 0; 0;
     (q_max_entries cq - 1) * 65536 + q_no cq; 1; 0; 0; 0; 0].
Proof.
  intros. rewrite cq_create_dwords. unfold admin_dwords.
  rewrite (u32_small (_ - 1)) by lia. by rewrite dword_fields by lia.
Qed.

Lemma sq_create_fields m cmd sq cq :
  q_no sq in_u 16 -> q_no cq in_u 16 -> 1 <= q_max_entries sq <= 65536 ->
  dwords (_nvm_admin_sq_create (zero_cmd m cmd) cmd sq cq) cmd
  = [1; 0; 0; 0; 0; 0; u32 (q_ioaddr sq); u32 (Z.shiftr (q_ioaddr sq) 32); 0; 0;
     (q_max_entries sq - 1) * 65536 + q_no sq; q_no cq * 65536 + 1; 0; 0; 0; 0].
Proof.
  intros. rewrite sq_create_dwords. unfold admin_dwords.
  rewrite Z.lor_0_r, (u32_small (_ - 1)) by lia. by rewrite !dword_fields by lia.
Qed.

(** The Create I/O Completion/Submission Queue commands carry, in dword 10,
    the 0's based size and the identifier of the queue, in PRP1 its bus address,
    and in dword 11 the physically-contiguous flag and, for an SQ, the
    identifier of its completion queue. *)
Theorem create_queue_commands m cmd sq cq :
  q_no sq in_u 16 -> q_no cq in_u 16 ->
  1 <= q_max_entries sq <= 65536 -> 1 <= q_max_entries cq <= 65536 ->
  dwords (_nvm_admin_cq_create (zero_cmd m cmd) cmd cq) cmd
    = [5; 0; 0; 0; 0; 0; u32 (q_ioaddr cq); u32 (Z.shiftr (q_ioaddr cq) 32); 0; 0;
       (q_max_entries cq - 1) * 65536 + q_no cq; 1; 0; 0; 0; 0]
  /\ dwords (_nvm_admin_sq_create (zero_cmd m cmd) cmd sq cq) cmd
    = [1; 0; 0; 0; 0; 0; u32 (q_ioaddr sq); u32 (Z.shiftr (q_ioaddr sq) 32); 0; 0;
       (q_max_entries sq - 1) * 65536 + q_no sq; q_no cq * 65536 + 1; 0; 0; 0; 0].
Proof. intros. split; [by apply cq_create_fields|by apply sq_create_fields]. Qed.

(** ** The PRP entries the controller derives from a command

    PRP1 addresses the first page; for two pages PRP2 addresses the second;
    beyond that PRP2 addresses a page of further entries, which the host sees
    at [list_ptr]. *)
Definition prp_entry (m : mem) (cmd list_ptr n i : Z) : Z :=
  if i =? 0 then ld 8 m (cmd + 24)
  else if n <=? 2 then ld 8 m (cmd + 32)
  else ld 8 m (list_ptr + 8 * (i - 1)).

(** The regions involved in a transfer do not overlap. *)
Definition prp_disjoint (cmd page_size n list_ptr data : Z) : Prop :=
  (cmd + 64 <= list_ptr \/ list_ptr + page_size <= cmd)
  /\ (list_ptr + page_size <= data \/ data + 8 * n <= list_ptr)
  /\ (cmd + 64 <= data \/ data + 8 * n <= cmd).

(** C16: for a transfer that fits one PRP list page, [nvm_cmd_data] uses every
    page and the controller derives from the command exactly the caller's bus
    addresses, in order; with more than two pages PRP2 is the list's bus address. *)
Theorem cmd_data_prps `{Build} m cmd page_size n list_ptr list_ioaddr data r m' :
  1 <= n <= 1 + page_size / 8 -> 0 <= page_size -> list_ptr <> NULL ->
  list_ioaddr in_u 64 -> prp_disjoint cmd page_size n list_ptr data ->
  nvm_cmd_data m cmd page_size n list_ptr list_ioaddr data = (r, m') ->
  r = n
  /\ (forall i, 0 <= i < n -> prp_entry m' cmd list_ptr n i = ld 8 m (data + 8 * i))
  /\ (2 < n -> ld 8 m' (cmd + 32) = list_ioaddr).
Proof.
  intros Hn Hps Hl Hio (Hd1 & Hd2 & Hd3). unfold nvm_cmd_data.
  assert ((n =? 0) = false) as -> by (apply Z.eqb_neq; lia). rewrite andb_false_r.
  assert ((list_ptr =? NULL) = false) as -> by by apply Z.eqb_neq. rewrite andb_true_r.
  pose proof (Z.mul_div_le page_size 8 ltac:(lia)) as Hdiv.
  rewrite Z.gtb_ltb, Z.geb_leb. destruct (Z.ltb_spec 2 n).
  - unfold nvm_prp_list. assert ((page_size / 8 <? n - 1) = false) as -> by (apply Z.ltb_ge; lia).
    intros [= <- <-]. split; [lia|].
    edestruct (data_ptr_prps (prp_list_loop (Z.to_nat (n - 1)) 0 m list_ptr (data + 8 * 1)) cmd)
      as [P1 P2]; [apply (ld_bound 8 m data)|exact Hio|].
    split; [|intros; exact P2].
    intros i Hi. unfold prp_entry. destruct (Z.eqb_spec i 0) as [->|].
    + rewrite P1. f_equal. lia.
    + assert ((n <=? 2) = false) as -> by (apply Z.leb_gt; lia).
      rewrite cmd_data_ptr_frame by (simpl Z.of_nat; lia).
      rewrite prp_list_loop_spec by lia. f_equal. lia.
  - destruct (Z.leb_spec 2 n); intros [= <- <-]; (split; [lia|]); (split; [|lia]); intros i Hi;
      unfold prp_entry.
    + destruct (data_ptr_prps m cmd (ld 8 m data) (ld 8 m (data + 8 * 1))
        (ld_bound 8 m data) (ld_bound 8 m _)) as [P1 P2].
      assert ((n <=? 2) = true) as -> by (apply Z.leb_le; lia).
      zcases; [rewrite P1|rewrite P2]; f_equal; lia.
    + destruct (data_ptr_prps m cmd (ld 8 m data) 0 (ld_bound 8 m data) ltac:(lia)) as [P1 _].
      assert (i = 0) as -> by lia. simpl. rewrite P1. f_equal. lia.
Qed.

(** Whatever the number of pages, [nvm_prp_list] stays inside the one list
    page: it uses [min(n_pages, page_size / 8)] entries, copies exactly those
    addresses, and leaves every byte outside them unchanged. *)
Theorem prp_list_bounds m page_size n list data r m' :
  0 <= page_size -> 0 <= n ->
  list + page_size <= data \/ data + 8 * n <= list ->
  nvm_prp_list m page_size n list data = (r, m') ->
  r = Z.min n (page_size / 8)
  /\ (forall j, 0 <= j < r -> ld 8 m' (list + 8 * j) = ld 8 m (data + 8 * j))
  /\ (forall b, b < list \/ list + page_size <= b -> ld8 m' b = ld8 m b).
Proof.
  intros Hps Hn Hd Hr. pose proof (prp_list_count m page_size n list data Hn Hps) as Hc.
  rewrite Hr in Hc. simpl in Hc. unfold nvm_prp_list in Hr. injection Hr as <- <-.
  pose proof (Z.div_pos page_size 8).
  split; [destruct (Z.ltb_spec (page_size / 8) n); lia|].
  destruct (page_size / 8 <? n); split; intros.
  all: try (apply prp_list_loop_spec; lia).
  all: pose proof (prp_list_loop_frame (Z.to_nat n) 0 m list data 1 b) as Hf;
    try pose proof (prp_list_loop_frame (Z.to_nat (page_size / 8)) 0 m list data 1 b) as Hf';
    unfold ld in *; lia.
Qed.

(** ** Witnesses *)

Lemma create_queue_commands_witness :
  dwords (_nvm_admin_sq_create (zero_cmd empty 4096) 4096
            (Queue 2 64 64 0 0 1 0 0 0 0x9000) (Queue 1 256 16 0 0 1 0 0 0 0x8000)) 4096
  = [1; 0; 0; 0; 0; 0; 0x9000; 0; 0; 0; 63 * 65536 + 2; 65537; 0; 0; 0; 0].
Proof.
  apply (create_queue_commands empty 4096 (Queue 2 64 64 0 0 1 0 0 0 0x9000)
           (Queue 1 256 16 0 0 1 0 0 0 0x8000)); simpl; lia.
Defined.

(** Three pages from a table at 0x2000 through a list page at 0x1000. *)
Definition sample_table : mem :=
  st 8 (st 8 (st 8 empty 0x2000 0xa000) 0x2008 0xb000) 0x2010 0xc000.

#[local] Instance sample_build : Build := {| NDEBUG := false; CUDA := false |}.

Lemma cmd_data_prps_witness :
  let r := nvm_cmd_data sample_table 0x100 4096 3 0x1000 0x7000 0x2000 in
  fst r = 3 /\ prp_entry (snd r) 0x100 0x1000 3 2 = 0xc000.
Proof.
  destruct (nvm_cmd_data sample_table 0x100 4096 3 0x1000 0x7000 0x2000) as [r m'] eqn:E.
  destruct (cmd_data_prps sample_table 0x100 4096 3 0x1000 0x7000 0x2000 r m')
    as (Hr & Hp & _); [vm_compute; split; discriminate|lia|done|lia| |exact E|].
  - unfold prp_disjoint. lia.
  - split; [exact Hr|]. simpl. rewrite Hp by lia. vm_compute. reflexivity.
Defined.

Lemma prp_list_bounds_witness :
  let r := nvm_prp_list sample_table 16 3 0x1000 0x2000 in
  fst r = 2 /\ ld 8 (snd r) 0x1008 = 0xb000 /\ ld8 (snd r) 0x1010 = 0.
Proof.
  destruct (nvm_prp_list sample_table 16 3 0x1000 0x2000) as [r m'] eqn:E.
  destruct (prp_list_bounds sample_table 16 3 0x1000 0x2000 r m')
    as (Hr & Hc & Hf); [lia|lia|lia|exact E|].
  change (Z.min 3 (16 / 8)) with 2 in Hr. subst r. split; [reflexivity|]. split.
  - change 0x1008 with (0x1000 + 8 * 1). simpl snd. rewrite (Hc 1) by lia. vm_compute. reflexivity.
  - simpl. rewrite Hf by lia. vm_compute. reflexivity.
Defined.
