(* ===== verification/Error.v ===== *)
(** * Status codes

    [include/nvm_error.h] (extracting, packing and unpacking NVMe status) and
    [src/error.c] (the message tables and [nvm_strerror]). *)
From Stdlib Require Import String.
From S2P Require Import Prelude Bits Memory Effects Types Command.

(** ** [include/nvm_error.h] *)

Definition NVM_ERR_SCT (m : mem) (cpl : Z) : Z := u8 (_RB (ld 2 m (NVM_CPL_STATUS cpl)) 27 25).
Definition NVM_ERR_SC (m : mem) (cpl : Z) : Z := u8 (_RB (ld 2 m (NVM_CPL_STATUS cpl)) 24 17).
Definition NVM_ERR_DNR (m : mem) (cpl : Z) : Z := u8 (_RB (ld 2 m (NVM_CPL_STATUS cpl)) 31 31).

(** [-(sct << 8 | sc)], the value a failed completion is packed into. *)
Definition pack_status (sct sc : Z) : Z := - Z.lor (Z.shiftl sct 8) sc.

Definition NVM_ERR_STATUS (m : mem) (cpl : Z) : Z :=
  if negb (cpl =? NULL) then pack_status (NVM_ERR_SCT m cpl) (NVM_ERR_SC m cpl) else 0.

Definition NVM_ERR_OK (m : mem) (cpl : Z) : bool :=
  (NVM_ERR_SCT m cpl =? 0) && (NVM_ERR_SC m cpl =? 0).

Definition NVM_ERR_PACK (m : mem) (cpl err : Z) : Z :=
  if negb (err =? 0) then err else NVM_ERR_STATUS m cpl.

Definition NVM_ERR_UNPACK_ERRNO (status : Z) : Z := if status >? 0 then status else 0.
Definition NVM_ERR_UNPACK_SCT (status : Z) : Z :=
  if status <? 0 then Z.land (Z.shiftr status 8) 0xff else 0.
Definition NVM_ERR_UNPACK_SC (status : Z) : Z :=
  if status <? 0 then Z.land status 0xff else 0.

Definition nvm_ok (status : Z) : bool := status =? 0.

(** ** [src/error.c] *)

Definition generic_status : list string := [
  "Success";
  "Invalid command opcode";
  "Invalid field in command";
  "Command ID conflict";
  "Data transfer error";
  "Commands aborted due to power loss notification";
  "Internal error";
  "Command abort requested";
  "Command aborted due to SQ deletion";
  "Command aborted due to failed fused command";
  "Command aborted due to missing fused command";
  "Invalid namespace or format";
  "Command sequence error";
  "Invalid SGL segment descriptor";
  "Invalid number of SQL descriptors";
  "Data SGL length invalid";
  "Metadata SGL length invalid";
  "SGL descriptor type invalid";
  "Invalid use of controller memory buffer";
  "PRP offset invalid";
  "Atomic write unit exceeded";
  "Operation denied";
  "SGL offset invalid";
  "Unknown/reserved";
  "Host identifier inconsistent format";
  "Keep alive timer expired";
  "Keep alive timer invalid";
  "Command aborted due to preempt and abort";
  "Sanitize failed";
  "Sanitize in progress";
  "SGL data block granularity invalid";
  "Command not supported for queue in CMB"
]%string.

Definition generic_status_nvm_commands : list string := [
  "LBA out of range";
  "Capacity exceeded";
  "Namespace not ready";
  "Reservation conflict";
  "Format in progress"
]%string.

Definition command_specific_status : list string := [
  "Completion queue invalid";
  "Invalid queue identifier";
  "Invalid queue size";
  "Abort command limit exceeded";
  "Unknown/reserved";
  "Asynchronous event request limit exceeded";
  "Invalid firmware slot";
  "Invalid firmware image";
  "Invalid interrupt vector";
  "Invalid log page";
  "Invalid format";
  "Firmware activation requires conventional reset";
  "Invalid queue deletion";
  "Feature identifier not saveable";
  "Feature not changeable";
  "Feature not namespace specific";
  "Firmware activation requires NVM subsystem reset";
  "Firmware activation requires reset";
  "Firmware activation requires maximum time violation";
  "Firmware activation prohibited";
  "Overlapping range";
  "Namespace insufficient capacity";
  "Namespace identifier unavailable";
  "Unknown/reserved";
  "Namespace already attached";
  "Namespace is private";
  "Namespace not attached";
  "Thin provisioning not supported";
  "Controller list invalid";
  "Device self-test in progress";
  "Boot partition write prohibited";
  "Invalid controller identifier";
  "Invalid secondary controller state";
  "Invalid number of controller resources";
  "Invalid resource identifier"
]%string.

Definition command_specific_status_nvm_commands : list string := [
  "Conflicting attributes";
  "Invalid protection information";
  "Attempted write to read only range"
]%string.

Definition media_and_data_integrity_nvm_commands : list string := [
  "Write fault";
  "Unrecovered read error";
  "End-to-end guard check error";
  "End-to-end application tag check error";
  "End-to-end reference tag check error";
  "Compare failure";
  "Access denied";
  "Deallocated or unwritten logical block"
]%string.


(** [None] is an access outside a table. *)
Definition at_index (t : list string) (i : Z) : option string := t !! Z.to_nat i.

Definition lookup_string (status_code_type status_code : Z) : option string :=
  if status_code_type =? 0x00 then
    if status_code <? 0x20 then at_index generic_status status_code
    else if (0x80 <=? status_code) && (status_code <=? 0x84)
    then at_index generic_status_nvm_commands (status_code - 0x80)
    else Some "Unknown generic error"%string
  else if status_code_type =? 0x01 then
    if status_code <? 0x23 then at_index command_specific_status status_code
    else if (0x80 <=? status_code) && (status_code <=? 0x82)
    then at_index command_specific_status_nvm_commands (status_code - 0x80)
    else Some "Unknown command specific error"%string
  else if status_code_type =? 0x02 then
    if (0x80 <=? status_code) && (status_code <=? 0x87)
    then at_index media_and_data_integrity_nvm_commands (status_code - 0x80)
    else Some "Unknown media or data integrity error"%string
  else Some "Unknown status code type"%string.

(** [strerror] is the C library's. *)
Definition nvm_strerror (strerror : Z -> string) (status : Z) : option string :=
  let err := NVM_ERR_UNPACK_ERRNO status in
  let sct := u8 (NVM_ERR_UNPACK_SCT status) in
  let sc := u8 (NVM_ERR_UNPACK_SC status) in
  if negb (sct =? 0) || negb (sc =? 0) then lookup_string sct sc
  else Some (strerror err).

(** ** Lemmas *)

Lemma at_index_ok t i : 0 <= i < Z.of_nat (length t) -> is_Some (at_index t i).
Proof. intros. apply lookup_lt_is_Some. lia. Qed.

Lemma pack_status_value sct sc : 0 <= sct < 256 -> 0 <= sc < 256 ->
  pack_status sct sc = - (sct * 256 + sc).
Proof.
  intros. unfold pack_status. rewrite Z.shiftl_mul_pow2 by lia. f_equal.
  symmetry. rewrite <- Z.lxor_lor; [apply Z.add_nocarry_lxor|];
    (bit_ext i; destruct (decide (i < 8));
      [by rewrite Z.mul_pow2_bits_low by lia
      |rewrite <- (wrap_small 8 sc) by lia; rewrite wrap_testbit by lia;
       rewrite (bool_decide_eq_false_2 (i < 8)) by lia; by rewrite andb_false_r]).
Qed.

Lemma unpack_sct_neg s : s < 0 -> NVM_ERR_UNPACK_SCT s = (s / 256) mod 256.
Proof.
  intros. unfold NVM_ERR_UNPACK_SCT. assert ((s <? 0) = true) as -> by (apply Z.ltb_lt; lia).
  change 0xff with (Z.ones 8). rewrite Z.land_ones, Z.shiftr_div_pow2 by lia. done.
Qed.

Lemma unpack_sc_neg s : s < 0 -> NVM_ERR_UNPACK_SC s = s mod 256.
Proof.
  intros. unfold NVM_ERR_UNPACK_SC. assert ((s <? 0) = true) as -> by (apply Z.ltb_lt; lia).
  change 0xff with (Z.ones 8). by rewrite Z.land_ones by lia.
Qed.

(** The SCT recovered from a packed NVMe status: [2^8] minus the original,
    one less when the status code is non-zero. *)
Lemma unpack_sct_pack sct sc : 0 <= sct < 8 -> 0 <= sc < 256 -> sct * 256 + sc <> 0 ->
  NVM_ERR_UNPACK_SCT (pack_status sct sc) = if sc =? 0 then 256 - sct else 255 - sct.
Proof.
  intros. rewrite pack_status_value by lia. rewrite unpack_sct_neg by lia.
  zcases; subst.
  - replace (- (sct * 256 + 0)) with (- sct * 256) by lia. rewrite Z.div_mul by lia.
    symmetry. apply (Z.mod_unique_pos _ _ (-1)); lia.
  - rewrite <- (Z.div_unique_pos (- (sct * 256 + sc)) 256 (- sct - 1) (256 - sc)) by lia.
    symmetry. apply (Z.mod_unique_pos _ _ (-1)); lia.
Qed.

(** The status macros look at bits a 16-bit status field does not have. *)
Lemma status_fields_zero m cpl : NVM_ERR_SCT m cpl = 0 /\ NVM_ERR_SC m cpl = 0.
Proof.
  pose proof (ld_bound 2 m (NVM_CPL_STATUS cpl)) as Hb.
  change (2 ^ (8 * Z.of_nat 2)) with (2 ^ 16) in Hb.
  unfold NVM_ERR_SCT, NVM_ERR_SC. by rewrite !(RB_above 16) by (done || lia).
Qed.

Lemma status_zero m cpl : NVM_ERR_STATUS m cpl = 0.
Proof.
  destruct (status_fields_zero m cpl) as [Hsct Hsc].
  unfold NVM_ERR_STATUS. rewrite Hsct, Hsc. by destruct (cpl =? NULL).
Qed.

(** Packing keeps only the errno. *)
Lemma pack_errno m cpl err : NVM_ERR_PACK m cpl err = err.
Proof. unfold NVM_ERR_PACK. rewrite status_zero. destruct (Z.eqb_spec err 0); simpl; congruence. Qed.

(** ** Properties *)

(** [lookup_string] never indexes outside a message table: every 8-bit
    status code type and status code has a message. *)
Theorem lookup_string_total sct sc :
  0 <= sct < 256 -> 0 <= sc < 256 -> is_Some (lookup_string sct sc).
Proof.
  intros. unfold lookup_string.
  repeat match goal with |- context [if ?b then _ else _] => destruct b eqn:? end;
    zbool; try (eexists; reflexivity); apply at_index_ok; simpl; lia.
Qed.

(** C31: the status macros read bits 17 and up of a 16-bit field, so they are
    constantly zero: for every completion, whatever its status, [NVM_ERR_OK]
    holds, [NVM_ERR_STATUS] is 0 and packing it with errno 0 reports success. *)
Theorem completion_status_ignored m cpl :
  NVM_ERR_OK m cpl = true /\ NVM_ERR_STATUS m cpl = 0
  /\ forall err, NVM_ERR_PACK m cpl err = err.
Proof.
  destruct (status_fields_zero m cpl) as [Hsct Hsc].
  split; [unfold NVM_ERR_OK; by rewrite Hsct, Hsc|]. split; [apply status_zero|].
  intros err. apply pack_errno.
Qed.

(** The unpacking macros do not invert the packing of an NVMe status: for
    every non-zero status the status code type that comes back differs from the
    one packed, and [nvm_strerror] always answers "Unknown status code type". *)
Theorem strerror_of_packed_status strerror sct sc :
  0 <= sct < 8 -> 0 <= sc < 256 -> sct * 256 + sc <> 0 ->
  NVM_ERR_UNPACK_SCT (pack_status sct sc) <> sct
  /\ nvm_strerror strerror (pack_status sct sc) = Some "Unknown status code type"%string.
Proof.
  intros Hsct Hsc Hne. pose proof (unpack_sct_pack sct sc Hsct Hsc Hne) as E.
  assert (248 <= NVM_ERR_UNPACK_SCT (pack_status sct sc) < 256) as Hr.
  { rewrite E. destruct (Z.eqb_spec sc 0); lia. }
  split; [lia|]. unfold nvm_strerror. rewrite u8_small by lia.
  remember (NVM_ERR_UNPACK_SCT (pack_status sct sc)) as t.
  assert ((t =? 0) = false) as -> by (apply Z.eqb_neq; lia). simpl.
  unfold lookup_string.
  repeat (rewrite (proj2 (Z.eqb_neq t _)) by lia). done.
Qed.

(** An errno goes through packing and unpacking unchanged, and
    [nvm_strerror] of it is the C library's message. *)
Theorem errno_roundtrip strerror m cpl err :
  0 < err ->
  NVM_ERR_UNPACK_ERRNO (NVM_ERR_PACK m cpl err) = err
  /\ nvm_strerror strerror (NVM_ERR_PACK m cpl err) = Some (strerror err).
Proof.
  intros. unfold NVM_ERR_PACK. assert ((err =? 0) = false) as -> by (apply Z.eqb_neq; lia). simpl.
  unfold nvm_strerror, NVM_ERR_UNPACK_ERRNO, NVM_ERR_UNPACK_SCT, NVM_ERR_UNPACK_SC.
  rewrite Z.gtb_ltb. assert ((0 <? err) = true) as -> by (apply Z.ltb_lt; lia).
  assert ((err <? 0) = false) as -> by (apply Z.ltb_ge; lia). done.
Qed.

(** ** Witnesses *)

Lemma lookup_string_total_witness : is_Some (lookup_string 2 0x87).
Proof. apply (lookup_string_total 2 0x87); lia. Defined.

Lemma strerror_of_packed_status_witness :
  nvm_strerror (fun _ => EmptyString) (pack_status 1 0x80) = Some "Unknown status code type"%string.
Proof. apply (strerror_of_packed_status (fun _ => EmptyString) 1 0x80); lia. Defined.

Lemma errno_roundtrip_witness :
  nvm_strerror (fun _ => "Timer expired"%string) (NVM_ERR_PACK empty NULL ETIME)
  = Some "Timer expired"%string.
Proof. apply (errno_roundtrip (fun _ => "Timer expired"%string) empty NULL ETIME). reflexivity. Defined.
