(* ===== verification/Queue.v ===== *)
(** * Queue pairs

    [include/nvm_queue.h] and [src/queue.c]: the submission and completion
    rings shared with the controller, with the doorbell offsets of
    [src/regs.h]. Queue memory is host memory; the controller changes it
    whenever the host calls out. *)
From S2P Require Import Prelude Bits Memory Effects Types Runtime Command.

(** ** Doorbells ([src/regs.h]) *)

Definition SQ_DBL (p y dstrd : Z) : Z := p + 0x1000 + 2 * y * Z.shiftl 4 dstrd.
Definition CQ_DBL (p y dstrd : Z) : Z := p + 0x1000 + (2 * y + 1) * Z.shiftl 4 dstrd.

(** ** Operations *)

Definition nvm_queue_clear (ctrl : nvm_ctrl_t) (cq : bool) (no vaddr ioaddr : Z) : nvm_queue_t :=
  let entry_size := if cq then sizeof_cpl else sizeof_cmd in
  {| q_no := no;
     q_entry_size := entry_size;
     q_head := 0;
     q_tail := 0;
     q_phase := 1;
     q_last := 0;
     q_vaddr := vaddr;
     q_ioaddr := ioaddr;
     q_db := if cq then CQ_DBL (ctrl_mm_ptr ctrl) no (ctrl_dstrd ctrl)
             else SQ_DBL (ctrl_mm_ptr ctrl) no (ctrl_dstrd ctrl);
     q_max_entries := u16 (_MIN (ctrl_max_entries ctrl) (ctrl_page_size ctrl / entry_size)) |}.

(** [(uint16_t) ((tail - head) % max_entries) == max_entries - 1] *)
Definition sq_full (sq : nvm_queue_t) : bool :=
  u16 (u32 (q_tail sq - q_head sq) mod q_max_entries sq) =? q_max_entries sq - 1.

(** [None] is undefined behaviour: a queue of zero entries divides by zero. *)
Definition nvm_sq_enqueue (m : mem) (sq : nvm_queue_t) : option (Z * nvm_queue_t * mem) :=
  if q_max_entries sq =? 0 then None
  else if sq_full sq then Some (NULL, sq, m)
  else
    let cmd := q_vaddr sq + u32 (q_entry_size sq * q_tail sq) in
    let sq := set_tail (u32 (q_tail sq + 1)) sq in
    let sq := if q_tail sq =? q_max_entries sq
              then set_tail 0 (set_phase (lnotb (q_phase sq)) sq) else sq in
    Some (cmd, sq, st 2 m (NVM_CMD_CID cmd) (q_tail sq + lnotb (q_phase sq) * q_max_entries sq)).

Definition nvm_cq_poll (m : mem) (cq : nvm_queue_t) : Z :=
  let cpl := q_vaddr cq + u32 (q_entry_size cq * q_head cq) in
  if negb (booln (_RB (ld 2 m (NVM_CPL_STATUS cpl)) 0 0) =? q_phase cq) then NULL else cpl.

Definition nvm_cq_dequeue (m : mem) (cq : nvm_queue_t) : Z * nvm_queue_t :=
  let cpl := nvm_cq_poll m cq in
  if negb (cpl =? NULL) then
    let cq := set_head (u32 (q_head cq + 1)) cq in
    (cpl, if q_head cq =? q_max_entries cq
          then set_phase (lnotb (q_phase cq)) (set_head 0 cq) else cq)
  else (cpl, cq).

Definition nvm_sq_update (sq : nvm_queue_t) : nvm_queue_t :=
  let sq := set_head (u32 (q_head sq + 1)) sq in
  if q_head sq =? q_max_entries sq then set_head 0 sq else sq.

Definition nvm_sq_submit (sq : nvm_queue_t) : UM nvm_queue_t :=
  if negb (q_last sq =? q_tail sq) then
    ext (Mmio_write 32 (q_db sq) (q_tail sq));;
    mret (set_last (q_tail sq) sq)
  else mret sq.

Definition nvm_cq_update (cq : nvm_queue_t) : UM nvm_queue_t :=
  if negb (q_last cq =? q_head cq) then
    ext (Mmio_write 32 (q_db cq) (q_head cq));;
    mret (set_last (q_head cq) cq)
  else mret cq.

Definition poll_dequeue (cq : nvm_queue_t) : UM (Z * nvm_queue_t) :=
  m ← get_mem; mret (nvm_cq_dequeue m cq).

(** [while (cpl == NULL && nsecs > 0)] *)
Fixpoint dequeue_block_loop (fuel : nat) (cpl nsecs : Z) (cq : nvm_queue_t) : UM (Z * nvm_queue_t) :=
  if (cpl =? NULL) && (nsecs >? 0) then
    match fuel with
    | O => out_of_fuel
    | S fuel' =>
        nsecs ← _nvm_delay_remain nsecs;
        r ← poll_dequeue cq;
        dequeue_block_loop fuel' (fst r) nsecs (snd r)
    end
  else mret (cpl, cq).

Definition nvm_cq_dequeue_block (cq : nvm_queue_t) (timeout : Z) : UM (Z * nvm_queue_t) :=
  let nsecs := u64 (timeout * 1000000) in
  r ← poll_dequeue cq;
  dequeue_block_loop (S (Z.to_nat (nsecs / 1000000))) (fst r) nsecs (snd r).

(** ** The submission ring as a bounded FIFO of counters

    [E] commands have been enqueued and [C] retired since the queue was
    cleared; the ring stores both modulo its size and the parity of [E]'s lap. *)
Record sq_state (n E C : Z) (q : nvm_queue_t) : Prop := {
  sqs_size : q_max_entries q = n;
  sqs_pos : 2 <= n <= 65535;
  sqs_tail : q_tail q = E mod n;
  sqs_head : q_head q = C mod n;
  sqs_phase : q_phase q = (1 + E / n) mod 2;
  sqs_window : 0 <= C <= E /\ E - C <= n - 1;
}.

(** Residues of a window shorter than the modulus are distinct. *)
Lemma mod_window n a b : 0 < n -> a <= b < a + n -> a mod n = b mod n -> a = b.
Proof.
  intros Hn Hw Hm. pose proof (Z.div_mod a n ltac:(lia)). pose proof (Z.div_mod b n ltac:(lia)).
  assert (a / n = b / n) by nia. lia.
Qed.

Lemma u32_sub_mod n a b : 0 <= a < n -> 0 <= b < n -> n <= 65536 ->
  u32 (a - b) = if decide (b <= a) then a - b else 2 ^ 32 + (a - b).
Proof.
  intros. case_decide.
  - apply u32_small. lia.
  - unfold u32, wrap. symmetry. apply (Z.mod_unique_pos _ _ (-1)); lia.
Qed.

(** The full test counts the commands in flight whenever [n] divides [2^32]. *)
Lemma sq_full_pow2 k E C q : 1 <= k <= 15 -> sq_state (2 ^ k) E C q ->
  sq_full q = bool_decide (E - C = 2 ^ k - 1).
Proof.
  intros Hk [Hsz Hpos Ht Hh _ Hw]. unfold sq_full.
  rewrite Hsz, Ht, Hh, mod_u32_pow2 by lia.
  rewrite <- Zminus_mod. rewrite Z.mod_small by lia. rewrite u16_small by lia.
  apply Bool.eq_iff_eq_true. rewrite Z.eqb_eq, bool_decide_eq_true. done.
Qed.

(** Advancing an index around a ring. *)
Lemma ring_next n a : 2 <= n <= 65535 ->
  (if u32 (a mod n + 1) =? n then 0 else u32 (a mod n + 1)) = (a + 1) mod n.
Proof.
  intros Hn. pose proof (Z.mod_pos_bound a n ltac:(lia)).
  rewrite mod_add_one by lia. rewrite u32_small by lia.
  case_decide; zcases; lia.
Qed.

Lemma ring_phase n a : 0 < n ->
  (if decide (a mod n + 1 = n) then lnotb ((1 + a / n) mod 2) else (1 + a / n) mod 2)
  = (1 + (a + 1) / n) mod 2.
Proof.
  intros Hn. rewrite div_add_one by lia. case_decide; [|done].
  unfold lnotb. pose proof (Z.mod_pos_bound (1 + a / n) 2).
  replace (1 + (a / n + 1)) with (1 + a / n + 1) by lia.
  rewrite (mod_add_one (1 + a / n) 2) by lia. case_decide; zcases; lia.
Qed.

(** [x mod 2n] from the residue and the parity of the lap. *)
Lemma mod_double n a : 0 < n -> a mod (2 * n) = a mod n + (a / n) mod 2 * n.
Proof.
  intros. rewrite (Z.mul_comm 2 n), Z.rem_mul_r by lia. lia.
Qed.

Lemma sq_advance n E C q : sq_state n E C q -> E - C < n - 1 ->
  let q1 := set_tail (u32 (q_tail q + 1)) q in
  sq_state n (E + 1) C
    (if q_tail q1 =? q_max_entries q1 then set_tail 0 (set_phase (lnotb (q_phase q1)) q1) else q1).
Proof.
  intros [Hsz Hpos Ht Hh Hp Hw] Hlt q1. subst q1. simpl.
  pose proof (ring_next n E Hpos) as Hnext. pose proof (ring_phase n E ltac:(lia)) as Hph.
  pose proof (Z.mod_pos_bound E n ltac:(lia)).
  rewrite Ht, Hsz, u32_small in * by lia.
  destruct (Z.eqb_spec (E mod n + 1) n); [rewrite decide_True in Hph by done|rewrite decide_False in Hph by done];
    constructor; simpl; try done; try congruence; try lia.
Qed.

(** The command identifier an enqueue assigns: the sequence number modulo twice
    the queue size. *)
Lemma sq_cid n E C q : sq_state n E C q ->
  q_tail q + lnotb (q_phase q) * q_max_entries q = E mod (2 * n).
Proof.
  intros [Hsz Hpos Ht Hh Hp Hw]. rewrite Ht, Hp, Hsz, mod_double by lia. f_equal. f_equal.
  unfold lnotb. rewrite (Z.add_comm 1), mod_add_one by lia.
  pose proof (Z.mod_pos_bound (E / n) 2). case_decide; zcases; lia.
Qed.

Lemma sq_enqueue_room k E C q m : 1 <= k <= 15 -> sq_state (2 ^ k) E C q -> E - C < 2 ^ k - 1 ->
  exists q', nvm_sq_enqueue m q
    = Some (q_vaddr q + u32 (q_entry_size q * (E mod 2 ^ k)), q',
            st 2 m (q_vaddr q + u32 (q_entry_size q * (E mod 2 ^ k)) + 2) ((E + 1) mod (2 * 2 ^ k)))
  /\ sq_state (2 ^ k) (E + 1) C q' /\ q_last q' = q_last q /\ q_db q' = q_db q
  /\ q_vaddr q' = q_vaddr q /\ q_entry_size q' = q_entry_size q.
Proof.
  intros Hk Hs Hlt. pose proof (sq_advance _ _ _ _ Hs Hlt) as Ha. simpl in Ha.
  unfold nvm_sq_enqueue. rewrite (sq_full_pow2 k E C q Hk Hs).
  rewrite bool_decide_eq_false_2 by lia.
  destruct Hs as [Hsz Hpos Ht Hh Hp Hw]. rewrite (proj2 (Z.eqb_neq (q_max_entries q) 0)) by lia.
  eexists. split; [|split; [exact Ha|]].
  - rewrite <- Ht. unfold NVM_CMD_CID. do 2 f_equal. rewrite <- (sq_cid _ _ _ _ Ha). done.
  - simpl. destruct (_ =? _); done.
Qed.

(** ** Runs of the submission ring *)

Inductive sq_op := Enqueue | Update.

(** The driver's use of an SQ: outputs are the slots handed out. *)
Fixpoint sq_run (m : mem) (q : nvm_queue_t) (ops : list sq_op) : option (list Z * nvm_queue_t * mem) :=
  match ops with
  | [] => Some ([], q, m)
  | Enqueue :: ops =>
      '(cmd, q, m) ← nvm_sq_enqueue m q; '(out, q, m) ← sq_run m q ops; Some (cmd :: out, q, m)
  | Update :: ops => sq_run m (nvm_sq_update q) ops
  end.

(** The specification: counters only. An [Update] retires the oldest command in
    flight and is allowed only when there is one. *)
Fixpoint fifo_run (n E C : Z) (ops : list sq_op) : option (list (option Z) * Z * Z) :=
  match ops with
  | [] => Some ([], E, C)
  | Enqueue :: ops =>
      if E - C =? n - 1
      then '(out, E', C') ← fifo_run n E C ops; Some (None :: out, E', C')
      else '(out, E', C') ← fifo_run n (E + 1) C ops; Some (Some E :: out, E', C')
  | Update :: ops => if C <? E then fifo_run n E (C + 1) ops else None
  end.

(** The slot of the [i]-th command, or [NULL]. *)
Definition slot_of (q : nvm_queue_t) (n : Z) (o : option Z) : Z :=
  match o with
  | Some i => q_vaddr q + u32 (q_entry_size q * (i mod n))
  | None => NULL
  end.

Lemma sq_update_state n E C q : sq_state n E C q -> C < E ->
  sq_state n E (C + 1) (nvm_sq_update q).
Proof.
  intros [Hsz Hpos Ht Hh Hp Hw] Hlt. unfold nvm_sq_update. simpl.
  pose proof (ring_next n C Hpos) as Hnext. rewrite Hh, Hsz.
  destruct (u32 (C mod n + 1) =? n); constructor; simpl; try done; lia.
Qed.

Lemma sq_enqueue_full k E C q m : 1 <= k <= 15 -> sq_state (2 ^ k) E C q -> E - C = 2 ^ k - 1 ->
  nvm_sq_enqueue m q = Some (NULL, q, m).
Proof.
  intros Hk Hs Hfull. unfold nvm_sq_enqueue. rewrite (sq_full_pow2 k E C q Hk Hs).
  rewrite bool_decide_eq_true_2 by done. destruct Hs as [Hsz Hpos ?? _ _].
  by rewrite (proj2 (Z.eqb_neq (q_max_entries q) 0)) by lia.
Qed.

(** C1: for a power-of-two size the submission ring refines a bounded FIFO: for
    every sequence of enqueues and retirements the code hands out, in order, the
    slots of the commands the FIFO accepts, answers NULL exactly when [n - 1]
    commands are in flight, and ends in the state of the FIFO's counters. *)
Theorem sq_ring_refines_fifo k E C q m ops out E' C' :
  1 <= k <= 15 -> sq_state (2 ^ k) E C q ->
  fifo_run (2 ^ k) E C ops = Some (out, E', C') ->
  exists q' m', sq_run m q ops = Some (slot_of q (2 ^ k) <$> out, q', m')
  /\ sq_state (2 ^ k) E' C' q'.
Proof.
  intros Hk. revert E C q m out. induction ops as [|[] ops IH]; intros E C q m out Hs Hrun.
  - injection Hrun as <- <- <-. by exists q, m.
  - simpl in Hrun. destruct (Z.eqb_spec (E - C) (2 ^ k - 1)) as [Hf|Hf].
    + destruct (fifo_run _ _ _ ops) as [[[o E1] C1]|] eqn:Hr; [|done]. injection Hrun as <- <- <-.
      destruct (IH _ _ _ m _ Hs Hr) as (q' & m' & Hq & Hs'). exists q', m'.
      simpl. rewrite (sq_enqueue_full k E C q m Hk Hs Hf). simpl. by rewrite Hq.
    + destruct (fifo_run _ _ _ ops) as [[[o E1] C1]|] eqn:Hr; [|done]. injection Hrun as <- <- <-.
      destruct (sq_enqueue_room k E C q m Hk Hs) as (q1 & He & Hs1 & _ & _ & Hv & Hes).
      { pose proof (sqs_window _ _ _ _ Hs). lia. }
      match type of He with _ = Some (_, _, ?m1) =>
        destruct (IH _ _ q1 m1 _ Hs1 Hr) as (q' & m' & Hq & Hs') end.
      exists q', m'. split; [|done].
      simpl. rewrite He. simpl. rewrite Hq. simpl.
      assert (slot_of q1 (2 ^ k) <$> o = slot_of q (2 ^ k) <$> o) as ->; [|done].
      apply list_fmap_ext. intros ? [] _; unfold slot_of; by rewrite ?Hv, ?Hes.
  - simpl in Hrun. destruct (Z.ltb_spec C E); [|done].
    destruct (IH _ _ (nvm_sq_update q) m _ (sq_update_state _ _ _ _ Hs ltac:(lia)) Hrun)
      as (q' & m' & Hq & Hs'). exists q', m'. split; [|done]. simpl. rewrite Hq.
    assert (slot_of (nvm_sq_update q) (2 ^ k) <$> out = slot_of q (2 ^ k) <$> out) as ->; [|done].
    apply list_fmap_ext. intros ? [i|] _; [|done]. unfold nvm_sq_update; simpl.
    by destruct (u32 (q_head q + 1) =? q_max_entries q).
Qed.

(** Commands in flight together never share a queue slot or a command
    identifier: for any two sequence numbers of the window the slot offsets and
    the CIDs that [nvm_sq_enqueue] stores differ. *)
Theorem sq_inflight_distinct k E C q m a b :
  1 <= k <= 15 -> sq_state (2 ^ k) E C q -> E - C < 2 ^ k - 1 ->
  C <= a < b -> b <= E ->
  a mod 2 ^ k <> b mod 2 ^ k
  /\ (a + 1) mod (2 * 2 ^ k) <> (b + 1) mod (2 * 2 ^ k)
  /\ exists cmd q' m', nvm_sq_enqueue m q = Some (cmd, q', m')
     /\ ld 2 m' (NVM_CMD_CID cmd) = (E + 1) mod (2 * 2 ^ k).
Proof.
  intros Hk Hs Hlt Ha Hb. pose proof (sqs_window _ _ _ _ Hs) as Hw.
  pose proof (sqs_pos _ _ _ _ Hs) as Hp.
  split; [intros Hm; apply mod_window in Hm; lia|].
  split; [intros Hm; apply mod_window in Hm; lia|].
  destruct (sq_enqueue_room k E C q m Hk Hs Hlt) as (q' & He & _).
  do 3 eexists. split; [exact He|]. unfold NVM_CMD_CID. rewrite ld_st_same.
  pose proof (Z.mod_pos_bound (E + 1) (2 * 2 ^ k) ltac:(lia)).
  assert (2 ^ k <= 2 ^ 15) by (apply Z.pow_le_mono_r; lia).
  apply Z.mod_small. change (2 ^ (8 * Z.of_nat 2)) with 65536. lia.
Qed.

(** The full test is wrong for every other size. If [n] does not divide
    [2^32] (the controller's CAP.MQES + 1 need not be a power of two), a full
    ring whose tail has wrapped around is not recognised as full: one more
    command is accepted and the tail meets the head, which means "empty". *)
Theorem sq_full_missed n E C q m :
  sq_state n E C q -> 2 ^ 32 mod n <> 0 ->
  E - C = n - 1 -> E mod n < C mod n ->
  exists cmd q' m', nvm_sq_enqueue m q = Some (cmd, q', m')
  /\ cmd = q_vaddr q + u32 (q_entry_size q * (E mod n)) /\ q_tail q' = q_head q'.
Proof.
  intros [Hsz Hpos Ht Hh Hp Hw] Hn Hfull Hwrap.
  pose proof (Z.mod_pos_bound E n ltac:(lia)). pose proof (Z.mod_pos_bound C n ltac:(lia)).
  assert (Hnext : (E + 1) mod n = C mod n).
  { replace (E + 1) with (C + 1 * n) by lia. apply Z.mod_add. lia. }
  assert (sq_full q = false) as Hf.
  { unfold sq_full. rewrite Ht, Hh, Hsz, (u32_sub_mod n) by lia. rewrite decide_False by lia.
    apply Z.eqb_neq. intros Heq.
    pose proof (Z.mod_pos_bound (2 ^ 32 + (E mod n - C mod n)) n ltac:(lia)).
    rewrite u16_small in Heq by lia.
    assert ((2 ^ 32 + (E mod n - C mod n) + 1) mod n = 0) as Hz.
    { rewrite mod_add_one by lia. rewrite decide_True by lia. done. }
    apply Hn. rewrite <- Hz.
    replace (2 ^ 32 + (E mod n - C mod n) + 1) with (2 ^ 32 + (E mod n + 1 - C mod n)) by lia.
    rewrite Z.add_mod, Zminus_mod, (Zplus_mod_idemp_l E 1), Hnext, Z.mod_mod, Z.sub_diag by lia.
    rewrite Z.mod_0_l, Z.add_0_r, Z.mod_mod by lia. done. }
  unfold nvm_sq_enqueue. rewrite Hf, (proj2 (Z.eqb_neq (q_max_entries q) 0)) by lia.
  do 3 eexists. split; [reflexivity|]. split; [by rewrite Ht|].
  pose proof (ring_next n E Hpos) as Hr. rewrite Hnext in Hr. simpl. rewrite Ht, Hsz.
  destruct (_ =? _); simpl; congruence.
Qed.

(** ** The completion ring

    The controller writes the [P]-th completion (counting from 0) into slot
    [P mod n] with the phase tag of its lap, and never gets more than [n]
    completions ahead of the host: this is the NVMe contract. A completion is
    14 bytes of payload and a 15-bit status above the phase tag. *)

Definition lap_tag (n i : Z) : Z := (1 + i / n) mod 2.

Definition cq_slot (q : nvm_queue_t) (i : Z) : Z := q_vaddr q + 16 * i.

Definition post_cpl (n : Z) (q : nvm_queue_t) (m : mem) (i payload status : Z) : mem :=
  let a := cq_slot q (i mod n) in
  st 2 (st 14 m a payload) (a + 14) (2 * status + lap_tag n i).

(** How often slot [i] has been written after [P] completions. *)
Definition writes (n P i : Z) : Z := (P + n - 1 - i) / n.

Record cq_state (n P C : Z) (q : nvm_queue_t) : Prop := {
  cqs_size : q_max_entries q = n;
  cqs_entry : q_entry_size q = 16;
  cqs_pos : 2 <= n <= 65535;
  cqs_vaddr : 0 < q_vaddr q;
  cqs_head : q_head q = C mod n;
  cqs_phase : q_phase q = lap_tag n C;
  cqs_window : 0 <= C <= P /\ P <= C + n;
}.

(** Queue memory after the completions [hist] have been posted. *)
Record cq_mem (n C : Z) (hist : list (Z * Z)) (q : nvm_queue_t) (m : mem) : Prop := {
  cqm_tags : forall i, 0 <= i < n ->
    ld 2 m (cq_slot q i + 14) mod 2 = writes n (Z.of_nat (length hist)) i mod 2;
  cqm_data : forall i p s, C <= Z.of_nat i -> hist !! i = Some (p, s) ->
    ld 14 m (cq_slot q (Z.of_nat i mod n)) = p
    /\ ld 2 m (cq_slot q (Z.of_nat i mod n) + 14) / 2 = s;
}.

Lemma lap_tag_bool n i : lap_tag n i = 0 \/ lap_tag n i = 1.
Proof. unfold lap_tag. pose proof (Z.mod_pos_bound (1 + i / n) 2). lia. Qed.

(** Slot [C mod n] carries the tag of lap [C / n] exactly when [C < P]. *)
Lemma writes_at n P C : 0 < n -> 0 <= C <= P -> P <= C + n ->
  writes n P (C mod n) = C / n + (if decide (C < P) then 1 else 0).
Proof.
  intros Hn Hc Hp. unfold writes. pose proof (Z.div_mod C n ltac:(lia)).
  pose proof (Z.mod_pos_bound C n ltac:(lia)). case_decide.
  - symmetry. apply (Z.div_unique_pos _ _ _ (P - C - 1)); lia.
  - symmetry. apply (Z.div_unique_pos _ _ _ (n - 1)); lia.
Qed.

Lemma RB_bit0 v : _RB v 0 0 = v mod 2.
Proof. rewrite RB_spec by lia. by rewrite Z.pow_0_r, Z.div_1_r. Qed.

Lemma booln_bit v : booln (v mod 2) = v mod 2.
Proof. pose proof (Z.mod_pos_bound v 2). unfold booln. zcases; lia. Qed.

Lemma cq_head_slot n P C q : cq_state n P C q ->
  q_vaddr q + u32 (q_entry_size q * q_head q) = cq_slot q (C mod n).
Proof.
  intros [? He Hpos _ Hh _ _]. unfold cq_slot. rewrite He, Hh.
  pose proof (Z.mod_pos_bound C n). by rewrite u32_small by lia.
Qed.

Lemma cq_poll_spec n C hist q m :
  cq_state n (Z.of_nat (length hist)) C q -> cq_mem n C hist q m ->
  nvm_cq_poll m q = if decide (C < Z.of_nat (length hist)) then cq_slot q (C mod n) else NULL.
Proof.
  intros Hs Hm. unfold nvm_cq_poll. rewrite (cq_head_slot _ _ _ _ Hs).
  pose proof (cqs_pos _ _ _ _ Hs). pose proof (cqs_window _ _ _ _ Hs).
  pose proof (Z.mod_pos_bound C n ltac:(lia)).
  unfold NVM_CPL_STATUS. rewrite RB_bit0, booln_bit, (cqm_tags _ _ _ _ _ Hm) by lia.
  rewrite writes_at by lia. rewrite (cqs_phase _ _ _ _ Hs). unfold lap_tag.
  case_decide.
  - rewrite Z.add_comm, Z.eqb_refl. done.
  - rewrite Z.add_0_r, (Z.add_comm 1), (mod_add_one (C / n) 2) by lia.
    pose proof (Z.mod_pos_bound (C / n) 2). case_decide; zcases; try lia; done.
Qed.

Lemma cq_dequeue_state n P C q : cq_state n P C q -> C < P ->
  let q1 := set_head (u32 (q_head q + 1)) q in
  cq_state n P (C + 1)
    (if q_head q1 =? q_max_entries q1 then set_phase (lnotb (q_phase q1)) (set_head 0 q1) else q1).
Proof.
  intros [Hsz He Hpos Hv Hh Hp Hw] Hlt q1. subst q1. simpl.
  pose proof (ring_next n C Hpos) as Hnext. pose proof (ring_phase n C ltac:(lia)) as Hph.
  pose proof (Z.mod_pos_bound C n ltac:(lia)).
  unfold lap_tag in *. rewrite Hh, Hsz, u32_small in * by lia.
  destruct (Z.eqb_spec (C mod n + 1) n);
    [rewrite decide_True in Hph by done|rewrite decide_False in Hph by done];
    constructor; simpl; try done; try congruence; try lia.
  - unfold lap_tag. congruence.
  - unfold lap_tag. congruence.
Qed.

Lemma writes_succ n P i : 0 < n -> 0 <= i < n -> 0 <= P ->
  writes n (P + 1) i = writes n P i + (if decide (i = P mod n) then 1 else 0).
Proof.
  intros Hn Hi HP. unfold writes. replace (P + 1 + n - 1 - i) with (P + n - 1 - i + 1) by lia.
  rewrite div_add_one by lia.
  assert ((P + n - 1 - i) mod n + 1 = n <-> i = P mod n) as Hiff.
  { pose proof (Z.mod_pos_bound P n ltac:(lia)). pose proof (Z.div_mod P n ltac:(lia)).
    destruct (decide (i <= P mod n)).
    - destruct (decide (i = P mod n)).
      + rewrite <- (Z.mod_unique_pos (P + n - 1 - i) n (P / n) (n - 1)); lia.
      + rewrite <- (Z.mod_unique_pos (P + n - 1 - i) n (P / n + 1) (P mod n - 1 - i)); lia.
    - rewrite <- (Z.mod_unique_pos (P + n - 1 - i) n (P / n) (P mod n + n - 1 - i)); lia. }
  repeat case_decide; lia.
Qed.

(** Posting a completion into a ring with room keeps the memory invariant. *)
Lemma post_cpl_mem n C hist q m p s :
  2 <= n <= 65535 -> 0 <= C -> Z.of_nat (length hist) < C + n ->
  p in_u 112 -> s in_u 15 -> cq_mem n C hist q m ->
  cq_mem n C (hist ++ [(p, s)]) q (post_cpl n q m (Z.of_nat (length hist)) p s).
Proof.
  intros Hn HC Hroom Hp Hs [Htag Hdata]. set (P := Z.of_nat (length hist)) in *.
  pose proof (Z.mod_pos_bound P n ltac:(lia)) as HPn. pose proof (lap_tag_bool n P) as Hlt.
  assert (Hst : (2 * s + lap_tag n P) mod 2 ^ (8 * Z.of_nat 2) = 2 * s + lap_tag n P)
    by (apply Z.mod_small; change (2 ^ (8 * Z.of_nat 2)) with 65536; lia).
  constructor.
  - intros i Hi. rewrite length_app. simpl length. rewrite Nat2Z.inj_add. fold P.
    rewrite writes_succ by lia. unfold post_cpl, cq_slot.
    destruct (decide (i = P mod n)) as [->|Hne].
    + rewrite ld_st_same, Hst. rewrite writes_at by lia. rewrite decide_False by lia.
      rewrite Z.add_0_r. unfold lap_tag.
      rewrite Z.add_comm, Z.mul_comm, Z.mod_add, Z.mod_mod by lia. f_equal. lia.
    + rewrite !ld_st_disjoint by lia. rewrite Z.add_0_r. by apply Htag.
  - intros i p' s' Hi Hl. unfold post_cpl, cq_slot.
    destruct (decide (i = length hist)) as [->|Hne].
    + rewrite lookup_app_r, Nat.sub_diag in Hl by lia. injection Hl as -> ->. fold P.
      rewrite ld_st_disjoint by lia. rewrite !ld_st_same, Hst. split.
      * apply Z.mod_small. done.
      * rewrite Z.add_comm, Z.mul_comm, Z.div_add by lia. rewrite Z.div_small by lia. lia.
    + assert (i < length hist)%nat as Hi'.
      { apply lookup_lt_Some in Hl. rewrite length_app in Hl. simpl in Hl. lia. }
      rewrite lookup_app_l in Hl by done.
      assert (Z.of_nat i mod n <> P mod n) by (intros Hm; apply mod_window in Hm; lia).
      pose proof (Z.mod_pos_bound (Z.of_nat i) n ltac:(lia)).
      rewrite !ld_st_disjoint by lia. by apply Hdata.
Qed.

(** ** Host and controller interleaved *)

(** [cs_posted] is everything the controller has completed, [cs_seen] what the
    host has dequeued. *)
Record cq_sys := CqSys {
  cs_mem : mem; cs_q : nvm_queue_t; cs_posted : list (Z * Z); cs_seen : list (Z * Z);
}.

Inductive cq_step (n : Z) : cq_sys -> cq_sys -> Prop :=
  | step_post m q posted seen p s :
      Z.of_nat (length posted) < Z.of_nat (length seen) + n ->
      p in_u 112 -> s in_u 15 ->
      cq_step n (CqSys m q posted seen)
        (CqSys (post_cpl n q m (Z.of_nat (length posted)) p s) q (posted ++ [(p, s)]) seen)
  | step_dequeue m q posted seen cpl q' :
      nvm_cq_dequeue m q = (cpl, q') -> cpl <> NULL ->
      cq_step n (CqSys m q posted seen)
        (CqSys m q' posted (seen ++ [(ld 14 m cpl, ld 2 m (cpl + 14) / 2)]))
  | step_empty m q posted seen q' :
      nvm_cq_dequeue m q = (NULL, q') ->
      cq_step n (CqSys m q posted seen) (CqSys m q' posted seen).

Definition cq_inv (n : Z) (x : cq_sys) : Prop :=
  cq_state n (Z.of_nat (length (cs_posted x))) (Z.of_nat (length (cs_seen x))) (cs_q x)
  /\ cq_mem n (Z.of_nat (length (cs_seen x))) (cs_posted x) (cs_q x) (cs_mem x)
  /\ cs_seen x `prefix_of` cs_posted x.

(** A cleared queue over zeroed memory. *)
Definition cq_init (n : Z) (x : cq_sys) : Prop :=
  2 <= n <= 65535 /\ 0 < q_vaddr (cs_q x) /\ q_entry_size (cs_q x) = 16
  /\ q_max_entries (cs_q x) = n /\ q_head (cs_q x) = 0 /\ q_phase (cs_q x) = 1
  /\ cs_posted x = [] /\ cs_seen x = []
  /\ forall b, q_vaddr (cs_q x) <= b < q_vaddr (cs_q x) + 16 * n -> ld8 (cs_mem x) b = 0.

Lemma cq_init_inv n x : cq_init n x -> cq_inv n x.
Proof.
  intros (Hn & Hv & He & Hsz & Hh & Hp & Hpo & Hse & Hz). unfold cq_inv. rewrite Hpo, Hse. simpl.
  split; [|split].
  - constructor; unfold lap_tag; rewrite ?Hh, ?Hp, ?Z.mod_0_l, ?Z.div_0_l by lia; done || lia.
  - constructor; [|done]. intros i Hi. simpl.
    rewrite ld_zero by (intros; unfold cq_slot; rewrite <- Z.add_assoc; apply Hz; simpl in *; lia).
    unfold writes. by rewrite Z.div_small by lia.
  - apply prefix_nil.
Qed.

Lemma prefix_snoc_lookup {A} (l k : list A) x :
  l `prefix_of` k -> k !! length l = Some x -> (l ++ [x]) `prefix_of` k.
Proof.
  intros [r ->] Hx. rewrite lookup_app_r, Nat.sub_diag in Hx by lia.
  destruct r as [|y r]; [done|]. injection Hx as ->. exists r. by rewrite <- app_assoc.
Qed.

Lemma cq_mem_queue n C C' hist q q' m : q_vaddr q' = q_vaddr q -> C <= C' ->
  cq_mem n C hist q m -> cq_mem n C' hist q' m.
Proof.
  intros Hv HC [Ht Hd]. constructor; unfold cq_slot in *; rewrite Hv; [done|].
  intros i p s Hi. apply Hd. lia.
Qed.

Lemma cq_step_inv n x y : cq_inv n x -> cq_step n x y -> cq_inv n y.
Proof.
  intros (Hs & Hm & Hpre) Hstep. destruct Hstep as [m q posted seen p s Hroom Hp Hst
    |m q posted seen cpl q' Hdq Hne|m q posted seen q' Hdq]; simpl in *.
  - split; [|split]; simpl; [|apply post_cpl_mem; try done; [apply Hs|lia]|by apply prefix_app_r].
    rewrite length_app. destruct Hs. constructor; try done. simpl. lia.
  - unfold nvm_cq_dequeue in Hdq. rewrite (cq_poll_spec _ _ _ _ _ Hs Hm) in Hdq.
    case_decide as Hlt; [|simpl in Hdq; congruence].
    pose proof (cqs_vaddr _ _ _ _ Hs). pose proof (cqs_pos _ _ _ _ Hs).
    pose proof (Z.mod_pos_bound (Z.of_nat (length seen)) n ltac:(lia)).
    unfold NULL in Hdq. rewrite (proj2 (Z.eqb_neq (cq_slot _ _) 0)) in Hdq by (unfold cq_slot; lia).
    simpl negb in Hdq. injection Hdq as <- <-.
    pose proof (cq_dequeue_state _ _ _ _ Hs Hlt) as Hs'. simpl in Hs'.
    destruct (posted !! length seen) as [[p s]|] eqn:Hl; [|apply lookup_ge_None in Hl; lia].
    destruct (cqm_data _ _ _ _ _ Hm _ p s ltac:(reflexivity) Hl) as [Hp Hst].
    unfold cq_inv; simpl. rewrite Hp, Hst, length_app, Nat2Z.inj_add. simpl length.
    split; [exact Hs'|]. split.
    + eapply cq_mem_queue; [| |exact Hm]; [by destruct (_ =? _)|lia].
    + by apply prefix_snoc_lookup.
  - unfold nvm_cq_dequeue in Hdq. destruct (nvm_cq_poll m q =? NULL) eqn:E; simpl in Hdq;
      [|injection Hdq; intros; zbool; congruence].
    injection Hdq as _ <-. done.
Qed.

(** C4: in every interleaving of a controller posting completions and a host
    calling [nvm_cq_dequeue] on a cleared, zeroed queue, the host sees the
    completions in the order they were posted, each exactly once and with its
    contents intact; the next dequeue returns one exactly when some are unseen. *)
Theorem cq_fifo n x y :
  cq_init n x -> rtc (cq_step n) x y ->
  cs_seen y `prefix_of` cs_posted y
  /\ (fst (nvm_cq_dequeue (cs_mem y) (cs_q y)) <> NULL
      <-> (length (cs_seen y) < length (cs_posted y))%nat).
Proof.
  intros Hinit Hsteps. assert (cq_inv n y) as (Hs & Hm & Hpre).
  { apply cq_init_inv in Hinit. induction Hsteps; eauto using cq_step_inv. }
  split; [done|]. unfold nvm_cq_dequeue. rewrite (cq_poll_spec _ _ _ _ _ Hs Hm).
  pose proof (cqs_vaddr _ _ _ _ Hs). pose proof (cqs_pos _ _ _ _ Hs).
  pose proof (Z.mod_pos_bound (Z.of_nat (length (cs_seen y))) n ltac:(lia)).
  case_decide; simpl; [|split; [done|lia]].
  unfold NULL. rewrite (proj2 (Z.eqb_neq (cq_slot _ _) 0)) by (unfold cq_slot; lia). simpl.
  unfold cq_slot. split; intros; lia.
Qed.

(** ** Blocking dequeue *)

(** Nanoseconds slept so far. *)
Fixpoint slept (l : list (call * resp)) : Z :=
  match l with
  | [] => 0
  | (Clock_nanosleep ns, _) :: l' => slept l' + ns
  | _ :: l' => slept l'
  end.

Lemma cq_dequeue_null m cq : fst (nvm_cq_dequeue m cq) = NULL -> snd (nvm_cq_dequeue m cq) = cq.
Proof. unfold nvm_cq_dequeue. destruct (Z.eqb_spec (nvm_cq_poll m cq) NULL); simpl; congruence. Qed.

(** Between [w] and [w'] the program did nothing but sleep. *)
Definition is_sleep (c : call * resp) : Prop := exists ns, fst c = Clock_nanosleep ns.
Definition only_slept (w w' : uworld) : Prop :=
  exists l, w_log w' = l ++ w_log w /\ Forall is_sleep l.

Lemma only_slept_refl w : only_slept w w.
Proof. exists []. done. Qed.

Lemma only_slept_step e w ns w' :
  only_slept (after e w (Clock_nanosleep ns)) w' -> only_slept w w'.
Proof.
  intros (l & E & Hl). exists (l ++ [(Clock_nanosleep ns, fst (e_resp e w (Clock_nanosleep ns)))]).
  split; [by rewrite E, <- app_assoc|]. apply Forall_app. split; [done|]. constructor; [|done]. by exists ns.
Qed.

(** What is known when the wait ends: the result is one more poll of the final
    memory, the sleeps add up, and heap and queue are untouched otherwise. *)
Definition waited (w : uworld) (cq : nvm_queue_t) (nsecs : Z) (r : Z * nvm_queue_t) (w' : uworld) : Prop :=
  r = nvm_cq_dequeue (w_mem w') cq /\ w_st w' = w_st w
  /\ slept (w_log w) <= slept (w_log w') <= slept (w_log w) + nsecs
  /\ (fst r = NULL -> slept (w_log w') = slept (w_log w) + nsecs)
  /\ Z.of_nat (length (w_log w')) <= Z.of_nat (length (w_log w)) + (nsecs + 999999) / 1000000
  /\ moved w w' (fun _ => 0) /\ only_slept w w'.

Lemma waited_now w cq nsecs r :
  r = nvm_cq_dequeue (w_mem w) cq -> 0 <= nsecs -> (fst r <> NULL \/ nsecs = 0) ->
  waited w cq nsecs r w.
Proof.
  intros Hr Hn Hz. split; [done|]. split; [done|]. split; [lia|]. split; [intros; lia|].
  split; [|split; [apply moved_refl|apply only_slept_refl]]. Z.to_euclidean_division_equations; lia.
Qed.

(** One millisecond step of the wait. *)
Lemma waited_step e w cq nsecs r w' :
  0 < nsecs < 2 ^ 64 ->
  waited (after e w (Clock_nanosleep (delay_slice nsecs))) cq (delay_rest nsecs) r w' ->
  waited w cq nsecs r w'.
Proof.
  intros Hn (-> & Hst & Hs & Hs0 & Hlen & Hb & Ho%only_slept_step). simpl in *.
  pose proof (delay_slice_rest nsecs ltac:(lia)). pose proof (delay_rest_spec nsecs ltac:(lia)) as Hr.
  rewrite Hr in *.
  assert (0 <= delay_slice nsecs) by (unfold delay_slice, _MIN; zcases; lia).
  split; [done|]. split; [done|]. split; [lia|].
  split; [intros Hz; specialize (Hs0 Hz); lia|].
  split; [|split; [intros κ; rewrite (Hb κ), bal_after; unfold delta, udelta; lia|done]].
  rewrite Nat2Z.inj_succ in Hlen. Z.to_euclidean_division_equations; lia.
Qed.

Lemma dequeue_block_loop_spec e fuel w cq cpl cq1 nsecs :
  0 <= nsecs < 2 ^ 64 -> nsecs <= Z.of_nat fuel * 1000000 ->
  (cpl, cq1) = nvm_cq_dequeue (w_mem w) cq ->
  wp e (dequeue_block_loop fuel cpl nsecs cq1) w (waited w cq nsecs).
Proof.
  revert w cpl cq1 nsecs. induction fuel as [|fuel IH]; intros w cpl cq1 nsecs Hns Hf Hd.
  - assert (nsecs = 0) as -> by lia. simpl. rewrite andb_false_r. apply wp_ret.
    apply waited_now; auto; lia.
  - simpl dequeue_block_loop. rewrite Z.gtb_ltb.
    destruct (Z.eqb_spec cpl NULL) as [->|Hne]; simpl; [|apply wp_ret, waited_now; auto; lia].
    destruct (Z.ltb_spec 0 nsecs); [|apply wp_ret, waited_now; auto; lia].
    assert (cq1 = cq) as ->.
    { pose proof (cq_dequeue_null (w_mem w) cq) as Hn. rewrite <- Hd in Hn. by apply Hn. }
    unfold _nvm_delay_remain, poll_dequeue. rewrite (proj2 (Z.eqb_neq nsecs 0)) by lia.
    repeat wp_step. simpl. eapply wp_mono; [|intros r w'; apply (waited_step e); lia].
    rewrite delay_rest_spec by done.
    apply IH; [lia|lia|]. simpl. symmetry. apply surjective_pairing.
Qed.

Lemma dequeue_block_spec e w cq timeout :
  wp e (nvm_cq_dequeue_block cq timeout) w (waited w cq (u64 (timeout * 1000000))).
Proof.
  unfold nvm_cq_dequeue_block, poll_dequeue. repeat wp_step.
  pose proof (u64_bound (timeout * 1000000)) as Hb.
  apply dequeue_block_loop_spec; [lia| |symmetry; apply surjective_pairing].
  pose proof (Z.div_mod (u64 (timeout * 1000000)) 1000000 ltac:(lia)).
  pose proof (Z.mod_pos_bound (u64 (timeout * 1000000)) 1000000 ltac:(lia)).
  pose proof (Z.div_pos (u64 (timeout * 1000000)) 1000000 ltac:(lia) ltac:(lia)). lia.
Qed.

(** C30: [nvm_cq_dequeue_block] always returns, whatever the controller does:
    it does nothing but sleep, at most the timeout, in at most one call per
    started millisecond; its result is what [nvm_cq_dequeue] gives on the final
    queue memory, and it gives up with NULL only after sleeping the whole timeout. *)
Theorem dequeue_block_total e w cq timeout :
  exists r w', run (nvm_cq_dequeue_block cq timeout) e w = Ok r w'
  /\ waited w cq (u64 (timeout * 1000000)) r w'.
Proof. apply wp_run, dequeue_block_spec. Qed.

(** ** A cleared queue *)

Lemma queue_clear_sq_state ctrl no vaddr ioaddr :
  2 <= _MIN (ctrl_max_entries ctrl) (ctrl_page_size ctrl / 64) <= 65535 ->
  sq_state (_MIN (ctrl_max_entries ctrl) (ctrl_page_size ctrl / 64)) 0 0
    (nvm_queue_clear ctrl false no vaddr ioaddr).
Proof.
  intros. constructor; simpl; rewrite ?Z.mod_0_l, ?Z.div_0_l by lia; try done; try lia.
  apply u16_small. unfold sizeof_cmd. lia.
Qed.

(** ** Witnesses *)

(** A submission queue of [n] entries after [E] enqueues and [C] retirements. *)
Definition sample_sq (n E C : Z) : nvm_queue_t :=
  Queue 1 n 64 (C mod n) (E mod n) ((1 + E / n) mod 2) 0 0 0x10000 0x10000.

Lemma sample_sq_state n E C : 2 <= n <= 65535 -> 0 <= C <= E -> E - C <= n - 1 ->
  sq_state n E C (sample_sq n E C).
Proof. intros. constructor; simpl; done || lia. Qed.

Lemma sq_ring_refines_fifo_witness :
  exists q' m', sq_run empty (sample_sq (2 ^ 2) 0 0)
    [Enqueue; Enqueue; Enqueue; Enqueue; Update; Enqueue; Update; Update; Enqueue; Enqueue]
  = Some ([0x10000; 0x10040; 0x10080; NULL; 0x100c0; 0x10000; 0x10040], q', m').
Proof.
  destruct (sq_ring_refines_fifo 2 0 0 (sample_sq (2 ^ 2) 0 0) empty
    [Enqueue; Enqueue; Enqueue; Enqueue; Update; Enqueue; Update; Update; Enqueue; Enqueue]
    [Some 0; Some 1; Some 2; None; Some 3; Some 4; Some 5] 6 3) as (q' & m' & Hr & _);
    [lia|apply sample_sq_state; lia|reflexivity|].
  exists q', m'. rewrite Hr. reflexivity.
Defined.

Lemma sq_inflight_distinct_witness : 5 mod 2 ^ 2 <> 6 mod 2 ^ 2.
Proof.
  apply (sq_inflight_distinct 2 6 4 (sample_sq (2 ^ 2) 6 4) empty 5 6);
    [lia|apply sample_sq_state; lia|lia|lia|lia].
Defined.

(** A ring of three entries: two commands in flight, the tail wrapped around. *)
Lemma sq_full_missed_witness :
  exists cmd q' m', nvm_sq_enqueue empty (sample_sq 3 3 1) = Some (cmd, q', m')
  /\ cmd = 0x10000 /\ q_tail q' = q_head q'.
Proof.
  apply (sq_full_missed 3 3 1 (sample_sq 3 3 1) empty);
    [apply sample_sq_state; lia|done|reflexivity|reflexivity].
Defined.

Definition sample_cq : nvm_queue_t := Queue 1 4 16 0 0 1 0 0 0x10000 0x10000.

Lemma cq_fifo_witness :
  fst (nvm_cq_dequeue (post_cpl 4 sample_cq empty 0 7 3) sample_cq) <> NULL.
Proof.
  apply (cq_fifo 4 (CqSys empty sample_cq [] [])
           (CqSys (post_cpl 4 sample_cq empty 0 7 3) sample_cq [(7, 3)] [])); [| |simpl; lia].
  - repeat split; simpl; lia || reflexivity.
  - apply rtc_once. apply (step_post 4 empty sample_cq [] [] 7 3); simpl; lia.
Defined.
