(* ===== verification/DisDevice.v ===== *)
(** * SISCI devices, device memory and local segments

    [src/dis/device.c] and [src/dis/local.c]. A descriptor is returned by value
    next to the status code; a pointer argument the code tests against NULL is
    an [option]. *)
From S2P Require Import Prelude Memory Effects Types Runtime.

(** ** [src/dis/device.c] *)

Definition device0 : device := Device 0 0 0.

(** With a null [dev] nothing is written; the descriptor returned is a placeholder. *)
Definition _nvm_device_get (dev : option device) (dev_id : Z) : UM (Z * device) :=
  match dev with
  | None => mret (EINVAL, device0)
  | Some dev =>
      r ← ext SCIOpen;
      let dev := Device (r_val r) dev_id (dev_device dev) in
      if is_ok (r_sci r) then
        b ← ext (SCIBorrowDevice (dev_sd dev) dev_id);
        let dev := Device (dev_sd dev) dev_id (r_val b) in
        if is_ok (r_sci b) then mret (0, dev)
        else ext (SCIClose (dev_sd dev));; mret (ENODEV, dev)
      else mret (EIO, dev)
  end.

Definition _nvm_device_put (dev : option device) : UM unit :=
  match dev with
  | Some dev => ext (SCIReturnDevice (dev_device dev));; ext (SCIClose (dev_sd dev));; mret tt
  | None => mret tt
  end.

Definition device_memory0 : device_memory := DeviceMemory device0 0 0 0 [].

Definition _nvm_device_memory_get (mem : device_memory) (dev : device)
    (adapter segment_no : Z) (flags : list sci_flag) : UM (Z * device_memory) :=
  '(status, d) ← _nvm_device_get (Some (dm_device mem)) (dev_device_id dev);
  if negb (status =? 0) then mret (status, mem)
  else
    r ← ext (SCIConnectDeviceMemory (dev_sd d) adapter (dev_device d) segment_no flags);
    let mem := DeviceMemory d adapter segment_no (r_val r) flags in
    if is_ok (r_sci r) then mret (0, mem)
    else _nvm_device_put (Some d);; mret (ENODEV, mem).

Definition _nvm_device_memory_put (mem : device_memory) : UM unit :=
  retry (SCIDisconnectSegment (dm_segment mem));;
  _nvm_device_put (Some (dm_device mem)).

(** ** [src/dis/local.c] *)

Definition local_memory0 : local_memory := LocalMemory 0 0 0 0 [].

Definition create_segment (id size : Z) (flags : list sci_flag) : UM (Z * local_memory) :=
  r ← ext SCIOpen;
  if is_ok (r_sci r) then
    s ← ext (SCICreateSegment (r_val r) id size flags);
    let m := LocalMemory (r_val r) (r_val s) id 0 flags in
    status ← (if is_ok (r_sci s) then mret SCI_ERR_OK
              else ext (SCIClose (lm_sd m));; mret (r_sci s));
    match status with
    | SCI_ERR_OK => mret (0, m)
    | SCI_ERR_SEGMENTID_USED => mret (EEXIST, m)
    | _ => mret (EIO, m)
    end
  else mret (EIO, LocalMemory (r_val r) 0 id 0 flags).

Definition _nvm_local_memory_put (mem : local_memory) : UM unit :=
  retry (SCIRemoveSegment (lm_segment mem));; mret tt.

Definition _nvm_local_memory_get (id size : Z) : UM (Z * local_memory) :=
  '(err, m) ← create_segment id size [];
  if negb (err =? 0) then mret (err, m) else mret (0, m).

Definition _nvm_local_memory_get_attached (id ptr size : Z) : UM (Z * local_memory) :=
  '(status, m) ← create_segment id size [SCI_FLAG_EMPTY];
  if negb (status =? 0) then mret (status, m)
  else
    r ← ext (SCIAttachPhysicalMemory ptr size (lm_segment m) [SCI_FLAG_CUDA_BUFFER]);
    if is_ok (r_sci r) then mret (0, m)
    else _nvm_local_memory_put m;; mret (EIO, m).

(** ** What the operations own *)

Definition device_owns (d : device) (κ : key) : Z :=
  one (KSd (dev_sd d)) κ + one (KDevice (dev_device d)) κ.

Definition device_memory_owns (m : device_memory) (κ : key) : Z :=
  device_owns (dm_device m) κ + one (KRemoteSegment (dm_segment m)) κ.

(** A local segment owns its SISCI descriptor as well as the segment. *)
Definition local_memory_owns (m : local_memory) (κ : key) : Z :=
  one (KSd (lm_sd m)) κ + one (KLocalSegment (lm_segment m)) κ.

(** ** Contracts *)

Section contracts.
Context (e : uenv).

Lemma device_get_acquires dev dev_id : acquires e (_nvm_device_get dev dev_id) device_owns.
Proof. unfold _nvm_device_get, device_owns. destruct dev; contract. Qed.

Lemma device_put_gives_back d : gives_back e (_nvm_device_put (Some d)) (device_owns d).
Proof. unfold _nvm_device_put, device_owns. contract. Qed.

#[local] Hint Resolve device_get_acquires device_put_gives_back : contracts.

Lemma device_memory_get_acquires mem dev adapter segno flags :
  acquires e (_nvm_device_memory_get mem dev adapter segno flags) device_memory_owns.
Proof. unfold _nvm_device_memory_get, device_memory_owns. contract. Qed.

Lemma create_segment_acquires id size flags :
  acquires e (create_segment id size flags) local_memory_owns.
Proof. unfold create_segment, local_memory_owns. contract. Qed.

#[local] Hint Resolve create_segment_acquires : contracts.

Lemma local_memory_get_acquires id size :
  acquires e (_nvm_local_memory_get id size) local_memory_owns.
Proof. unfold _nvm_local_memory_get. contract. Qed.

(** Releases retry while SISCI answers [SCI_ERR_BUSY]. *)
Hypothesis Hbusy : busy_bounded e.

Lemma device_memory_put_gives_back mem :
  gives_back e (_nvm_device_memory_put mem) (device_memory_owns mem).
Proof. unfold _nvm_device_memory_put, device_memory_owns. contract. Qed.

(** [_nvm_local_memory_put] removes the segment only: the SISCI descriptor that
    [create_segment] opened stays open. *)
Lemma local_memory_put_gives_back mem :
  gives_back e (_nvm_local_memory_put mem) (one (KLocalSegment (lm_segment mem))).
Proof. unfold _nvm_local_memory_put. contract. Qed.

End contracts.

#[export] Hint Resolve device_get_acquires device_put_gives_back device_memory_get_acquires
  create_segment_acquires local_memory_get_acquires device_memory_put_gives_back
  local_memory_put_gives_back : contracts.
