(* ===== verification/DisMap.v ===== *)
(** * Mapping segments for the host and for the device ([src/dis/map.c], [map.h]) *)
From S2P Require Import Prelude Memory Effects Types Runtime DisDevice.

(** ** [src/dis/map.h] *)

Definition VA_MAP_CLEAR (m : va_map) : va_map := VaMap VA_MAP_NOT_MAPPED (va_md m) NULL.
Definition VA_MAP_INIT : va_map := VaMap VA_MAP_NOT_MAPPED NULL NULL.
Definition IO_MAP_CLEAR (m : io_map) : io_map :=
  IoMap IO_MAP_NOT_MAPPED (io_lsegment m) (io_rsegment m) (io_device m) (io_adapter m) 0.
Definition IO_MAP_INIT : io_map := IoMap IO_MAP_NOT_MAPPED NULL NULL NULL 0 0.

(** ** Virtual address mappings *)

Definition _nvm_va_map_local (size segment : Z) : UM (Z * va_map) :=
  r ← ext (SCIMapLocalSegment segment size);
  match r_sci r with
  | SCI_ERR_OK => mret (0, VaMap VA_MAP_MAPPED_LOCAL (r_val2 r) (r_val r))
  | SCI_ERR_OUT_OF_RANGE | SCI_ERR_SIZE_ALIGNMENT | SCI_ERR_OFFSET_ALIGNMENT =>
      mret (EINVAL, VaMap VA_MAP_NOT_MAPPED (r_val2 r) (r_val r))
  | _ => mret (EIO, VaMap VA_MAP_NOT_MAPPED (r_val2 r) (r_val r))
  end.

Definition _nvm_va_map_remote (size segment : Z) (write wc : bool) : UM (Z * va_map) :=
  let flags := (if negb write then [SCI_FLAG_READONLY_MAP] else [])
               ++ (if negb wc then [SCI_FLAG_IO_MAP_IOSPACE] else []) in
  r ← ext (SCIMapRemoteSegment segment size flags);
  match r_sci r with
  | SCI_ERR_OK => mret (0, VaMap VA_MAP_MAPPED_REMOTE (r_val2 r) (r_val r))
  | SCI_ERR_OUT_OF_RANGE | SCI_ERR_SIZE_ALIGNMENT | SCI_ERR_OFFSET_ALIGNMENT =>
      mret (EINVAL, VaMap VA_MAP_NOT_MAPPED (r_val2 r) (r_val r))
  | SCI_ERR_NOT_CONNECTED => mret (ENOTCONN, VaMap VA_MAP_NOT_MAPPED (r_val2 r) (r_val r))
  | _ => mret (EIO, VaMap VA_MAP_NOT_MAPPED (r_val2 r) (r_val r))
  end.

Definition _nvm_va_unmap (m : va_map) : UM va_map :=
  match va_type m with
  | VA_MAP_MAPPED_LOCAL | VA_MAP_MAPPED_REMOTE => retry (SCIUnmapSegment (va_md m));; mret tt
  | VA_MAP_NOT_MAPPED => mret tt
  end;;
  mret (VaMap VA_MAP_NOT_MAPPED (va_md m) (va_vaddr m)).

(** ** Device mappings *)

Definition _nvm_io_map_local (device segment adapter : Z) : UM (Z * io_map) :=
  let m t io := IoMap t segment NULL device adapter io in
  r ← ext (SCISetSegmentAvailable segment adapter);
  match r_sci r with
  | SCI_ERR_OK =>
      r ← ext (SCIMapLocalSegmentForDevice segment adapter device);
      if is_ok (r_sci r) then mret (0, m IO_MAP_MAPPED_LOCAL (r_val r))
      else mret (EIO, m IO_MAP_NOT_MAPPED (r_val r))
  | SCI_ERR_ILLEGAL_OPERATION | SCI_ERR_SEGMENT_NOT_PREPARED =>
      mret (EINVAL, m IO_MAP_NOT_MAPPED 0)
  | _ => mret (EIO, m IO_MAP_NOT_MAPPED 0)
  end.

Definition _nvm_io_map_remote (device segment : Z) : UM (Z * io_map) :=
  let m t io := IoMap t NULL segment device 0 io in
  r ← ext (SCIMapRemoteSegmentForDevice segment device);
  if is_ok (r_sci r) then mret (0, m IO_MAP_MAPPED_REMOTE (r_val r))
  else mret (EIO, m IO_MAP_NOT_MAPPED (r_val r)).

Definition _nvm_io_unmap (m : io_map) : UM io_map :=
  match io_type m with
  | IO_MAP_NOT_MAPPED => mret tt
  | IO_MAP_MAPPED_LOCAL =>
      retry (SCIUnmapLocalSegmentForDevice (io_lsegment m) (io_adapter m) (io_device m));; mret tt
  | IO_MAP_MAPPED_REMOTE =>
      retry (SCIUnmapRemoteSegmentForDevice (io_rsegment m) (io_device m));; mret tt
  end;;
  mret (IoMap IO_MAP_NOT_MAPPED (io_lsegment m) (io_rsegment m) (io_device m)
          (io_adapter m) (io_ioaddr m)).

Definition _nvm_io_map_device_memory (mem : device_memory) : UM (Z * io_map) :=
  _nvm_io_map_remote (dev_device (dm_device mem)) (dm_segment mem).

(** [m0] is the descriptor before the call: a failed [SCIPrepareSegment] leaves it. *)
Definition _nvm_io_map_local_memory (m0 : io_map) (dev : device) (mem : local_memory)
    (adapter : Z) : UM (Z * io_map) :=
  r ← ext (SCIPrepareSegment (lm_segment mem) adapter);
  if is_ok (r_sci r) then _nvm_io_map_local (dev_device dev) (lm_segment mem) adapter
  else mret (ENOSPC, m0).

(** ** Ownership and contracts *)

Definition va_map_owns (m : va_map) (κ : key) : Z :=
  match va_type m with
  | VA_MAP_NOT_MAPPED => 0
  | _ => one (KVaMap (va_md m)) κ
  end.

Definition io_map_owns (m : io_map) (κ : key) : Z :=
  match io_type m with
  | IO_MAP_NOT_MAPPED => 0
  | IO_MAP_MAPPED_LOCAL => one (KIoLocal (io_lsegment m) (io_adapter m) (io_device m)) κ
  | IO_MAP_MAPPED_REMOTE => one (KIoRemote (io_rsegment m) (io_device m)) κ
  end.

(** Simplify the ownership of descriptors whose state is known. *)
#[global] Arguments va_map_owns !m κ /.
#[global] Arguments io_map_owns !m κ /.

(** A failed mapping leaves a descriptor that owns nothing, so that unmapping it
    on an error path is harmless: mapping [acquires] what its descriptor owns in
    every case. *)
Definition maps {A} (e : uenv) (m : UM (Z * A)) (owns : A -> key -> Z) : Prop :=
  forall w, wp e m w (fun r w' => w_st w' = w_st w /\ moved w w' (owns (snd r))
    /\ (fst r <> 0 -> forall κ, owns (snd r) κ = 0)).

Lemma wp_maps {A} e (m : UM (Z * A)) L w (Q : Z * A -> uworld -> Prop) :
  maps e m L ->
  (forall s d w', w_st w' = w_st w -> moved w w' (L d) ->
     (s <> 0 -> forall κ, L d κ = 0) -> Q (s, d) w') -> wp e m w Q.
Proof.
  intros Ha HQ. eapply wp_mono; [apply Ha|]. intros [s d] w' (? & ? & ?). by apply HQ.
Qed.

Ltac maps_step :=
  first
  [ led_step
  | eapply wp_maps; [solve [eauto with contracts]|];
    let s := fresh "s" in let d := fresh "d" in let w := fresh "w" in
    let Hst := fresh "Hst" in let Hmv := fresh "Hmv" in let Hz := fresh "Hz" in
    intros s d w Hst Hmv Hz ].

Ltac solve_maps :=
  cbn [fst snd]; split; [congruence|]; split; [solve_moved|first [done|congruence]].

Section contracts.
Context (e : uenv).

Lemma va_map_local_maps size seg : maps e (_nvm_va_map_local size seg) va_map_owns.
Proof. unfold _nvm_va_map_local, va_map_owns. intros w. repeat maps_step; solve_maps. Qed.

Lemma va_map_remote_maps size seg write wc :
  maps e (_nvm_va_map_remote size seg write wc) va_map_owns.
Proof. unfold _nvm_va_map_remote, va_map_owns. intros w. repeat maps_step; solve_maps. Qed.

Lemma io_map_local_maps dev seg adapter : maps e (_nvm_io_map_local dev seg adapter) io_map_owns.
Proof. unfold _nvm_io_map_local, io_map_owns. intros w. repeat maps_step; solve_maps. Qed.

Lemma io_map_remote_maps dev seg : maps e (_nvm_io_map_remote dev seg) io_map_owns.
Proof. unfold _nvm_io_map_remote, io_map_owns. intros w. repeat maps_step; solve_maps. Qed.

#[local] Hint Resolve io_map_local_maps : contracts.

Lemma io_map_local_memory_maps m0 dev mem adapter : (forall κ, io_map_owns m0 κ = 0) ->
  maps e (_nvm_io_map_local_memory m0 dev mem adapter) io_map_owns.
Proof.
  intros H0 w. unfold _nvm_io_map_local_memory. do 2 maps_step. maps_step.
  - eapply wp_maps; [apply io_map_local_maps|]. intros. cbn [fst snd].
    split; [congruence|]. split; [solve_moved|done].
  - led_step. cbn [fst snd]. split; [congruence|]. split; [|done].
    intros κ. rewrite H0. specialize (Hmv κ). unfold delta, udelta in *. simpl in *. lia.
Qed.

Hypothesis Hbusy : busy_bounded e.

(** Unmapping gives back what the descriptor owns and leaves one that owns nothing. *)
Lemma va_unmap_gives_back m : gives_back e (_nvm_va_unmap m) (va_map_owns m).
Proof. unfold _nvm_va_unmap, va_map_owns. contract. Qed.

Lemma io_unmap_gives_back m : gives_back e (_nvm_io_unmap m) (io_map_owns m).
Proof. unfold _nvm_io_unmap, io_map_owns. contract. Qed.

End contracts.

#[export] Hint Resolve va_map_local_maps va_map_remote_maps io_map_local_maps
  io_map_remote_maps io_map_local_memory_maps va_unmap_gives_back io_unmap_gives_back : contracts.
