(* ===== verification/DisInterrupt.v ===== *)
(** * SISCI data interrupts ([src/dis/interrupt.c]) *)
From S2P Require Import Prelude Memory Effects Types Runtime DisDevice.

Section interrupt.
Context `{Build}.

Inductive sci_callback_action_t := SCI_CALLBACK_CANCEL | SCI_CALLBACK_CONTINUE.

(** [data] is the address of what was received; the user's callback gets the
    length as a [uint16_t]. *)
Definition interrupt_callback (callback : Z -> Z -> Z -> UM unit) (interrupt : local_intr)
    (intr data length : Z) (status : sci_error) : UM sci_callback_action_t :=
  if negb (is_ok status) then mret SCI_CALLBACK_CANCEL
  else if negb (intr =? li_intr interrupt) then mret SCI_CALLBACK_CANCEL
  else callback (li_data interrupt) data (u16 length);; mret SCI_CALLBACK_CONTINUE.

(** [intr] is the descriptor before the call; [self] its address, which is what
    SISCI hands to the callback. *)
Definition _nvm_local_intr_get (intr : local_intr) (self adapter cb_data : Z)
    (cb : option intr_callback) : UM (Z * local_intr) :=
  n ← ext (SCIGetLocalNodeId adapter);
  let intr := LocalIntr (li_sd intr) (li_intr intr) (li_adapter intr) (li_intr_no intr)
                (r_val n) (li_data intr) (li_callback intr) in
  if negb NDEBUG && negb (is_ok (r_sci n)) then mret (EIO, intr)
  else
    o ← ext SCIOpen;
    let intr := LocalIntr (r_val o) (li_intr intr) (li_adapter intr) (li_intr_no intr)
                  (li_node_id intr) (li_data intr) (li_callback intr) in
    if negb NDEBUG && negb (is_ok (r_sci o)) then mret (EIO, intr)
    else
      let intr := LocalIntr (li_sd intr) (li_intr intr) (li_adapter intr) (li_intr_no intr)
                    (li_node_id intr) cb_data cb in
      let '(has_cb, data, flags) := match cb with
        | Some _ => (true, self, [SCI_FLAG_USE_CALLBACK])
        | None => (false, NULL, [])
        end in
      c ← ext (SCICreateDataInterrupt (li_sd intr) adapter has_cb data flags);
      let intr := LocalIntr (li_sd intr) (r_val c) (li_adapter intr) (r_val2 c)
                    (li_node_id intr) cb_data cb in
      if is_ok (r_sci c) then mret (0, intr)
      else ext (SCIClose (li_sd intr));; mret (ENOSPC, intr).

Definition _nvm_local_intr_put (intr : local_intr) : UM unit :=
  retry (SCIRemoveDataInterrupt (li_intr intr));;
  ext (SCIClose (li_sd intr));; mret tt.

(** Returns the status and what was received. *)
Definition _nvm_local_intr_wait (intr : local_intr) (maxlen timeout : Z) : UM (Z * list Z) :=
  r ← ext (SCIWaitForDataInterrupt (li_intr intr) maxlen timeout);
  match r_sci r with
  | SCI_ERR_OK => mret (0, r_list r)
  | SCI_ERR_TIMEOUT => mret (ETIMEDOUT, r_list r)
  | _ => mret (EIO, r_list r)
  end.

Definition remote_intr0 : remote_intr := RemoteIntr 0 0.

Definition _nvm_remote_intr_get (intr : remote_intr) (adapter node no : Z) : UM (Z * remote_intr) :=
  o ← ext SCIOpen;
  let intr := RemoteIntr (r_val o) (ri_intr intr) in
  if negb NDEBUG && negb (is_ok (r_sci o)) then mret (EIO, intr)
  else
    c ← ext (SCIConnectDataInterrupt (ri_sd intr) node adapter no);
    let intr := RemoteIntr (ri_sd intr) (r_val c) in
    if is_ok (r_sci c) then mret (0, intr)
    else ext (SCIClose (ri_sd intr));; mret (ECONNREFUSED, intr).

Definition _nvm_remote_intr_put (intr : remote_intr) : UM unit :=
  ext (SCIDisconnectDataInterrupt (ri_intr intr));;
  ext (SCIClose (ri_sd intr));; mret tt.

Definition _nvm_remote_intr_trigger (intr : remote_intr) (data : list Z) : UM Z :=
  r ← ext (SCITriggerDataInterrupt (ri_intr intr) data);
  if is_ok (r_sci r) then mret 0 else mret ENOTCONN.

Definition _nvm_remote_intr_fire_and_forget (adapter node no : Z) (data : list Z) : UM Z :=
  '(status, intr) ← _nvm_remote_intr_get remote_intr0 adapter node no;
  if negb (status =? 0) then mret status
  else
    status ← _nvm_remote_intr_trigger intr data;
    _nvm_remote_intr_put intr;;
    mret status.

(** ** Contracts *)

Definition local_intr_owns (i : local_intr) (κ : key) : Z :=
  one (KSd (li_sd i)) κ + one (KLocalIntr (li_intr i)) κ.

Definition remote_intr_owns (i : remote_intr) (κ : key) : Z :=
  one (KSd (ri_sd i)) κ + one (KRemoteIntr (ri_intr i)) κ.

Section contracts.
Context (e : uenv) (Hbusy : busy_bounded e).

(** In a release build ([NDEBUG]) a failed [SCIOpen] goes unnoticed; the
    contracts below are those of the checking build. *)
Hypothesis Hdebug : NDEBUG = false.

Lemma local_intr_get_acquires intr self adapter cb_data cb :
  acquires e (_nvm_local_intr_get intr self adapter cb_data cb) local_intr_owns.
Proof.
  unfold _nvm_local_intr_get, local_intr_owns. rewrite Hdebug. simpl. destruct cb; contract.
Qed.

Lemma local_intr_put_gives_back i : gives_back e (_nvm_local_intr_put i) (local_intr_owns i).
Proof. unfold _nvm_local_intr_put, local_intr_owns. contract. Qed.

Lemma remote_intr_get_acquires intr adapter node no :
  acquires e (_nvm_remote_intr_get intr adapter node no) remote_intr_owns.
Proof. unfold _nvm_remote_intr_get, remote_intr_owns. rewrite Hdebug. simpl. contract. Qed.

Lemma remote_intr_put_gives_back i : gives_back e (_nvm_remote_intr_put i) (remote_intr_owns i).
Proof. unfold _nvm_remote_intr_put, remote_intr_owns. contract. Qed.

Lemma remote_intr_trigger_gives_back i data :
  gives_back e (_nvm_remote_intr_trigger i data) (fun _ => 0).
Proof. unfold _nvm_remote_intr_trigger. contract. Qed.

Lemma local_intr_wait_gives_back i maxlen timeout :
  gives_back e (_nvm_local_intr_wait i maxlen timeout) (fun _ => 0).
Proof. unfold _nvm_local_intr_wait. contract. Qed.

#[local] Hint Resolve remote_intr_get_acquires remote_intr_put_gives_back
  remote_intr_trigger_gives_back : contracts.

Lemma fire_and_forget_gives_back adapter node no data :
  gives_back e (_nvm_remote_intr_fire_and_forget adapter node no data) (fun _ => 0).
Proof. unfold _nvm_remote_intr_fire_and_forget. contract. Qed.

(** [_nvm_local_intr_get] never writes the descriptor's [adapter] field. *)
Lemma local_intr_get_adapter intr self adapter cb_data cb w :
  wp e (_nvm_local_intr_get intr self adapter cb_data cb) w
    (fun r _ => li_adapter (snd r) = li_adapter intr).
Proof. unfold _nvm_local_intr_get. destruct cb; repeat wp_step; done. Qed.

End contracts.
End interrupt.

#[export] Hint Resolve local_intr_get_acquires local_intr_put_gives_back remote_intr_get_acquires
  remote_intr_put_gives_back remote_intr_trigger_gives_back local_intr_wait_gives_back
  fire_and_forget_gives_back : contracts.
