(* ===== verification/Ctrl.v ===== *)
(** * Controllers

    [src/ctrl.c] and the register accessors of [src/regs.h]: reading the
    capabilities, resetting the controller, and the life cycle of the three
    kinds of controller handles. *)
From S2P Require Import Prelude Bits Memory Effects Types Runtime Queue DisDevice DisMap.

Definition NVM_CTRL_MEM_MINSIZE : Z := 0x2000.

(** ** Registers ([src/regs.h]) *)

Definition CAP (p : Z) : Z := p + 0x0000.
Definition VER (p : Z) : Z := p + 0x0008.
Definition CC (p : Z) : Z := p + 0x0014.
Definition CSTS (p : Z) : Z := p + 0x001c.
Definition AQA (p : Z) : Z := p + 0x0024.
Definition ASQ (p : Z) : Z := p + 0x0028.
Definition ACQ (p : Z) : Z := p + 0x0030.

(** A volatile read of [bits] bits. *)
Definition read_reg (bits addr : Z) : UM Z := r ← ext (Mmio_read bits addr); mret (wrap bits (r_val r)).
Definition write_reg (bits addr v : Z) : UM unit := ext (Mmio_write bits addr (wrap bits v));; mret tt.

Definition read_field (bits addr hi lo : Z) : UM Z := v ← read_reg bits addr; mret (_RB v hi lo).

Definition CAP_MPSMAX (p : Z) : UM Z := read_field 64 (CAP p) 55 52.
Definition CAP_MPSMIN (p : Z) : UM Z := read_field 64 (CAP p) 51 48.
Definition CAP_DSTRD (p : Z) : UM Z := read_field 64 (CAP p) 35 32.
Definition CAP_TO (p : Z) : UM Z := read_field 64 (CAP p) 31 24.
Definition CAP_CQR (p : Z) : UM Z := read_field 64 (CAP p) 16 16.
Definition CAP_MQES (p : Z) : UM Z := read_field 64 (CAP p) 15 0.
Definition CSTS_RDY (p : Z) : UM Z := read_field 32 (CSTS p) 0 0.

Definition CC_IOCQES (v : Z) : Z := _WB v 23 20.
Definition CC_IOSQES (v : Z) : Z := _WB v 19 16.
Definition CC_MPS (v : Z) : Z := _WB v 10 7.
Definition CC_CSS (v : Z) : Z := _WB 0 3 1.
Definition CC_EN (v : Z) : Z := _WB v 0 0.
Definition AQA_AQS (v : Z) : Z := _WB v 27 16.
Definition AQA_AQC (v : Z) : Z := _WB v 11 0.

Definition encode_page_size (ps : Z) : Z := _nvm_b2log (u32 (Z.shiftr ps 12)).
Definition encode_entry_size (es : Z) : Z := _nvm_b2log (u32 es).

(** ** Handle look-up *)

Definition _nvm_fd_from_ctrl (ctrl : Z) : UM Z :=
  container ← load (A:=controller) ctrl;
  match ct_type container with
  | DEVICE_TYPE_SYSFS => mret (ct_fd container)
  | _ => mret (- EBADF)
  end.

(** [None] is NULL. *)
Definition _nvm_device_from_ctrl (ctrl : Z) : UM (option device) :=
  container ← load (A:=controller) ctrl;
  match ct_type container with
  | DEVICE_TYPE_SMARTIO =>
      if negb (ct_ref container =? NULL) then
        ref ← load (A:=memory_reference) (ct_ref container);
        mret (Some (dm_device (mr_bar ref)))
      else mret None
  | _ => mret None
  end.

(** ** Containers *)

Definition ctrl0 : nvm_ctrl_t := Ctrl 0 0 0 0 0 0.

Definition create_container : UM Z :=
  malloc T_controller 0 (Controller DEVICE_TYPE_UNKNOWN NULL (-1) ctrl0).

Definition set_type (p : Z) (t : device_type) : UM unit :=
  c ← load p; store p (Controller t (ct_ref c) (ct_fd c) (ct_handle c)).
Definition set_ref (p ref : Z) : UM unit :=
  c ← load p; store p (Controller (ct_type c) ref (ct_fd c) (ct_handle c)).
Definition set_fd (p fd : Z) : UM unit :=
  c ← load p; store p (Controller (ct_type c) (ct_ref c) fd (ct_handle c)).
Definition set_handle (p : Z) (h : nvm_ctrl_t) : UM unit :=
  c ← load p; store p (Controller (ct_type c) (ct_ref c) (ct_fd c) h).

Definition connect_register_memory (dev : device) (adapter : Z) : UM (Z * Z) :=
  mem ← malloc T_memory_reference 0 (MemoryReference device_memory0 VA_MAP_INIT);
  if mem =? NULL then mret (ENOMEM, NULL)
  else
    '(err, bar) ← _nvm_device_memory_get device_memory0 dev adapter 0 [SCI_FLAG_BAR];
    store mem (MemoryReference bar VA_MAP_INIT);;
    if negb (err =? 0) then free mem;; mret (err, NULL)
    else
      '(err, map) ← _nvm_va_map_remote NVM_CTRL_MEM_MINSIZE (dm_segment bar) true false;
      store mem (MemoryReference bar map);;
      if negb (err =? 0) then _nvm_device_memory_put bar;; free mem;; mret (err, NULL)
      else mret (0, mem).

Definition disconnect_register_memory (ref : Z) : UM unit :=
  r ← load (A:=memory_reference) ref;
  m ← _nvm_va_unmap (mr_map r);
  store ref (MemoryReference (mr_bar r) m);;
  _nvm_device_memory_put (mr_bar r);;
  free ref.

(** ** Reading the capabilities *)

Definition initialize_handle `{Build} (ctrl : nvm_ctrl_t) (mm_ptr mm_size : Z) : UM (Z * nvm_ctrl_t) :=
  if mm_size <? NVM_CTRL_MEM_MINSIZE then mret (EINVAL, ctrl)
  else
    let ctrl := Ctrl (ctrl_page_size ctrl) (ctrl_dstrd ctrl) (ctrl_timeout ctrl)
                  (ctrl_max_entries ctrl) mm_size mm_ptr in
    page_size ← _nvm_host_page_size;
    if page_size =? 0 then mret (ENOMEM, ctrl)
    else
      let host_page_size := u8 (encode_page_size page_size) in
      max_page_size ← CAP_MPSMAX mm_ptr;
      min_page_size ← CAP_MPSMIN mm_ptr;
      if negb ((min_page_size <=? host_page_size) && (host_page_size <=? max_page_size))
      then mret (ERANGE, ctrl)
      else
        dstrd ← CAP_DSTRD mm_ptr;
        to ← CAP_TO mm_ptr;
        mqes ← CAP_MQES mm_ptr;
        mret (0, Ctrl page_size (u8 dstrd) (u64 (to * 500)) (u16 (mqes + 1)) mm_size mm_ptr).

(** ** Reset *)

(** [while (CSTS$RDY != want) { if (remaining == 0) return ETIME; ... }] *)
Fixpoint wait_ready (fuel : nat) (mm_ptr want remaining : Z) : UM Z :=
  rdy ← CSTS_RDY mm_ptr;
  if rdy =? want then mret 0
  else if remaining =? 0 then mret ETIME
  else match fuel with
       | O => out_of_fuel
       | S fuel' => remaining ← _nvm_delay_remain remaining; wait_ready fuel' mm_ptr want remaining
       end.

Definition cc_enabled (page_size : Z) : Z :=
  Z.lor (Z.lor (Z.lor (Z.lor
    (CC_IOCQES (encode_entry_size sizeof_cpl)) (CC_IOSQES (encode_entry_size sizeof_cmd)))
    (CC_MPS (encode_page_size page_size))) (CC_CSS 0)) (CC_EN 1).

Definition aqa_value (page_size : Z) : Z :=
  let cq_max_entries := u32 (page_size / sizeof_cpl - 1) in
  let sq_max_entries := u32 (page_size / sizeof_cmd - 1) in
  Z.lor (AQA_AQS sq_max_entries) (AQA_AQC cq_max_entries).

Definition nvm_raw_ctrl_reset (ctrl : nvm_ctrl_t) (acq_addr asq_addr : Z) : UM Z :=
  let mm_ptr := ctrl_mm_ptr ctrl in
  cc ← read_reg 32 (CC mm_ptr);
  write_reg 32 (CC mm_ptr) (Z.land cc (Z.lnot 1));;
  let timeout := u64 (ctrl_timeout ctrl * 1000000) in
  remaining ← _nvm_delay_remain timeout;
  err ← wait_ready (S (Z.to_nat (remaining / 1000000))) mm_ptr 0 remaining;
  if negb (err =? 0) then mret err
  else
    write_reg 32 (AQA mm_ptr) (aqa_value (ctrl_page_size ctrl));;
    write_reg 64 (ACQ mm_ptr) acq_addr;;
    write_reg 64 (ASQ mm_ptr) asq_addr;;
    write_reg 32 (CC mm_ptr) (cc_enabled (ctrl_page_size ctrl));;
    remaining ← _nvm_delay_remain timeout;
    wait_ready (S (Z.to_nat (remaining / 1000000))) mm_ptr 1 remaining.

(** ** Life cycle: status and handle (the address of the container) *)

Definition nvm_raw_ctrl_init `{Build} (mm_ptr mm_size : Z) : UM (Z * Z) :=
  container ← create_container;
  if container =? NULL then mret (ENOMEM, NULL)
  else
    set_type container DEVICE_TYPE_UNKNOWN;;
    '(err, h) ← initialize_handle ctrl0 mm_ptr mm_size;
    set_handle container h;;
    if negb (err =? 0) then free container;; mret (err, NULL)
    else mret (0, container).

Definition nvm_dis_ctrl_init `{Build} (dev_id adapter : Z) : UM (Z * Z) :=
  container ← create_container;
  if container =? NULL then mret (ENOMEM, NULL)
  else
    set_type container DEVICE_TYPE_SMARTIO;;
    '(err, dev) ← _nvm_device_get (Some device0) dev_id;
    if negb (err =? 0) then free container;; mret (err, NULL)
    else
      '(err, ref) ← connect_register_memory dev adapter;
      set_ref container ref;;
      if negb (err =? 0) then _nvm_device_put (Some dev);; free container;; mret (err, NULL)
      else
        _nvm_device_put (Some dev);;
        mr ← load (A:=memory_reference) ref;
        size ← ext (SCIGetRemoteSegmentSize (dm_segment (mr_bar mr)));
        '(err, h) ← initialize_handle ctrl0 (va_vaddr (mr_map mr)) (u64 (r_val size));
        set_handle container h;;
        if negb (err =? 0) then
          disconnect_register_memory ref;; free container;; mret (err, NULL)
        else mret (0, container).

Definition nvm_ctrl_init `{Build} (filedes : Z) : UM (Z * Z) :=
  d ← ext (Dup filedes);
  let fd := r_val d in
  if fd <? 0 then mret (r_errno d, NULL)
  else
    f ← ext (Fcntl_setfd fd);
    if r_val f =? -1 then ext (Close fd);; mret (r_errno f, NULL)
    else
      m ← ext (Mmap NVM_CTRL_MEM_MINSIZE fd);
      let ptr := r_val m in
      if ptr =? NULL then ext (Close fd);; mret (r_errno m, NULL)
      else
        container ← create_container;
        if container =? NULL then
          ext (Munmap ptr NVM_CTRL_MEM_MINSIZE);; ext (Close fd);; mret (ENOMEM, NULL)
        else
          set_type container DEVICE_TYPE_SYSFS;;
          '(err, h) ← initialize_handle ctrl0 ptr NVM_CTRL_MEM_MINSIZE;
          set_handle container h;;
          if negb (err =? 0) then
            ext (Munmap ptr NVM_CTRL_MEM_MINSIZE);; free container;; ext (Close fd);;
            mret (err, NULL)
          else set_fd container fd;; mret (0, container).

Definition nvm_ctrl_free (ctrl : Z) : UM unit :=
  if negb (ctrl =? NULL) then
    container ← load (A:=controller) ctrl;
    match ct_type container with
    | DEVICE_TYPE_UNKNOWN => mret tt
    | DEVICE_TYPE_SYSFS =>
        ext (Munmap (ctrl_mm_ptr (ct_handle container)) (ctrl_mm_size (ct_handle container)));;
        ext (Close (ct_fd container));; mret tt
    | DEVICE_TYPE_SMARTIO => disconnect_register_memory (ct_ref container)
    end;;
    free ctrl
  else mret tt.

(** ** The reset sequence *)

(** Register writes of a history, oldest first. *)
Fixpoint mmio_writes (l : list (call * resp)) : list (Z * Z) :=
  match l with
  | [] => []
  | (Mmio_write _ a v, _) :: l' => mmio_writes l' ++ [(a, v)]
  | _ :: l' => mmio_writes l'
  end.

(** CSTS was just read, and its RDY bit was [want]. *)
Definition saw_ready (mm_ptr want : Z) (l : list (call * resp)) : Prop :=
  exists r l', l = (Mmio_read 32 (CSTS mm_ptr), r) :: l' /\ _RB (wrap 32 (r_val r)) 0 0 = want.

(** Calls were made since [w], but none that acquires or releases a resource. *)
Definition quiet (w w' : uworld) : Prop := extends w w' /\ moved w w' (fun _ => 0).

#[global] Instance quiet_refl : Reflexive quiet.
Proof. intros w. split; [reflexivity|apply moved_refl]. Qed.
#[global] Instance quiet_trans : Transitive quiet.
Proof.
  intros w1 w2 w3 [E1 M1] [E2 M2]. split; [by etrans|].
  intros κ. specialize (M1 κ). specialize (M2 κ). simpl in *. lia.
Qed.

Lemma quiet_after e w c : (forall r κ, delta c r κ = 0) -> quiet w (after e w c).
Proof. intros Hd. split; [apply extends_after|]. intros κ. by rewrite bal_after, Hd. Qed.

Definition waited_ready (mm_ptr want remaining : Z) (w : uworld) (r : Z) (w' : uworld) : Prop :=
  w_st w' = w_st w /\ mmio_writes (w_log w') = mmio_writes (w_log w)
  /\ slept (w_log w) <= slept (w_log w') <= slept (w_log w) + remaining
  /\ (r = 0 /\ saw_ready mm_ptr want (w_log w')
      \/ r = ETIME /\ slept (w_log w') = slept (w_log w) + remaining)
  /\ quiet w w'.

Lemma delay_remain_spec e ns w : 0 <= ns < 2 ^ 64 ->
  wp e (_nvm_delay_remain ns) w (fun r w' =>
    r = delay_rest ns /\ w_st w' = w_st w /\ mmio_writes (w_log w') = mmio_writes (w_log w)
    /\ slept (w_log w') = slept (w_log w) + delay_slice ns /\ quiet w w').
Proof.
  intros Hns. unfold _nvm_delay_remain. destruct (Z.eqb_spec ns 0) as [->|]; repeat wp_step.
  - split; [done|]. split; [done|]. split; [done|]. split; [simpl; unfold delay_slice, _MIN; simpl; lia|].
    reflexivity.
  - do 4 (split; [done|]). by apply quiet_after.
Qed.

Lemma delay_slice_nonneg ns : 0 <= ns < 2 ^ 64 -> 0 <= delay_slice ns.
Proof. intros. unfold delay_slice, _MIN. zcases; lia. Qed.

Lemma wait_ready_spec e fuel mm_ptr want remaining w :
  0 <= remaining < 2 ^ 64 -> remaining <= Z.of_nat fuel * 1000000 ->
  wp e (wait_ready fuel mm_ptr want remaining) w (waited_ready mm_ptr want remaining w).
Proof.
  revert remaining w. induction fuel as [|fuel IH]; intros remaining w Hr Hf;
    simpl wait_ready; unfold CSTS_RDY, read_field, read_reg; do 6 wp_step;
    set (w1 := after e w _).
  1, 2: destruct (Z.eqb_spec (_RB (wrap 32 (r_val (fst (e_resp e w
      (Mmio_read 32 (CSTS mm_ptr)))))) 0 0) want) as [Hrdy|Hrdy].
  1, 3: apply wp_ret; split; [done|]; split; [done|]; split; [simpl; lia|];
    split; [|by apply quiet_after]; left; split; [done|]; do 2 eexists; done.
  - assert (remaining = 0) as -> by lia. apply wp_ret. do 2 (split; [done|]). split; [simpl; lia|].
    split; [|by apply quiet_after]. right. simpl. split; [done|lia].
  - destruct (Z.eqb_spec remaining 0) as [->|Hne].
    + apply wp_ret. do 2 (split; [done|]). split; [simpl; lia|].
      split; [|by apply quiet_after]. right. simpl. split; [done|lia].
    + apply wp_bind. eapply wp_mono; [by apply delay_remain_spec|].
      intros ? w2 (-> & Hst & Hmw & Hsl & Hex).
      pose proof (delay_rest_spec remaining Hr) as Hd. pose proof (delay_slice_rest remaining Hr).
      pose proof (delay_slice_nonneg remaining Hr).
      eapply wp_mono; [apply IH; rewrite Hd; lia|].
      intros r w3 (Hst' & Hmw' & Hsl' & Hcase & Hex').
      split; [by rewrite Hst', Hst|]. split; [by rewrite Hmw', Hmw|].
      simpl in Hsl. split; [lia|]. split; [|by do 2 (etrans; [|eassumption]); apply quiet_after].
      destruct Hcase as [[? ?]|[? ?]]; [left|right]; split; try done; lia.
Qed.

(** The first register write of a reset, and the writes that program the admin
    queues and enable the controller. *)
Definition reset_disable (p cc : Z) : list (Z * Z) := [(CC p, wrap 32 (Z.land cc (Z.lnot 1)))].
Definition reset_program (ctrl : nvm_ctrl_t) (acq asq : Z) : list (Z * Z) :=
  let p := ctrl_mm_ptr ctrl in
  [(AQA p, wrap 32 (aqa_value (ctrl_page_size ctrl))); (ACQ p, wrap 64 acq); (ASQ p, wrap 64 asq);
   (CC p, wrap 32 (cc_enabled (ctrl_page_size ctrl)))].

(** RDY was read as 0 immediately before AQA was written. *)
Definition disabled_before_programming (p : Z) (l : list (call * resp)) : Prop :=
  exists l2 v r l1, l = l2 ++ (Mmio_write 32 (AQA p) v, r) :: l1 /\ saw_ready p 0 l1.

Definition reset_done (ctrl : nvm_ctrl_t) (acq asq : Z) (w : uworld) (r : Z) (w' : uworld) : Prop :=
  let p := ctrl_mm_ptr ctrl in
  w_st w' = w_st w /\ quiet w w'
  /\ slept (w_log w') <= slept (w_log w) + 2 * u64 (ctrl_timeout ctrl * 1000000)
  /\ exists cc,
     (r = ETIME /\ mmio_writes (w_log w') = mmio_writes (w_log w) ++ reset_disable p cc)
     \/ (mmio_writes (w_log w') = mmio_writes (w_log w) ++ reset_disable p cc ++ reset_program ctrl acq asq
         /\ disabled_before_programming p (w_log w')
         /\ (r = 0 /\ saw_ready p 1 (w_log w') \/ r = ETIME)).

Lemma fuel_enough ns : 0 <= ns -> ns <= Z.of_nat (S (Z.to_nat (ns / 1000000))) * 1000000.
Proof.
  intros. pose proof (Z.div_pos ns 1000000). pose proof (Z.div_mod ns 1000000).
  pose proof (Z.mod_pos_bound ns 1000000). lia.
Qed.

(** Waiting after one initial delay, as both phases of the reset do. *)
Lemma delay_then_wait e mm_ptr want timeout w (Q : Z -> uworld -> Prop) :
  0 <= timeout < 2 ^ 64 ->
  (forall r w', waited_ready mm_ptr want timeout w r w' -> Q r w') ->
  wp e (remaining ← _nvm_delay_remain timeout;
        wait_ready (S (Z.to_nat (remaining / 1000000))) mm_ptr want remaining) w Q.
Proof.
  intros Ht HQ. apply wp_bind. eapply wp_mono; [by apply delay_remain_spec|].
  intros ? w1 (-> & Hst & Hmw & Hsl & Hex).
  pose proof (delay_rest_spec timeout Ht) as Hd. pose proof (delay_slice_rest timeout Ht).
  pose proof (delay_slice_nonneg timeout Ht).
  eapply wp_mono; [apply wait_ready_spec; [rewrite Hd; lia|apply fuel_enough; rewrite Hd; lia]|].
  intros r w2 (Hst' & Hmw' & Hsl' & Hcase & Hex'). apply HQ.
  split; [by rewrite Hst', Hst|]. split; [by rewrite Hmw', Hmw|]. split; [lia|].
  split; [|by etrans]. destruct Hcase as [[? ?]|[? ?]]; [left|right]; split; try done; lia.
Qed.

(** The same, in the middle of a computation. *)
Lemma delay_then_wait_bind e mm_ptr want timeout {A} (f : Z -> UM A) w (Q : A -> uworld -> Prop) :
  0 <= timeout < 2 ^ 64 ->
  (forall r w', waited_ready mm_ptr want timeout w r w' -> wp e (f r) w' Q) ->
  wp e (remaining ← _nvm_delay_remain timeout;
        r ← wait_ready (S (Z.to_nat (remaining / 1000000))) mm_ptr want remaining; f r) w Q.
Proof.
  intros Ht HQ. pose proof (delay_then_wait e mm_ptr want timeout w _ Ht HQ) as Hw.
  apply wp_bind. apply wp_bind_inv in Hw. eapply wp_mono; [exact Hw|].
  intros. by apply wp_bind.
Qed.

Lemma raw_ctrl_reset_done (e : uenv) (w : uworld) (ctrl : nvm_ctrl_t) (acq asq : Z) :
  wp e (nvm_raw_ctrl_reset ctrl acq asq) w (reset_done ctrl acq asq w).
Proof.
  unfold nvm_raw_ctrl_reset, read_reg, write_reg. do 8 wp_step.
  set (w1 := after e _ _). set (cc := wrap 32 (r_val _)) in *.
  pose proof (u64_bound (ctrl_timeout ctrl * 1000000)) as Ht. change (2 ^ 64) with 18446744073709551616 in *.
  set (t := u64 _) in *.
  apply (delay_then_wait_bind e (ctrl_mm_ptr ctrl) 0 t); [idtac|]. { lia. }
  intros r w2 (Hst & Hmw & Hsl & Hcase & Hex). destruct Hcase as [[-> Hsaw]|[-> Hs]]; simpl negb; cbn match.
  2: { apply wp_ret. split; [done|]. split; [etrans; [|exact Hex]; subst w1; etrans; by apply quiet_after|].
       split; [subst w1; cbn in Hs |- *; fold t; lia|].
       exists cc. left. split; [done|]. by rewrite Hmw. }
  repeat (lazymatch goal with |- wp _ (_nvm_delay_remain _ ≫= _) _ _ => fail | _ => wp_step end).
  set (w3 := after e _ _). apply delay_then_wait; [lia|].
  intros r w4 (Hst' & Hmw' & Hsl' & Hcase' & Hq).
  split; [by rewrite Hst'; subst w3; simpl; rewrite Hst|].
  split; [etrans; [|exact Hq]; subst w3; do 4 (etrans; [|by apply quiet_after]);
          etrans; [|exact Hex]; subst w1; etrans; by apply quiet_after|].
  destruct Hq as [[l Hex'] _].
  split; [subst w3 w1; cbn in Hsl, Hsl'; fold t; lia|].
  exists cc. right. split; [rewrite Hmw'; subst w3; simpl; rewrite Hmw; simpl; by rewrite <- !app_assoc|].
  split; [|destruct Hcase' as [[-> ?]|[-> ?]]; auto].
  rewrite Hex'. subst w3. unfold disabled_before_programming. simpl.
  eexists (l ++ [_; _; _]), _, _, _. split; [|exact Hsaw]. by rewrite <- app_assoc.
Qed.

(** ** Life cycle *)

Section lifecycle.
Context `{Build} (e : uenv).

Lemma read_field_gives_back bits a hi lo : gives_back e (read_field bits a hi lo) (fun _ => 0).
Proof. unfold read_field, read_reg. contract. Qed.

Lemma host_page_size_gives_back : gives_back e _nvm_host_page_size (fun _ => 0).
Proof. unfold _nvm_host_page_size. contract. Qed.

#[local] Hint Resolve read_field_gives_back host_page_size_gives_back : contracts.

(** Reading the capabilities moves no resource. *)
Lemma initialize_handle_keeps c p n w :
  wp e (initialize_handle c p n) w (fun '(err, h) w' =>
    w_st w' = w_st w /\ moved w w' (fun _ => 0)
    /\ (err = 0 -> ctrl_mm_ptr h = p /\ ctrl_mm_size h = n /\ 0 < ctrl_page_size h
        /\ (exists w0 r, answers e w0 Sysconf_pagesize r /\ ctrl_page_size h = u64 (r_val r))
        /\ ctrl_max_entries h in_u 16)).
Proof.
  unfold initialize_handle, _nvm_host_page_size, CAP_MPSMAX, CAP_MPSMIN, CAP_DSTRD, CAP_TO, CAP_MQES.
  repeat led_step; (split; [simpl; congruence|split; [solve_moved|]]); [done..|].
  intros _. split; [done|]. split; [done|]. cbn. pose proof (u64_bound (r_val r)). zbool. split; [lia|]. split; [eauto|]. apply u16_bound.
Qed.

(** Releases that SISCI answers [SCI_ERR_BUSY] are retried; [mmap] succeeds. *)
Hypothesis Hbusy : busy_bounded e.
Hypothesis Hmmap : forall w n fd r, answers e w (Mmap n fd) r ->
  r_val r <> NULL /\ r_val r <> MAP_FAILED.

Lemma connect_register_memory_spec dev adapter w : heap_ok w ->
  wp e (connect_register_memory dev adapter) w (fun '(err, ref) w' =>
    heap_ok w' /\
    (err <> 0 /\ clean w w' \/
     err = 0 /\ objs w !! ref = None /\ exists mr, objs w' = <[ref := OMemRef mr]> (objs w)
       /\ moved w w' (fun κ => va_map_owns (mr_map mr) κ + device_memory_owns (mr_bar mr) κ))).
Proof.
  intros Hok. unfold connect_register_memory.
  repeat first [heap_step|maps_step]; path_simp; (split; [track; assumption|]);
    first [left; split; [done|solve_clean] | right].
  split; [done|]. split; [done|]. refine (ex_intro _ (MemoryReference _ _) _).
  split; [heap_rewrite; rewrite !insert_insert_eq; reflexivity|]. simpl. solve_moved.
Qed.

Ltac ctrl_step :=
  lazymatch goal with
  | |- wp _ (initialize_handle _ _ _) _ _ =>
      eapply wp_mono; [apply initialize_handle_keeps|];
      let h := fresh "hdl" in
      let Hst := fresh "Hst" in let Hmv := fresh "Hmv" in let Hp := fresh "Hp" in
      intros [? h] ? (Hst & Hmv & Hp)
  | |- _ =>
      unfold nvm_ctrl_free, disconnect_register_memory, create_container, set_type, set_handle,
        set_ref, set_fd; heap_step
  end.

(** What is known of the [mmap] result and of the initialised handle. *)
Ltac use_facts :=
  cbn [fst snd]; path_simp; simpl in *;
  repeat match goal with
  | Hm : answers e _ (Mmap _ _) ?r |- _ => destruct (Hmmap _ _ _ _ Hm); clear Hm
  | H : _ /\ _ |- _ => destruct H
  | H : ctrl_mm_ptr _ = _ |- _ => rewrite H in *; clear H
  end.

Ltac finish := use_facts; (split; [solve_clean|done]).

Definition init_then_free (init : UM (Z * Z)) : UM (Z * Z) :=
  '(err, ctrl) ← init; nvm_ctrl_free ctrl;; mret (err, ctrl).

Definition balanced (w : uworld) (r : Z * Z) (w' : uworld) : Prop :=
  clean w w' /\ (snd r <> NULL -> fst r = 0).

Lemma raw_ctrl_balanced p n w : heap_ok w ->
  wp e (init_then_free (nvm_raw_ctrl_init p n)) w (balanced w).
Proof. intros. unfold init_then_free, nvm_raw_ctrl_init. repeat ctrl_step; finish. Qed.

Lemma sysfs_ctrl_balanced fd w : heap_ok w ->
  wp e (init_then_free (nvm_ctrl_init fd)) w (balanced w).
Proof. intros. unfold init_then_free, nvm_ctrl_init. repeat ctrl_step; finish. Qed.

Lemma dis_ctrl_balanced dev_id adapter w : heap_ok w ->
  wp e (init_then_free (nvm_dis_ctrl_init dev_id adapter)) w (balanced w).
Proof.
  intros. unfold init_then_free, nvm_dis_ctrl_init, create_container, set_type.
  repeat heap_step; [repeat ctrl_step; finish..|].
  eapply wp_mono; [by apply connect_register_memory_spec|].
  intros [err ref] w' (Hk' & [(? & ? & ? & ?) | (? & Hf & mr & Ho' & ?)]).
  - repeat ctrl_step; finish.
  - assert (ref <> h_next (w_st w)) as Hne
      by (intros ->; revert Hf; heap_rewrite; simplify_map_eq; discriminate).
    revert Hf; heap_rewrite; rewrite !lookup_insert_ne by done; intros Hf.
    repeat ctrl_step; finish.
Qed.

End lifecycle.

(** ** Properties *)


(** C15: [nvm_raw_ctrl_reset] always returns. It first clears CC.EN; only after
    it has read CSTS.RDY = 0 does it write, in this order, AQA, ACQ, ASQ and the
    enabling CC, and it reports success only when it has then read CSTS.RDY = 1.
    If the controller does not become idle in time, nothing but CC was written;
    either timeout is ETIME, after sleeping at most twice the controller's timeout. *)
Theorem reset_sequence (e : uenv) (w : uworld) (ctrl : nvm_ctrl_t) (acq asq : Z) :
  exists r w', run (nvm_raw_ctrl_reset ctrl acq asq) e w = Ok r w' /\ reset_done ctrl acq asq w r w'.
Proof. apply wp_run, raw_ctrl_reset_done. Qed.

(** For a host page of [2^k] bytes (4 KiB to 64 KiB) the values a reset
    programs decode to: CC.EN = 1, CC.MPS = k - 12, 64-byte submission and 16-byte
    completion entries, the NVM command set; and AQA holds the 0's based number of
    entries one page has room for, the submission queue's in bits 27:16 and the
    completion queue's in bits 11:0. *)
Theorem admin_configuration_fields k :
  12 <= k <= 16 ->
  _RB (cc_enabled (2 ^ k)) 0 0 = 1
  /\ 2 ^ (12 + _RB (cc_enabled (2 ^ k)) 10 7) = 2 ^ k
  /\ 2 ^ _RB (cc_enabled (2 ^ k)) 19 16 = sizeof_cmd
  /\ 2 ^ _RB (cc_enabled (2 ^ k)) 23 20 = sizeof_cpl
  /\ _RB (cc_enabled (2 ^ k)) 3 1 = 0
  /\ _RB (aqa_value (2 ^ k)) 27 16 = 2 ^ k / sizeof_cmd - 1
  /\ _RB (aqa_value (2 ^ k)) 11 0 = 2 ^ k / sizeof_cpl - 1.
Proof.
  intros. assert (k = 12 \/ k = 13 \/ k = 14 \/ k = 15 \/ k = 16) as Hk by lia.
  repeat destruct Hk as [->|Hk]; try subst k; vm_compute; done.
Qed.

(** What [initialize_handle] makes of a CAP register value and a page size. *)
Definition capabilities (cap page_size mm_ptr mm_size : Z) : option nvm_ctrl_t :=
  let hps := u8 (encode_page_size page_size) in
  if (_RB cap 51 48 <=? hps) && (hps <=? _RB cap 55 52) then
    Some (Ctrl page_size (_RB cap 35 32) (_RB cap 31 24 * 500) (u16 (_RB cap 15 0 + 1)) mm_size mm_ptr)
  else None.

(** Reading the capabilities of a mapped controller. Regions shorter than
    the register file are refused with EINVAL before any register is read; a page
    size the controller does not support is refused with ERANGE; otherwise the
    handle holds the doorbell stride, the timeout in milliseconds and the number
    of queue entries of CAP, and page sizes are the host's. *)
Theorem initialize_handle_reads_cap `{Build} (e : uenv) (w : uworld) (mm_ptr mm_size cap k : Z) :
  0 <= k < 64 -> cap in_u 64 ->
  (forall w r, answers e w Sysconf_pagesize r -> r_val r = 2 ^ k) ->
  (forall w r, answers e w (Mmio_read 64 (CAP mm_ptr)) r -> r_val r = cap) ->
  wp e (initialize_handle ctrl0 mm_ptr mm_size) w (fun '(err, h) w' =>
    if mm_size <? NVM_CTRL_MEM_MINSIZE then err = EINVAL /\ w' = w
    else match capabilities cap (2 ^ k) mm_ptr mm_size with
         | Some c => err = 0 /\ h = c
         | None => err = ERANGE
         end).
Proof.
  intros Hk Hcap Hps Hreg.
  assert (0 < 2 ^ k < 2 ^ 64) as Hpk by (split; [lia|apply Z.pow_lt_mono_r; lia]).
  assert (forall w, r_val (fst (e_resp e w Sysconf_pagesize)) = 2 ^ k) as Hps' by (intros; by eapply Hps).
  assert (forall w, r_val (fst (e_resp e w (Mmio_read 64 (CAP mm_ptr)))) = cap) as Hreg' by (intros; by eapply Hreg).
  assert (0 <= _RB cap 35 32 < 2 ^ 4) by (apply RB_bound; lia).
  assert (0 <= _RB cap 31 24 < 2 ^ 8) by (apply RB_bound; lia).
  unfold initialize_handle, _nvm_host_page_size, CAP_MPSMAX, CAP_MPSMIN, CAP_DSTRD, CAP_TO, CAP_MQES,
    read_field, read_reg, capabilities.
  destruct (mm_size <? NVM_CTRL_MEM_MINSIZE); [by apply wp_ret|].
  repeat (rewrite ?Hps', ?Hreg', ?(wrap_small 64 cap), ?(u64_small (2 ^ k)) by done || lia; wp_step).
  all: zbool; try lia.
  - by rewrite (proj1 (negb_true_iff _) E1).
  - rewrite (proj1 (negb_false_iff _) E1).
    by rewrite (u8_small (_RB cap 35 32)), (u64_small (_RB cap 31 24 * 500)) by lia.
Qed.

(** A controller that supports the largest queue CAP can express (MQES =
    0xffff, 65536 entries) is given a maximum of 0 entries, since the 0's based
    value plus one is stored in 16 bits; every queue cleared for it has size 0, and
    enqueueing a command on one is undefined (a division by zero). *)
Theorem max_entries_wraps (cap page_size mm_ptr mm_size no vaddr ioaddr : Z) (c : nvm_ctrl_t) (m : mem) :
  0 <= page_size -> _RB cap 15 0 = 65535 ->
  capabilities cap page_size mm_ptr mm_size = Some c ->
  ctrl_max_entries c = 0 /\ nvm_sq_enqueue m (nvm_queue_clear c false no vaddr ioaddr) = None.
Proof.
  intros Hp Hcap. unfold capabilities. destruct (_ && _); [|done]. intros [= <-].
  rewrite Hcap. change (u16 (65535 + 1)) with 0. split; [done|].
  unfold nvm_sq_enqueue, nvm_queue_clear. simpl.
  pose proof (Z.div_pos page_size sizeof_cmd ltac:(lia) ltac:(done)).
  unfold _MIN. simpl. by rewrite (proj2 (Z.leb_le 0 (page_size / sizeof_cmd))).
Qed.

(** ** Witnesses *)

Definition sample_env : uenv :=
  const_env (fun c => match c with
    | Sysconf_pagesize => resp_ok 4096
    | Mmio_read bits _ => resp_ok (if bits =? 64 then 0x00f0000a1400ffff else 0)
    | _ => resp_ok 65536
    end) 1.

Lemma sample_env_busy : busy_bounded sample_env.
Proof. by apply const_env_busy; [lia|intros []]. Qed.

#[local] Instance sample_build : Build := {| NDEBUG := false; CUDA := false |}.


Lemma admin_configuration_fields_witness :
  _RB (aqa_value (2 ^ 12)) 27 16 = 63 /\ _RB (aqa_value (2 ^ 12)) 11 0 = 255.
Proof. pose proof (admin_configuration_fields 12 ltac:(lia)) as H. split; apply H. Defined.

Lemma initialize_handle_reads_cap_witness :
  wp sample_env (initialize_handle ctrl0 65536 8192) empty_world (fun '(err, h) w' =>
    if 8192 <? NVM_CTRL_MEM_MINSIZE then err = EINVAL /\ w' = empty_world
    else match capabilities 0x00f0000a1400ffff (2 ^ 12) 65536 8192 with
         | Some c => err = 0 /\ h = c
         | None => err = ERANGE
         end).
Proof.
  apply (initialize_handle_reads_cap sample_env empty_world 65536 8192 0x00f0000a1400ffff 12);
    [lia|lia|intros ? ? ->; done|intros ? ? ->; done].
Defined.

Lemma max_entries_wraps_witness :
  capabilities 0x00f0000a1400ffff 4096 65536 8192 = Some (Ctrl 4096 10 10000 0 8192 65536)
  /\ nvm_sq_enqueue empty (nvm_queue_clear (Ctrl 4096 10 10000 0 8192 65536) false 1 4096 4096) = None.
Proof.
  assert (capabilities 0x00f0000a1400ffff 4096 65536 8192 = Some (Ctrl 4096 10 10000 0 8192 65536))
    as E by (vm_compute; reflexivity).
  split; [exact E|].
  apply (max_entries_wraps 0x00f0000a1400ffff 4096 65536 8192 1 4096 4096 _ empty);
    [lia|vm_compute; reflexivity|exact E].
Defined.
