(* ===== verification/Dma.v ===== *)
(** * DMA handles

    [src/dma.c]: handles that translate a memory range to bus addresses in units
    of controller pages, the user-supplied mappings of [nvm_dma_map], and the
    mappings the kernel module makes through [ioctl]. A mapping descriptor of any
    kind starts with a [struct dma_map]; what releases it is a callback stored in
    the handle's container, so this component is stated against an interface
    ([DmaRelease]) that the SISCI mappings of [DisDma] complete. *)
From S2P Require Import Prelude Bits Memory Effects Types Runtime Queue DisDevice DisMap Ctrl.

(** ** Descriptors *)

(** The [struct dma_map] at the head of a descriptor. *)
Definition dma_head (o : obj) : option dma_map :=
  match o with
  | ODmaMap m => Some m
  | OIoctl i => Some (im_mapping i)
  | OMapDesc d => Some (md_dma_mapping d)
  | _ => None
  end.

Definition load_map (p : Z) : UM dma_map :=
  if p =? NULL then fail NullDeref
  else h ← get_st;
       match h_objs h !! p ≫= dma_head with
       | Some m => mret m
       | None => fail BadPointer
       end.

(** The user handle inside the container at [ctrl]. *)
Definition load_ctrl (ctrl : Z) : UM nvm_ctrl_t := c ← load (A:=controller) ctrl; mret (ct_handle c).

Definition n_ctrl_pages (ctrl : nvm_ctrl_t) (page_size n_pages : Z) : Z :=
  u64 (page_size * n_pages) / ctrl_page_size ctrl.

(** [unmap_memory]: the argument is the address of the structure. *)
Definition unmap_memory (p : Z) : UM Z :=
  md ← load (A:=ioctl_mapping) p;
  r ← ext (Ioctl_unmap (im_ioctl_fd md) (dm_vaddr (im_mapping md)));
  if r_val r <? 0 then mret (r_errno r) else mret 0.

Definition remove_mapping (p : Z) : UM unit :=
  md ← load (A:=ioctl_mapping) p;
  (if im_mapped md then unmap_memory p;; mret tt else mret tt);;
  ext (Close (im_ioctl_fd md));;
  free p.

(** What a DMA handle relies on: calling a release callback. *)
Class DmaRelease := {
  dma_release : dma_map_free_t -> Z -> UM unit;
  dma_release_free : forall p, dma_release REL_free p = free p;
  dma_release_mapping : forall p, dma_release REL_remove_mapping p = remove_mapping p;
}.

Section dma.
Context `{Build} `{DmaRelease}.

(** ** Handles *)

Definition set_ioaddr (c : dma) (i addr : Z) : dma :=
  DmaContainer (d_map c) (d_release c)
    (Dma (dma_vaddr (d_handle c)) (dma_page_size (d_handle c)) (dma_n_ioaddrs (d_handle c))
       (<[Z.to_nat i := addr]> (dma_ioaddrs (d_handle c)))).

(** The remaining [n] rounds of the loop over [handle->ioaddrs], from index [i];
    reading past [ioaddrs] or writing past the container is a fault. *)
Fixpoint populate_loop (n : nat) (i handle page_size ctrl_page_size : Z) (ioaddrs : list Z) : UM unit :=
  match n with
  | O => mret tt
  | S n' =>
      if page_size =? 0 then fail DivByZero
      else
        let current_page := u64 (i * ctrl_page_size) / page_size in
        let offset_within_page := u64 (i * ctrl_page_size) mod page_size in
        match ioaddrs !! Z.to_nat current_page with
        | None => fail BadPointer
        | Some a =>
            c ← load (A:=dma) handle;
            if bool_decide (Z.to_nat i < length (dma_ioaddrs (d_handle c)))%nat then
              store handle (set_ioaddr c i (u64 (a + offset_within_page)));;
              populate_loop n' (i + 1) handle page_size ctrl_page_size ioaddrs
            else fail BadPointer
        end
  end.

Definition _nvm_dma_handle_populate (handle ctrl : Z) (ioaddrs : list Z) : UM unit :=
  c ← load (A:=dma) handle;
  md ← load_map (d_map c);
  ctrl ← load_ctrl ctrl;
  let page_size := dm_page_size md in
  if ctrl_page_size ctrl =? 0 then fail DivByZero
  else
    let n := n_ctrl_pages ctrl page_size (dm_n_pages md) in
    store handle (DmaContainer (d_map c) (d_release c)
      (Dma (dm_vaddr md) (ctrl_page_size ctrl) n (dma_ioaddrs (d_handle c))));;
    populate_loop (Z.to_nat n) 0 handle page_size (ctrl_page_size ctrl) ioaddrs.

(** The container has room for one address per controller page. *)
Definition _nvm_dma_create (ctrl md : Z) (release : option dma_map_free_t) : UM (Z * Z) :=
  m ← load_map md;
  let page_size := dm_page_size m in
  let n_pages := dm_n_pages m in
  if page_size =? 0 then mret (EINVAL, NULL)
  else if n_pages =? 0 then mret (EINVAL, NULL)
  else
    ctrl ← load_ctrl ctrl;
    if ctrl_page_size ctrl =? 0 then fail DivByZero
    else if negb (u64 (page_size * n_pages) mod ctrl_page_size ctrl =? 0) then mret (EINVAL, NULL)
    else
      let n := n_ctrl_pages ctrl page_size n_pages in
      container ← malloc T_dma n (DmaContainer md release (Dma NULL 0 0 (replicate (Z.to_nat n) 0)));
      if container =? NULL then mret (ENOMEM, NULL) else mret (0, container).

Definition _nvm_dma_remove (handle : Z) : UM unit :=
  dma ← load (A:=dma) handle;
  match d_release dma with
  | Some f => dma_release f (d_map dma)
  | None => mret tt
  end;;
  free handle.

Definition nvm_dma_map (ctrl vaddr page_size n_pages : Z) (ioaddrs : list Z) : UM (Z * Z) :=
  map ← malloc T_dma_map 0 (DmaMap vaddr page_size n_pages);
  if map =? NULL then mret (ENOMEM, NULL)
  else
    '(status, handle) ← _nvm_dma_create ctrl map (Some REL_free);
    if negb (status =? 0) then free map;; mret (status, NULL)
    else _nvm_dma_handle_populate handle ctrl ioaddrs;; mret (0, handle).

Definition nvm_dma_unmap (handle : Z) : UM unit :=
  if negb (handle =? NULL) then _nvm_dma_remove handle else mret tt.

(** ** Mappings made by the kernel module *)

(** [ioaddrs] is the address of the array the kernel fills in. *)
Definition map_memory (p ioaddrs : Z) : UM Z :=
  md ← load (A:=ioctl_mapping) p;
  match im_type md, CUDA with
  | MAP_TYPE_CUDA, false => mret EINVAL
  | t, _ =>
      let type := if t is MAP_TYPE_HOST then NVM_MAP_HOST_MEMORY else NVM_MAP_DEVICE_MEMORY in
      r ← ext (Ioctl_map (im_ioctl_fd md) type (dm_vaddr (im_mapping md)) (dm_n_pages (im_mapping md)));
      if r_val r <? 0 then mret (r_errno r)
      else
        old ← load (A:=list Z) ioaddrs;
        store ioaddrs (take (length old) (r_list r) ++ drop (length (r_list r)) old);;
        store p (IoctlMapping (im_mapping md) (im_type md) (im_ioctl_fd md) true);;
        mret 0
  end.

Definition create_mapping (type : map_type) (fd vaddr size : Z) : UM (Z * Z) :=
  match type, CUDA with
  | MAP_TYPE_CUDA, false => mret (EINVAL, NULL)
  | t, _ =>
      page_size ← (if t is MAP_TYPE_HOST then _nvm_host_page_size else mret (2 ^ 16));
      if page_size =? 0 then fail DivByZero
      else
        let n_pages := NVM_PAGE_ALIGN size page_size / page_size in
        md ← malloc T_ioctl_mapping 0 (IoctlMapping (DmaMap vaddr page_size n_pages) type 0 false);
        if md =? NULL then mret (ENOMEM, NULL)
        else
          d ← ext (Dup fd);
          store md (IoctlMapping (DmaMap vaddr page_size n_pages) type (r_val d) false);;
          if r_val d <? 0 then free md;; mret (EBADF, NULL) else mret (0, md)
  end.

Definition populate_handle (container ctrl : Z) : UM Z :=
  c ← load (A:=dma) container;
  m ← load_map (d_map c);
  ioaddrs ← malloc T_ioaddrs (dm_n_pages m) (replicate (Z.to_nat (dm_n_pages m)) 0);
  if ioaddrs =? NULL then mret ENOMEM
  else
    err ← map_memory (d_map c) ioaddrs;
    if negb (err =? 0) then free ioaddrs;; mret err
    else
      l ← load (A:=list Z) ioaddrs;
      _nvm_dma_handle_populate container ctrl l;;
      free ioaddrs;;
      mret 0.

(** [nvm_dma_map_host] and [nvm_dma_map_device] differ in the memory type only. *)
Definition map_pages (type : map_type) (ctrl vaddr size : Z) : UM (Z * Z) :=
  fd ← _nvm_fd_from_ctrl ctrl;
  if fd <? 0 then mret (EBADF, NULL)
  else
    '(err, md) ← create_mapping type fd vaddr size;
    if negb (err =? 0) then mret (err, NULL)
    else
      '(err, handle) ← _nvm_dma_create ctrl md (Some REL_remove_mapping);
      if negb (err =? 0) then remove_mapping md;; mret (err, NULL)
      else
        err ← populate_handle handle ctrl;
        if negb (err =? 0) then _nvm_dma_remove handle;; remove_mapping md;; mret (err, NULL)
        else mret (0, handle).

Definition nvm_dma_map_host (ctrl vaddr size : Z) : UM (Z * Z) := map_pages MAP_TYPE_HOST ctrl vaddr size.
Definition nvm_dma_map_device (ctrl devptr size : Z) : UM (Z * Z) := map_pages MAP_TYPE_CUDA ctrl devptr size.

End dma.
(** ** What populating computes *)

(** The bus address of controller page [i]. *)
Definition page_addr (ioaddrs : list Z) (page_size ctrl_page_size i : Z) : Z :=
  u64 (nth (Z.to_nat (u64 (i * ctrl_page_size) / page_size)) ioaddrs 0
       + u64 (i * ctrl_page_size) mod page_size).

Fixpoint page_addrs (ioaddrs : list Z) (page_size ctrl_page_size : Z) (n : nat) (i : Z) : list Z :=
  match n with
  | O => []
  | S n' => page_addr ioaddrs page_size ctrl_page_size i
            :: page_addrs ioaddrs page_size ctrl_page_size n' (i + 1)
  end.

Lemma page_addrs_lookup arr ps cps n i j : (j < n)%nat ->
  page_addrs arr ps cps n i !! j = Some (page_addr arr ps cps (i + Z.of_nat j)).
Proof.
  revert i j. induction n as [|n IH]; intros i [|j] Hj; simpl; try lia.
  - by rewrite Z.add_0_r.
  - rewrite IH by lia. do 2 f_equal. lia.
Qed.

Lemma length_page_addrs arr ps cps n i : length (page_addrs arr ps cps n i) = n.
Proof. revert i. induction n as [|n IH]; intros i; simpl; [done|]. by rewrite IH. Qed.

Definition with_ioaddrs (l : list Z) (c : dma) : dma :=
  DmaContainer (d_map c) (d_release c)
    (Dma (dma_vaddr (d_handle c)) (dma_page_size (d_handle c)) (dma_n_ioaddrs (d_handle c)) l).

Lemma take_insert_snoc {A} (l : list A) i x : (i < length l)%nat ->
  take (S i) (<[i := x]> l) = take i l ++ [x].
Proof.
  intros Hi. rewrite insert_take_drop by done.
  rewrite take_app_ge by (rewrite length_take; lia).
  rewrite length_take, Nat.min_l by lia.
  by replace (S i - i)%nat with 1%nat by lia.
Qed.

Section populate.
Context `{Build} `{DmaRelease} (e : uenv).

Lemma populate_loop_spec h ps cps arr n i w c (Q : unit -> uworld -> Prop) :
  heap_ok w -> objs w !! h = Some (ODma c) -> 0 < ps -> 0 <= i ->
  (forall j, i <= j < i + Z.of_nat n -> (Z.to_nat (u64 (j * cps) / ps) < length arr)%nat) ->
  length (dma_ioaddrs (d_handle c)) = (Z.to_nat i + n)%nat ->
  (forall w', heap_ok w' ->
     objs w' = <[h := ODma (with_ioaddrs (take (Z.to_nat i) (dma_ioaddrs (d_handle c))
                                          ++ page_addrs arr ps cps n i) c)]> (objs w) ->
     h_next (w_st w') = h_next (w_st w) -> moved w w' (fun _ => 0) -> Q tt w') ->
  wp e (populate_loop n i h ps cps arr) w Q.
Proof.
  revert i w c. induction n as [|n IH]; intros i w c Hok Hc Hps Hi Harr Hlen HQ; simpl populate_loop.
  - apply wp_ret, HQ; [done| |done|apply moved_refl]. simpl. rewrite app_nil_r, firstn_all2 by lia.
    rewrite insert_id; [done|]. rewrite Hc. by destruct c as [? ? []].
  - rewrite (proj2 (Z.eqb_neq ps 0)) by lia.
    destruct (lookup_lt_is_Some_2 arr (Z.to_nat (u64 (i * cps) / ps))) as [a Ha]; [apply Harr; lia|].
    rewrite Ha. repeat (rewrite ?bool_decide_eq_true_2 by lia; heap_step).
    eapply IH; [done|solve_lookup|done|lia|intros; apply Harr; lia| |].
    + simpl. rewrite length_insert. lia.
    + intros w' Hok' Ho' Hn' Hm'. apply HQ; [done| |congruence|solve_moved].
      rewrite Ho', Ho, insert_insert_eq. f_equal. f_equal. unfold with_ioaddrs, set_ioaddr. simpl.
      f_equal. f_equal. replace (Z.to_nat (i + 1)) with (S (Z.to_nat i)) by lia.
      rewrite take_insert_snoc by lia. rewrite <- app_assoc. simpl.
      unfold page_addr. by rewrite (nth_lookup_Some _ _ 0 _ Ha).
Qed.

Lemma wp_load_map p o m w (Q : dma_map -> uworld -> Prop) :
  heap_ok w -> objs w !! p = Some o -> dma_head o = Some m -> Q m w -> wp e (load_map p) w Q.
Proof.
  intros [_ Hok] Hp Hm HQ. unfold load_map. pose proof (Hok _ _ Hp).
  unfold NULL. rewrite (proj2 (Z.eqb_neq p 0)) by lia.
  wp_step. wp_step. rewrite Hp. simpl. by rewrite Hm.
Qed.

Lemma wp_load_ctrl p ct w (Q : nvm_ctrl_t -> uworld -> Prop) :
  heap_ok w -> objs w !! p = Some (OController ct) -> Q (ct_handle ct) w -> wp e (load_ctrl p) w Q.
Proof. intros Hok Hp HQ. unfold load_ctrl. by repeat heap_step. Qed.

(** Every controller page lies in one of the mapping's pages. *)
Lemma page_index_bound ctrl ps n j :
  0 < ps -> 0 <= n -> 0 < ctrl_page_size ctrl -> 0 <= j < n_ctrl_pages ctrl ps n ->
  u64 (j * ctrl_page_size ctrl) = j * ctrl_page_size ctrl
  /\ 0 <= j * ctrl_page_size ctrl / ps < n.
Proof.
  unfold n_ctrl_pages. set (cps := ctrl_page_size ctrl). intros Hps Hn Hc Hj.
  assert (u64 (ps * n) <= ps * n) as Hle by (apply Z.mod_le; nia).
  pose proof (u64_bound (ps * n)).
  assert (j * cps + cps <= u64 (ps * n)) as Hlt.
  { pose proof (Z.mul_div_le (u64 (ps * n)) cps Hc). nia. }
  split; [apply u64_small; nia|]. split; [apply Z.div_pos; nia|]. apply Z.div_lt_upper_bound; nia.
Qed.

Definition populated (c : dma) (m : dma_map) (ctrl : nvm_ctrl_t) (arr : list Z) : dma :=
  let n := n_ctrl_pages ctrl (dm_page_size m) (dm_n_pages m) in
  DmaContainer (d_map c) (d_release c)
    (Dma (dm_vaddr m) (ctrl_page_size ctrl) n
       (page_addrs arr (dm_page_size m) (ctrl_page_size ctrl) (Z.to_nat n) 0)).

Lemma handle_populate_spec h ctrl ct c o m arr w (Q : unit -> uworld -> Prop) :
  heap_ok w -> objs w !! h = Some (ODma c) -> objs w !! d_map c = Some o -> dma_head o = Some m ->
  objs w !! ctrl = Some (OController ct) -> 0 < ctrl_page_size (ct_handle ct) ->
  0 < dm_page_size m -> 0 <= dm_n_pages m <= Z.of_nat (length arr) ->
  length (dma_ioaddrs (d_handle c))
    = Z.to_nat (n_ctrl_pages (ct_handle ct) (dm_page_size m) (dm_n_pages m)) ->
  (forall w', heap_ok w' -> objs w' = <[h := ODma (populated c m (ct_handle ct) arr)]> (objs w) ->
     h_next (w_st w') = h_next (w_st w) -> moved w w' (fun _ => 0) -> Q tt w') ->
  wp e (_nvm_dma_handle_populate h ctrl arr) w Q.
Proof.
  intros Hok Hh Ho Hm Hct Hcps Hps Hn Hlen HQ. unfold _nvm_dma_handle_populate.
  do 2 heap_step. led_step. eapply wp_load_map; [done..|].
  led_step. eapply wp_load_ctrl; [done..|]. cbn beta zeta.
  rewrite (proj2 (Z.eqb_neq (ctrl_page_size (ct_handle ct)) 0)) by lia.
  do 2 heap_step.
  eapply populate_loop_spec; [done|solve_lookup|done|lia| | |].
  - intros j Hj. destruct (page_index_bound (ct_handle ct) (dm_page_size m) (dm_n_pages m) j) as [-> ?];
      lia.
  - simpl. lia.
  - intros w' Hok' Ho' Hn' Hm'. apply HQ; [done| |congruence|solve_moved].
    rewrite Ho', Ho0, insert_insert_eq. done.
Qed.

Lemma dma_create_spec ctrl ct md o m rel w :
  heap_ok w -> objs w !! md = Some o -> dma_head o = Some m ->
  objs w !! ctrl = Some (OController ct) -> 0 < ctrl_page_size (ct_handle ct) ->
  wp e (_nvm_dma_create ctrl md rel) w (fun '(err, h) w' =>
    err <> 0 /\ clean w w'
    \/ err = 0 /\ heap_ok w' /\ objs w !! h = None /\ h <> NULL
       /\ dm_page_size m <> 0 /\ dm_n_pages m <> 0
       /\ u64 (dm_page_size m * dm_n_pages m) mod ctrl_page_size (ct_handle ct) = 0
       /\ moved w w' (fun _ => 0)
       /\ objs w' = <[h := ODma (DmaContainer md rel (Dma NULL 0 0
            (replicate (Z.to_nat (n_ctrl_pages (ct_handle ct) (dm_page_size m) (dm_n_pages m))) 0)))]> (objs w)).
Proof.
  intros Hok Ho Hm Hct Hcps. unfold _nvm_dma_create.
  led_step. eapply wp_load_map; [done..|]. cbn beta zeta.
  do 2 (heap_step; [repeat heap_step; left; split; [done|solve_clean]|]).
  led_step. eapply wp_load_ctrl; [done..|]. cbn beta zeta.
  rewrite (proj2 (Z.eqb_neq (ctrl_page_size (ct_handle ct)) 0)) by lia.
  repeat heap_step; path_simp; [left; split; [done|solve_clean]..|right].
  do 2 (split; [done|]). done.
Qed.
End populate.

(** ** Translation

    When controller pages divide the mapping's pages, a byte's bus address is the
    same computed from the handle and from the page list. *)
Lemma split_page ps cps off : 0 < cps -> 0 < ps -> (cps | ps) -> 0 <= off ->
  off / cps * cps / ps = off / ps /\ (off / cps * cps) mod ps + off mod cps = off mod ps.
Proof.
  intros Hc Hp [q ->] Ho.
  pose proof (Z.div_mod off (q * cps) ltac:(lia)) as E. pose proof (Z.mod_pos_bound off (q * cps) ltac:(lia)).
  set (a := off / (q * cps)) in *. set (b := off mod (q * cps)) in *.
  pose proof (Z.div_mod b cps ltac:(lia)). pose proof (Z.mod_pos_bound b cps ltac:(lia)).
  assert (off / cps = q * a + b / cps) as ->.
  { symmetry. apply (Z.div_unique_pos _ _ _ (b mod cps)); lia. }
  assert (off mod cps = b mod cps) as ->.
  { symmetry. apply (Z.mod_unique_pos _ _ (q * a + b / cps)); lia. }
  assert (0 <= b / cps) by (apply Z.div_pos; lia).
  split.
  - symmetry. apply (Z.div_unique_pos _ _ _ (b / cps * cps)); lia.
  - rewrite <- (Z.mod_unique_pos _ (q * cps) a (b / cps * cps)) by lia. lia.
Qed.

Definition translates (h : nvm_dma_t) (vaddr ps n cps : Z) (arr : list Z) : Prop :=
  dma_vaddr h = vaddr /\ dma_page_size h = cps /\ dma_n_ioaddrs h * cps = ps * n
  /\ length (dma_ioaddrs h) = Z.to_nat (dma_n_ioaddrs h)
  /\ forall off, 0 <= off < ps * n -> exists a b,
       dma_ioaddrs h !! Z.to_nat (off / cps) = Some a /\ arr !! Z.to_nat (off / ps) = Some b
       /\ a + off mod cps = b + off mod ps.

Lemma populated_translates c vaddr ps n ctrl arr :
  0 < ctrl_page_size ctrl -> 0 < ps -> (ctrl_page_size ctrl | ps) ->
  0 <= n <= Z.of_nat (length arr) -> ps * n < 2 ^ 64 ->
  Forall (fun a => 0 <= a /\ a + ps <= 2 ^ 64) arr ->
  translates (d_handle (populated c (DmaMap vaddr ps n) ctrl arr)) vaddr ps n (ctrl_page_size ctrl) arr.
Proof.
  intros Hc Hp Hdiv Hn Hsz Harr. unfold populated. cbn [dm_page_size dm_n_pages dm_vaddr d_handle].
  set (cps := ctrl_page_size ctrl) in *.
  assert (n_ctrl_pages ctrl ps n = ps * n / cps) as En
    by (unfold n_ctrl_pages; rewrite u64_small by nia; done).
  assert (ps * n / cps * cps = ps * n) as Ediv.
  { destruct Hdiv as [q ->]. rewrite (Z.mul_comm q cps), <- Z.mul_assoc, (Z.mul_comm cps), Z.div_mul by lia. done. }
  assert (0 <= ps * n / cps) by (apply Z.div_pos; nia).
  split; [done|]. split; [done|]. cbn [dma_n_ioaddrs dma_ioaddrs]. rewrite En. split; [done|].
  split; [by rewrite length_page_addrs|]. intros off Hoff.
  assert (0 <= off / ps < n) by (split; [apply Z.div_pos|apply Z.div_lt_upper_bound]; lia).
  assert (0 <= off / cps < ps * n / cps)
    by (split; [apply Z.div_pos; lia|apply Z.div_lt_upper_bound; lia]).
  destruct (lookup_lt_is_Some_2 arr (Z.to_nat (off / ps))) as [b Hb]; [lia|].
  exists (page_addr arr ps cps (off / cps)), b.
  rewrite page_addrs_lookup by lia. split; [do 2 f_equal; lia|]. split; [done|].
  destruct (split_page ps cps off Hc Hp Hdiv ltac:(lia)) as [Eq Er].
  pose proof (Z.mul_div_le off cps Hc). pose proof (Z.mod_pos_bound off ps Hp).
  pose proof (Z.mod_pos_bound off cps Hc).
  unfold page_addr. rewrite (u64_small (off / cps * cps)) by lia. rewrite Eq.
  rewrite (nth_lookup_Some _ _ 0 _ Hb). 
  pose proof (Forall_lookup_1 _ _ _ _ Harr Hb) as Hb'. simpl in Hb'.
  pose proof (Z.mod_pos_bound (off / cps * cps) ps Hp). rewrite u64_small by lia. lia.
Qed.

(** ** Life cycle *)

Section lifecycle.
Context `{Build} `{DmaRelease} (e : uenv) (ctrl : Z) (ct : controller).
Hypothesis Hcps : 0 < ctrl_page_size (ct_handle ct).

Definition map_then_unmap (map : UM (Z * Z)) : UM (Z * Z) :=
  '(err, handle) ← map; nvm_dma_unmap handle;; mret (err, handle).

(** The kernel accepts mapping requests, and the buffer for the addresses is
    allocated. *)
Hypothesis Hpage : forall w r, answers e w Sysconf_pagesize r -> 0 < r_val r < 2 ^ 64.
Hypothesis Hioctl : forall w fd ty v n r, answers e w (Ioctl_map fd ty v n) r -> 0 <= r_val r.
Hypothesis Hcalloc : forall w n r, answers e w (Malloc T_ioaddrs n) r -> r_val r <> 0.

Lemma wp_page_size w (Q : Z -> uworld -> Prop) :
  (forall ps w', 0 < ps < 2 ^ 64 -> w_st w' = w_st w -> moved w w' (fun _ => 0) -> Q ps w') ->
  wp e _nvm_host_page_size w Q.
Proof.
  intros HQ. unfold _nvm_host_page_size. led_step. led_step. pose proof (Hpage _ _ Hans).
  rewrite (proj2 (Z.ltb_ge (r_val r) 0)) by lia. rewrite andb_false_r. apply wp_ret.
  rewrite u64_small by lia. apply HQ; [done|done|solve_moved].
Qed.

Ltac dma_step :=
  track; cbn [d_release d_map populated];
  lazymatch goal with
  | |- wp _ (_nvm_dma_create _ _ _) _ _ =>
      eapply wp_mono; [eapply dma_create_spec; [assumption|solve_lookup|reflexivity|solve_lookup|exact Hcps]|];
      let h := fresh "hdl" in let Hf := fresh "Hfree" in let Hn := fresh "Hnn" in
      let Hm := fresh "Hmv" in let Ho := fresh "Ho" in
      intros [? h] ? [(? & ? & ? & ?)|(? & ? & Hf & Hn & ? & ? & ? & Hm & Ho)];
      cbn [dm_page_size dm_n_pages dm_vaddr im_mapping] in *
  | |- wp _ (_nvm_dma_handle_populate _ _ _) _ _ =>
      norm_fresh;
      eapply handle_populate_spec; [assumption|solve [solve_lookup]|cbn; solve [solve_lookup]
        |reflexivity|solve [solve_lookup]|exact Hcps|cbn; lia|cbn; lia|cbn; by rewrite length_replicate|];
      let w := fresh "w" in let Hk := fresh "Hk" in let Ho := fresh "Ho" in
      let Hnx := fresh "Hnx" in let Hmv := fresh "Hmv" in
      intros w Hk Ho Hnx Hmv
  | |- wp _ (load_map _) _ _ => eapply wp_load_map; [assumption|solve [solve_lookup]|reflexivity|]
  | |- wp _ _nvm_host_page_size _ _ => eapply wp_page_size; intros ? ? Hps Hst Hmv
  | |- wp _ (dma_release REL_free _) _ _ => rewrite dma_release_free
  | |- wp _ (dma_release REL_remove_mapping _) _ _ => rewrite dma_release_mapping
  | |- wp _ (fail _) _ _ => exfalso; path_simp; lia
  | |- _ => heap_step
  end.

(** What a mapping descriptor owns. *)
Definition mapping_owns (md : ioctl_mapping) (κ : key) : Z :=
  one (KFd (im_ioctl_fd md)) κ
  + if im_mapped md then one (KPinned (im_ioctl_fd md) (dm_vaddr (im_mapping md))) κ else 0.

Lemma remove_mapping_spec p md w (Q : unit -> uworld -> Prop) :
  heap_ok w -> objs w !! p = Some (OIoctl md) ->
  (forall w', heap_ok w' -> objs w' = delete p (objs w) ->
     moved w w' (fun κ => - mapping_owns md κ) -> Q tt w') ->
  wp e (remove_mapping p) w Q.
Proof.
  intros Hok Hp HQ. unfold remove_mapping, unmap_memory, mapping_owns in *.
  repeat heap_step; path_simp; (apply HQ; [done|solve_objs|solve_moved]).
Qed.

Definition type_page (ty : map_type) (ps : Z) : Prop :=
  match ty with MAP_TYPE_HOST => 0 < ps < 2 ^ 64 | MAP_TYPE_CUDA => ps = 65536 end.

Lemma create_mapping_spec ty fd vaddr size w :
  heap_ok w ->
  wp e (create_mapping ty fd vaddr size) w (fun '(err, p) w' =>
    err <> 0 /\ clean w w'
    \/ err = 0 /\ heap_ok w' /\ objs w !! p = None /\ p <> NULL
       /\ (ty = MAP_TYPE_HOST \/ CUDA = true)
       /\ exists ps fd', type_page ty ps /\ 0 <= fd'
         /\ let md := IoctlMapping (DmaMap vaddr ps (NVM_PAGE_ALIGN size ps / ps)) ty fd' false in
            objs w' = <[p := OIoctl md]> (objs w) /\ moved w w' (mapping_owns md)).
Proof.
  intros Hok. unfold create_mapping, mapping_owns.
  assert (0 < 2 ^ 16) by done.
  destruct ty, CUDA eqn:HC; repeat dma_step; path_simp; first [left; split; [done|solve_clean]|right].
  all: norm_fresh; split; [done|]; split; [done|]; split; [by heap_rewrite|]; split; [done|];
    (split; [auto|]); do 2 eexists; (split; [|split; [|split]]);
    [..|heap_rewrite; rewrite !insert_insert_eq; reflexivity|cbn; solve_moved]; cbn; zbool; lia.
Qed.

Definition mapped (md : ioctl_mapping) : ioctl_mapping :=
  IoctlMapping (im_mapping md) (im_type md) (im_ioctl_fd md) true.

Definition map_request (md : ioctl_mapping) : call :=
  Ioctl_map (im_ioctl_fd md)
    (if im_type md is MAP_TYPE_HOST then NVM_MAP_HOST_MEMORY else NVM_MAP_DEVICE_MEMORY)
    (dm_vaddr (im_mapping md)) (dm_n_pages (im_mapping md)).

Lemma map_memory_spec p b md old w (Q : Z -> uworld -> Prop) :
  heap_ok w -> objs w !! p = Some (OIoctl md) -> objs w !! b = Some (OBuffer old) -> p <> b ->
  im_type md = MAP_TYPE_HOST \/ CUDA = true ->
  (forall r w', answers e w (map_request md) r -> r_val r < 0 -> w_st w' = w_st w ->
     moved w w' (fun _ => 0) -> Q (r_errno r) w') ->
  (forall r l w', answers e w (map_request md) r -> 0 <= r_val r -> heap_ok w' ->
     length l = length old -> objs w' = <[p := OIoctl (mapped md)]> (<[b := OBuffer l]> (objs w)) ->
     moved w w' (one (KPinned (im_ioctl_fd md) (dm_vaddr (im_mapping md)))) -> Q 0 w') ->
  wp e (map_memory p b) w Q.
Proof.
  intros Hok Hp Hb Hne Hty Herr HQ. unfold map_memory, map_request in *. do 2 heap_step.
  destruct (im_type md) eqn:Et; [|destruct Hty as [Hc|Hc]; [done|rewrite Hc]]; repeat heap_step;
    try (eapply Herr; [eassumption|by zbool|done|solve_moved]).
  all: eapply HQ; [eassumption|zbool; lia|done| |heap_rewrite; unfold mapped; rewrite Et; reflexivity|zbool; solve_moved].
  all: rewrite length_app, length_take, length_drop; lia.
Qed.

Ltac no_null :=
  match goal with Ha : answers _ _ (Malloc T_ioaddrs _) ?r, H : r_val ?r = 0 |- _ =>
    exfalso; exact (Hcalloc _ _ _ Ha H) end.

Lemma populate_handle_spec h c md w (Q : Z -> uworld -> Prop) :
  heap_ok w -> objs w !! h = Some (ODma c) -> objs w !! d_map c = Some (OIoctl md) -> h <> d_map c ->
  objs w !! ctrl = Some (OController ct) ->
  im_type md = MAP_TYPE_HOST \/ CUDA = true ->
  im_mapped md = false -> 0 < dm_page_size (im_mapping md) -> 0 <= dm_n_pages (im_mapping md) ->
  length (dma_ioaddrs (d_handle c)) = Z.to_nat (n_ctrl_pages (ct_handle ct)
    (dm_page_size (im_mapping md)) (dm_n_pages (im_mapping md))) ->
  (forall w' l, heap_ok w' -> Z.of_nat (length l) = dm_n_pages (im_mapping md) ->
     objs w' = <[h := ODma (populated c (im_mapping md) (ct_handle ct) l)]>
                (<[d_map c := OIoctl (mapped md)]> (objs w)) ->
     moved w w' (one (KPinned (im_ioctl_fd md) (dm_vaddr (im_mapping md)))) -> Q 0 w') ->
  wp e (populate_handle h ctrl) w Q.
Proof.
  intros Hok Hh Hmd Hne Hct Hty Hum Hps Hn Hlen HQ. unfold populate_handle.
  do 6 dma_step; [no_null|]. dma_step. norm_fresh.
  dma_step. eapply map_memory_spec; [done|solve_lookup|solve_lookup|done|done| |].
  - intros ? ? Ha Hneg _ _. apply Hioctl in Ha. lia.
  - intros _ l w1 _ _ Hk1 Hl Ho1 Hm1. cbn. dma_step. dma_step.
    dma_step. assert (ctrl <> d_map c) by congruence.
    eapply handle_populate_spec; [assumption|solve_lookup|solve_lookup|reflexivity
      |solve_lookup|exact Hcps|cbn; lia|cbn; rewrite Hl, length_replicate; lia|done|].
    intros w2 Hk2 Ho2 _ Hm2. dma_step.  eapply wp_free; [done|solve_lookup|]. intros w3 Ho3 _ Hk3 Hm3. wp_step.
    apply (HQ _ l); [done|rewrite Hl, length_replicate; lia| |solve_moved].
    heap_rewrite. rewrite delete_insert_ne, delete_insert_ne, insert_insert_eq, delete_insert_id by done. done.
Qed.

Lemma align_pages_nonneg size ps : 0 < ps -> 0 <= NVM_PAGE_ALIGN size ps / ps.
Proof.
  intros. apply Z.div_pos; [|done]. unfold NVM_PAGE_ALIGN. apply Z.land_nonneg.
  left. apply u64_bound.
Qed.

Lemma type_page_pos ty ps : type_page ty ps -> 0 < ps.
Proof. destruct ty; simpl; lia. Qed.

Ltac page_step :=
  track;
  lazymatch goal with
  | |- wp _ (create_mapping _ _ _ _) _ _ =>
      eapply wp_mono; [by apply create_mapping_spec|];
      let p := fresh "p" in let Hf := fresh "Hfree" in let Hn := fresh "Hnn" in
      let Hty := fresh "Hty" in let Ho := fresh "Ho" in let Hm := fresh "Hmv" in
      let Hpg := fresh "Hpg" in
      intros [? p] ? [(? & ? & ? & ?)|(? & ? & Hf & Hn & Hty & ps & fd' & Hpg & ? & Ho & Hm)]
  | |- wp _ (remove_mapping _) _ _ =>
      eapply remove_mapping_spec; [assumption|solve [solve_lookup]|];
      let Ho := fresh "Ho" in let Hm := fresh "Hmv" in intros ? ? Ho Hm
  | |- wp _ (populate_handle _ _) _ _ =>
      norm_fresh;
      eapply populate_handle_spec; [assumption|solve [solve_lookup]|cbn; solve [solve_lookup]|cbn; done
        |solve [solve_lookup]|assumption|reflexivity|cbn; by eapply type_page_pos
        |cbn; by eapply align_pages_nonneg, type_page_pos|cbn; by rewrite length_replicate|];
      let Ho := fresh "Ho" in let Hm := fresh "Hmv" in intros ? ? ? ? Ho Hm; proj_simp Ho
  | |- _ => dma_step
  end.

Lemma dma_map_balanced vaddr ps n arr w :
  heap_ok w -> objs w !! ctrl = Some (OController ct) ->
  0 <= ps -> 0 <= n <= Z.of_nat (length arr) ->
  wp e (map_then_unmap (nvm_dma_map ctrl vaddr ps n arr)) w (balanced w).
Proof.
  intros Hok Hct Hps Hn. unfold map_then_unmap, nvm_dma_map, nvm_dma_unmap, _nvm_dma_remove.
  repeat dma_step; norm_fresh; path_simp; try done. all: try (split; [try solve_clean|done]). 
Qed.


Lemma map_pages_balanced ty vaddr size w :
  heap_ok w -> objs w !! ctrl = Some (OController ct) ->
  wp e (map_then_unmap (map_pages ty ctrl vaddr size)) w (balanced w).
Proof.
  intros Hok Hct. unfold map_then_unmap, map_pages, nvm_dma_unmap, _nvm_dma_remove, _nvm_fd_from_ctrl.
  repeat page_step; norm_fresh; path_simp; try done.
  all: try (split; [unfold mapping_owns in *; solve_clean|done]).
Qed.

(** What [nvm_dma_map] returns. *)
Lemma dma_map_translates vaddr ps n arr w :
  heap_ok w -> objs w !! ctrl = Some (OController ct) ->
  (ctrl_page_size (ct_handle ct) | ps) -> 0 <= ps -> 0 <= n <= Z.of_nat (length arr) -> ps * n < 2 ^ 64 ->
  Forall (fun a => 0 <= a /\ a + ps <= 2 ^ 64) arr ->
  wp e (nvm_dma_map ctrl vaddr ps n arr) w (fun '(err, handle) w' =>
    err = 0 -> exists c, objs w' !! handle = Some (ODma c)
      /\ translates (d_handle c) vaddr ps n (ctrl_page_size (ct_handle ct)) arr).
Proof.
  intros Hok Hct Hdiv Hps Hn Hsz Harr. unfold nvm_dma_map. repeat dma_step; try done.
  intros _. eexists. split; [solve_lookup|]. apply populated_translates; auto. lia.
Qed.

End lifecycle.
(** ** The error path of the kernel mappings *)

Section failure.
Context `{Build} `{DmaRelease} (e : uenv) (ctrl : Z) (ct : controller) (k vaddr size : Z).
Hypothesis Htype : ct_type ct = DEVICE_TYPE_SYSFS /\ 0 <= ct_fd ct.
Hypothesis Hk : 12 <= k < 64.
Hypothesis Hcps : ctrl_page_size (ct_handle ct) = 2 ^ k.
Hypothesis Hsize : 0 < size /\ size + 2 ^ k <= 2 ^ 64.
Hypothesis Hpage : forall w r, answers e w Sysconf_pagesize r -> r_val r = 2 ^ k.
Hypothesis Hmalloc : forall w t n r, answers e w (Malloc t n) r -> r_val r <> 0.
Hypothesis Hdup : forall w fd r, answers e w (Dup fd) r -> 0 <= r_val r.
Hypothesis Hioctl : forall w fd ty v n r, answers e w (Ioctl_map fd ty v n) r ->
  r_val r < 0 /\ r_errno r <> 0.

Lemma aligned_pages : let n := NVM_PAGE_ALIGN size (2 ^ k) / 2 ^ k in
  n <> 0 /\ u64 (2 ^ k * n) mod 2 ^ k = 0.
Proof.
  destruct (page_align_bounds size k) as [Hb Hm]; [lia..|].
  assert (0 < 2 ^ k) by lia. split.
  - intros Hz. apply Z.div_small_iff in Hz; [|lia]. rewrite Z.mod_small in Hm by lia. lia.
  - rewrite <- (Z.div_exact _ (2 ^ k)) in Hm by lia. rewrite <- Hm. rewrite u64_small by lia.
    rewrite Hm at 1. rewrite Z.mul_comm. by apply Z.mod_mul; lia.
Qed.

Ltac absurd_answer :=
  match goal with
  | Ha : answers _ _ (Malloc _ _) ?r, E : r_val ?r = 0 |- _ => exfalso; exact (Hmalloc _ _ _ _ Ha E)
  | Ha : answers _ _ (Dup _) ?r, E : (r_val ?r <? 0) = true |- _ =>
      exfalso; apply Hdup in Ha; zbool; lia
  end.

Lemma page_size_pow2 w (Q : Z -> uworld -> Prop) :
  (forall w', w_st w' = w_st w -> Q (2 ^ k) w') -> wp e _nvm_host_page_size w Q.
Proof.
  intros HQ. assert (0 < 2 ^ k < 2 ^ 64) by (split; [lia|apply Z.pow_lt_mono_r; lia]).
  unfold _nvm_host_page_size. led_step. led_step. rewrite (Hpage _ _ Hans).
  rewrite (proj2 (Z.ltb_ge (2 ^ k) 0)) by lia. rewrite andb_false_r. apply wp_ret.
  rewrite u64_small by lia. by apply HQ.
Qed.

Lemma create_mapping_succeeds fd w (Q : Z * Z -> uworld -> Prop) : heap_ok w ->
  (forall p fd' w', heap_ok w' -> p <> NULL -> objs w !! p = None ->
     objs w' = <[p := OIoctl (IoctlMapping (DmaMap vaddr (2 ^ k) (NVM_PAGE_ALIGN size (2 ^ k) / 2 ^ k))
                                MAP_TYPE_HOST fd' false)]> (objs w) -> Q (0, p) w') ->
  wp e (create_mapping MAP_TYPE_HOST fd vaddr size) w Q.
Proof.
  intros Hok HQ. assert (0 < 2 ^ k) by lia. unfold create_mapping.
  led_step. apply page_size_pow2. intros w1 Hst1. cbn beta.
  rewrite (proj2 (Z.eqb_neq (2 ^ k) 0)) by lia. cbn zeta.
  repeat (heap_step; try absurd_answer). path_simp.
  eapply HQ; [done|done| |].
  - norm_fresh. by heap_rewrite.
  - heap_rewrite. by rewrite insert_insert_eq.
Qed.

Lemma dma_create_succeeds p fd' w (Q : Z * Z -> uworld -> Prop) :
  let md := IoctlMapping (DmaMap vaddr (2 ^ k) (NVM_PAGE_ALIGN size (2 ^ k) / 2 ^ k)) MAP_TYPE_HOST fd' false in
  heap_ok w -> objs w !! p = Some (OIoctl md) -> objs w !! ctrl = Some (OController ct) ->
  (forall h c w', heap_ok w' -> h <> NULL -> objs w !! h = None -> d_map c = p ->
     d_release c = Some REL_remove_mapping -> objs w' = <[h := ODma c]> (objs w) -> Q (0, h) w') ->
  wp e (_nvm_dma_create ctrl p (Some REL_remove_mapping)) w Q.
Proof.
  intros md Hok Hp Hct HQ. destruct aligned_pages as [Hn0 Hmod]. cbn zeta in *.
  unfold _nvm_dma_create. led_step. eapply wp_load_map; [done..|]. cbn.
  rewrite (proj2 (Z.eqb_neq (2 ^ k) 0)), (proj2 (Z.eqb_neq _ 0) Hn0) by lia.
  led_step. eapply wp_load_ctrl; [done..|]. cbn beta. rewrite Hcps.
  rewrite (proj2 (Z.eqb_neq (2 ^ k) 0)), Hmod by lia. cbn.
  repeat (heap_step; try absurd_answer).
  eapply (HQ _ (DmaContainer p (Some REL_remove_mapping) _)); [done|by path_simp|done|done|done|exact Ho].
Qed.

Lemma populate_fails h c md w (Q : Z -> uworld -> Prop) :
  heap_ok w -> objs w !! h = Some (ODma c) -> objs w !! d_map c = Some (OIoctl md) ->
  im_type md = MAP_TYPE_HOST ->
  (forall err w', err <> 0 -> heap_ok w' -> objs w' = objs w -> Q err w') ->
  wp e (populate_handle h ctrl) w Q.
Proof.
  intros Hok Hh Hmd Hty HQ. unfold populate_handle.
  do 3 heap_step. eapply wp_load_map; [done|solve_lookup|reflexivity|]. cbn.
  repeat (heap_step; try absurd_answer); norm_fresh.
  eapply map_memory_spec; [done|solve_lookup|solve_lookup|done|by left| |].
  - intros r w1 Ha _ Hst _. destruct (Hioctl _ _ _ _ _ _ Ha) as [_ Herr].
    cbn. rewrite (proj2 (Z.eqb_neq (r_errno r) 0)) by done. cbn.
    repeat heap_step. apply HQ; [done|done|]. heap_rewrite. by rewrite delete_insert_id.
  - intros r l w1 Ha Hge. destruct (Hioctl _ _ _ _ _ _ Ha). lia.
Qed.

Lemma map_host_faults w : heap_ok w -> objs w !! ctrl = Some (OController ct) ->
  faults e (nvm_dma_map_host ctrl vaddr size) w BadPointer.
Proof.
  intros Hok Hct. unfold nvm_dma_map_host, map_pages, _nvm_fd_from_ctrl. 
  apply faults_bind. heap_step. heap_step. rewrite (proj1 Htype). apply wp_ret.
  rewrite (proj2 (Z.ltb_ge (ct_fd ct) 0)) by apply Htype.
  apply faults_bind. apply create_mapping_succeeds; [done|]. intros p fd' w1 Hk1 Hp Hf Ho1. norm_fresh. cbn.
  apply faults_bind. eapply dma_create_succeeds; [done|solve_lookup|solve_lookup|].
  intros h c w2 Hk2 Hh Hfh <- Hrel Ho2. norm_fresh. cbn.
  apply faults_bind. eapply populate_fails; [done|solve_lookup|solve_lookup|done|].
  intros err w3 Herr Hk3 Ho3. rewrite (proj2 (Z.eqb_neq err 0)) by done. cbn.
  apply faults_bind. unfold _nvm_dma_remove. do 2 heap_step. rewrite Hrel, dma_release_mapping.
  led_step. eapply remove_mapping_spec; [done|solve_lookup|]. intros w4 Hk4 Ho4 _.
  eapply wp_free; [done|solve_lookup|]. intros w5 Ho5 _ _ _.
  apply faults_now. unfold remove_mapping. apply faults_now. apply load_dangling; [done|].
  heap_rewrite. by simplify_map_eq.
Qed.
End failure.

(** ** Properties *)

(** C26: a handle made by [nvm_dma_map] from a list of bus addresses translates
    every byte of the range as the list does: its controller pages cover exactly
    the range, and the address the controller computes for a byte is the one of
    the mapping's page that holds it. *)
Theorem dma_map_translation `{Build} `{DmaRelease} (e : uenv) (ctrl : Z) (ct : controller)
    (vaddr ps n : Z) (arr : list Z) (w : uworld) :
  heap_ok w -> objs w !! ctrl = Some (OController ct) ->
  0 < ctrl_page_size (ct_handle ct) -> (ctrl_page_size (ct_handle ct) | ps) ->
  0 <= ps -> 0 <= n <= Z.of_nat (length arr) -> ps * n < 2 ^ 64 ->
  Forall (fun a => 0 <= a /\ a + ps <= 2 ^ 64) arr ->
  wp e (nvm_dma_map ctrl vaddr ps n arr) w (fun '(err, handle) w' =>
    err = 0 -> exists c, objs w' !! handle = Some (ODma c)
      /\ translates (d_handle c) vaddr ps n (ctrl_page_size (ct_handle ct)) arr).
Proof. intros. by apply dma_map_translates. Qed.


(** C32: when the kernel refuses a mapping request, [nvm_dma_map_host] does not
    return an error: [_nvm_dma_remove] has already released the mapping
    descriptor through the handle's callback, and the error path then accesses the
    freed descriptor to release it a second time. *)
Theorem dma_map_host_error_path_faults `{Build} `{DmaRelease} (e : uenv) (ctrl : Z) (ct : controller)
    (k vaddr size : Z) (w : uworld) :
  heap_ok w -> objs w !! ctrl = Some (OController ct) ->
  ct_type ct = DEVICE_TYPE_SYSFS /\ 0 <= ct_fd ct ->
  12 <= k < 64 -> ctrl_page_size (ct_handle ct) = 2 ^ k -> 0 < size /\ size + 2 ^ k <= 2 ^ 64 ->
  (forall w r, answers e w Sysconf_pagesize r -> r_val r = 2 ^ k) ->
  (forall w t n r, answers e w (Malloc t n) r -> r_val r <> 0) ->
  (forall w fd r, answers e w (Dup fd) r -> 0 <= r_val r) ->
  (forall w fd ty v n r, answers e w (Ioctl_map fd ty v n) r -> r_val r < 0 /\ r_errno r <> 0) ->
  faults e (nvm_dma_map_host ctrl vaddr size) w BadPointer.
Proof. intros. by eapply map_host_faults. Qed.

(** ** Witnesses *)

#[local] Instance sample_build : Build := {| NDEBUG := false; CUDA := true |}.

#[local] Instance sample_release : DmaRelease := {|
  dma_release f p := match f with
    | REL_remove_mapping => remove_mapping p
    | _ => free p
    end;
  dma_release_free p := eq_refl;
  dma_release_mapping p := eq_refl;
|}.

Definition sample_ctrl : controller :=
  Controller DEVICE_TYPE_SYSFS NULL 3 (Ctrl 4096 0 10000 1024 8192 65536).

(** A world that holds one controller handle, at address 1. *)
Definition ctrl_world : uworld := World empty (Heap {[1 := OController sample_ctrl]} 2) [].

Lemma ctrl_world_ok : heap_ok ctrl_world.
Proof.
  split; [done|]. intros p o. simpl. intros Hp. apply lookup_singleton_Some in Hp as [<- _]. lia.
Qed.

(** [ioctl] answers [v]; everything else succeeds. *)
Definition ioctl_env (v : Z) : uenv :=
  const_env (fun c => match c with
    | Ioctl_map _ _ _ _ => Resp v 0 EINVAL SCI_ERR_OK [0x10000; 0x50000]
    | Sysconf_pagesize => resp_ok 4096
    | _ => resp_ok 9
    end) 1.

Lemma dma_map_translation_witness :
  wp (ioctl_env 0) (nvm_dma_map 1 0x7000 8192 2 [0x10000; 0x50000]) ctrl_world (fun '(err, handle) w' =>
    err = 0 -> exists c, objs w' !! handle = Some (ODma c)
      /\ translates (d_handle c) 0x7000 8192 2 4096 [0x10000; 0x50000]).
Proof.
  apply (dma_map_translation (ioctl_env 0) 1 sample_ctrl 0x7000 8192 2 [0x10000; 0x50000] ctrl_world);
    [exact ctrl_world_ok|reflexivity|reflexivity|by exists 2|lia|simpl; lia|lia|].
  repeat constructor; lia.
Defined.


Lemma dma_map_host_error_path_faults_witness :
  faults (ioctl_env (-1)) (nvm_dma_map_host 1 0x7000 8192) ctrl_world BadPointer.
Proof.
  apply (dma_map_host_error_path_faults (ioctl_env (-1)) 1 sample_ctrl 12 0x7000 8192 ctrl_world);
    [exact ctrl_world_ok|reflexivity|done|lia|reflexivity|lia|intros ? ? ->; done
    |intros ? ? ? ? ->; done|intros ? ? ? ->; done|intros ? ? ? ? ? ? ->; done].
Defined.
