(* ===== verification/DisDma.v ===== *)
(** * DMA handles over SISCI segments ([src/dis/dma.c])

    Descriptors that hold a device reference, a mapping for the host and a mapping
    for the device, and for created or connected segments a reference to the
    segment. This component completes the release callbacks of [Dma]. *)
From S2P Require Import Prelude Bits Memory Effects Types Runtime Queue DisDevice DisMap Ctrl Dma.

(** ** Descriptor fields *)

Definition set_dma_vaddr (p v : Z) : UM unit :=
  d ← load p;
  store p (MapDescriptor (DmaMap v (dm_page_size (md_dma_mapping d)) (dm_n_pages (md_dma_mapping d)))
    (md_device d) (md_va_mapping d) (md_io_mapping d) (md_segment d)).
Definition set_va_mapping (p : Z) (m : va_map) : UM unit :=
  d ← load p;
  store p (MapDescriptor (md_dma_mapping d) (md_device d) m (md_io_mapping d) (md_segment d)).
Definition set_io_mapping (p : Z) (m : io_map) : UM unit :=
  d ← load p;
  store p (MapDescriptor (md_dma_mapping d) (md_device d) (md_va_mapping d) m (md_segment d)).
Definition set_segment (p s : Z) : UM unit :=
  d ← load p;
  store p (MapDescriptor (md_dma_mapping d) (md_device d) (md_va_mapping d) (md_io_mapping d) s).

Definition NVM_CTRL_ALIGN (ctrl : nvm_ctrl_t) (size : Z) : Z := NVM_PAGE_ALIGN size (ctrl_page_size ctrl).

(** ** Operations *)

(** The freshly allocated descriptor; the code clears every field it reads. *)
Definition map_descriptor0 : map_descriptor :=
  MapDescriptor (DmaMap NULL 0 0) device0 VA_MAP_INIT IO_MAP_INIT NULL.

Definition create_map_descriptor (ctrl segment_size : Z) : UM (Z * Z) :=
  dev ← _nvm_device_from_ctrl ctrl;
  match dev with
  | None => mret (EINVAL, NULL)
  | Some dev =>
      map ← malloc T_map_descriptor 0 map_descriptor0;
      if map =? NULL then mret (ENOMEM, NULL)
      else
        '(err, d) ← _nvm_device_get (Some device0) (dev_device_id dev);
        if negb (err =? 0) then free map;; mret (err, NULL)
        else
          store map (MapDescriptor (DmaMap NULL segment_size 1) d (VA_MAP_CLEAR VA_MAP_INIT)
                       (IO_MAP_CLEAR IO_MAP_INIT) NULL);;
          mret (0, map)
  end.

Definition remove_map_descriptor (map : Z) : UM unit :=
  if negb (map =? NULL) then
    d ← load (A:=map_descriptor) map;
    va ← _nvm_va_unmap (md_va_mapping d);
    set_va_mapping map va;;
    io ← _nvm_io_unmap (md_io_mapping d);
    set_io_mapping map io;;
    _nvm_device_put (Some (md_device d));;
    free map
  else mret tt.

Definition remove_local_segment (md : Z) : UM unit :=
  if negb (md =? NULL) then
    d ← load (A:=map_descriptor) md;
    (if negb (md_segment d =? NULL) then
       va ← _nvm_va_unmap (md_va_mapping d);
       set_va_mapping md va;;
       io ← _nvm_io_unmap (md_io_mapping d);
       set_io_mapping md io;;
       segment ← load (A:=local_memory) (md_segment d);
       _nvm_local_memory_put segment;;
       free (md_segment d)
     else mret tt);;
    _nvm_device_put (Some (md_device d));;
    free md
  else mret tt.

Definition disconnect_remote_segment (md : Z) : UM unit :=
  if negb (md =? NULL) then
    d ← load (A:=map_descriptor) md;
    (if negb (md_segment d =? NULL) then
       va ← _nvm_va_unmap (md_va_mapping d);
       set_va_mapping md va;;
       io ← _nvm_io_unmap (md_io_mapping d);
       set_io_mapping md io;;
       segment ← load (A:=device_memory) (md_segment d);
       _nvm_device_memory_put segment;;
       free (md_segment d)
     else mret tt);;
    _nvm_device_put (Some (md_device d));;
    free md
  else mret tt.

(** The callbacks the library stores in DMA handles. *)
#[export] Instance dma_release_all : DmaRelease := {|
  dma_release f p := match f with
    | REL_free => free p
    | REL_remove_mapping => remove_mapping p
    | REL_remove_map_descriptor => remove_map_descriptor p
    | REL_remove_local_segment => remove_local_segment p
    | REL_disconnect_remote_segment => disconnect_remote_segment p
    end;
  dma_release_free p := eq_refl;
  dma_release_mapping p := eq_refl;
|}.

(** The end of every mapping operation: create the handle container or undo
    everything, then fill in the one bus address of the segment. *)
Definition make_handle (ctrl md : Z) (release : dma_map_free_t) : UM (Z * Z) :=
  '(err, handle) ← _nvm_dma_create ctrl md (Some release);
  if negb (err =? 0) then dma_release release md;; mret (err, NULL)
  else
    d ← load (A:=map_descriptor) md;
    _nvm_dma_handle_populate handle ctrl [io_ioaddr (md_io_mapping d)];;
    mret (0, handle).

Definition nvm_dis_dma_map_local (ctrl adapter segment size : Z) (map_va : bool) : UM (Z * Z) :=
  c ← load_ctrl ctrl;
  let size := NVM_CTRL_ALIGN c size in
  '(err, md) ← create_map_descriptor ctrl size;
  if negb (err =? 0) then mret (err, NULL)
  else
    d ← load (A:=map_descriptor) md;
    '(err, io) ← _nvm_io_map_local (dev_device (md_device d)) segment adapter;
    set_io_mapping md io;;
    if negb (err =? 0) then remove_map_descriptor md;; mret (err, NULL)
    else
      err ← (if map_va then
               '(err, va) ← _nvm_va_map_local size segment;
               set_va_mapping md va;;
               (if negb (err =? 0) then remove_map_descriptor md
                else set_dma_vaddr md (va_vaddr va));;
               mret err
             else mret 0);
      if negb (err =? 0) then mret (err, NULL)
      else make_handle ctrl md REL_remove_map_descriptor.

Definition nvm_dis_dma_map_remote (ctrl segment : Z) (map_va map_wc : bool) : UM (Z * Z) :=
  r ← ext (SCIGetRemoteSegmentSize segment);
  c ← load_ctrl ctrl;
  let size := Z.land (u64 (r_val r)) (NVM_PAGE_MASK (ctrl_page_size c)) in
  '(err, md) ← create_map_descriptor ctrl size;
  if negb (err =? 0) then mret (err, NULL)
  else
    d ← load (A:=map_descriptor) md;
    '(err, io) ← _nvm_io_map_remote (dev_device (md_device d)) segment;
    set_io_mapping md io;;
    if negb (err =? 0) then remove_map_descriptor md;; mret (err, NULL)
    else
      err ← (if map_va then
               '(err, va) ← _nvm_va_map_remote size segment true map_wc;
               set_va_mapping md va;;
               (if negb (err =? 0) then remove_map_descriptor md
                else set_dma_vaddr md (va_vaddr va));;
               mret err
             else mret 0);
      if negb (err =? 0) then mret (err, NULL)
      else make_handle ctrl md REL_remove_map_descriptor.

Definition connect_remote_segment (dev : option device) (adapter segno : Z) (shared : bool) : UM (Z * Z) :=
  s ← malloc T_device_memory 0 device_memory0;
  if s =? NULL then mret (ENOMEM, NULL)
  else
    dev ← deref dev;
    '(status, mem) ← _nvm_device_memory_get device_memory0 dev adapter segno
                       [if shared then SCI_FLAG_SHARED else SCI_FLAG_PRIVATE];
    store s mem;;
    if negb (status =? 0) then free s;; mret (status, NULL) else mret (0, s).

Definition create_local_segment (id size dptr : Z) : UM (Z * Z) :=
  s ← malloc T_local_memory 0 local_memory0;
  if s =? NULL then mret (ENOMEM, NULL)
  else
    '(status, mem) ← (if dptr =? NULL then _nvm_local_memory_get id size
                      else _nvm_local_memory_get_attached id dptr size);
    store s mem;;
    if negb (status =? 0) then free s;; mret (status, NULL) else mret (0, s).

Definition nvm_dis_dma_create (ctrl adapter id size : Z) : UM (Z * Z) :=
  c ← load_ctrl ctrl;
  let size := NVM_CTRL_ALIGN c size in
  '(err, md) ← create_map_descriptor ctrl size;
  if negb (err =? 0) then mret (err, NULL)
  else
    '(err, seg) ← create_local_segment id size NULL;
    set_segment md seg;;
    if negb (err =? 0) then remove_map_descriptor md;; mret (err, NULL)
    else
      sd ← load (A:=local_memory) seg;
      d ← load (A:=map_descriptor) md;
      '(err, io) ← _nvm_io_map_local_memory (md_io_mapping d) (md_device d) sd adapter;
      set_io_mapping md io;;
      if negb (err =? 0) then remove_local_segment md;; mret (err, NULL)
      else
        '(err, va) ← _nvm_va_map_local size (lm_segment sd);
        set_va_mapping md va;;
        if negb (err =? 0) then remove_local_segment md;; mret (err, NULL)
        else
          set_dma_vaddr md (va_vaddr va);;
          make_handle ctrl md REL_remove_local_segment.

Definition nvm_dis_dma_map_device (ctrl adapter id dptr size : Z) : UM (Z * Z) :=
  c ← load_ctrl ctrl;
  let size := NVM_CTRL_ALIGN c size in
  '(err, md) ← create_map_descriptor ctrl size;
  if negb (err =? 0) then mret (err, NULL)
  else
    '(err, seg) ← create_local_segment id size dptr;
    set_segment md seg;;
    if negb (err =? 0) then remove_map_descriptor md;; mret (err, NULL)
    else
      sd ← load (A:=local_memory) seg;
      d ← load (A:=map_descriptor) md;
      '(err, io) ← _nvm_io_map_local_memory (md_io_mapping d) (md_device d) sd adapter;
      set_io_mapping md io;;
      if negb (err =? 0) then remove_local_segment md;; mret (err, NULL)
      else make_handle ctrl md REL_remove_local_segment.

Definition nvm_dis_dma_connect (ctrl adapter segno size : Z) (shared : bool) : UM (Z * Z) :=
  c ← load_ctrl ctrl;
  let size := NVM_CTRL_ALIGN c size in
  '(err, md) ← create_map_descriptor ctrl size;
  if negb (err =? 0) then mret (err, NULL)
  else
    dev ← _nvm_device_from_ctrl ctrl;
    '(err, seg) ← connect_remote_segment dev adapter segno shared;
    set_segment md seg;;
    if negb (err =? 0) then remove_map_descriptor md;; mret (err, NULL)
    else
      sd ← load (A:=device_memory) seg;
      d ← load (A:=map_descriptor) md;
      '(err, io) ← _nvm_io_map_remote (dev_device (md_device d)) (dm_segment sd);
      set_io_mapping md io;;
      if negb (err =? 0) then disconnect_remote_segment md;; mret (err, NULL)
      else
        '(err, va) ← _nvm_va_map_remote size (dm_segment sd) true true;
        set_va_mapping md va;;
        if negb (err =? 0) then disconnect_remote_segment md;; mret (err, NULL)
        else
          set_dma_vaddr md (va_vaddr va);;
          make_handle ctrl md REL_disconnect_remote_segment.

(** ** Specifications *)

Definition descriptor_owns (d : map_descriptor) (κ : key) : Z :=
  va_map_owns (md_va_mapping d) κ + io_map_owns (md_io_mapping d) κ + device_owns (md_device d) κ.

(** The controller handle is alive, and so is the BAR reference it holds. *)
Definition ctrl_alive (w : uworld) (ctrl : Z) (ct : controller) : Prop :=
  objs w !! ctrl = Some (OController ct)
  /\ (ct_type ct = DEVICE_TYPE_SMARTIO -> ct_ref ct <> NULL ->
      exists mr, objs w !! ct_ref ct = Some (OMemRef mr)).

(** The handle is one of a cluster device with its registers connected. *)
Definition cluster (ct : controller) : Prop := ct_type ct = DEVICE_TYPE_SMARTIO /\ ct_ref ct <> NULL.

Section specs.
Context (e : uenv) (ctrl : Z) (ct : controller).
Hypothesis Hbusy : busy_bounded e.
Hypothesis Hcps : 0 < ctrl_page_size (ct_handle ct).

#[local] Hint Extern 1 (forall κ, io_map_owns _ κ = 0) => intros; reflexivity : contracts.

Lemma device_from_ctrl_spec w (Q : option device -> uworld -> Prop) :
  heap_ok w -> ctrl_alive w ctrl ct ->
  (~ cluster ct -> Q None w) -> (forall d, cluster ct -> Q (Some d) w) ->
  wp e (_nvm_device_from_ctrl ctrl) w Q.
Proof.
  intros Hok [Hct Href] HN HS. unfold _nvm_device_from_ctrl, cluster in *. do 2 heap_step.
  destruct (ct_type ct); try (apply wp_ret, HN; intros [? _]; discriminate).
  heap_step; path_simp; [|apply wp_ret, HN; intros [_ ?]; done].
  destruct (Href eq_refl) as [mr Hmr]; [done|]. repeat heap_step. by apply HS.
Qed.

Lemma create_map_descriptor_spec size w :
  heap_ok w -> ctrl_alive w ctrl ct ->
  wp e (create_map_descriptor ctrl size) w (fun '(err, p) w' =>
    err <> 0 /\ clean w w'
    \/ err = 0 /\ cluster ct /\ heap_ok w' /\ objs w !! p = None /\ p <> NULL
       /\ exists d, objs w' = <[p := OMapDesc (MapDescriptor (DmaMap NULL size 1) d VA_MAP_INIT IO_MAP_INIT NULL)]>
                                (objs w) /\ moved w w' (device_owns d)).
Proof.
  intros Hok Hct. unfold create_map_descriptor. led_step. eapply device_from_ctrl_spec; [done|done| |].
  1: intros _. 2: intros dev Hcl.
  all: repeat heap_step; path_simp; first [left; split; [done|solve_clean]|right].
  do 5 (split; [done|]). eexists.
  split; [heap_rewrite; by rewrite insert_insert_eq|solve_moved].
Qed.

Lemma remove_map_descriptor_spec p d w (Q : unit -> uworld -> Prop) :
  heap_ok w -> objs w !! p = Some (OMapDesc d) ->
  (forall w', heap_ok w' -> objs w' = delete p (objs w) ->
     moved w w' (fun κ => - descriptor_owns d κ) -> Q tt w') ->
  wp e (remove_map_descriptor p) w Q.
Proof.
  intros Hok Hp HQ. unfold remove_map_descriptor, set_va_mapping, set_io_mapping, descriptor_owns in *.
  repeat heap_step.
  - apply HQ; [done|solve_objs|simpl in *; solve_moved].
  - path_simp. exfalso. destruct Hok as [_ Hd]. apply Hd in Hp. subst. unfold NULL in Hp. lia.
Qed.

Lemma make_handle_spec md d rel w (Q : Z * Z -> uworld -> Prop) :
  heap_ok w -> objs w !! md = Some (OMapDesc d) -> objs w !! ctrl = Some (OController ct) ->
  dm_n_pages (md_dma_mapping d) = 1 -> 0 <= dm_page_size (md_dma_mapping d) ->
  (forall err w1, err <> 0 -> heap_ok w1 -> objs w1 = objs w -> moved w w1 (fun _ => 0) ->
     wp e (dma_release rel md) w1 (fun _ => Q (err, NULL))) ->
  (forall h hd w', heap_ok w' -> objs w !! h = None -> h <> NULL ->
     objs w' = <[h := ODma (DmaContainer md (Some rel) hd)]> (objs w) ->
     moved w w' (fun _ => 0) -> Q (0, h) w') ->
  wp e (make_handle ctrl md rel) w Q.
Proof.
  intros Hok Hmd Hct Hn Hps Herr HQ. unfold make_handle. led_step.
  eapply wp_mono; [eapply dma_create_spec; [done|exact Hmd|reflexivity|exact Hct|done]|].
  intros [err h] w1 [(He & Hk & Ho & Hm)|(-> & Hk & Hf & Hnn & Hp0 & _ & _ & Hm & Ho)]; cbn beta iota.
  - rewrite (proj2 (Z.eqb_neq err 0)) by done. cbn. led_step.
    eapply wp_mono; [by apply Herr|]. intros. by apply wp_ret.
  - cbn. norm_fresh. assert (md <> h) by congruence. repeat heap_step.
    eapply handle_populate_spec; [done|solve_lookup|solve_lookup|reflexivity|solve_lookup|done|cbn; lia
      |cbn; lia|cbn; by rewrite length_replicate|].
    intros w2 Hk2 Ho2 _ Hm2. wp_step. eapply HQ; [done|done|done| |solve_moved].
    rewrite Ho2, Ho, insert_insert_eq. reflexivity.
Qed.

Lemma align_nonneg c size : 0 <= NVM_CTRL_ALIGN c size.
Proof.
  unfold NVM_CTRL_ALIGN, NVM_PAGE_ALIGN. apply Z.land_nonneg. left. apply u64_bound.
Qed.

Lemma mask_nonneg x y : 0 <= Z.land (u64 x) y.
Proof. apply Z.land_nonneg. left. apply u64_bound. Qed.

Ltac dis_step :=
  track; cbn [d_release d_map dma_release dma_release_all];
  lazymatch goal with
  | |- wp _ (load_ctrl _) _ _ => eapply wp_load_ctrl; [assumption|solve [solve_lookup]|]
  | |- wp _ (create_map_descriptor _ _) _ _ =>
      eapply wp_mono; [apply create_map_descriptor_spec; [assumption|
        split; [solve_lookup|heap_rewrite; assumption]]|];
      let p := fresh "md" in let Hf := fresh "Hfree" in let Hn := fresh "Hnn" in
      let Ho := fresh "Ho" in let Hm := fresh "Hmv" in let dv := fresh "dv" in
      intros [? p] ? [(? & ? & ? & ?)|(? & ? & ? & Hf & Hn & dv & Ho & Hm)]
  | |- wp _ (remove_map_descriptor _) _ _ =>
      eapply remove_map_descriptor_spec; [assumption|solve [solve_lookup]|];
      let Ho := fresh "Ho" in let Hm := fresh "Hmv" in intros ? ? Ho Hm
  | |- wp _ (make_handle _ _ _) _ _ =>
      norm_fresh;
      eapply make_handle_spec; [assumption|solve [solve_lookup]|solve [solve_lookup]|reflexivity
        |cbn [dm_page_size md_dma_mapping]; first [apply align_nonneg|apply mask_nonneg]
        |let Ho := fresh "Ho" in let Hm := fresh "Hmv" in intros ? ? ? ? Ho Hm
        |let Hf := fresh "Hfree" in let Ho := fresh "Ho" in let Hm := fresh "Hmv" in
         intros ? ? ? ? Hf ? Ho Hm; norm_fresh]
  | |- _ => first [heap_step|maps_step]
  end.
#[local] Hint Extern 1 (forall κ, io_map_owns _ κ = 0) => intros; reflexivity : contracts.


Ltac finish :=
  path_simp; try done; unfold descriptor_owns, VA_MAP_INIT, IO_MAP_INIT in *; simpl in *;
  (split; [solve_clean|done]).

Lemma dis_local_balanced adapter segment size map_va w :
  heap_ok w -> ctrl_alive w ctrl ct ->
  wp e (map_then_unmap (nvm_dis_dma_map_local ctrl adapter segment size map_va)) w (balanced w).
Proof.
  intros Hok [Hct Href].
  unfold map_then_unmap, nvm_dis_dma_map_local, nvm_dma_unmap, _nvm_dma_remove.
  unfold set_va_mapping, set_io_mapping, set_dma_vaddr.
  repeat dis_step; finish.
Qed.

Lemma dis_remote_balanced segment map_va map_wc w :
  heap_ok w -> ctrl_alive w ctrl ct ->
  wp e (map_then_unmap (nvm_dis_dma_map_remote ctrl segment map_va map_wc)) w (balanced w).
Proof.
  intros Hok [Hct Href].
  unfold map_then_unmap, nvm_dis_dma_map_remote, nvm_dma_unmap, _nvm_dma_remove.
  unfold set_va_mapping, set_io_mapping, set_dma_vaddr. 
  repeat dis_step. all: finish.
Qed.

(** Releasing a descriptor together with the segment it refers to. *)
Lemma remove_local_segment_spec p d s m w (Q : unit -> uworld -> Prop) :
  heap_ok w -> objs w !! p = Some (OMapDesc d) -> md_segment d = s -> objs w !! s = Some (OLocalMem m) ->
  (forall w', heap_ok w' -> objs w' = delete p (delete s (objs w)) ->
     moved w w' (fun κ => - (descriptor_owns d κ + one (KLocalSegment (lm_segment m)) κ)) -> Q tt w') ->
  wp e (remove_local_segment p) w Q.
Proof.
  intros Hok Hp <- Hs HQ. assert (p <> md_segment d) by congruence.
  pose proof (heap_ok_nonnull w Hok) as Hnn.
  unfold remove_local_segment, set_va_mapping, set_io_mapping, descriptor_owns in *.
  repeat heap_step; path_simp; try match goal with E : ?q = NULL, H : objs w !! ?q = Some _ |- _ => exfalso; exact (Hnn _ _ H E) end.
  apply HQ; [done|solve_objs|simpl in *; solve_moved].
Qed.

Lemma disconnect_remote_segment_spec p d s m w (Q : unit -> uworld -> Prop) :
  heap_ok w -> objs w !! p = Some (OMapDesc d) -> md_segment d = s -> objs w !! s = Some (ODevMem m) ->
  (forall w', heap_ok w' -> objs w' = delete p (delete s (objs w)) ->
     moved w w' (fun κ => - (descriptor_owns d κ + device_memory_owns m κ)) -> Q tt w') ->
  wp e (disconnect_remote_segment p) w Q.
Proof.
  intros Hok Hp <- Hs HQ. assert (p <> md_segment d) by congruence.
  pose proof (heap_ok_nonnull w Hok) as Hnn.
  unfold disconnect_remote_segment, set_va_mapping, set_io_mapping, descriptor_owns in *.
  repeat heap_step; path_simp; try match goal with E : ?q = NULL, H : objs w !! ?q = Some _ |- _ => exfalso; exact (Hnn _ _ H E) end.
  apply HQ; [done|solve_objs|simpl in *; solve_moved].
Qed.

Lemma connect_remote_segment_spec d adapter segno shared w :
  heap_ok w ->
  wp e (connect_remote_segment (Some d) adapter segno shared) w (fun '(err, s) w' =>
    err <> 0 /\ s = NULL /\ clean w w'
    \/ err = 0 /\ heap_ok w' /\ objs w !! s = None
       /\ exists m, objs w' = <[s := ODevMem m]> (objs w) /\ moved w w' (device_memory_owns m)).
Proof.
  intros Hok. unfold connect_remote_segment.
  repeat heap_step; path_simp; first [left; split; [done|split; [done|solve_clean]]|right].
  do 3 (split; [done|]). eexists. split; [heap_rewrite; by rewrite insert_insert_eq|solve_moved].
Qed.

(** A failed attachment removes the segment but leaves its SISCI descriptor open. *)
Lemma local_memory_get_attached_spec id ptr size w (Q : Z * local_memory -> uworld -> Prop) :
  (forall s m w', w_st w' = w_st w -> (s = 0 -> moved w w' (local_memory_owns m)) ->
     (s <> 0 -> moved w w' (fun _ => 0) \/ exists sd, moved w w' (one (KSd sd))) -> Q (s, m) w') ->
  wp e (_nvm_local_memory_get_attached id ptr size) w Q.
Proof.
  intros HQ. unfold _nvm_local_memory_get_attached. unfold local_memory_owns in *.
  repeat led_step; unfold local_memory_owns in *; (apply HQ; [congruence| |]); intros He; try done; path_simp;
    try done; try solve_moved; [left; solve_moved|right; exists (lm_sd d); solve_moved].
Qed.

Definition segment_made (w : uworld) (r : Z * Z) (w' : uworld) : Prop :=
  let (err, s) := r in
  err <> 0 /\ s = NULL /\ heap_ok w' /\ objs w' = objs w
    /\ (moved w w' (fun _ => 0) \/ exists sd, moved w w' (one (KSd sd)))
  \/ err = 0 /\ heap_ok w' /\ objs w !! s = None
    /\ exists m, objs w' = <[s := OLocalMem m]> (objs w) /\ moved w w' (local_memory_owns m).

Lemma create_local_segment_spec id size dptr w :
  heap_ok w -> wp e (create_local_segment id size dptr) w (segment_made w).
Proof.
  intros Hok. unfold create_local_segment, segment_made. led_step. heap_step.
  { repeat heap_step. left. do 2 (split; [done|]). split; [by eapply heap_ok_st|].
    split; [congruence|left; solve_moved]. }
  heap_step. led_step.
  assert (forall err m w2, w_st w2 = w_st w0 -> (err = 0 -> moved w0 w2 (local_memory_owns m)) ->
    (err <> 0 -> moved w0 w2 (fun _ => 0) \/ exists sd, moved w0 w2 (one (KSd sd))) ->
    wp e (store (h_next (w_st w)) m;;
          if negb (err =? 0) then free (h_next (w_st w));; mret (err, NULL) else mret (0, h_next (w_st w)))
       w2 (segment_made w)) as Hrest.
  { intros err m w2 Hst H0 H1. unfold segment_made. repeat heap_step; path_simp; [left|right].
    - do 3 (split; [done|]). split; [solve_objs|].
      destruct H1 as [H1|[sd H1]]; [left|right; exists sd]; solve_moved.
    - do 3 (split; [done|]). exists m. split; [heap_rewrite; by rewrite insert_insert_eq|solve_moved]. }
  destruct (dptr =? NULL).
  - led_step. apply Hrest; auto.
  - eapply local_memory_get_attached_spec. intros. apply Hrest; auto.
Qed.

Ltac seg_step :=
  track; cbn [d_release d_map dma_release dma_release_all];
  lazymatch goal with
  | |- wp _ (remove_local_segment _) _ _ =>
      norm_fresh; eapply remove_local_segment_spec;
        [assumption|solve [solve_lookup]|reflexivity|cbn; solve [solve_lookup]|];
      let Ho := fresh "Ho" in let Hm := fresh "Hmv" in intros ? ? Ho Hm
  | |- wp _ (disconnect_remote_segment _) _ _ =>
      norm_fresh; eapply disconnect_remote_segment_spec;
        [assumption|solve [solve_lookup]|reflexivity|cbn; solve [solve_lookup]|];
      let Ho := fresh "Ho" in let Hm := fresh "Hmv" in intros ? ? Ho Hm
  | |- wp _ (connect_remote_segment (Some _) _ _ _) _ _ =>
      eapply wp_mono; [by apply connect_remote_segment_spec|];
      let s := fresh "seg" in let Hf := fresh "Hfree" in let m := fresh "mem" in
      let Ho := fresh "Ho" in let Hm := fresh "Hmv" in
      intros [? s] ? [(? & ? & ? & ? & ?)|(? & ? & Hf & m & Ho & Hm)]; norm_fresh
  | |- wp _ (create_local_segment _ _ _) _ _ =>
      eapply wp_mono; [by apply create_local_segment_spec|];
      let s := fresh "seg" in let Hf := fresh "Hfree" in let m := fresh "mem" in
      let Ho := fresh "Ho" in let Hm := fresh "Hmv" in
      intros [? s] ? [(? & ? & ? & ? & Hm)|(? & ? & Hf & m & Ho & Hm)]; norm_fresh
  | |- wp _ (_nvm_device_from_ctrl _) _ _ =>
      eapply device_from_ctrl_spec; [assumption|split; [solve_lookup|intros _ _; eexists; solve [solve_lookup]]
        |intros Hno; exfalso; apply Hno; assumption|intros ? _]
  | |- _ => dis_step
  end.

Lemma dis_connect_balanced adapter segno size shared w :
  heap_ok w -> ctrl_alive w ctrl ct ->
  wp e (map_then_unmap (nvm_dis_dma_connect ctrl adapter segno size shared)) w (balanced w).
Proof.
  intros Hok [Hct Href].
  unfold map_then_unmap, nvm_dis_dma_connect, nvm_dma_unmap, _nvm_dma_remove.
  unfold set_va_mapping, set_io_mapping, set_dma_vaddr, set_segment.
  do 4 dis_step; dis_step; [repeat dis_step; finish|].
  destruct Href as [mr Hmr]; [apply H0..|]. norm_fresh.
  repeat seg_step; finish.
Qed.

(** What creating and releasing a local segment leaves behind: the SISCI
    descriptor of the segment, and nothing else. *)
Definition leaks_descriptor (w : uworld) (r : Z * Z) (w' : uworld) : Prop :=
  heap_ok w' /\ objs w' = objs w
  /\ (fst r = 0 -> exists sd, moved w w' (one (KSd sd)))
  /\ (fst r <> 0 -> moved w w' (fun _ => 0) \/ exists sd, moved w w' (one (KSd sd))).

Ltac finish_leak :=
  path_simp; unfold descriptor_owns, local_memory_owns, VA_MAP_INIT, IO_MAP_INIT in *; simpl in *;
  (split; [track; assumption|]); (split; [solve_objs|]);
  split; intros; try done; try congruence;
  repeat match goal with H : moved _ _ _ \/ _ |- _ => destruct H as [H|[? H]] end;
  first [left; solve_moved
        |match goal with m : local_memory |- _ => right; exists (lm_sd m); solve_moved end
        |match goal with sd : Z |- _ => right; exists sd; solve_moved end
        |match goal with m : local_memory |- _ => exists (lm_sd m); solve_moved end].

Lemma dis_create_leaks adapter id size w :
  heap_ok w -> ctrl_alive w ctrl ct ->
  wp e (map_then_unmap (nvm_dis_dma_create ctrl adapter id size)) w (leaks_descriptor w).
Proof.
  intros Hok [Hct Href].
  unfold map_then_unmap, nvm_dis_dma_create, nvm_dma_unmap, _nvm_dma_remove.
  unfold set_va_mapping, set_io_mapping, set_dma_vaddr, set_segment.
  repeat seg_step. all: try finish_leak.
Qed.

Lemma dis_device_leaks adapter id dptr size w :
  heap_ok w -> ctrl_alive w ctrl ct ->
  wp e (map_then_unmap (nvm_dis_dma_map_device ctrl adapter id dptr size)) w (leaks_descriptor w).
Proof.
  intros Hok [Hct Href].
  unfold map_then_unmap, nvm_dis_dma_map_device, nvm_dma_unmap, _nvm_dma_remove.
  unfold set_va_mapping, set_io_mapping, set_dma_vaddr, set_segment.
  repeat seg_step. all: try finish_leak.
Qed.
End specs.

(** ** Properties *)


(** A local segment created for a DMA handle never gives its SISCI descriptor
    back: creating (or attaching) and unmapping successfully leaves exactly the
    descriptor that [create_segment] opened, since [_nvm_local_memory_put] removes
    the segment without closing it; a failed call leaks at most that descriptor. *)
Theorem local_segment_leaks_descriptor (e : uenv) (ctrl : Z) (ct : controller) (w : uworld)
    (adapter id dptr size : Z) (map : UM (Z * Z)) :
  busy_bounded e -> 0 < ctrl_page_size (ct_handle ct) -> heap_ok w -> ctrl_alive w ctrl ct ->
  In map [nvm_dis_dma_create ctrl adapter id size; nvm_dis_dma_map_device ctrl adapter id dptr size] ->
  wp e (map_then_unmap map) w (leaks_descriptor w).
Proof.
  intros Hb Hc Hok Ha Hin.
  repeat destruct Hin as [<-|Hin]; [..|done]; eauto using dis_create_leaks, dis_device_leaks.
Qed.

(** ** Witnesses *)

Definition smartio_ctrl : controller :=
  Controller DEVICE_TYPE_SMARTIO 2 (-1) (Ctrl 4096 0 10000 1024 8192 65536).

(** A world with one controller handle and the reference to its registers. *)
Definition smartio_world : uworld :=
  World empty (Heap (<[1 := OController smartio_ctrl]>
    {[2 := OMemRef (MemoryReference device_memory0 VA_MAP_INIT)]}) 3) [].

Lemma smartio_world_ok : heap_ok smartio_world.
Proof.
  split; [done|]. intros p o. simpl. rewrite lookup_insert_Some, lookup_singleton_Some. lia.
Qed.

Lemma smartio_ctrl_alive : ctrl_alive smartio_world 1 smartio_ctrl.
Proof. split; [reflexivity|]. intros _ _. eexists. reflexivity. Qed.

(** Every call succeeds; segments have 64 KiB. *)
Definition sisci_env : uenv := const_env (fun _ => resp_ok 65536) 1.

Lemma sisci_env_busy : busy_bounded sisci_env.
Proof. by apply const_env_busy; [lia|]. Qed.


Lemma local_segment_leaks_descriptor_witness :
  wp sisci_env (map_then_unmap (nvm_dis_dma_create 1 0 5 8192)) smartio_world
    (leaks_descriptor smartio_world).
Proof.
  apply (local_segment_leaks_descriptor sisci_env 1 smartio_ctrl smartio_world 0 5 0 8192);
    [exact sisci_env_busy|reflexivity|exact smartio_world_ok|exact smartio_ctrl_alive|].
  left. reflexivity.
Defined.
