(* ===== verification/Rpc.v ===== *)
(** * Admin queue references ([src/rpc.c])

    A reference stands for a local admin queue pair or for a binding to a remote
    one. It holds a stub that executes commands, the data of that stub with the
    callback that deletes it, and, on the server side, a linked list of handles.
    Stub and deleter are function pointers: this component is stated against the
    interface [RpcCallbacks], which [DisRpc] completes. *)
From Stdlib Require Import String.
From S2P Require Import Prelude Bits Memory Effects Types Runtime Command Error Queue.
From S2P Require Import DisDevice DisMap Ctrl Dma.

(** ** The local admin queue pair *)

Definition store_asq (p : Z) (q : nvm_queue_t) : UM unit :=
  a ← load p; store p (LocalAdmin (la_acq a) q (la_timeout a)).
Definition store_acq (p : Z) (q : nvm_queue_t) : UM unit :=
  a ← load p; store p (LocalAdmin q (la_asq a) (la_timeout a)).

(** [cmd] and [cpl] are the addresses of the caller's command and completion. *)
Definition execute_command (admin cmd cpl : Z) : UM Z :=
  a ← load (A:=local_admin) admin;
  m ← get_mem;
  match nvm_sq_enqueue m (la_asq a) with
  | None => fail DivByZero
  | Some (in_queue_cmd, asq, m') =>
      put_mem m';;
      store_asq admin asq;;
      if in_queue_cmd =? NULL then mret EAGAIN
      else
        in_queue_id ← ld_mem 2 (NVM_CMD_CID in_queue_cmd);
        upd_mem (fun m => memcpy m in_queue_cmd cmd 64);;
        upd_mem (fun m => st 2 m (NVM_CMD_CID in_queue_cmd) in_queue_id);;
        asq ← nvm_sq_submit asq;
        store_asq admin asq;;
        '(in_queue_cpl, acq) ← nvm_cq_dequeue_block (la_acq a) (la_timeout a);
        store_acq admin acq;;
        if in_queue_cpl =? NULL then mret ETIME
        else
          store_asq admin (nvm_sq_update asq);;
          upd_mem (fun m => memcpy m cpl in_queue_cpl 16);;
          upd_mem (fun m => st 2 m (NVM_CPL_CID cpl) (ld 2 m (NVM_CMD_CID cmd)));;
          mret 0
  end.

(** The handle inside the DMA container at [window]. *)
Definition load_dma (window : Z) : UM nvm_dma_t := c ← load (A:=dma) window; mret (d_handle c).

Definition ioaddr_at (d : nvm_dma_t) (i : nat) : UM Z :=
  match dma_ioaddrs d !! i with Some a => mret a | None => fail BadPointer end.

Definition queue0 : nvm_queue_t := Queue 0 0 0 0 0 0 0 0 NULL 0.

Definition create_admin (ctrl window : Z) : UM Z :=
  admin ← malloc T_local_admin 0 (LocalAdmin queue0 queue0 0);
  if admin =? NULL then mret NULL
  else
    c ← load_ctrl ctrl;
    w ← load_dma window;
    acq_ioaddr ← ioaddr_at w 0;
    store_acq admin (nvm_queue_clear c true 0 (dma_vaddr w) acq_ioaddr);;
    asq_ioaddr ← ioaddr_at w 1;
    store_asq admin (nvm_queue_clear c false 0 (dma_vaddr w + dma_page_size w) asq_ioaddr);;
    upd_mem (fun m => memset m (dma_vaddr w) 0 (Z.to_nat (2 * dma_page_size w)));;
    a ← load (A:=local_admin) admin;
    store admin (LocalAdmin (la_acq a) (la_asq a) (ctrl_timeout c));;
    mret admin.

(** Called through [rpc_deleter_t] the two arguments are the instance data and the
    key. *)
Definition remove_admin (ref admin : Z) : UM unit :=
  if negb (ref =? NULL) then free admin else mret tt.

(** ** The callbacks *)

(** [rpc_delete f data key remaining]; the number of remaining handles is
    [None] while it is indeterminate. *)
Class RpcCallbacks := {
  rpc_stub : rpc_stub_t -> Z -> Z -> Z -> UM Z;
  rpc_delete : rpc_deleter_t -> Z -> Z -> option Z -> UM unit;
  rpc_stub_local : forall admin cmd cpl,
    rpc_stub STUB_execute_command admin cmd cpl = execute_command admin cmd cpl;
  rpc_delete_admin : forall data key n, rpc_delete DEL_remove_admin data key n = remove_admin data key;
}.

Section rpc.
Context `{RpcCallbacks}.

(** ** Fields of a reference *)

Definition set_handles (ref p : Z) : UM unit :=
  r ← load ref;
  store ref (AdminReference (ar_ctrl r) (ar_n_handles r) p (ar_data r) (ar_release r) (ar_stub r)).
Definition set_n_handles (ref : Z) (n : option Z) : UM unit :=
  r ← load ref;
  store ref (AdminReference (ar_ctrl r) n (ar_handles r) (ar_data r) (ar_release r) (ar_stub r)).
Definition set_binding (ref data : Z) (release : option rpc_deleter_t) (stub : option rpc_stub_t) : UM unit :=
  r ← load ref;
  store ref (AdminReference (ar_ctrl r) (ar_n_handles r) (ar_handles r) data release stub).
Definition set_next (h next : Z) : UM unit :=
  c ← load h; store h (RpcHandle next (rh_key c) (rh_data c) (rh_release c)).

(** Bounds the length of any list in the heap: the loops below visit every node
    at most once. *)
Definition heap_fuel : UM nat := h ← get_st; mret (S (size (h_objs h))).

(** ** The list of handles *)

(** The search for the end of the list: [None] if [key] is already there, else the
    last node. *)
Fixpoint insert_position (fuel : nat) (key prev curr : Z) : UM (option Z) :=
  match fuel with
  | O => out_of_fuel
  | S fuel' =>
      if curr =? NULL then mret (Some prev)
      else
        c ← load (A:=rpc_handle) curr;
        if rh_key c =? key then mret None else insert_position fuel' key curr (rh_next c)
  end.

Definition _nvm_rpc_handle_insert (ref key data : Z) (release : option rpc_deleter_t) : UM Z :=
  if (data =? NULL) || (if release is None then true else false) then mret EINVAL
  else
    handle ← malloc T_rpc_handle 0 (RpcHandle NULL key data release);
    if handle =? NULL then mret ENOMEM
    else
      l ← ext (Mutex_lock ref);
      if negb (r_val l =? 0) then free handle;; mret (r_val l)
      else
        r ← load (A:=nvm_admin_reference) ref;
        n ← heap_fuel;
        pos ← insert_position n key NULL (ar_handles r);
        match pos with
        | None => ext (Mutex_unlock ref);; free handle;; mret EINVAL
        | Some prev =>
            (if negb (prev =? NULL) then set_next prev handle else set_handles ref handle);;
            r ← load (A:=nvm_admin_reference) ref;
            set_n_handles ref (Z.add 1 <$> ar_n_handles r);;
            ext (Mutex_unlock ref);;
            mret 0
        end.

(** The node before the first one with [key] and that node. *)
Fixpoint find_handle (fuel : nat) (key prev curr : Z) : UM (Z * Z) :=
  match fuel with
  | O => out_of_fuel
  | S fuel' =>
      if curr =? NULL then mret (prev, curr)
      else
        c ← load (A:=rpc_handle) curr;
        if rh_key c =? key then mret (prev, curr) else find_handle fuel' key curr (rh_next c)
  end.

(** A null callback is not checked for. *)
Definition call_release (f : option rpc_deleter_t) (data key : Z) (remaining : option Z) : UM unit :=
  match f with
  | Some f => rpc_delete f data key remaining
  | None => fail NullDeref
  end.

Definition _nvm_rpc_handle_remove (ref key : Z) : UM unit :=
  ext (Mutex_lock ref);;
  r ← load (A:=nvm_admin_reference) ref;
  n ← heap_fuel;
  '(prev, curr) ← find_handle n key NULL (ar_handles r);
  c ← load (A:=rpc_handle) curr;
  (if negb (prev =? NULL) then set_next prev (rh_next c) else set_handles ref (rh_next c));;
  (if negb (curr =? NULL) then
     r ← load (A:=nvm_admin_reference) ref;
     let remaining := (fun n => n - 1) <$> ar_n_handles r in
     set_n_handles ref remaining;;
     c ← load (A:=rpc_handle) curr;
     call_release (rh_release c) (rh_data c) (rh_key c) remaining;;
     free curr
   else mret tt);;
  ext (Mutex_unlock ref);;
  mret tt.

Fixpoint release_loop (fuel : nat) (ref next : Z) : UM unit :=
  match fuel with
  | O => out_of_fuel
  | S fuel' =>
      if next =? NULL then mret tt
      else
        c ← load (A:=rpc_handle) next;
        r ← load (A:=nvm_admin_reference) ref;
        let remaining := (fun n => n - 1) <$> ar_n_handles r in
        set_n_handles ref remaining;;
        call_release (rh_release c) (rh_data c) (rh_key c) remaining;;
        free next;;
        release_loop fuel' ref (rh_next c)
  end.

Definition release_handles (ref : Z) : UM unit :=
  if negb (ref =? NULL) then
    r ← load (A:=nvm_admin_reference) ref;
    n ← heap_fuel;
    release_loop n ref (ar_handles r);;
    set_handles ref NULL
  else mret tt.

(** ** References *)

(** [n_handles] is not initialised. *)
Definition _nvm_ref_get (ctrl : Z) : UM (Z * Z) :=
  ref ← malloc T_admin_reference 0 (AdminReference NULL None NULL NULL None None);
  if ref =? NULL then mret (ENOMEM, NULL)
  else
    i ← ext (Mutex_init ref);
    if negb (r_val i =? 0) then free ref;; mret (r_val i, NULL)
    else
      store ref (AdminReference ctrl None NULL NULL None None);;
      mret (0, ref).

Definition _nvm_ref_put (ref : Z) : UM unit :=
  if negb (ref =? NULL) then
    ext (Mutex_lock ref);;
    release_handles ref;;
    r ← load (A:=nvm_admin_reference) ref;
    (match ar_release r with
     | Some f => rpc_delete f (ar_data r) 0 (Some 0)
     | None => mret tt
     end);;
    ext (Mutex_unlock ref);;
    ext (Mutex_destroy ref);;
    free ref
  else mret tt.

(** [NVM_ERR_PACK] on the memory of the moment. *)
Definition pack (cpl err : Z) : UM Z := m ← get_mem; mret (NVM_ERR_PACK m cpl err).

Definition nvm_raw_rpc (ref cmd cpl : Z) : UM Z :=
  l ← ext (Mutex_lock ref);
  if negb (r_val l =? 0) then pack NULL (r_val l)
  else
    r ← load (A:=nvm_admin_reference) ref;
    match ar_stub r with
    | None => ext (Mutex_unlock ref);; pack NULL EINVAL
    | Some stub =>
        err ← rpc_stub stub (ar_data r) cmd cpl;
        ext (Mutex_unlock ref);;
        pack cpl err
    end.

Definition _nvm_rpc_bind (ref data : Z) (release : option rpc_deleter_t) (stub : option rpc_stub_t) : UM Z :=
  l ← ext (Mutex_lock ref);
  if negb (r_val l =? 0) then mret (r_val l)
  else
    r ← load (A:=nvm_admin_reference) ref;
    if negb (ar_data r =? NULL) || (if ar_stub r is Some _ then true else false)
    then ext (Mutex_unlock ref);; mret EINVAL
    else
      set_binding ref data release stub;;
      ext (Mutex_unlock ref);;
      mret 0.

Definition nvm_aq_create (ctrl window : Z) : UM (Z * Z) :=
  c ← load_ctrl ctrl;
  w ← load_dma window;
  if negb (ctrl_page_size c =? dma_page_size w) then mret (EINVAL, NULL)
  else if dma_n_ioaddrs w <? 2 then mret (EINVAL, NULL)
  else if dma_vaddr w =? NULL then mret (EINVAL, NULL)
  else
    '(err, ref) ← _nvm_ref_get ctrl;
    if negb (err =? 0) then mret (err, NULL)
    else
      r ← load (A:=nvm_admin_reference) ref;
      admin ← create_admin (ar_ctrl r) window;
      set_binding ref admin None None;;
      if admin =? NULL then _nvm_ref_put ref;; mret (ENOMEM, NULL)
      else
        set_binding ref admin (Some DEL_remove_admin) (Some STUB_execute_command);;
        a ← load (A:=local_admin) admin;
        nvm_raw_ctrl_reset c (q_ioaddr (la_acq a)) (q_ioaddr (la_asq a));;
        mret (0, ref).

Definition nvm_aq_destroy (ref : Z) : UM unit :=
  if negb (ref =? NULL) then _nvm_ref_put ref else mret tt.

Definition nvm_ctrl_from_aq_ref (ref : Z) : UM Z :=
  if negb (ref =? NULL) then r ← load (A:=nvm_admin_reference) ref; mret (ar_ctrl r)
  else mret NULL.

Definition is_local (stub : option rpc_stub_t) : bool :=
  match stub with Some STUB_execute_command => true | _ => false end.

Definition _nvm_local_admin (ref cmd cpl : Z) : UM Z :=
  l ← ext (Mutex_lock ref);
  if negb (r_val l =? 0) then pack NULL (r_val l)
  else
    r ← load (A:=nvm_admin_reference) ref;
    if negb (is_local (ar_stub r)) then ext (Mutex_unlock ref);; pack NULL EINVAL
    else
      err ← execute_command (ar_data r) cmd cpl;
      ext (Mutex_unlock ref);;
      pack NULL err.

Definition nvm_rpc_unbind (ref : Z) : UM unit :=
  if negb (ref =? NULL) then _nvm_ref_put ref else mret tt.

End rpc.
