(* ===== verification/RpcHandles.v ===== *)
(** * The handles of an admin queue reference: properties of [src/rpc.c]

    A server's linked list of handles as an association list: insertion, removal
    and the release of everything a reference holds. *)
From S2P Require Import Prelude Bits Memory Effects Types Runtime Command Error Queue.
From S2P Require Import DisDevice DisMap Ctrl Dma Rpc.

(** ** The list of handles, abstractly *)

Record entry := Entry { en_key : Z; en_data : Z; en_release : option rpc_deleter_t }.

Definition node (next : Z) (en : entry) : rpc_handle :=
  RpcHandle next (en_key en) (en_data en) (en_release en).

Fixpoint chain (h : gmap Z obj) (p : Z) (l : list (Z * entry)) : Prop :=
  match l with
  | [] => p = NULL
  | (q, en) :: l => p = q /\ exists n, h !! q = Some (ORpcHandle (node n en)) /\ chain h n l
  end.

Abbreviation addresses l := (fmap fst l).
Definition keys (l : list (Z * entry)) : list Z := (fun x => en_key (snd x)) <$> l.

Lemma chain_frame h h' p l :
  chain h p l -> (forall q, q ∈ addresses l -> h' !! q = h !! q) -> chain h' p l.
Proof.
  revert p. induction l as [|[q en] l IH]; intros p; simpl; [done|].
  intros (-> & n & Hq & Hc) Hf. split; [done|]. exists n. split; [rewrite Hf; [done|left]|].
  apply IH; [done|]. intros. apply Hf. by right.
Qed.

Lemma chain_node h p l q : chain h p l -> q ∈ addresses l ->
  exists c, h !! q = Some (ORpcHandle c).
Proof.
  revert p. induction l as [|[q' en] l IH]; intros p; simpl; [by intros _ ?%elem_of_nil|].
  intros (-> & n & Hq & Hc) [->|Hin]%elem_of_cons; [by eexists|eauto].
Qed.

Lemma chain_det h p l l' : (forall q o, h !! q = Some o -> q <> NULL) ->
  chain h p l -> chain h p l' -> l = l'.
Proof.
  intros Hn. revert p l'. induction l as [|[q en] l IH]; intros p [|[q' en'] l']; simpl; [done| | |].
  - intros -> (<- & n & Hq & _). by apply Hn in Hq.
  - intros (-> & n & Hq & _) ->. by apply Hn in Hq.
  - intros (-> & n & Hq & Hc) (<- & n' & Hq' & Hc'). rewrite Hq in Hq'.
    destruct en, en'. injection Hq' as -> -> -> ->. f_equal. by eapply IH.
Qed.

Lemma chain_split h p l q en l' : chain h p (l ++ (q, en) :: l') -> chain h q ((q, en) :: l').
Proof.
  revert p. induction l as [|[q1 en1] l IH]; intros p; simpl; [by intros (-> & ?)|].
  intros (_ & n & _ & Hc). by apply IH in Hc.
Qed.

(** A chain that ends in NULL visits no node twice. *)
Lemma chain_nodup h p l : (forall q o, h !! q = Some o -> q <> NULL) ->
  chain h p l -> NoDup (addresses l).
Proof.
  intros Hn. revert p. induction l as [|[q en] l IH]; intros p Hc; [constructor|].
  pose proof Hc as (-> & n & Hq & Hc'). simpl. constructor; [|by eapply IH].
  intros ([q' en'] & -> & Hin)%list_elem_of_fmap. apply list_elem_of_split in Hin as (l1 & l2 & ->).
  pose proof (chain_split _ _ _ _ _ _ Hc') as Hc2.
  pose proof (chain_det _ _ _ _ Hn Hc Hc2) as Heq.
  apply (f_equal length) in Heq. simpl in Heq. rewrite length_app in Heq. simpl in Heq. lia.
Qed.

(** The loop bound [heap_fuel] is enough for any chain. *)
Lemma chain_fuel h p l : (forall q o, h !! q = Some o -> q <> NULL) ->
  chain h p l -> (length l < S (size h))%nat.
Proof.
  intros Hn Hc. pose proof (chain_nodup _ _ _ Hn Hc) as Hnd.
  rewrite <- (length_fmap fst l).
  rewrite <- (size_list_to_set (C:=gset Z) (addresses l)) by done.
  rewrite <- (size_dom (D:=gset Z) h). apply Nat.lt_succ_r, subseteq_size.
  intros q Hq%elem_of_list_to_set. destruct (chain_node _ _ _ _ Hc Hq) as [c ?].
  by apply elem_of_dom.
Qed.

(** A server reference: its object, its chain of handles and their number. *)
Definition server (w : uworld) (ref : Z) (r : nvm_admin_reference) (l : list (Z * entry)) : Prop :=
  heap_ok w /\ objs w !! ref = Some (OAqRef r) /\ chain (objs w) (ar_handles r) l.

(** An entry's place in the list does not depend on its node: nodes are never
    objects of another type. *)
Lemma chain_neq h p l q o : chain h p l -> h !! q = Some o ->
  (forall c, o <> ORpcHandle c) -> q ∉ addresses l.
Proof. intros Hc Hq Ho Hin. destruct (chain_node _ _ _ _ Hc Hin) as [c Hc']. naive_solver. Qed.

Section handles.
Context `{RpcCallbacks} (e : uenv).

(** Locking a mutex of the library succeeds. *)
Hypothesis Hlock : forall w p, r_val (fst (e_resp e w (Mutex_lock p))) = 0.

Lemma insert_position_spec key n prev p l w :
  heap_ok w -> chain (objs w) p l -> (length l < n)%nat ->
  wp e (insert_position n key prev p) w (fun r w' => w' = w
    /\ r = if decide (key ∈ keys l) then None else Some (default prev (list.last (addresses l)))).
Proof.
  intros Hok. revert prev p n. induction l as [|[q en] l IH]; intros prev p [|n] Hc Hn;
    simpl in Hn; try lia; simpl insert_position.
  - rewrite Hc. by wp_step.
  - destruct Hc as (-> & nx & Hq & Hc). rewrite (proj2 (Z.eqb_neq q NULL)) by (by eapply heap_ok_nonnull).
    wp_step. eapply wp_load; [done|exact Hq|]. simpl.
    destruct (Z.eqb_spec (en_key en) key) as [->|Hne].
    + wp_step. by rewrite decide_True by left.
    + eapply wp_mono; [apply IH; [done|lia]|]. intros r w' [-> ->]. split; [done|].
      destruct (decide (key ∈ keys l)) as [Hin|Hni].
      * by rewrite decide_True by (by right).
      * rewrite decide_False by (rewrite elem_of_cons; intros [?|?]; congruence || done).
        f_equal. simpl addresses. change (q :: list_fmap _ _ fst l) with (q :: addresses l).
        rewrite last_cons. by destruct (list.last (addresses l)).
Qed.

(** Appending a node. *)
Lemma chain_snoc h h' p l q en prev :
  chain h p l -> NoDup (addresses l) -> list.last (addresses l) = Some prev ->
  (exists c, h !! prev = Some (ORpcHandle c)
     /\ h' !! prev = Some (ORpcHandle (RpcHandle q (rh_key c) (rh_data c) (rh_release c)))) ->
  h' !! q = Some (ORpcHandle (node NULL en)) ->
  (forall a, a ∈ addresses l -> a <> prev -> h' !! a = h !! a) ->
  chain h' p (l ++ [(q, en)]).
Proof.
  revert p. induction l as [|[q1 en1] l IH]; intros p Hc Hnd Hl Hp Hq Hf; [done|].
  destruct Hc as (-> & n & Hq1 & Hc). inversion_clear Hnd as [|?? Hni Hnd'].
  simpl. split; [done|]. destruct l as [|x l].
  - injection Hl as <-. destruct Hp as (c & Hc1 & Hc2). rewrite Hq1 in Hc1. injection Hc1 as <-.
    exists q. split; [exact Hc2|]. simpl. split; [done|]. exists NULL. done.
  - assert (q1 <> prev) as Hne.
    { intros ->. apply Hni. apply last_Some_elem_of. exact Hl. }
    exists n. split; [rewrite Hf; [done|left|done]|]. apply IH; try done. intros. apply Hf; [by right|done].
Qed.

Definition with_handles (n : option Z) (p : Z) (r : nvm_admin_reference) : nvm_admin_reference :=
  AdminReference (ar_ctrl r) n p (ar_data r) (ar_release r) (ar_stub r).

(** What an insertion leaves behind. *)
Definition inserted (ref key data : Z) (release : option rpc_deleter_t) (r : nvm_admin_reference)
    (l : list (Z * entry)) (w : uworld) (s : Z) (w' : uworld) : Prop :=
  moved w w' (fun _ => 0)
  /\ (((s = EINVAL /\ (data = NULL \/ release = None \/ key ∈ keys l)) \/ s = ENOMEM)
      /\ heap_ok w' /\ objs w' = objs w
    \/ s = 0 /\ data <> NULL /\ is_Some release /\ (key ∉ keys l)
      /\ exists p q, objs w !! p = None
      /\ server w' ref (with_handles (Z.add 1 <$> ar_n_handles r) q r) (l ++ [(p, Entry key data release)])
      /\ forall a, a <> p -> a <> ref -> a ∉ addresses l -> objs w' !! a = objs w !! a).

(** Linking the node at [p] at the end of the list. *)
Lemma link_spec ref p en r l w (Q : Z -> uworld -> Prop) :
  server w ref r l -> objs w !! p = Some (ORpcHandle (node NULL en)) -> p ∉ addresses l ->
  (forall w' q, moved w w' (fun κ => - one (KLock ref) κ) ->
     server w' ref (with_handles (Z.add 1 <$> ar_n_handles r) q r) (l ++ [(p, en)]) ->
     (forall a, a <> p -> a <> ref -> a ∉ addresses l -> objs w' !! a = objs w !! a) -> Q 0 w') ->
  wp e (let prev := default NULL (list.last (addresses l)) in
        (if negb (prev =? NULL) then set_next prev p else set_handles ref p);;
        r ← load (A:=nvm_admin_reference) ref;
        set_n_handles ref (Z.add 1 <$> ar_n_handles r);;
        ext (Mutex_unlock ref);;
        mret 0) w Q.
Proof.
  intros (Hok & Hr & Hc) Hp Hnp HQ. cbv zeta.
  pose proof (heap_ok_nonnull _ Hok) as Hnn. pose proof (chain_nodup _ _ _ Hnn Hc) as Hnd.
  pose proof (chain_neq _ _ _ _ _ Hc Hr ltac:(done)) as Hnr.
  assert (p <> ref) by congruence.
  destruct (list.last (addresses l)) as [prev|] eqn:Hl; simpl.
  - pose proof (last_Some_elem_of _ _ Hl) as Hin.
    destruct (chain_node _ _ _ _ Hc Hin) as [c Hprev].
    assert (prev <> p /\ prev <> ref) as [? ?] by (split; congruence).
    unfold set_next, set_n_handles. rewrite (proj2 (Z.eqb_neq prev NULL)) by eauto. simpl negb. cbn iota.
    repeat heap_step. apply (HQ _ (ar_handles r)); [solve_moved| |].
    + split; [done|]. split; [solve_lookup|]. simpl.
      eapply (chain_snoc (objs w)); try done; heap_rewrite.
      * exists c. split; [done|]. by simplify_map_eq.
      * by simplify_map_eq.
      * intros a Ha Hne. assert (a <> ref) by congruence. by simplify_map_eq.
    + intros a ? ? Ha. assert (a <> prev) by congruence. heap_rewrite. by simplify_map_eq.
  - assert (l = []) as ->. { destruct l as [|x l]; [done|]. apply last_None in Hl. done. }
    unfold set_handles, set_n_handles.
    repeat heap_step. apply (HQ _ p); [solve_moved| |].
    + split; [done|]. split; [solve_lookup|]. simpl. split; [done|]. exists NULL. split; [|done]. solve_lookup.
    + intros a ? ? Ha. heap_rewrite. by simplify_map_eq.
Qed.

Lemma handle_insert_inserted ref key data release r l w :
  server w ref r l ->
  wp e (_nvm_rpc_handle_insert ref key data release) w (inserted ref key data release r l w).
Proof.
  intros (Hok & Hr & Hc). unfold _nvm_rpc_handle_insert.
  assert (forall w', moved w w' (fun _ => 0) -> heap_ok w' -> objs w' = objs w ->
    forall s, s = EINVAL /\ (data = NULL \/ release = None \/ key ∈ keys l) \/ s = ENOMEM ->
    inserted ref key data release r l w s w') as Hfail by (intros; split; [done|by left]).
  repeat heap_step.
  - apply Hfail; [apply moved_refl|done|done|].
    left. split; [done|]. destruct (Z.eqb_spec data NULL); [by left|]. destruct release; [done|]. tauto.
  - apply Hfail; [solve_moved|done|congruence|by right].
  - rewrite Hans, Hlock in E1. done.
  - assert (chain (objs w1) (ar_handles r) l) as Hc1.
    { eapply chain_frame; [done|]. intros q Hq. rewrite Hst, Ho.
      destruct (chain_node _ _ _ _ Hc Hq) as [c ?]. apply lookup_insert_ne. congruence. }
    pose proof (chain_fuel _ _ _ (heap_ok_nonnull _ H0) Hc1) as Hfuel.
    unfold heap_fuel. repeat wp_step.
    eapply wp_mono; [by apply (insert_position_spec _ _ _ _ l)|]. intros pos w2 [-> ->].
    destruct (decide (key ∈ keys l)) as [Hin|Hni].
    + repeat heap_step. apply Hfail; [solve_moved|done|solve_objs|]. left. auto.
    + apply (link_spec ref (h_next (w_st w)) (Entry key data release) r l).
      * split; [done|]. split; [solve_lookup|done].
      * heap_rewrite. by simplify_map_eq.
      * intros Ha. destruct (chain_node _ _ _ _ Hc Ha) as [c ?]. congruence.
      * intros w' q Hmv' Hsrv Hframe. split; [solve_moved|]. right. split; [done|].
        apply orb_false_iff in E as [Ed Er]. apply Z.eqb_neq in Ed.
        split; [done|]. split; [by destruct release|]. split; [done|].
        exists (h_next (w_st w)), q. split; [done|]. split; [done|].
        intros a Ha1 Ha2 Ha3. rewrite Hframe by done. heap_rewrite. by simplify_map_eq.
Qed.

(** Callback [f] deletes the object [o] at [data] and releases [L]. *)
Definition disposes (f : rpc_deleter_t) (data key : Z) (o : obj) (L : Types.key -> Z) : Prop :=
  forall n w, heap_ok w -> objs w !! data = Some o ->
  wp e (rpc_delete f data key n) w (fun _ w' =>
    heap_ok w' /\ objs w' = delete data (objs w) /\ moved w w' (fun κ => - L κ)).

Definition is_instance (o : obj) : Prop :=
  match o with ORpcHandle _ | OAqRef _ => False | _ => True end.

(** What an entry stands for: the instance it points to, and what disposing of
    it releases. *)
Definition disposable (h : gmap Z obj) (en : entry) (L : Types.key -> Z) : Prop :=
  exists f o, en_release en = Some f /\ h !! en_data en = Some o /\ is_instance o
  /\ disposes f (en_data en) (en_key en) o L.

Lemma keys_cons_not key en l : en_key en <> key -> key ∉ keys l -> key ∉ en_key en :: keys l.
Proof. intros ? ? [?|?]%elem_of_cons; [simpl in *; congruence|done]. Qed.

Lemma find_handle_spec key n prev p l w :
  heap_ok w -> chain (objs w) p l -> (length l < n)%nat ->
  wp e (find_handle n key prev p) w (fun r w' => w' = w
    /\ (((key ∉ keys l) /\ r = (default prev (list.last (addresses l)), NULL))
       \/ exists l1 q en l2, l = l1 ++ (q, en) :: l2 /\ en_key en = key /\ (key ∉ keys l1)
          /\ r = (default prev (list.last (addresses l1)), q))).
Proof.
  intros Hok. revert prev p n. induction l as [|[q en] l IH]; intros prev p [|n] Hc Hn;
    simpl in Hn; try lia; simpl find_handle.
  - rewrite Hc at 1. change (NULL =? NULL) with true. cbn iota. wp_step. split; [done|]. left. split; [by intros ?%elem_of_nil|]. by rewrite Hc.
  - destruct Hc as (-> & nx & Hq & Hc). rewrite (proj2 (Z.eqb_neq q NULL)) by (by eapply heap_ok_nonnull).
    wp_step. eapply wp_load; [done|exact Hq|]. simpl.
    assert (forall k : list (Z * entry), default q (list.last (addresses k))
       = default prev (list.last (q :: addresses k))) as Hlast.
    { intros k. rewrite last_cons. by destruct (list.last (addresses k)). }
    destruct (Z.eqb_spec (en_key en) key) as [Heq|Hne].
    + wp_step. split; [done|]. right. exists [], q, en, l. split; [done|]. split; [done|].
      split; [by intros ?%elem_of_nil|]. done.
    + eapply wp_mono; [apply IH; [done|lia]|].
      intros r w' [-> [[Hni ->]|(l1 & q1 & en1 & l2 & -> & Hk & Hni & ->)]]; (split; [done|]).
      * left. split; [|by rewrite Hlast]. by eapply keys_cons_not.
      * right. exists ((q, en) :: l1), q1, en1, l2. split; [done|]. split; [done|].
        split; [|by rewrite Hlast]. by eapply keys_cons_not.
Qed.

Lemma keys_app l1 l2 : keys (l1 ++ l2) = keys l1 ++ keys l2.
Proof. apply fmap_app. Qed.

(** Unlinking the node [q]. *)
Lemma chain_unlink h h' p l1 q en l2 nx :
  chain h p (l1 ++ (q, en) :: l2) -> NoDup (addresses (l1 ++ (q, en) :: l2)) ->
  h !! q = Some (ORpcHandle (node nx en)) ->
  match list.last (addresses l1) with
  | None => True
  | Some prev => exists c, h !! prev = Some (ORpcHandle c)
      /\ h' !! prev = Some (ORpcHandle (RpcHandle nx (rh_key c) (rh_data c) (rh_release c)))
  end ->
  (forall a, a ∈ addresses (l1 ++ l2) -> list.last (addresses l1) <> Some a -> h' !! a = h !! a) ->
  chain h' (if list.last (addresses l1) is Some _ then p else nx) (l1 ++ l2).
Proof.
  revert p. induction l1 as [|[q1 en1] l1 IH]; intros p Hc Hnd Hq Hl Hf.
  - destruct Hc as (-> & n & Hq' & Hc). rewrite Hq in Hq'. injection Hq' as <-.
    eapply chain_frame; [exact Hc|]. intros a Ha. by apply Hf.
  - destruct Hc as (-> & n & Hq1 & Hc). inversion_clear Hnd as [|?? Hni Hnd'].
    rewrite fmap_cons, last_cons in *. simpl.
    destruct (list.last (addresses l1)) as [prev|] eqn:El; (split; [done|]).
    + assert (q1 <> prev) as Hne.
      { intros <-. apply Hni. rewrite fmap_app, elem_of_app. left. by apply last_Some_elem_of. }
      exists n. split; [rewrite Hf; [done|left|congruence]|].
      apply IH; try done. intros a Ha. apply Hf. by right.
    + destruct l1 as [|x l1]; [|by apply last_None in El].
      destruct Hl as (c & Hc1 & Hc2). simpl in Hc1, Hq1. rewrite Hq1 in Hc1. injection Hc1 as <-.
      exists nx. split; [exact Hc2|].
      destruct Hc as (-> & n' & Hq' & Hc). rewrite Hq in Hq'. injection Hq' as <-.
      eapply chain_frame; [exact Hc|]. intros a Ha. apply Hf; [by right|].
      intros [= ->]. apply Hni. simpl. by right.
Qed.

(** What removing the entry [en] of node [q] leaves behind. *)
Definition removed (ref q : Z) (en : entry) (L : Types.key -> Z) (r : nvm_admin_reference)
    (l1 l2 : list (Z * entry)) (w w' : uworld) : Prop :=
  moved w w' (fun κ => - L κ)
  /\ (exists p, server w' ref (with_handles ((fun n => n - 1) <$> ar_n_handles r) p r) (l1 ++ l2))
  /\ objs w' !! q = None /\ objs w' !! en_data en = None
  /\ forall a, a <> q -> a <> en_data en -> a <> ref -> a ∉ addresses l1 -> objs w' !! a = objs w !! a.

(** The unlinking step of the removal, with the lock held. *)
Lemma unlink_spec ref q en nx l1 l2 r w (Q : unit -> uworld -> Prop) :
  server w ref r (l1 ++ (q, en) :: l2) -> objs w !! q = Some (ORpcHandle (node nx en)) ->
  (forall w' p, server w' ref (with_handles (ar_n_handles r) p r) (l1 ++ l2) ->
     objs w' !! q = Some (ORpcHandle (node nx en)) -> moved w w' (fun _ => 0) ->
     (forall a, a <> ref -> a ∉ addresses l1 -> objs w' !! a = objs w !! a) -> Q tt w') ->
  wp e (let prev := default NULL (list.last (addresses l1)) in
        if negb (prev =? NULL) then set_next prev nx else set_handles ref nx) w Q.
Proof.
  intros (Hok & Hr & Hc) Hq HQ. cbv zeta.
  pose proof (heap_ok_nonnull _ Hok) as Hnn. pose proof (chain_nodup _ _ _ Hnn Hc) as Hnd.
  pose proof (chain_neq _ _ _ _ _ Hc Hr ltac:(done)) as Hnr.
  pose proof (chain_unlink (objs w)) as Hul.
  assert (q <> ref) by congruence.
  assert (forall a, a ∈ addresses (l1 ++ l2) -> a <> ref) as Hne.
  { intros a Ha ->. apply Hnr. rewrite fmap_app, elem_of_app in *. rewrite fmap_cons. set_solver. }
  destruct (list.last (addresses l1)) as [prev|] eqn:Hl; simpl.
  - pose proof (last_Some_elem_of _ _ Hl) as Hin.
    assert (prev <> ref) by (apply Hne; rewrite fmap_app; set_solver).
    assert (prev <> q).
    { intros ->. rewrite fmap_app, fmap_cons in Hnd. apply list.NoDup_app in Hnd as (_ & Hd & _).
      apply (Hd _ Hin). left. }
    destruct (chain_node _ _ _ prev Hc) as [c Hprev]; [rewrite fmap_app; set_solver|].
    rewrite (proj2 (Z.eqb_neq prev NULL)) by eauto. unfold set_next. simpl negb. cbn iota.
    repeat heap_step. rename w0 into w'.
    apply (HQ w' (ar_handles r)); [|heap_rewrite; by simplify_map_eq|done|].
    + split; [done|]. split; [heap_rewrite; simplify_map_eq; by destruct r|]. simpl.
      specialize (Hul (objs w') (ar_handles r) l1 q en l2 nx Hc Hnd Hq). rewrite Hl in Hul.
      apply Hul; [exists c; split; [done|]; rewrite Ho; by simplify_map_eq|].
      intros a Ha Hap. rewrite Ho. apply lookup_insert_ne. congruence.
    + intros a Ha Hal. rewrite Ho. apply lookup_insert_ne. congruence.
  - assert (l1 = []) as ->. { destruct l1 as [|x l1]; [done|]. apply last_None in Hl. done. }
    unfold set_handles. repeat heap_step. rename w0 into w'.
    apply (HQ w' nx); [|heap_rewrite; by simplify_map_eq|done|].
    + split; [done|]. split; [heap_rewrite; by simplify_map_eq|]. simpl.
      specialize (Hul (objs w') (ar_handles r) [] q en l2 nx Hc Hnd Hq). apply Hul; [done|].
      intros a Ha _. rewrite Ho. apply lookup_insert_ne. by apply not_eq_sym, Hne.
    + intros a Ha _. rewrite Ho. by apply lookup_insert_ne.
Qed.

Lemma server_store w w' ref r r' l :
  server w ref r l -> heap_ok w' -> objs w' = <[ref := OAqRef r']> (objs w) ->
  ar_handles r' = ar_handles r -> server w' ref r' l.
Proof.
  intros (Hok & Hr & Hc) Hok' Ho Hh. split; [done|]. rewrite Ho, Hh. split; [apply lookup_insert_eq|].
  eapply chain_frame; [exact Hc|]. intros q Hq. apply lookup_insert_ne.
  intros ->. by eapply chain_neq in Hc.
Qed.

Lemma server_st w w' ref r l : server w ref r l -> w_st w' = w_st w -> server w' ref r l.
Proof. intros (Hok & Hr & Hc) Hst. split; [by eapply heap_ok_st|]. by rewrite Hst. Qed.

Lemma server_delete w w' ref r l q :
  server w ref r l -> heap_ok w' -> objs w' = delete q (objs w) -> q <> ref -> q ∉ addresses l ->
  server w' ref r l.
Proof.
  intros (Hok & Hr & Hc) Hok' Ho Hq Hni. split; [done|]. rewrite Ho.
  split; [by rewrite lookup_delete_ne|].
  eapply chain_frame; [exact Hc|]. intros a Ha. apply lookup_delete_ne. by intros ->.
Qed.

Lemma split_unique key l1 l1' q q' en en' l2 l2' :
  l1 ++ (q, en) :: l2 = l1' ++ (q', en') :: l2' -> en_key en = key -> en_key en' = key ->
  key ∉ keys l1 -> key ∉ keys l1' -> l1' = l1 /\ q' = q /\ en' = en /\ l2' = l2.
Proof.
  revert l1'. induction l1 as [|x l1 IH]; intros [|x' l1'] E Hk Hk' Hn Hn'; simpl in E.
  - by injection E as -> -> ->.
  - injection E as <- E. destruct Hn'. apply elem_of_cons. by left.
  - injection E as -> E. destruct Hn. apply elem_of_cons. by left.
  - injection E as -> E. destruct (IH l1' E Hk Hk') as (-> & -> & -> & ->); [| |done].
    + intros ?. apply Hn. by right.
    + intros ?. apply Hn'. by right.
Qed.

(** [disposes] on an instance keeps the lists of handles intact. *)
Lemma dispose_server ref r l n en o L f w (Q : unit -> uworld -> Prop) :
  server w ref r l -> objs w !! en_data en = Some o -> is_instance o ->
  disposes f (en_data en) (en_key en) o L ->
  (forall w', server w' ref r l -> objs w' = delete (en_data en) (objs w) ->
     moved w w' (fun κ => - L κ) -> Q tt w') ->
  wp e (rpc_delete f (en_data en) (en_key en) n) w Q.
Proof.
  intros (Hok & Hr & Hc) Ho Hi Hd HQ.
  eapply wp_mono; [by apply Hd|]. intros [] w' (Hok' & Ho' & Hmv).
  assert (en_data en <> ref) by (intros Heq; rewrite Heq, Hr in Ho; by injection Ho as <-).
  apply HQ; [|done|done]. split; [done|]. rewrite Ho'.
  split; [by rewrite lookup_delete_ne|]. eapply chain_frame; [exact Hc|].
  intros q Hq. destruct (chain_node _ _ _ _ Hc Hq) as [c Hqc].
  apply lookup_delete_ne. intros Heq. rewrite Heq, Hqc in Ho. by injection Ho as <-.
Qed.

(** A node, its instance and the rest of the server are apart. *)
Lemma server_apart w ref r l1 q en l2 o :
  server w ref r (l1 ++ (q, en) :: l2) -> objs w !! en_data en = Some o -> is_instance o ->
  q <> ref /\ q ∉ addresses (l1 ++ l2) /\ en_data en <> ref /\ en_data en <> q /\ (en_data en ∉ addresses l1).
Proof.
  intros (Hok & Hr & Hc) Ho Hi.
  destruct (chain_split _ _ _ _ _ _ Hc) as (_ & nx & Hq & _).
  pose proof (chain_nodup _ _ _ (heap_ok_nonnull _ Hok) Hc) as Hnd. rewrite fmap_app, fmap_cons in *.
  apply list.NoDup_app in Hnd as (_ & Hd1 & [Hd2 _]%list.NoDup_cons).
  split; [intros ->; by rewrite Hr in Hq|].
  split; [rewrite elem_of_app; intros [Hin|Hin]; [|done]; apply (Hd1 q Hin); by left|].
  split; [intros Heq; rewrite Heq, Hr in Ho; by injection Ho as <-|].
  split; [intros Heq; rewrite Heq, Hq in Ho; by injection Ho as <-|].
  intros Hin. destruct (chain_node _ _ _ (en_data en) Hc) as [c Hn].
  - rewrite fmap_app, elem_of_app. by left.
  - rewrite Hn in Ho. by injection Ho as <-.
Qed.

Lemma handle_remove_removed ref q en l1 l2 r L w :
  server w ref r (l1 ++ (q, en) :: l2) -> en_key en ∉ keys l1 -> disposable (objs w) en L ->
  wp e (_nvm_rpc_handle_remove ref (en_key en)) w (fun _ => removed ref q en L r l1 l2 w).
Proof.
  intros (Hok & Hr & Hc) Hni (f & o & Hf & Ho & Hi & Hd). unfold _nvm_rpc_handle_remove.
  repeat heap_step. unfold heap_fuel. repeat wp_step.
  assert (server w0 ref r (l1 ++ (q, en) :: l2)) as Hsrv by (split; [done|]; by rewrite Hst).
  pose proof Hsrv as (_ & Hr0 & Hc0).
  pose proof (chain_fuel _ _ _ (heap_ok_nonnull _ H0) Hc0) as Hfuel.
  eapply wp_mono; [by eapply find_handle_spec|].
  intros pq w' [-> [[Hno _]|(l1' & q' & en' & l2' & Hl & Hk & Hni' & ->)]].
  { exfalso. apply Hno. rewrite keys_app. apply elem_of_app. right. left. }
  assert (l1' = l1 /\ q' = q /\ en' = en /\ l2' = l2) as (-> & -> & -> & ->).
  { by eapply (split_unique (en_key en)). }
  destruct (chain_split _ _ _ _ _ _ Hc0) as (_ & nx & Hq & _). cbn iota.
  wp_step. eapply wp_load; [done|exact Hq|]. simpl. wp_step.
  eapply (unlink_spec ref q en nx); [exact Hsrv|exact Hq|].
  intros w1 p Hsrv1 Hq1 Hmv1 Hfr. pose proof Hsrv1 as (Hok1 & Hr1 & Hc1).
  rewrite (proj2 (Z.eqb_neq q NULL)) by (by eapply (heap_ok_nonnull w0)). simpl negb. cbn iota.
  rewrite <- Hst in Ho. destruct (server_apart _ _ _ _ _ _ _ _ Hsrv Ho Hi) as (Hqr & Hnq & Hdr & Hdq & Hdl).
  unfold set_n_handles. repeat heap_step.
  pose proof (server_store _ _ _ _ _ _ Hsrv1 Hk0 Ho0 eq_refl) as Hsrv2.
  simpl. rewrite Hf. simpl.
  eapply dispose_server; [exact Hsrv2| |exact Hi|exact Hd|].
  { rewrite Ho0, lookup_insert_ne by done. by rewrite Hfr. }
  intros w3 Hsrv3 Ho3 Hmv3. pose proof Hsrv3 as (Hok3 & _ & _).
  eapply wp_free; [done|rewrite Ho3, lookup_delete_ne, Ho0, lookup_insert_ne by done; exact Hq1|].
  intros w4 Ho4 Hn4 Hok4 Hmv4. pose proof (server_delete _ _ _ _ _ _ Hsrv3 Hok4 Ho4 ltac:(done) Hnq) as Hsrv4.
  assert (r_val r0 = 0) by (rewrite Hans; apply Hlock).
  repeat heap_step. rename w5 into w'. split; [solve_moved|].
  split; [exists p; by eapply server_st|]. rewrite Hst0, Ho4, Ho3, Ho0.
  split; [apply lookup_delete_eq|].
  split; [rewrite lookup_delete_ne by done; apply lookup_delete_eq|].
  intros a Ha1 Ha2 Ha3 Ha4. rewrite !lookup_delete_ne, lookup_insert_ne by done.
  rewrite Hfr by done. by rewrite Hst.
Qed.

Lemma handle_remove_missing ref key r l w :
  server w ref r l -> key ∉ keys l -> faults e (_nvm_rpc_handle_remove ref key) w NullDeref.
Proof.
  intros Hsrv Hni. unfold _nvm_rpc_handle_remove.
  apply faults_bind. led_step. pose proof (server_st _ _ _ _ _ Hsrv Hst) as (Hok & Hr & Hc).
  apply faults_bind. eapply wp_load; [done|exact Hr|]. apply faults_bind. unfold heap_fuel. repeat wp_step.
  pose proof (chain_fuel _ _ _ (heap_ok_nonnull _ Hok) Hc) as Hfuel.
  apply faults_bind. eapply wp_mono; [by eapply find_handle_spec|].
  intros pq w' [-> [[_ ->]|(l1 & q & en & l2 & -> & Hk & _)]].
  - cbn iota. by apply faults_now.
  - destruct Hni. rewrite keys_app. apply elem_of_app. right. apply elem_of_cons. by left.
Qed.

(** The heap without the nodes and instances of a list of handles. *)
Definition erase (l : list (Z * entry)) (h : gmap Z obj) : gmap Z obj :=
  foldl (fun h x => delete (fst x) (delete (en_data (snd x)) h)) h l.

Lemma erase_insert ref o l h :
  (forall q en, (q, en) ∈ l -> q <> ref /\ en_data en <> ref) ->
  erase l (<[ref := o]> h) = <[ref := o]> (erase l h).
Proof.
  revert h. induction l as [|[q en] l IH]; intros h Hd; [done|]. simpl.
  destruct (Hd q en) as [? ?]; [by left|].
  rewrite !delete_insert_ne by done. apply IH. intros. apply Hd. by right.
Qed.

(** Every handle of the list can be disposed of, and no two share their instance. *)
Definition all_disposable (h : gmap Z obj) (l : list (Z * entry)) (L : Types.key -> Z) : Prop :=
  NoDup ((fun x => en_data (snd x)) <$> l)
  /\ exists Ls, Forall2 (fun x => disposable h (snd x)) l Ls
     /\ forall κ, L κ = foldr (fun L' n => L' κ + n) 0 Ls.

Lemma all_disposable_cons h q en l L : all_disposable h ((q, en) :: l) L ->
  exists L1 L2, disposable h en L1 /\ all_disposable h l L2 /\ (forall κ, L κ = L1 κ + L2 κ)
  /\ forall x, x ∈ l -> en_data (snd x) <> en_data en.
Proof.
  intros (Hnd & Ls & Hall & HL). inversion_clear Hnd as [|?? Hni Hnd'].
  inversion Hall as [|? L1 ? Ls' Hd Hall']; subst.
  exists L1, (fun κ => foldr (fun L' n => L' κ + n) 0 Ls'). split; [done|].
  split; [split; [done|by exists Ls']|]. split; [done|].
  intros x Hx Heq. apply Hni. apply list_elem_of_fmap. by exists x.
Qed.

Lemma disposable_frame h h' en L :
  disposable h en L -> h' !! en_data en = h !! en_data en -> disposable h' en L.
Proof. intros (f & o & Hf & Ho & Hi & Hd) Heq. exists f, o. by rewrite Heq. Qed.

Lemma all_disposable_frame h h' l L :
  all_disposable h l L -> (forall x, x ∈ l -> h' !! en_data (snd x) = h !! en_data (snd x)) ->
  all_disposable h' l L.
Proof.
  intros (Hnd & Ls & Hall & HL) Hf. split; [done|]. exists Ls. split; [|done].
  clear Hnd HL. induction Hall as [|x L1 l Ls Hd Hall IH]; constructor.
  - eapply disposable_frame; [exact Hd|]. apply Hf. by left.
  - apply IH. intros. apply Hf. by right.
Qed.

Lemma all_disposable_instance h l L x : all_disposable h l L -> x ∈ l ->
  exists o, h !! en_data (snd x) = Some o /\ is_instance o.
Proof.
  intros (_ & Ls & Hall & _) [i Hi]%list_elem_of_lookup.
  destruct (Forall2_lookup_l _ _ _ _ _ Hall Hi) as (L' & _ & f & o & _ & Ho & Hin & _). by exists o.
Qed.

Lemma chain_instance h p l q o : chain h p l -> h !! q = Some o -> is_instance o -> q ∉ addresses l.
Proof. intros Hc Ho Hi. eapply chain_neq; [done..|]. by intros c ->. Qed.

(** Objects that are not instances are no entry's instance. *)
Lemma instance_neq h l L x a o : all_disposable h l L -> x ∈ l -> h !! a = Some o -> ~ is_instance o ->
  en_data (snd x) <> a.
Proof. intros Had Hx Ha Ho <-. destruct (all_disposable_instance _ _ _ _ Had Hx) as (? & ? & ?). naive_solver. Qed.

(** One round of the loop leaves the rest of the list as it was. *)
Lemma round_frame (w w2 : uworld) ref q en next l L r r1 c :
  chain (objs w) next l -> all_disposable (objs w) l L ->
  objs w !! ref = Some (OAqRef r) -> objs w !! q = Some (ORpcHandle c) ->
  q ∉ addresses l -> en_data en ∉ addresses l -> en_data en <> ref -> 
  (forall x, x ∈ l -> en_data (snd x) <> en_data en) ->
  objs w2 = delete q (delete (en_data en) (<[ref := OAqRef r1]> (objs w))) ->
  objs w2 !! ref = Some (OAqRef r1) /\ chain (objs w2) next l /\ all_disposable (objs w2) l L
  /\ erase l (objs w2) = <[ref := OAqRef r1]> (erase l (delete q (delete (en_data en) (objs w)))).
Proof.
  intros Hc Had Hr Hq Hnq Hnd Hdr Hdist Ho2.
  assert (q <> ref) by congruence. pose proof (chain_neq _ _ _ _ _ Hc Hr ltac:(done)) as Hnr.
  split; [rewrite Ho2; by simplify_map_eq|]. split; [|split].
  - eapply chain_frame; [exact Hc|]. intros a Ha.
    assert (a <> q /\ a <> en_data en /\ a <> ref) as (? & ? & ?) by (repeat split; congruence).
    rewrite Ho2, !lookup_delete_ne, lookup_insert_ne by congruence. done.
  - eapply all_disposable_frame; [exact Had|]. intros x Hx.
    pose proof (instance_neq _ _ _ _ _ _ Had Hx Hr ltac:(auto)).
    pose proof (instance_neq _ _ _ _ _ _ Had Hx Hq ltac:(auto)). pose proof (Hdist _ Hx).
    rewrite Ho2, !lookup_delete_ne, lookup_insert_ne by congruence. done.
  - rewrite Ho2, !delete_insert_ne by done. apply erase_insert. intros q' en' Hx. split.
    + intros ->. apply Hnr. apply list_elem_of_fmap. by exists (ref, en').
    + apply (instance_neq _ _ _ _ _ _ Had Hx Hr). auto.
Qed.

Lemma release_loop_erases n ref next r l L w :
  heap_ok w -> objs w !! ref = Some (OAqRef r) -> chain (objs w) next l -> (length l < n)%nat ->
  all_disposable (objs w) l L ->
  wp e (release_loop n ref next) w (fun _ w' => heap_ok w' /\ moved w w' (fun κ => - L κ)
    /\ exists k, objs w' = <[ref := OAqRef (with_handles k (ar_handles r) r)]> (erase l (objs w))).
Proof.
  revert next r L w n. induction l as [|[q en] l IH]; intros next r L w [|n] Hok Hr Hc Hn Had;
    simpl in Hn; try lia; simpl release_loop.
  - rewrite Hc. change (NULL =? NULL) with true. cbn iota. wp_step. split; [done|].
    destruct Had as (_ & Ls & Hall%Forall2_nil_inv_l & HL). subst.
    split; [intros κ; rewrite HL; simpl; lia|]. exists (ar_n_handles r). simpl.
    rewrite insert_id; [done|]. rewrite Hr. by destruct r.
  - pose proof (chain_nodup _ _ _ (heap_ok_nonnull _ Hok) Hc) as Hnd.
    inversion_clear Hnd as [|?? Hnq _].
    apply all_disposable_cons in Had as (L1 & L2 & (f & o & Hf & Ho & Hi & Hd) & Had & HL & Hdist).
    pose proof (chain_neq _ _ _ _ _ Hc Hr ltac:(done)) as Hnr.
    pose proof (chain_instance _ _ _ _ _ Hc Ho Hi) as Hne.
    destruct Hc as (-> & nx & Hq & Hc).
    rewrite (proj2 (Z.eqb_neq q NULL)) by (by eapply heap_ok_nonnull).
    rewrite fmap_cons, not_elem_of_cons in Hnr, Hne. destruct Hnr as [Hnr1 Hnr2], Hne as [Hne1 Hne2].
    simpl in Hnr1, Hne1. assert (en_data en <> ref) as Hdr by (intros Heq; rewrite Heq, Hr in Ho; by injection Ho as <-).
    unfold set_n_handles. repeat heap_step.
    simpl. rewrite Hf. simpl. 
    eapply wp_mono; [apply (Hd _ w0); [done|rewrite Ho0; by simplify_map_eq]|].
    intros [] w1 (Hok1 & Ho1 & Hmv1). wp_step.
    eapply wp_free; [done|rewrite Ho1, lookup_delete_ne, Ho0 by done; by simplify_map_eq|].
    intros w2 Ho2 Hn2 Hok2 Hmv2. rewrite Ho1, Ho0 in Ho2.
    destruct (round_frame _ _ _ _ _ _ _ _ _ _ _ Hc Had Hr Hq Hnq Hne2 Hdr Hdist Ho2) as (Hr2 & Hc2 & Had2 & He).
    eapply wp_mono; [by eapply IH; [..|lia|]|]. intros [] w3 (Hok3 & Hmv3 & k & Ho3).
    split; [done|]. split; [|exists k; by rewrite Ho3, He, insert_insert_eq].
    intros κ. specialize (Hmv κ). specialize (Hmv1 κ). specialize (Hmv2 κ). specialize (Hmv3 κ).
    specialize (HL κ). simpl in *. lia.
Qed.

(** What the release callback of a reference does to its own instance: [gone]
    says whether the instance is freed. *)
Definition unbinds (h : gmap Z obj) (r : nvm_admin_reference) (gone : bool) (L : Types.key -> Z) : Prop :=
  match ar_release r with
  | None => gone = false /\ forall κ, L κ = 0
  | Some f => exists o, h !! ar_data r = Some o /\ is_instance o
      /\ forall w, heap_ok w -> objs w !! ar_data r = Some o ->
         wp e (rpc_delete f (ar_data r) 0 (Some 0)) w (fun _ w' => heap_ok w'
           /\ objs w' = (if gone then delete (ar_data r) (objs w) else objs w)
           /\ moved w w' (fun κ => - L κ))
  end.

Lemma erase_lookup l h a :
  a ∉ addresses l -> (forall x, x ∈ l -> en_data (snd x) <> a) -> erase l h !! a = h !! a.
Proof.
  revert h. induction l as [|[q en] l IH]; intros h Hn Hd; [done|]. simpl.
  rewrite fmap_cons, not_elem_of_cons in Hn. destruct Hn as [Hq Hn]. simpl in Hq.
  rewrite IH; [|done|intros; apply Hd; by right].
  rewrite !lookup_delete_ne; [done| |done]. apply (Hd (q, en)). by left.
Qed.

Lemma ref_put_releases ref r l L gone Lr w :
  server w ref r l -> all_disposable (objs w) l L -> unbinds (objs w) r gone Lr ->
  (forall x, x ∈ l -> en_data (snd x) <> ar_data r) ->
  wp e (_nvm_ref_put ref) w (fun _ w' => heap_ok w' /\ moved w w' (fun κ => - L κ - Lr κ)
    /\ objs w' = delete ref ((if gone then delete (ar_data r) else id) (erase l (objs w)))).
Proof.
  intros Hsrv Had Hun Hdist. pose proof Hsrv as (Hok & Hr & Hc). unfold _nvm_ref_put, release_handles.
  rewrite (proj2 (Z.eqb_neq ref NULL)) by (by eapply heap_ok_nonnull). simpl negb. cbn iota.
  repeat heap_step. assert (r_val r0 = 0) as Hl0 by (rewrite Hans; apply Hlock).
  unfold heap_fuel. repeat wp_step. rewrite <- Hst in *.
  eapply wp_mono; [apply (release_loop_erases _ ref _ r l L); try done; by apply (chain_fuel _ _ _ (heap_ok_nonnull _ H0) Hc)|].
  intros [] w1 (Hok1 & Hmv1 & k & Ho1). unfold set_handles. repeat heap_step.
  all: unfold unbinds in Hun; simpl in E; rewrite E in Hun.
  - rewrite Ho1, insert_insert_eq in Ho. clear Ho1. simpl in Ho.
    destruct Hun as (o & Hdo & Hi & Hrel). simpl ar_data.
    assert (ar_data r <> ref) as Hdr by (intros Heq; rewrite Heq, Hr in Hdo; by injection Hdo as <-).
    eapply wp_mono; [apply Hrel; [done|]|].
    { rewrite Ho, lookup_insert_ne by done. rewrite erase_lookup; [done| |done].
      by eapply chain_instance. }
    intros [] w3 (Hok3 & Ho3 & Hmv3). rewrite Ho in Ho3.
    assert (objs w3 !! ref = Some (OAqRef (with_handles k NULL r))) as Href.
    { rewrite Ho3. destruct gone; [rewrite lookup_delete_ne by done|]; apply lookup_insert_eq. }
    repeat heap_step. track. eapply wp_free; [done|rewrite Hst1, Hst0; exact Href|].
    intros w6 Ho6 Hn6 Hok6 Hmv6. split; [done|]. split; [solve_moved|].
    rewrite Ho6, Hst1, Hst0, Ho3. destruct gone; simpl.
    + by rewrite delete_insert_ne, delete_insert_eq by done.
    + by rewrite delete_insert_eq.
  - destruct Hun as [-> HLr]. split; [done|]. split; [solve_moved|].
    heap_rewrite. simpl. by rewrite insert_insert_eq, delete_insert_eq.
Qed.

(** A reference without handles. *)
Lemma ref_put_unbinds ref r gone Lr w :
  heap_ok w -> objs w !! ref = Some (OAqRef r) -> ar_handles r = NULL -> unbinds (objs w) r gone Lr ->
  wp e (_nvm_ref_put ref) w (fun _ w' => heap_ok w' /\ moved w w' (fun κ => - Lr κ)
    /\ objs w' = delete ref ((if gone then delete (ar_data r) else id) (objs w))).
Proof.
  intros Hok Hr Hh Hun. eapply wp_mono.
  - apply (ref_put_releases ref r [] (fun _ => 0) gone Lr); [by split| |done|by intros ? ?%elem_of_nil].
    split; [constructor|]. by exists [].
  - intros [] w' (Hok' & Hmv & Ho). done.
Qed.
End handles.

(** ** Properties *)

(** [_nvm_rpc_handle_insert] appends to the association list of handles:
    with a valid instance and callback and a key that is not in the list, the
    new handle is the last one and [n_handles] grows by one; a key that is
    already there is EINVAL. On every error path the list, the heap and the
    lock are as before. It always returns. *)
Theorem handle_insert_appends `{RpcCallbacks} e ref key data release r l w :
  (forall w p, r_val (fst (e_resp e w (Mutex_lock p))) = 0) -> server w ref r l ->
  exists s w', run (_nvm_rpc_handle_insert ref key data release) e w = Ok s w'
  /\ inserted ref key data release r l w s w'.
Proof. intros Hl Hs. by apply wp_run, handle_insert_inserted. Qed.

(** [_nvm_rpc_handle_remove] with a key of the list removes its first entry
    and nothing else: it calls the entry's callback once, frees its node,
    decrements [n_handles], keeps the order of the others and gives the lock
    back. It always returns. *)
Theorem handle_remove_unlinks `{RpcCallbacks} e ref q en l1 l2 r L w :
  (forall w p, r_val (fst (e_resp e w (Mutex_lock p))) = 0) ->
  server w ref r (l1 ++ (q, en) :: l2) -> en_key en ∉ keys l1 -> disposable e (objs w) en L ->
  exists w', run (_nvm_rpc_handle_remove ref (en_key en)) e w = Ok tt w'
  /\ removed ref q en L r l1 l2 w w'.
Proof.
  intros Hl Hs Hk Hd. destruct (wp_run _ _ _ _ (handle_remove_removed e Hl _ _ _ _ _ _ _ _ Hs Hk Hd))
    as ([] & w' & ? & ?). by exists w'.
Qed.

(** Removing a key that is not in the list (an adapter that was never
    enabled, or one disabled twice) dereferences NULL, with the lock held. *)
Theorem handle_remove_missing_faults `{RpcCallbacks} e ref key r l w :
  server w ref r l -> key ∉ keys l -> faults e (_nvm_rpc_handle_remove ref key) w NullDeref.
Proof. apply handle_remove_missing. Qed.

(** C33: destroying a reference releases everything it holds: the callback of
    every handle in the list runs exactly once, in order, every node is freed,
    then the reference's own instance is released and the reference freed;
    nothing else in the heap changes and the lock is given back. *)
Theorem ref_put_releases_all `{RpcCallbacks} e ref r l L gone Lr w :
  (forall w p, r_val (fst (e_resp e w (Mutex_lock p))) = 0) ->
  server w ref r l -> all_disposable e (objs w) l L -> unbinds e (objs w) r gone Lr ->
  (forall x, x ∈ l -> en_data (snd x) <> ar_data r) ->
  exists w', run (_nvm_ref_put ref) e w = Ok tt w'
  /\ heap_ok w' /\ moved w w' (fun κ => - L κ - Lr κ)
  /\ objs w' = delete ref ((if gone then delete (ar_data r) else id) (erase l (objs w))).
Proof.
  intros Hl Hs Ha Hu Hd. destruct (wp_run _ _ _ _ (ref_put_releases e Hl _ _ _ _ _ _ _ Hs Ha Hu Hd))
    as ([] & w' & ? & ?). by exists w'.
Qed.

(** ** Witnesses *)

(** Callbacks that only free their instance. *)
Definition sample_callbacks : RpcCallbacks := {|
  rpc_stub s data cmd cpl := match s with
    | STUB_execute_command => execute_command data cmd cpl
    | STUB_remote_command => mret 0
    end;
  rpc_delete f data key n := match f with DEL_remove_admin => remove_admin data key | _ => free data end;
  rpc_stub_local _ _ _ := eq_refl;
  rpc_delete_admin _ _ _ := eq_refl;
|}.
#[local] Existing Instance sample_callbacks.

(** [malloc] succeeds and so do the locks. *)
Definition lock_env : uenv :=
  const_env (fun c => match c with Malloc _ _ => resp_ok 1 | _ => resp_ok 0 end) 1.

Lemma lock_env_locks w p : r_val (fst (e_resp lock_env w (Mutex_lock p))) = 0.
Proof. done. Qed.

Definition sample_binding : binding :=
  Binding device_memory0 (LocalIntr 0 0 None 0 0 0 None) (RemoteIntr 0 0).
Definition sample_ref : nvm_admin_reference := AdminReference 9 (Some 1) 2 NULL None None.
Definition sample_entry : entry := Entry 5 3 (Some DEL_remove_binding).

(** A reference with one handle (key 5, node 2, instance 3). *)
Definition server_world : uworld :=
  World empty (Heap (<[1 := OAqRef sample_ref]> (<[2 := ORpcHandle (node NULL sample_entry)]>
    {[3 := OBinding sample_binding]})) 4) [].

Lemma server_world_ok : server server_world 1 sample_ref [(2, sample_entry)].
Proof.
  split; [|split; [reflexivity|]].
  - split; [done|]. intros p o. simpl. rewrite !lookup_insert_Some, lookup_singleton_Some. lia.
  - split; [done|]. exists NULL. by split.
Qed.

Lemma sample_disposable : disposable lock_env (objs server_world) sample_entry (fun _ => 0).
Proof.
  exists DEL_remove_binding, (OBinding sample_binding). split; [done|]. split; [reflexivity|].
  split; [exact I|]. intros n w Hok Ho. eapply wp_free; [done|exact Ho|].
  intros w' Ho' _ Hok' Hmv. by split.
Qed.

Lemma handle_insert_appends_witness :
  exists s w', run (_nvm_rpc_handle_insert 1 7 3 (Some DEL_remove_binding)) lock_env server_world = Ok s w'
  /\ inserted 1 7 3 (Some DEL_remove_binding) sample_ref [(2, sample_entry)] server_world s w'.
Proof. exact (handle_insert_appends lock_env 1 7 3 _ _ _ _ lock_env_locks server_world_ok). Defined.

Lemma handle_remove_unlinks_witness :
  exists w', run (_nvm_rpc_handle_remove 1 5) lock_env server_world = Ok tt w'
  /\ removed 1 2 sample_entry (fun _ => 0) sample_ref [] [] server_world w'.
Proof.
  apply (handle_remove_unlinks lock_env 1 2 sample_entry [] [] sample_ref (fun _ => 0) server_world);
    [exact lock_env_locks|exact server_world_ok|by intros ?%elem_of_nil|exact sample_disposable].
Defined.

Lemma handle_remove_missing_faults_witness :
  faults lock_env (_nvm_rpc_handle_remove 1 6) server_world NullDeref.
Proof.
  apply (handle_remove_missing_faults lock_env 1 6 sample_ref [(2, sample_entry)] server_world);
    [exact server_world_ok|]. intros [H|H%elem_of_nil]%elem_of_cons; [discriminate H|destruct H].
Defined.

Lemma ref_put_releases_all_witness :
  exists w', run (_nvm_ref_put 1) lock_env server_world = Ok tt w'
  /\ heap_ok w' /\ moved server_world w' (fun _ => - 0 - 0) /\ objs w' = empty.
Proof.
  apply (ref_put_releases_all lock_env 1 sample_ref [(2, sample_entry)] (fun _ => 0) false (fun _ => 0) server_world);
    [exact lock_env_locks|exact server_world_ok| |by split|].
  - split; [apply NoDup_singleton|]. exists [fun _ => 0]. split; [|done].
    constructor; [exact sample_disposable|constructor].
  - intros x [->|H%elem_of_nil]%elem_of_cons; [discriminate|destruct H].
Defined.
