(* ===== verification/RpcCommand.v ===== *)
(** * Executing admin commands and creating admin queues: properties of [src/rpc.c]

    [execute_command] against the submission ring of [Queue], the packing of its
    result by [nvm_raw_rpc], and the life cycle of a local admin queue pair. *)
From S2P Require Import Prelude Bits Memory Effects Types Runtime Command Error Queue.
From S2P Require Import DisDevice DisMap Ctrl Dma Rpc RpcHandles.

(** ** Executing a command

    [k E C]: the admin submission queue has [2^k] entries, [E] commands have been
    enqueued and [C] retired, and every one of them has been submitted. *)
Record admin_ready (k E C : Z) (q : nvm_queue_t) : Prop := {
  ar_size : 1 <= k <= 15;
  ar_sq : sq_state (2 ^ k) E C q;
  ar_entry : q_entry_size q = 64;
  ar_vaddr : 0 < q_vaddr q;
  ar_last : q_last q = q_tail q;
}.

Definition apart (a n b m : Z) : Prop := a + n <= b \/ b + m <= a.

Definition sent (m0 m : mem) (slot cmd cid : Z) : Prop :=
  ld 2 m (slot + 2) = cid
  /\ forall i, 0 <= i < 64 -> i <> 2 -> i <> 3 -> ld8 m (slot + i) = ld8 m0 (cmd + i).

Definition received (m0 m : mem) (in_queue_cpl cmd cpl : Z) : Prop :=
  ld 2 m (cpl + 12) = ld 2 m0 (cmd + 2)
  /\ forall i, 0 <= i < 16 -> i <> 12 -> i <> 13 -> ld8 m (cpl + i) = ld8 m0 (in_queue_cpl + i).

Definition slot_addr (k E : Z) (q : nvm_queue_t) : Z := q_vaddr q + 64 * (E mod 2 ^ k).

Definition submitted (e : uenv) (w w1 : uworld) (q : nvm_queue_t) (k E cmd : Z) : Prop :=
  exists wd, let wr := after e wd (Mmio_write 32 (q_db q) ((E + 1) mod 2 ^ k)) in
  w_mem w1 = w_mem wr /\ w_log w1 = w_log wr
  /\ w_log wd = w_log w /\ sent (w_mem w) (w_mem wd) (slot_addr k E q) cmd ((E + 1) mod (2 * 2 ^ k)).

(** From [w1], just after the doorbell: the wait, and what is done with its result. *)
Definition answered (w1 : uworld) (admin cmd cpl : Z) (a : local_admin) (k E C : Z)
    (r : Z) (w' : uworld) : Prop :=
  exists r2 w2 asq', waited w1 (la_acq a) (u64 (la_timeout a * 1000000)) r2 w2 /\ w_log w' = w_log w2
  /\ objs w' = <[admin := to_obj (LocalAdmin (snd r2) asq' (la_timeout a))]> (objs w1)
  /\ (fst r2 = NULL /\ r = ETIME /\ admin_ready k E C asq' /\ w_mem w' = w_mem w2
    \/ fst r2 <> NULL /\ r = 0 /\ admin_ready k E (C + 1) asq'
       /\ received (w_mem w2) (w_mem w') (fst r2) cmd cpl).

Definition executed (e : uenv) (w : uworld) (admin cmd cpl : Z) (a : local_admin) (k E C : Z)
    (r : Z) (w' : uworld) : Prop :=
  heap_ok w' /\ moved w w' (fun _ => 0)
  /\ (E - C = 2 ^ k - 1 /\ r = EAGAIN
      /\ objs w' = objs w /\ w_mem w' = w_mem w /\ w_log w' = w_log w
    \/ E - C < 2 ^ k - 1
      /\ exists w1, submitted e w w1 (la_asq a) k E cmd
      /\ (exists o, objs w1 = <[admin := o]> (objs w))
      /\ answered w1 admin cmd cpl a k (E + 1) C r w').

Lemma slot_addr_ok k E q : 1 <= k <= 15 -> q_entry_size q = 64 ->
  q_vaddr q + u32 (q_entry_size q * (E mod 2 ^ k)) = slot_addr k E q.
Proof.
  intros Hk ->. unfold slot_addr.
  assert (2 ^ k <= 2 ^ 15) by (apply Z.pow_le_mono_r; lia).
  pose proof (Z.mod_pos_bound E (2 ^ k) ltac:(lia)). by rewrite u32_small by lia.
Qed.

Lemma slot_apart k E q cmd : 1 <= k <= 15 -> apart cmd 64 (q_vaddr q) (64 * 2 ^ k) ->
  apart cmd 64 (slot_addr k E q) 64.
Proof.
  intros Hk Ha. unfold slot_addr, apart in *. pose proof (Z.mod_pos_bound E (2 ^ k) ltac:(lia)). lia.
Qed.

Lemma ld8_memcpy_in m d s n b : d <= b < d + Z.of_nat n -> ld8 (memcpy m d s n) b = ld8 m (s + (b - d)).
Proof. intros. unfold memcpy. rewrite ld8_copy_from, decide_True by lia. done. Qed.

Lemma ld8_st_out n m a v b : b < a \/ a + Z.of_nat n <= b -> ld8 (st n m a v) b = ld8 m b.
Proof. intros. rewrite ld8_st, decide_False by lia. done. Qed.

Lemma cid_small k E : 1 <= k <= 15 -> ((E + 1) mod (2 * 2 ^ k)) mod 2 ^ (8 * Z.of_nat 2) = (E + 1) mod (2 * 2 ^ k).
Proof.
  intros. pose proof (Z.mod_pos_bound (E + 1) (2 * 2 ^ k) ltac:(lia)).
  assert (2 ^ k <= 2 ^ 15) by (apply Z.pow_le_mono_r; lia).
  apply Z.mod_small. change (2 ^ (8 * Z.of_nat 2)) with 65536. lia.
Qed.

Lemma copy_command_sent m slot cmd cid :
  apart cmd 64 slot 64 -> cid mod 2 ^ (8 * Z.of_nat 2) = cid ->
  sent m (let m1 := st 2 m (slot + 2) cid in
          st 2 (memcpy m1 slot cmd 64) (slot + 2) (ld 2 m1 (slot + 2))) slot cmd cid.
Proof.
  intros Ha Hc. unfold apart in Ha. simpl. split.
  - by rewrite !ld_st_same, !Hc.
  - intros i Hi H2 H3. rewrite ld8_st_out by lia. rewrite ld8_memcpy_in by lia.
    rewrite ld8_st_out by lia. f_equal. lia.
Qed.

Lemma copy_completion_received m cpl q cmd :
  apart cmd 64 cpl 16 ->
  received m (let m1 := memcpy m cpl q 16 in st 2 m1 (cpl + 12) (ld 2 m1 (cmd + 2))) q cmd cpl.
Proof.
  intros Ha. unfold apart in Ha. simpl. split.
  - rewrite ld_st_same, ld_memcpy_disjoint by lia. apply Z.mod_small, (ld_bound 2).
  - intros i Hi H2 H3. rewrite ld8_st_out by lia. rewrite ld8_memcpy_in by lia. f_equal. lia.
Qed.

(** [w'] differs from [w] in the object at [p] only. *)
Definition stored (p : Z) (o : obj) (w w' : uworld) : Prop :=
  heap_ok w' /\ objs w' = <[p := o]> (objs w) /\ w_mem w' = w_mem w /\ w_log w' = w_log w.

Section exec.
Context (e : uenv).

Lemma wp_store_asq p q a w (Q : unit -> uworld -> Prop) :
  heap_ok w -> objs w !! p = Some (to_obj a) ->
  (forall w', stored p (to_obj (LocalAdmin (la_acq a) q (la_timeout a))) w w' -> Q tt w') ->
  wp e (store_asq p q) w Q.
Proof.
  intros Hok Hp HQ. unfold store_asq. wp_step. eapply wp_load; [done..|].
  eapply wp_store; [done..|]. intros w' ? ? ? ? ? ?. by apply HQ.
Qed.

Lemma wp_store_acq p q a w (Q : unit -> uworld -> Prop) :
  heap_ok w -> objs w !! p = Some (to_obj a) ->
  (forall w', stored p (to_obj (LocalAdmin q (la_asq a) (la_timeout a))) w w' -> Q tt w') ->
  wp e (store_acq p q) w Q.
Proof.
  intros Hok Hp HQ. unfold store_acq. wp_step. eapply wp_load; [done..|].
  eapply wp_store; [done..|]. intros w' ? ? ? ? ? ?. by apply HQ.
Qed.

Lemma moved_log w w' : w_log w' = w_log w -> moved w w' (fun _ => 0).
Proof. intros E κ. unfold bal. rewrite E. lia. Qed.

Lemma submit_state k E C q q1 :
  1 <= k <= 15 -> sq_state (2 ^ k) (E + 1) C q1 -> q_entry_size q = 64 -> 0 < q_vaddr q ->
  q_vaddr q1 = q_vaddr q -> q_entry_size q1 = q_entry_size q ->
  admin_ready k (E + 1) C (set_last (q_tail q1) q1).
Proof.
  intros Hk Hs He Hv Hv1 He1. constructor; simpl; [done| |congruence|lia|done].
  destruct Hs. by constructor.
Qed.

Lemma update_state k E C q : C < E -> admin_ready k E C q -> admin_ready k E (C + 1) (nvm_sq_update q).
Proof.
  intros HC [Hk Hs He Hv Hl].
  constructor; [done|by apply sq_update_state| | |]; unfold nvm_sq_update; simpl;
    by destruct (u32 (q_head q + 1) =? q_max_entries q).
Qed.

Lemma tail_moves k E C q q1 : 1 <= k <= 15 ->
  sq_state (2 ^ k) E C q -> sq_state (2 ^ k) (E + 1) C q1 -> q_tail q <> q_tail q1.
Proof.
  intros Hk Hs Hs1. rewrite (sqs_tail _ _ _ _ Hs), (sqs_tail _ _ _ _ Hs1).
  pose proof (sqs_pos _ _ _ _ Hs). intros Heq. apply mod_window in Heq; lia.
Qed.

Lemma waited_ends w cq n r w' : waited w cq n r w' -> w_st w' = w_st w /\ moved w w' (fun _ => 0).
Proof. by intros (_ & ? & _ & _ & _ & ? & _). Qed.

Lemma await_answered w admin cmd cpl a k E C asq :
  heap_ok w -> objs w !! admin = Some (to_obj (LocalAdmin (la_acq a) asq (la_timeout a))) ->
  admin_ready k E C asq -> C < E -> apart cmd 64 cpl 16 ->
  wp e ('(in_queue_cpl, acq) ← nvm_cq_dequeue_block (la_acq a) (la_timeout a);
        store_acq admin acq;;
        if in_queue_cpl =? NULL then mret ETIME
        else
          store_asq admin (nvm_sq_update asq);;
          upd_mem (fun m => memcpy m cpl in_queue_cpl 16);;
          upd_mem (fun m => st 2 m (NVM_CPL_CID cpl) (ld 2 m (NVM_CMD_CID cmd)));;
          mret 0) w
    (fun r w' => heap_ok w' /\ moved w w' (fun _ => 0) /\ answered w admin cmd cpl a k E C r w').
Proof.
  intros Hok Ha Hr HC Hcc. wp_step.
  eapply wp_mono; [apply dequeue_block_spec|]. intros [cq acq] w1 Hw1. cbn iota.
  destruct (waited_ends _ _ _ _ _ Hw1) as [Hst Hmv]. wp_step.
  eapply wp_store_acq; [by eapply heap_ok_st|by rewrite Hst|]. simpl.
  intros w2 (Hok2 & Ho2 & Hm2 & Hl2). rewrite Hst in Ho2.
  assert (forall w', w_log w' = w_log w2 -> moved w w' (fun _ => 0)) as Hmv'.
  { intros w' E'. intros κ. rewrite <- (Hmv κ). unfold bal. by rewrite E', Hl2. }
  destruct (Z.eqb_spec cq NULL) as [->|Hne].
  - wp_step. split; [done|]. split; [by apply Hmv'|].
    exists (NULL, acq), w1, asq. split; [done|]. split; [done|]. split; [done|]. by left.
  - wp_step. eapply wp_store_asq; [done|rewrite Ho2; apply lookup_insert_eq|]. simpl.
    intros w3 (Hok3 & Ho3 & Hm3 & Hl3). unfold upd_mem. repeat wp_step. simpl w_mem. rewrite Hm3, Hm2.
    split; [by eapply heap_ok_st|]. split; [by apply Hmv'|].
    exists (cq, acq), w1, (nvm_sq_update asq). split; [done|]. split; [simpl; congruence|].
    split; [simpl; rewrite Ho3, Ho2; apply insert_insert_eq|].
    right. split; [done|]. split; [done|]. split; [by apply update_state|].
    simpl w_mem. by apply (copy_completion_received (w_mem w1)).
Qed.

Lemma execute_command_exec w admin cmd cpl a k E C :
  heap_ok w -> objs w !! admin = Some (to_obj a) -> admin_ready k E C (la_asq a) ->
  apart cmd 64 (q_vaddr (la_asq a)) (64 * 2 ^ k) -> apart cmd 64 cpl 16 ->
  wp e (execute_command admin cmd cpl) w (executed e w admin cmd cpl a k E C).
Proof.
  intros Hok Ha [Hk Hs Hes Hv Hl] Hcq Hcc. unfold execute_command.
  wp_step. eapply wp_load; [done..|]. wp_step. wp_step.
  destruct (decide (E - C = 2 ^ k - 1)) as [Hfull|Hroom].
  - rewrite (sq_enqueue_full k E C _ _ Hk Hs Hfull). cbn iota. repeat wp_step.
    eapply wp_store_asq; [done|done|]. intros w' (Hok' & Ho & Hm & Hlg).
    change (NULL =? NULL) with true. cbn iota. wp_step. split; [done|]. split; [by apply moved_log|].
    left. split; [done|]. split; [done|]. split; [|done]. rewrite Ho. simpl. destruct a.
    by rewrite insert_id.
  - pose proof (sqs_window _ _ _ _ Hs). pose proof (sqs_pos _ _ _ _ Hs).
    destruct (sq_enqueue_room k E C (la_asq a) (w_mem w) Hk Hs) as (q1 & -> & Hs1 & Hl1 & Hd1 & Hv1 & He1); [lia|].
    rewrite slot_addr_ok by done. cbn iota. set (slot := slot_addr k E (la_asq a)).
    assert (0 < slot) by (unfold slot, slot_addr; pose proof (Z.mod_pos_bound E (2 ^ k)); lia).
    repeat wp_step. eapply wp_store_asq; [done|done|]. intros w1 (Hok1 & Ho1 & Hm1 & Hlg1).
    rewrite (proj2 (Z.eqb_neq slot NULL)) by (unfold NULL; lia). cbn iota.
    unfold ld_mem, upd_mem. repeat wp_step. simpl w_mem. rewrite Hm1.
    unfold nvm_sq_submit. rewrite (proj2 (Z.eqb_neq (q_last q1) (q_tail q1))) by
      (pose proof (tail_moves _ _ _ _ _ Hk Hs Hs1); congruence).
    simpl negb. cbn iota. repeat wp_step.
    match goal with |- wp _ _ ?w _ => set (w2 := w) end.
    eapply wp_store_asq; [done|simpl w_st; rewrite Ho1; apply lookup_insert_eq|]. simpl la_acq. simpl la_timeout.
    intros w3 (Hok3 & Ho3 & Hm3 & Hlg3).
    simpl w_st in Ho3. rewrite Ho1, insert_insert_eq in Ho3.
    eapply wp_mono; [apply (await_answered _ _ _ _ _ k (E + 1) C); [done| | |lia|done]|].
    + rewrite Ho3. apply lookup_insert_eq.
    + by eapply submit_state.
    + intros r w' (Hok' & Hmv & Hans). split; [done|]. split; [|right; split; [lia|]].
      * intros κ. rewrite (Hmv κ). unfold bal. rewrite Hlg3. simpl. rewrite Hlg1. simpl. unfold delta, udelta. lia.
      * exists w3. split; [|split; [by eexists|done]].
        eexists. cbv zeta. rewrite Hm3, Hlg3, <- Hd1, <- (sqs_tail _ _ _ _ Hs1).
        split; [reflexivity|]. split; [reflexivity|]. split; [exact Hlg1|]. simpl w_mem. fold slot.
        apply copy_command_sent; [by apply slot_apart|by apply cid_small].
Qed.
End exec.

(** ** Executing through a reference *)

Section raw.
Context `{RpcCallbacks} (e : uenv).

(** With the lock taken in between: [execute_command] ran from [w1] to [w2]. *)
Definition executed_locked (w : uworld) (ref cmd cpl : Z) (a : local_admin) (admin k E C v : Z)
    (w' : uworld) : Prop :=
  let wl := after e w (Mutex_lock ref) in
  exists w2, executed e wl admin cmd cpl a k E C v w2 /\ w' = after e w2 (Mutex_unlock ref).

Lemma raw_rpc_executed w ref cmd cpl r a k E C :
  heap_ok w -> r_val (fst (e_resp e w (Mutex_lock ref))) = 0 ->
  objs w !! ref = Some (OAqRef r) -> ar_stub r = Some STUB_execute_command ->
  objs w !! ar_data r = Some (to_obj a) -> admin_ready k E C (la_asq a) ->
  apart cmd 64 (q_vaddr (la_asq a)) (64 * 2 ^ k) -> apart cmd 64 cpl 16 ->
  wp e (nvm_raw_rpc ref cmd cpl) w (fun v w' =>
    moved w w' (fun _ => 0) /\ executed_locked w ref cmd cpl a (ar_data r) k E C v w').
Proof.
  intros Hok Hl Hr Hs Ha Hq Hcq Hcc. unfold nvm_raw_rpc. wp_step. wp_step. rewrite Hl. simpl negb. cbn iota.
  wp_step. eapply wp_load; [done|exact Hr|]. rewrite Hs. cbn iota. rewrite rpc_stub_local. wp_step.
  eapply wp_mono; [by apply execute_command_exec|]. intros v w2 Hex.
  repeat wp_step. unfold pack. repeat wp_step. rewrite pack_errno.
  split; [|by exists w2]. destruct Hex as (_ & Hmv & _).
  intros κ. rewrite bal_after, (Hmv κ), bal_after. unfold delta, udelta. rewrite Hl. simpl. lia.
Qed.

(** ** Creating an admin queue pair *)

Definition zeroed (m : mem) (a n : Z) : Prop := forall b, a <= b < a + n -> ld8 m b = 0.

(** The queues [nvm_aq_create] sets up in [window]. *)
Definition admin_of (c : nvm_ctrl_t) (d : nvm_dma_t) (acq_ioaddr asq_ioaddr : Z) : local_admin :=
  LocalAdmin (nvm_queue_clear c true 0 (dma_vaddr d) acq_ioaddr)
    (nvm_queue_clear c false 0 (dma_vaddr d + dma_page_size d) asq_ioaddr) (ctrl_timeout c).

Definition local_ref (ctrl admin : Z) : nvm_admin_reference :=
  AdminReference ctrl None NULL admin (Some DEL_remove_admin) (Some STUB_execute_command).

(** Whatever the reset's outcome, the reference is handed out. *)
Definition aq_created (ctrl : Z) (c : nvm_ctrl_t) (d : nvm_dma_t) (w : uworld) (r : Z * Z) (w' : uworld) : Prop :=
  heap_ok w' /\ moved w w' (fun _ => 0)
  /\ (fst r <> 0 /\ snd r = NULL /\ objs w' = objs w
    \/ exists admin io0 io1 wz rz, r = (0, snd r)
      /\ dma_ioaddrs d !! 0%nat = Some io0 /\ dma_ioaddrs d !! 1%nat = Some io1
      /\ objs w !! snd r = None /\ objs w !! admin = None /\ admin <> snd r
      /\ objs w' = <[snd r := OAqRef (local_ref ctrl admin)]> (<[admin := OLocalAdmin (admin_of c d io0 io1)]> (objs w))
      /\ zeroed (w_mem wz) (dma_vaddr d) (2 * dma_page_size d)
      /\ reset_done c io0 io1 wz rz w').

Lemma wp_upd_mem f w (Q : unit -> uworld -> Prop) :
  (forall w', w_st w' = w_st w -> w_mem w' = f (w_mem w) -> moved w w' (fun _ => 0) -> Q tt w') ->
  wp e (upd_mem f) w Q.
Proof. intros HQ. unfold upd_mem. repeat wp_step. apply HQ; [done..|]. by apply moved_log. Qed.

Lemma memset_zeroed m a n : 0 <= n -> zeroed (memset m a 0 (Z.to_nat n)) a n.
Proof. intros Hn b Hb. rewrite ld8_memset, decide_True by lia. done. Qed.

Lemma create_admin_spec ctrl ct window dc w (Q : Z -> uworld -> Prop) io0 io1 :
  heap_ok w -> objs w !! ctrl = Some (OController ct) -> objs w !! window = Some (ODma dc) ->
  dma_ioaddrs (d_handle dc) !! 0%nat = Some io0 -> dma_ioaddrs (d_handle dc) !! 1%nat = Some io1 ->
  0 <= dma_page_size (d_handle dc) ->
  (forall w', clean w w' -> Q NULL w') ->
  (forall w' admin, heap_ok w' -> moved w w' (fun _ => 0) -> objs w !! admin = None -> admin <> NULL ->
     objs w' = <[admin := OLocalAdmin (admin_of (ct_handle ct) (d_handle dc) io0 io1)]> (objs w) ->
     zeroed (w_mem w') (dma_vaddr (d_handle dc)) (2 * dma_page_size (d_handle dc)) -> Q admin w') ->
  wp e (create_admin ctrl window) w Q.
Proof.
  intros Hok Hct Hw Hi0 Hi1 Hps Hnull HQ. unfold create_admin, load_dma, ioaddr_at, store_acq, store_asq.
  repeat first [heap_step | eapply wp_load_ctrl; [track; assumption|solve [solve_lookup]|]]; try congruence.
  - apply Hnull. solve_clean.
  - apply wp_upd_mem. intros w3 Hst3 Hm3 Hmv3. wp_step. track. eapply wp_load; [done|solve_lookup|]. wp_step.
    eapply wp_store; [done|solve_lookup|]. intros w4 Ho4 Hn4 Hm4 Hl4 Hok4 Hmv4. wp_step.
    apply HQ; [done|solve_moved|done|by apply heap_ok_next| |].
    + rewrite Ho4. heap_rewrite. rewrite !insert_insert_eq. unfold admin_of. simpl.
      repeat f_equal; congruence.
    + rewrite Hm4, Hm3. apply memset_zeroed. lia.
Qed.


Lemma wp_set_binding ref r data release stub w (Q : unit -> uworld -> Prop) :
  heap_ok w -> objs w !! ref = Some (OAqRef r) ->
  (forall w', stored ref (OAqRef (AdminReference (ar_ctrl r) (ar_n_handles r) (ar_handles r) data release stub)) w w' ->
     Q tt w') ->
  wp e (set_binding ref data release stub) w Q.
Proof.
  intros Hok Hr HQ. unfold set_binding. wp_step. eapply wp_load; [done|exact Hr|].
  eapply wp_store; [done|exact Hr|]. intros w' ? ? ? ? ? ?. by apply HQ.
Qed.

(** What [nvm_dma_map] and its relatives establish of a handle ([Dma], [DisDma]). *)
Definition window_ok (d : nvm_dma_t) : Prop :=
  dma_n_ioaddrs d = Z.of_nat (length (dma_ioaddrs d)) /\ 0 <= dma_page_size d.

Hypothesis Hlock : forall w p, r_val (fst (e_resp e w (Mutex_lock p))) = 0.

Lemma ref_get_spec ctrl w (Q : Z * Z -> uworld -> Prop) :
  heap_ok w ->
  (forall s w', s <> 0 -> clean w w' -> Q (s, NULL) w') ->
  (forall w' ref, heap_ok w' -> moved w w' (fun _ => 0) -> objs w !! ref = None -> ref <> NULL ->
     objs w' = <[ref := OAqRef (AdminReference ctrl None NULL NULL None None)]> (objs w) -> Q (0, ref) w') ->
  wp e (_nvm_ref_get ctrl) w Q.
Proof.
  intros Hok Hf HQ. unfold _nvm_ref_get. repeat heap_step.
  - apply Hf; [done|solve_clean].
  - apply Hf; [by apply Z.eqb_neq, negb_true_iff|solve_clean].
  - apply HQ; [done|solve_moved|done|by apply heap_ok_next|].
    heap_rewrite. by rewrite insert_insert_eq.
Qed.

Lemma aq_create_created ctrl ct window dc w :
  heap_ok w -> objs w !! ctrl = Some (OController ct) -> objs w !! window = Some (ODma dc) ->
  window_ok (d_handle dc) ->
  wp e (nvm_aq_create ctrl window) w (aq_created ctrl (ct_handle ct) (d_handle dc) w).
Proof.
  intros Hok Hct Hw [Hlen Hps]. unfold nvm_aq_create, load_dma.
  wp_step. eapply wp_load_ctrl; [done..|]. do 2 wp_step. eapply wp_load; [done..|]. wp_step.
  assert (forall s, s <> 0 -> aq_created ctrl (ct_handle ct) (d_handle dc) w (s, NULL) w) as Hfail.
  { intros s Hs. split; [done|]. split; [apply moved_refl|]. by left. }
  do 3 (wp_step; [wp_step; by apply Hfail|]).
  destruct (dma_ioaddrs (d_handle dc)) as [|io0 [|io1 l]] eqn:Hio; simpl in Hlen; [zbool; lia..|].
  wp_step. eapply ref_get_spec; [done| |].
  - intros s w1 Hs (Hok1 & Ho1 & Hmv1). rewrite (proj2 (Z.eqb_neq s 0)) by done. simpl negb. cbn iota.
    wp_step. split; [done|]. split; [done|]. by left.
  - intros w1 ref Hok1 Hmv1 Hf Hnn Ho1. simpl negb. cbn iota.
    assert (ctrl <> ref /\ window <> ref) as [? ?] by (split; congruence).
    wp_step. eapply wp_load; [done|solve_lookup|]. simpl ar_ctrl. wp_step.
    eapply (create_admin_spec ctrl ct window dc); [done|solve_lookup|solve_lookup|by rewrite Hio..|done| |].
    + intros w2 (Hok2 & Ho2 & Hmv2). unfold set_binding. rewrite Ho1 in Ho2. repeat heap_step.
      eapply wp_mono; [eapply (ref_put_unbinds e Hlock ref _ false (fun _ => 0)); [done|solve_lookup|done|by split]|].
      intros [] w3 (Hok3 & Hmv3 & Ho3). wp_step. split; [done|]. split; [solve_moved|]. left.
      split; [done|]. split; [done|]. simpl in Ho3. rewrite Ho3. heap_rewrite.
      rewrite insert_insert_eq. by rewrite delete_insert_id.
    + intros w2 admin Hok2 Hmv2 Hfa Hnna Ho2 Hz. rewrite Ho1 in Ho2, Hfa.
      apply lookup_insert_None in Hfa as [Hfa Hne]. rewrite insert_insert_ne in Ho2 by done. wp_step.
      eapply wp_set_binding; [done|rewrite Ho2; apply lookup_insert_eq|].
      intros w3 (Hok3 & Ho3 & Hm3 & Hl3). rewrite (proj2 (Z.eqb_neq admin NULL)) by done. wp_step.
      rewrite Ho2, insert_insert_eq in Ho3.
      eapply wp_set_binding; [done|rewrite Ho3; apply lookup_insert_eq|].
      intros w4 (Hok4 & Ho4 & Hm4 & Hl4). rewrite Ho3, insert_insert_eq in Ho4.
      wp_step. eapply wp_load; [done|rewrite Ho4, lookup_insert_ne by done; apply lookup_insert_eq|].
      wp_step. eapply wp_mono; [apply raw_ctrl_reset_done|]. intros rz w5 Hrz. wp_step.
      destruct Hrz as (Hst5 & [Hex5 Hmv5] & Hrest).
      split; [by eapply heap_ok_st|]. split.
      { intros κ. rewrite (Hmv5 κ). unfold bal. rewrite Hl4, Hl3. specialize (Hmv1 κ). specialize (Hmv2 κ).
        unfold bal in *. lia. }
      right. exists admin, io0, io1, w4, rz. rewrite Hio. do 6 (split; [done|]).
      split; [by rewrite Hst5, Ho4|]. split; [by rewrite Hm4, Hm3|].
      split; [done|]. by split.
Qed.

(** Destroying a local reference does not free its descriptor: [remove_admin] is
    called with the instance as its first argument and 0 as its second. *)
Lemma aq_destroy_keeps_admin ref ctrl admin a w :
  heap_ok w -> objs w !! ref = Some (OAqRef (local_ref ctrl admin)) ->
  objs w !! admin = Some (OLocalAdmin a) ->
  wp e (nvm_aq_destroy ref) w (fun _ w' => heap_ok w' /\ moved w w' (fun _ => 0)
    /\ objs w' = delete ref (objs w)).
Proof.
  intros Hok Hr Ha. unfold nvm_aq_destroy. rewrite (proj2 (Z.eqb_neq ref NULL)) by (by eapply heap_ok_nonnull).
  eapply wp_mono; [eapply (ref_put_unbinds e Hlock ref _ false (fun _ => 0)); [done|exact Hr|done|]|done].
  exists (OLocalAdmin a). split; [done|]. split; [done|]. intros w1 Hok1 Ha1. simpl in *.
  rewrite rpc_delete_admin. unfold remove_admin, free.
  rewrite (proj2 (Z.eqb_neq admin NULL)) by (by eapply heap_ok_nonnull).
  simpl negb. change (0 =? NULL) with true. cbn iota. wp_step.
  split; [done|]. split; [done|]. apply moved_refl.
Qed.

Definition create_then_destroy (ctrl window : Z) : UM (Z * Z) :=
  '(err, ref) ← nvm_aq_create ctrl window; nvm_aq_destroy ref;; mret (err, ref).

(** One object more in the heap: a [struct local_admin]. *)
Definition leaks_admin (w : uworld) (r : Z * Z) (w' : uworld) : Prop :=
  heap_ok w' /\ moved w w' (fun _ => 0)
  /\ (fst r <> 0 /\ objs w' = objs w
    \/ fst r = 0 /\ exists admin a, objs w !! admin = None /\ objs w' = <[admin := OLocalAdmin a]> (objs w)).

Lemma create_destroy_leaks ctrl ct window dc w :
  heap_ok w -> objs w !! ctrl = Some (OController ct) -> objs w !! window = Some (ODma dc) ->
  window_ok (d_handle dc) ->
  wp e (create_then_destroy ctrl window) w (leaks_admin w).
Proof.
  intros Hok Hct Hw Hwin. unfold create_then_destroy. wp_step.
  eapply wp_mono; [by apply aq_create_created|].
  intros [err ref] w1 (Hok1 & Hmv1 & [(Herr & Hn & Ho)|(admin & io0 & io1 & wz & rz & Heq & _ & _ & Hf & Hfa & Hne & Ho & _)]).
  - simpl in *. subst ref. wp_step. change (nvm_aq_destroy NULL) with (mret (M:=UM) tt). repeat wp_step.
    split; [done|]. split; [done|]. by left.
  - simpl in *. injection Heq as ->. wp_step.
    eapply wp_mono; [eapply aq_destroy_keeps_admin; [done|rewrite Ho; apply lookup_insert_eq|]|].
    { rewrite Ho, lookup_insert_ne by done. apply lookup_insert_eq. }
    intros [] w2 (Hok2 & Hmv2 & Ho2). wp_step. split; [done|]. split; [solve_moved|]. right.
    split; [done|]. exists admin. eexists. split; [done|]. rewrite Ho2, Ho, delete_insert_id; [done|].
    by rewrite lookup_insert_ne.
Qed.
End raw.

(** ** Properties *)

(** C18: [execute_command] on an admin queue of [2^k] entries always returns. With
    [2^k - 1] commands in flight it is EAGAIN and nothing changed. Otherwise the
    caller's 64 bytes are in the next slot, except for the identifier, which is
    the ring's, before the doorbell is rung, once; then it only sleeps. If no
    completion shows up within the timeout it is ETIME and the slot stays taken;
    otherwise the slot is retired and the caller gets the completion the
    controller wrote, with his own command identifier put back. *)
Theorem execute_command_completes e w admin cmd cpl a k E C :
  heap_ok w -> objs w !! admin = Some (to_obj a) -> admin_ready k E C (la_asq a) ->
  apart cmd 64 (q_vaddr (la_asq a)) (64 * 2 ^ k) -> apart cmd 64 cpl 16 ->
  exists r w', run (execute_command admin cmd cpl) e w = Ok r w'
  /\ executed e w admin cmd cpl a k E C r w'.
Proof. intros. by apply wp_run, execute_command_exec. Qed.

(** [nvm_raw_rpc] on a local reference runs the command under the lock, gives
    the lock back on every path, and returns [execute_command]'s errno: the status
    field of the completion never reaches the caller through the return value. *)
Theorem raw_rpc_local `{RpcCallbacks} e w ref cmd cpl r a k E C :
  heap_ok w -> r_val (fst (e_resp e w (Mutex_lock ref))) = 0 ->
  objs w !! ref = Some (OAqRef r) -> ar_stub r = Some STUB_execute_command ->
  objs w !! ar_data r = Some (to_obj a) -> admin_ready k E C (la_asq a) ->
  apart cmd 64 (q_vaddr (la_asq a)) (64 * 2 ^ k) -> apart cmd 64 cpl 16 ->
  exists v w', run (nvm_raw_rpc ref cmd cpl) e w = Ok v w'
  /\ moved w w' (fun _ => 0) /\ executed_locked e w ref cmd cpl a (ar_data r) k E C v w'.
Proof. intros. by apply wp_run, raw_rpc_executed. Qed.

(** C34: [nvm_aq_create] either fails and leaves nothing behind, or hands out a
    reference bound to a new descriptor whose queues are cleared over the first
    two pages of the window; both pages are zero before the controller is reset,
    and the reset programs exactly their bus addresses. The reset's own result is
    dropped: the reference is handed out even if the controller never got ready. *)
Theorem aq_create_binds `{RpcCallbacks} e ctrl ct window dc w :
  (forall w p, r_val (fst (e_resp e w (Mutex_lock p))) = 0) ->
  heap_ok w -> objs w !! ctrl = Some (OController ct) -> objs w !! window = Some (ODma dc) ->
  window_ok (d_handle dc) ->
  exists r w', run (nvm_aq_create ctrl window) e w = Ok r w'
  /\ aq_created ctrl (ct_handle ct) (d_handle dc) w r w'.
Proof. intros Hl ? ? ? ?. by apply wp_run, (aq_create_created e Hl). Qed.

(** Creating and destroying an admin queue pair leaks its [struct
    local_admin] and nothing else, every time: the callback meant to free it is
    called with other arguments than it declares. *)
Theorem aq_destroy_leaks_admin `{RpcCallbacks} e ctrl ct window dc w :
  (forall w p, r_val (fst (e_resp e w (Mutex_lock p))) = 0) ->
  heap_ok w -> objs w !! ctrl = Some (OController ct) -> objs w !! window = Some (ODma dc) ->
  window_ok (d_handle dc) ->
  exists r w', run (create_then_destroy ctrl window) e w = Ok r w' /\ leaks_admin w r w'.
Proof. intros Hl ? ? ? ?. by eapply wp_run, (create_destroy_leaks e Hl). Qed.

(** ** Witnesses *)

#[local] Existing Instance sample_callbacks.

Definition queue_admin : local_admin := LocalAdmin sample_cq (sample_sq (2 ^ 2) 0 0) 3.
Definition queue_ref : nvm_admin_reference :=
  AdminReference 3 None NULL 2 (Some DEL_remove_admin) (Some STUB_execute_command).
Definition queue_ctrl : controller := Controller DEVICE_TYPE_UNKNOWN NULL 0 (Ctrl 4096 0 3 64 8192 65536).
Definition queue_window : dma := DmaContainer NULL None (Dma 0x20000 4096 2 [0x50000; 0x51000]).

(** A local reference, its descriptor, a controller and a DMA window. *)
Definition queue_world : uworld :=
  World empty (Heap (<[1 := OAqRef queue_ref]> (<[2 := OLocalAdmin queue_admin]>
    (<[3 := OController queue_ctrl]> {[4 := ODma queue_window]}))) 5) [].

Lemma queue_world_ok : heap_ok queue_world.
Proof. split; [done|]. intros p o. simpl. rewrite !lookup_insert_Some, lookup_singleton_Some. lia. Qed.

Lemma queue_admin_ready : admin_ready 2 0 0 (la_asq queue_admin).
Proof. constructor; [lia|apply sample_sq_state; lia|done|done|done]. Qed.

Lemma execute_command_completes_witness :
  exists r w', run (execute_command 2 0x1000 0x2000) lock_env queue_world = Ok r w'
  /\ executed lock_env queue_world 2 0x1000 0x2000 queue_admin 2 0 0 r w'.
Proof.
  apply (execute_command_completes lock_env queue_world 2 0x1000 0x2000 queue_admin 2 0 0);
    [exact queue_world_ok|reflexivity|exact queue_admin_ready|left; simpl; lia|left; lia].
Defined.

Lemma raw_rpc_local_witness :
  exists v w', run (nvm_raw_rpc 1 0x1000 0x2000) lock_env queue_world = Ok v w'
  /\ moved queue_world w' (fun _ => 0)
  /\ executed_locked lock_env queue_world 1 0x1000 0x2000 queue_admin 2 2 0 0 v w'.
Proof.
  apply (raw_rpc_local lock_env queue_world 1 0x1000 0x2000 queue_ref queue_admin 2 0 0);
    [exact queue_world_ok|reflexivity|reflexivity|reflexivity|reflexivity|exact queue_admin_ready
    |left; simpl; lia|left; lia].
Defined.

Lemma aq_create_binds_witness :
  exists r w', run (nvm_aq_create 3 4) lock_env queue_world = Ok r w'
  /\ aq_created 3 (ct_handle queue_ctrl) (d_handle queue_window) queue_world r w'.
Proof.
  apply (aq_create_binds lock_env 3 queue_ctrl 4 queue_window queue_world);
    [exact lock_env_locks|exact queue_world_ok|reflexivity|reflexivity|split; [reflexivity|simpl; lia]].
Defined.

Lemma aq_destroy_leaks_admin_witness :
  exists r w', run (create_then_destroy 3 4) lock_env queue_world = Ok r w' /\ leaks_admin queue_world r w'.
Proof.
  apply (aq_destroy_leaks_admin lock_env 3 queue_ctrl 4 queue_window queue_world);
    [exact lock_env_locks|exact queue_world_ok|reflexivity|reflexivity|split; [reflexivity|simpl; lia]].
Defined.
