(* ===== verification/DisRpc.v ===== *)
(** * RPC over SISCI interrupts ([src/dis/rpc.c])

    A server exports, per adapter, the number of a data interrupt through the
    device's shared segment; a client connects to it and sends commands. The
    receiver runs them on the local admin queue and interrupts the client back
    with the completion. Messages are byte strings; a message on the stack of a
    function is at an address the function is given. *)
From S2P Require Import Prelude Bits Memory Effects Types Runtime Command Error Queue.
From S2P Require Import DisDevice DisMap DisInterrupt Ctrl Dma DisDma Rpc RpcHandles RpcCommand.

(** ** Messages *)

Definition RPC_COMMAND_TIMEOUT : Z := 2500.
Definition RPC_MAGIC_SIGNATURE : Z := 0xDEADBEEF.
Definition NVM_DIS_RPC_MAX_ADAPTER : Z := 4.

(** Sizes of the packed messages. *)
Definition sizeof_rpc_cmd : Z := 72.
Definition sizeof_rpc_cpl : Z := 80.
Definition sizeof_handle_info : Z := 12.

(** [struct rpc_cmd] with the command at [cmd]. *)
Definition rpc_cmd (node_id intr_no : Z) (m : mem) (cmd : Z) : list Z :=
  le_bytes 4 node_id ++ le_bytes 4 intr_no ++ bytes_at 64 m cmd.

(** Offsets of the fields of [struct rpc_cmd] and [struct rpc_cpl]. *)
Definition request_intr_no (request : Z) : Z := request + 4.
Definition request_cmd (request : Z) : Z := request + 8.
Definition reply_cpl (reply : Z) : Z := reply + 64.

(** Entry [adapter] of the exported [struct handle_info] array. *)
Definition info_magic (vaddr adapter : Z) : Z := vaddr + sizeof_handle_info * adapter.
Definition info_node_id (vaddr adapter : Z) : Z := info_magic vaddr adapter + 4.
Definition info_intr_no (vaddr adapter : Z) : Z := info_magic vaddr adapter + 8.

(** ** Commands *)

Section rpc.
Context `{Build}.

(** The [adapter] field is read before it is known to be needed; using it while it
    is indeterminate is a fault. *)
Definition known (adapter : option Z) : UM Z :=
  match adapter with Some a => mret a | None => fail Uninitialised end.

(** [request] and [reply] are the addresses of the message and of the local [reply]. *)
Definition handle_remote_command (reply handle request len : Z) : UM unit :=
  h ← load (A:=binding_handle) handle;
  node_id ← ld_mem 4 request;
  intr_no ← ld_mem 4 (request_intr_no request);
  if negb (len =? sizeof_rpc_cmd) then mret tt
  else
    adapter ← known (li_adapter (bh_intr h));
    allowed ← (if bh_rpc_cb h =? NULL then mret true
               else r ← ext (Rpc_filter (bh_rpc_cb h) (request_cmd request) adapter node_id);
                    mret (negb (r_val r =? 0)));
    (if allowed : bool then
       _nvm_local_admin (bh_rpc_ref h) (request_cmd request) (reply_cpl reply);;
       upd_mem (fun m => memcpy m reply (request_cmd request) 64)
     else upd_mem (fun m => memset m reply 0 64));;
    m ← get_mem;
    _nvm_remote_intr_fire_and_forget adapter node_id intr_no (bytes_at 80 m reply);;
    mret tt.

(** A message shorter than [struct rpc_cpl] leaves part of the local [reply]
    indeterminate. *)
Definition remote_command (p cmd cpl : Z) : UM Z :=
  if (cmd =? NULL) || (cpl =? NULL) then pack NULL EINVAL
  else
    b ← load (A:=binding) p;
    m ← get_mem;
    status ← _nvm_remote_intr_trigger (b_rintr b)
               (rpc_cmd (li_node_id (b_lintr b)) (li_intr_no (b_lintr b)) m cmd);
    if negb (status =? 0) then pack NULL status
    else
      '(status, reply) ← _nvm_local_intr_wait (b_lintr b) sizeof_rpc_cpl RPC_COMMAND_TIMEOUT;
      if negb (status =? 0) then pack NULL status
      else if (length reply <? 80)%nat then fail Uninitialised
      else
        upd_mem (fun m => st_bytes m cmd (take 64 reply));;
        upd_mem (fun m => st_bytes m cpl (take 16 (drop 64 reply)));;
        dword0 ← ld_mem 4 cmd;
        if dword0 =? 0 then pack NULL EPERM else pack NULL 0.

(** ** Server side *)

Definition write_handle_info (handle adapter : Z) (clear : bool) : UM Z :=
  h ← load (A:=binding_handle) handle;
  '(status, mapping) ← _nvm_va_map_remote (sizeof_handle_info * NVM_DIS_RPC_MAX_ADAPTER)
      (dm_segment (bh_dmem h)) true false;
  if negb (status =? 0) then mret status
  else
    let info := va_vaddr mapping in
    ext (Mmio_write 32 (info_magic info adapter) (if clear then 0 else 0xDEADBEEF));;
    ext (Mmio_write 32 (info_node_id info adapter) (if clear then 0 else li_node_id (bh_intr h)));;
    ext (Mmio_write 32 (info_intr_no info adapter) (if clear then 0 else li_intr_no (bh_intr h)));;
    _nvm_va_unmap mapping;;
    mret 0.

Definition local_intr0 : local_intr := LocalIntr 0 0 None 0 0 NULL None.

Definition set_bh_dmem (p : Z) (m : device_memory) : UM unit :=
  h ← load p; store p (BindingHandle m (bh_rpc_ref h) (bh_rpc_cb h) (bh_intr h)).
Definition set_bh_ref (p ref cb : Z) : UM unit :=
  h ← load p; store p (BindingHandle (bh_dmem h) ref cb (bh_intr h)).
Definition set_bh_intr (p : Z) (i : local_intr) : UM unit :=
  h ← load p; store p (BindingHandle (bh_dmem h) (bh_rpc_ref h) (bh_rpc_cb h) i).

(** The fields of a new object are indeterminate; of these only the interrupt's
    [adapter] is never written. *)
Definition create_binding_handle (ref adapter cb : Z) : UM (Z * Z) :=
  ctrl ← nvm_ctrl_from_aq_ref ref;
  if ctrl =? NULL then mret (EINVAL, NULL)
  else
    dev ← _nvm_device_from_ctrl ctrl;
    match dev with
    | None => mret (EINVAL, NULL)
    | Some dev =>
        bh ← malloc T_binding_handle 0 (BindingHandle device_memory0 NULL NULL local_intr0);
        if bh =? NULL then mret (ENOMEM, NULL)
        else
          '(status, dmem) ← _nvm_device_memory_get device_memory0 dev adapter 0 [SCI_FLAG_SHARED];
          set_bh_dmem bh dmem;;
          if negb (status =? 0) then free bh;; mret (status, NULL)
          else
            set_bh_ref bh ref cb;;
            '(status, intr) ← _nvm_local_intr_get local_intr0 bh adapter bh (Some CB_handle_remote_command);
            set_bh_intr bh intr;;
            if negb (status =? 0) then _nvm_device_memory_put dmem;; free bh;; mret (status, NULL)
            else
              status ← write_handle_info bh adapter false;
              if negb (status =? 0) then _nvm_device_memory_put dmem;; free bh;; mret (status, NULL)
              else mret (0, bh)
    end.

Definition remove_binding_handle (handle adapter : Z) : UM unit :=
  write_handle_info handle adapter true;;
  h ← load (A:=binding_handle) handle;
  _nvm_local_intr_put (bh_intr h);;
  _nvm_device_memory_put (bh_dmem h);;
  free handle.

(** ** Client side *)

Definition set_rintr (p : Z) (i : remote_intr) : UM unit :=
  b ← load p; store p (Binding (b_dmem b) (b_lintr b) i).
Definition set_lintr (p : Z) (i : local_intr) : UM unit :=
  b ← load p; store p (Binding (b_dmem b) i (b_rintr b)).
Definition set_b_dmem (p : Z) (m : device_memory) : UM unit :=
  b ← load p; store p (Binding m (b_lintr b) (b_rintr b)).

(** The remaining [n] entries from index [i]. *)
Fixpoint try_bind_loop (n : nat) (i p : Z) (mapping : va_map) : UM Z :=
  match n with
  | O => _nvm_va_unmap mapping;; mret ECONNREFUSED
  | S n' =>
      let info := va_vaddr mapping in
      magic ← ext (Mmio_read 32 (info_magic info i));
      node_id ← ext (Mmio_read 32 (info_node_id info i));
      intr_no ← ext (Mmio_read 32 (info_intr_no info i));
      if negb (u32 (r_val magic) =? RPC_MAGIC_SIGNATURE) then try_bind_loop n' (i + 1) p mapping
      else
        b ← load (A:=binding) p;
        '(status, rintr) ← _nvm_remote_intr_get (b_rintr b) (dm_adapter (b_dmem b))
            (u32 (r_val node_id)) (u32 (r_val intr_no));
        set_rintr p rintr;;
        if status =? 0 then _nvm_va_unmap mapping;; mret 0 else try_bind_loop n' (i + 1) p mapping
  end.

Definition try_bind (p : Z) (max : nat) : UM Z :=
  b ← load (A:=binding) p;
  '(err, mapping) ← _nvm_va_map_remote (sizeof_handle_info * NVM_DIS_RPC_MAX_ADAPTER)
      (dm_segment (b_dmem b)) false false;
  if negb (err =? 0) then mret err else try_bind_loop max 0 p mapping.

Definition create_binding (dev : device) (adapter : Z) : UM (Z * Z) :=
  p ← malloc T_binding 0 (Binding device_memory0 local_intr0 remote_intr0);
  if p =? NULL then mret (ENOMEM, NULL)
  else
    '(status, dmem) ← _nvm_device_memory_get device_memory0 dev adapter 0 [SCI_FLAG_SHARED];
    set_b_dmem p dmem;;
    if negb (status =? 0) then free p;; mret (status, NULL)
    else
      '(status, intr) ← _nvm_local_intr_get local_intr0 p adapter NULL None;
      set_lintr p intr;;
      if negb (status =? 0) then _nvm_device_memory_put dmem;; free p;; mret (status, NULL)
      else
        status ← try_bind p (Z.to_nat NVM_DIS_RPC_MAX_ADAPTER);
        if negb (status =? 0) then
          b ← load (A:=binding) p;
          _nvm_local_intr_put (b_lintr b);; _nvm_device_memory_put (b_dmem b);; free p;;
          mret (status, NULL)
        else mret (0, p).

Definition remove_binding (p : Z) : UM unit :=
  b ← load (A:=binding) p;
  _nvm_remote_intr_put (b_rintr b);;
  _nvm_local_intr_put (b_lintr b);;
  _nvm_device_memory_put (b_dmem b);;
  free p.

(** ** The callbacks of [Rpc] *)

#[export] Instance rpc_callbacks_all : RpcCallbacks := {|
  rpc_stub s data cmd cpl := match s with
    | STUB_execute_command => execute_command data cmd cpl
    | STUB_remote_command => remote_command data cmd cpl
    end;
  rpc_delete f data key n := match f with
    | DEL_remove_admin => remove_admin data key
    | DEL_remove_binding_handle => remove_binding_handle data key
    | DEL_remove_binding => remove_binding data
    end;
  rpc_stub_local _ _ _ := eq_refl;
  rpc_delete_admin _ _ _ := eq_refl;
|}.

(** ** The exported functions *)

Definition nvm_dis_rpc_enable (ref adapter filter : Z) : UM Z :=
  if NVM_DIS_RPC_MAX_ADAPTER <=? adapter then mret EINVAL
  else
    '(err, handle) ← create_binding_handle ref adapter filter;
    if negb (err =? 0) then mret err
    else
      err ← _nvm_rpc_handle_insert ref adapter handle (Some DEL_remove_binding_handle);
      if negb (err =? 0) then remove_binding_handle handle adapter;; mret err
      else mret 0.

Definition nvm_dis_rpc_disable (ref adapter : Z) : UM unit := _nvm_rpc_handle_remove ref adapter.

Definition nvm_dis_rpc_bind (ctrl adapter : Z) : UM (Z * Z) :=
  dev ← _nvm_device_from_ctrl ctrl;
  match dev with
  | None => mret (EINVAL, NULL)
  | Some dev =>
      '(err, ref) ← _nvm_ref_get ctrl;
      if negb (err =? 0) then mret (err, NULL)
      else
        '(err, b) ← create_binding dev adapter;
        if negb (err =? 0) then _nvm_ref_put ref;; mret (err, NULL)
        else
          err ← _nvm_rpc_bind ref b (Some DEL_remove_binding) (Some STUB_remote_command);
          if negb (err =? 0) then remove_binding b;; _nvm_ref_put ref;; mret (err, NULL)
          else mret (0, ref)
  end.

End rpc.

(** ** What bindings own *)

Definition binding_owns (b : binding) (κ : key) : Z :=
  device_memory_owns (b_dmem b) κ + local_intr_owns (b_lintr b) κ + remote_intr_owns (b_rintr b) κ.

Definition handle_owns (h : binding_handle) (κ : key) : Z :=
  device_memory_owns (bh_dmem h) κ + local_intr_owns (bh_intr h) κ.

Section specs.
Context `{Build} (e : uenv).
Hypothesis Hbusy : busy_bounded e.
Hypothesis Hdebug : NDEBUG = false.

(** [s]: the status of the connection; only status 0 owns the interrupt. *)
Definition bound (p : Z) (b : binding) (w : uworld) (L : key -> Z) (s : Z) (w' : uworld) : Prop :=
  heap_ok w' /\ exists ri, objs w' = <[p := OBinding (Binding (b_dmem b) (b_lintr b) ri)]> (objs w)
  /\ moved w w' (fun κ => (if s =? 0 then remote_intr_owns ri κ else 0) - L κ).

Ltac dis_step := first [heap_step | maps_step].

Lemma try_bind_loop_bound n i p mapping b w :
  heap_ok w -> objs w !! p = Some (OBinding b) ->
  wp e (try_bind_loop n i p mapping) w (bound p b w (va_map_owns mapping)).
Proof.
  revert i b w. induction n as [|n IH]; intros i b w Hok Hp; simpl try_bind_loop.
  - repeat dis_step. split; [track; assumption|]. exists (b_rintr b). split.
    + rewrite insert_id; [congruence|]. rewrite Hp. by destruct b.
    + solve_moved.
  - unfold set_rintr. repeat dis_step.
    + eapply wp_mono; [eapply (IH _ b); [done|solve_lookup]|]. intros s w' (Hok' & ri & Ho & Hm).
      split; [done|]. exists ri. split; [heap_rewrite; congruence|solve_moved].
    + path_simp. split; [track; assumption|]. exists d. split; [heap_rewrite; reflexivity|solve_moved].
    + path_simp. eapply wp_mono; [eapply (IH _ (Binding (b_dmem b) (b_lintr b) d)); [done|solve_lookup]|].
      intros s' w' (Hok' & ri & Ho' & Hm). split; [done|]. exists ri.
      split; [rewrite Ho'; heap_rewrite; by rewrite insert_insert_eq|solve_moved].
Qed.

Lemma try_bind_bound p n b w :
  heap_ok w -> objs w !! p = Some (OBinding b) ->
  wp e (try_bind p n) w (bound p b w (fun _ => 0)).
Proof.
  intros Hok Hp. unfold try_bind. repeat dis_step.
  - path_simp. split; [done|]. exists (b_rintr b). split.
    + rewrite insert_id; [congruence|]. rewrite Hp. by destruct b.
    + rewrite (proj2 (Z.eqb_neq s 0)) by done. solve_moved.
  - eapply wp_mono; [eapply (try_bind_loop_bound _ _ _ _ b); [done|solve_lookup]|].
    intros s' w' (Hok' & ri & Ho' & Hm). split; [done|]. exists ri.
    split; [rewrite Ho'; heap_rewrite; done|solve_moved].
Qed.

(** A constructor either succeeds with a new object that owns [L], or leaves no trace. *)
Definition constructs {A} (mk : A -> obj) (P : A -> Prop) (L : A -> key -> Z) (w : uworld) (r : Z * Z) (w' : uworld) : Prop :=
  fst r <> 0 /\ clean w w'
  \/ fst r = 0 /\ heap_ok w' /\ objs w !! snd r = None /\ snd r <> NULL
     /\ exists a, P a /\ objs w' = <[snd r := mk a]> (objs w) /\ moved w w' (L a).

Lemma create_binding_constructs dev adapter w :
  heap_ok w -> wp e (create_binding dev adapter) w (constructs OBinding (fun _ => True) binding_owns w).
Proof.
  intros Hok. unfold create_binding, set_b_dmem, set_lintr. repeat dis_step; path_simp.
  1-3: left; split; [done|solve_clean].
  track. eapply wp_mono; [eapply try_bind_bound; [done|solve_lookup]|].
  intros s' w' (Hok' & ri & Ho' & Hm). repeat dis_step; path_simp.
  - left. rewrite (proj2 (Z.eqb_neq s' 0)) in Hm by done. split; [done|solve_clean].
  - right. subst s'. split; [done|]. split; [track; assumption|]. split; [done|]. split; [by apply heap_ok_next|].
    eexists. split; [done|]. split; [heap_rewrite; rewrite !insert_insert_eq; reflexivity|]. unfold binding_owns. simpl. solve_moved.
Qed.

(** A deleter gives back what the object owned, together with the object. *)
Lemma remove_binding_disposes p b w :
  heap_ok w -> objs w !! p = Some (OBinding b) ->
  wp e (remove_binding p) w (fun _ w' => heap_ok w' /\ objs w' = delete p (objs w)
    /\ moved w w' (fun κ => - binding_owns b κ)).
Proof.
  intros Hok Hp. unfold remove_binding. repeat dis_step. split; [done|]. split; [heap_rewrite; done|].
  unfold binding_owns. solve_moved.
Qed.

Lemma write_handle_info_keeps p h adapter clear w :
  heap_ok w -> objs w !! p = Some (OBindingHandle h) ->
  wp e (write_handle_info p adapter clear) w (fun _ w' => w_st w' = w_st w /\ moved w w' (fun _ => 0)).
Proof.
  intros Hok Hp. unfold write_handle_info. repeat dis_step; path_simp; (split; [congruence|solve_moved]).
Qed.

Lemma remove_binding_handle_disposes p h adapter w :
  heap_ok w -> objs w !! p = Some (OBindingHandle h) ->
  wp e (remove_binding_handle p adapter) w (fun _ w' => heap_ok w' /\ objs w' = delete p (objs w)
    /\ moved w w' (fun κ => - handle_owns h κ)).
Proof.
  intros Hok Hp. unfold remove_binding_handle. wp_step.
  eapply wp_mono; [by eapply write_handle_info_keeps|]. intros s w' [Hst Hmv].
  repeat dis_step. split; [done|]. split; [heap_rewrite; done|]. unfold handle_owns. solve_moved.
Qed.

(** The [adapter] field of an interrupt is never set. *)
Definition adapter_unset (h : binding_handle) : Prop := li_adapter (bh_intr h) = None.

Lemma local_intr_get_spec self adapter data cb w (Q : Z * local_intr -> uworld -> Prop) :
  (forall s i w', w_st w' = w_st w -> (s = 0 -> moved w w' (local_intr_owns i)) ->
     (s <> 0 -> moved w w' (fun _ => 0)) -> li_adapter i = None -> Q (s, i) w') ->
  wp e (_nvm_local_intr_get local_intr0 self adapter data cb) w Q.
Proof.
  intros HQ. eapply wp_mono; [apply wp_conj; [by apply (local_intr_get_acquires e Hdebug local_intr0)|by apply local_intr_get_adapter]|].
  intros [s i] w' [(Hst & H0 & H1) Ha]. by apply HQ.
Qed.

(** Creating a handle: on failure everything is undone, except that the interrupt
    stays behind when the information cannot be exported. *)
Definition handle_created (ref : Z) (w : uworld) (r : Z * Z) (w' : uworld) : Prop :=
  constructs OBindingHandle adapter_unset handle_owns w r w'
  \/ fst r <> 0 /\ heap_ok w' /\ objs w' = objs w /\ exists i, moved w w' (local_intr_owns i).

Lemma create_binding_handle_created ref r ctrl ct adapter cb w :
  heap_ok w -> objs w !! ref = Some (OAqRef r) -> ar_ctrl r = ctrl -> ctrl_alive w ctrl ct ->
  wp e (create_binding_handle ref adapter cb) w (handle_created ref w).
Proof.
  intros Hok Hr <- Hct. unfold create_binding_handle, nvm_ctrl_from_aq_ref.
  repeat dis_step; [left; left; split; [done|solve_clean]| |by destruct (heap_ok_nonnull _ Hok ref _ Hr); apply Z.eqb_eq, negb_false_iff].
  eapply device_from_ctrl_spec; [done|done|intros _|intros dev Hcl].
  { repeat dis_step. left; left; split; [done|solve_clean]. }
  unfold set_bh_dmem, set_bh_ref, set_bh_intr. repeat first
    [ lazymatch goal with
      | |- wp _ (_nvm_local_intr_get _ _ _ _ _) _ _ => apply local_intr_get_spec; intros si i wi Hsti Hoki Herri Hai
      | |- wp _ (write_handle_info _ _ _) _ _ =>
          eapply wp_mono; [eapply write_handle_info_keeps; [track; assumption|solve_lookup]|]; intros si' wi' [Hsti' Hmvi']
      end
    | dis_step ]; path_simp.
  1-3: left; left; split; [done|solve_clean].
  - right. split; [done|]. split; [track; assumption|]. split; [solve_objs|]. exists i. solve_moved.
  - left. right. split; [done|]. split; [track; assumption|]. split; [done|]. split; [by apply heap_ok_next|].
    eexists. split; [|split; [heap_rewrite; rewrite !insert_insert_eq; reflexivity|]]; [done|].
    unfold handle_owns. simpl. solve_moved.
Qed.

(** ** Binding and unbinding *)

Hypothesis Hlock : forall w p, r_val (fst (e_resp e w (Mutex_lock p))) = 0.

Lemma rpc_bind_spec ref r data w (Q : Z -> uworld -> Prop) release stub :
  heap_ok w -> objs w !! ref = Some (OAqRef r) -> ar_data r = NULL -> ar_stub r = None ->
  (forall w', heap_ok w' -> moved w w' (fun _ => 0) ->
     objs w' = <[ref := OAqRef (AdminReference (ar_ctrl r) (ar_n_handles r) (ar_handles r) data release stub)]> (objs w) ->
     Q 0 w') ->
  wp e (_nvm_rpc_bind ref data release stub) w Q.
Proof.
  intros Hok Hr Hd Hs HQ. unfold _nvm_rpc_bind, set_binding. repeat heap_step.
  - apply negb_true_iff, Z.eqb_neq in E. destruct E. rewrite Hans. apply Hlock.
  - rewrite Hd, Hs in E0. discriminate.
  - apply HQ; [track; assumption|solve_moved|heap_rewrite; done].
Qed.

Definition bind_then_unbind (ctrl adapter : Z) : UM (Z * Z) :=
  '(err, ref) ← nvm_dis_rpc_bind ctrl adapter; nvm_rpc_unbind ref;; mret (err, ref).

(** A client reference with its binding. *)
Definition client_bound (ctrl : Z) (w : uworld) (r : Z * Z) (w' : uworld) : Prop :=
  fst r <> 0 /\ snd r = NULL /\ clean w w'
  \/ fst r = 0 /\ heap_ok w' /\ snd r <> NULL /\ objs w !! snd r = None
     /\ exists p b, p <> snd r /\ objs w !! p = None
     /\ objs w' = <[p := OBinding b]> (<[snd r := OAqRef (AdminReference ctrl None NULL p
           (Some DEL_remove_binding) (Some STUB_remote_command))]> (objs w))
     /\ moved w w' (binding_owns b).

Lemma dis_rpc_bind_bound ctrl ct adapter w :
  heap_ok w -> ctrl_alive w ctrl ct ->
  wp e (nvm_dis_rpc_bind ctrl adapter) w (client_bound ctrl w).
Proof.
  intros Hok Hct. unfold nvm_dis_rpc_bind. wp_step.
  eapply device_from_ctrl_spec; [done|done|intros _|intros dev Hcl].
  { wp_step. left. split; [done|]. split; [done|solve_clean]. }
  wp_step. eapply ref_get_spec; [done| |].
  { intros s w1 Hs Hc. rewrite (proj2 (Z.eqb_neq s 0)) by done. simpl negb. cbn iota. wp_step. by left. }
  intros w1 ref Hok1 Hmv1 Hf Hnn Ho1. simpl negb. cbn iota. wp_step.
  eapply wp_mono; [by apply create_binding_constructs|].
  intros [s p] w2 [(Hs & Hok2 & Ho2 & Hmv2)|(Hs & Hok2 & Hf2 & Hp & b & _ & Ho2 & Hmv2)]; simpl in *.
  - rewrite (proj2 (Z.eqb_neq s 0)) by done. simpl negb. cbn iota. wp_step.
    rewrite Ho1 in Ho2.
    eapply wp_mono; [eapply (ref_put_unbinds e Hlock ref _ false (fun _ => 0)); [done|solve_lookup|done|by split]|].
    intros [] w3 (Hok3 & Hmv3 & Ho3). wp_step. left. split; [done|]. split; [done|].
    split; [done|]. split; [|solve_moved]. rewrite Ho3, Ho2. simpl. by rewrite delete_insert_id.
  - subst s. simpl negb. cbn iota. wp_step. rewrite Ho1 in Ho2, Hf2.
    apply lookup_insert_None in Hf2 as [Hf2 Hne].
    eapply rpc_bind_spec; [done|rewrite Ho2, lookup_insert_ne by done; apply lookup_insert_eq|done|done|].
    intros w3 Hok3 Hmv3 Ho3. simpl negb. cbn iota. wp_step. right. split; [done|]. split; [done|].
    split; [done|]. split; [done|]. exists p, b. split; [done|]. split; [done|].
    split; [|solve_moved]. rewrite Ho3, Ho2. simpl. rewrite insert_insert_ne by done. by rewrite insert_insert_eq.
Qed.

Lemma bind_unbind_clean ctrl ct adapter w :
  heap_ok w -> ctrl_alive w ctrl ct ->
  wp e (bind_then_unbind ctrl adapter) w (balanced w).
Proof.
  intros Hok Hct. unfold bind_then_unbind. wp_step. eapply wp_mono; [by eapply dis_rpc_bind_bound|].
  intros [s ref] w1 [(Hs & Hn & Hc)|(Hs & Hok1 & Hnn & Hf & p & b & Hne & Hfp & Ho1 & Hmv1)]; simpl in *; wp_step.
  - subst ref. apply wp_ret. apply wp_ret. split; done.
  - unfold nvm_rpc_unbind. rewrite (proj2 (Z.eqb_neq ref NULL)) by done. simpl negb. cbn iota.
    eapply wp_mono; [eapply (ref_put_unbinds e Hlock ref _ true (binding_owns b));
      [done|rewrite Ho1, lookup_insert_ne by done; apply lookup_insert_eq|done|]|].
    + exists (OBinding b). split; [rewrite Ho1; apply lookup_insert_eq|]. split; [done|].
      intros w2 Hok2 Hp. by apply remove_binding_disposes.
    + intros [] w2 (Hok2 & Hmv2 & Ho2). wp_step. split; [|done]. split; [done|]. split; [|solve_moved].
      rewrite Ho2, Ho1. simpl. rewrite delete_insert_id by (by rewrite lookup_insert_ne).
      by apply delete_insert_id.
Qed.

(** ** Enabling and disabling *)

(** A new object does not disturb a server. *)
Lemma server_insert w w' ref r l p o :
  server w ref r l -> objs w !! p = None -> heap_ok w' -> objs w' = <[p := o]> (objs w) -> server w' ref r l.
Proof.
  intros (Hok & Hr & Hc) Hp Hok' Ho. split; [done|]. rewrite Ho.
  split; [rewrite lookup_insert_ne; [done|congruence]|].
  eapply chain_frame; [exact Hc|]. intros q Hq. destruct (chain_node _ _ _ _ Hc Hq) as [c Hn].
  apply lookup_insert_ne. congruence.
Qed.

Definition enabled (ref adapter : Z) (r : nvm_admin_reference) (l : list (Z * entry))
    (w : uworld) (err : Z) (w' : uworld) : Prop :=
  err <> 0 /\ heap_ok w' /\ objs w' = objs w
    /\ (moved w w' (fun _ => 0) \/ exists i, moved w w' (local_intr_owns i))
  \/ err = 0 /\ (adapter ∉ keys l) /\ exists p q handle h,
     objs w !! p = None /\ objs w !! handle = None /\ p <> handle /\ adapter_unset h
     /\ server w' ref (with_handles (Z.add 1 <$> ar_n_handles r) q r)
          (l ++ [(p, Entry adapter handle (Some DEL_remove_binding_handle))])
     /\ objs w' !! handle = Some (OBindingHandle h) /\ moved w w' (handle_owns h)
     /\ forall a, a <> p -> a <> handle -> a <> ref -> a ∉ addresses l -> objs w' !! a = objs w !! a.

Lemma server_ctrl_alive w ref r l : server w ref r l -> objs w !! ref = Some (OAqRef r).
Proof. by intros (_ & ? & _). Qed.

Lemma rpc_enable_enabled ref r l ct adapter filter w :
  server w ref r l -> ctrl_alive w (ar_ctrl r) ct ->
  wp e (nvm_dis_rpc_enable ref adapter filter) w (enabled ref adapter r l w).
Proof.
  intros Hsrv Hct. pose proof Hsrv as (Hok & Hr & Hc). unfold nvm_dis_rpc_enable.
  wp_step. { wp_step. left. split; [done|]. split; [done|]. split; [done|]. left. apply moved_refl. }
  wp_step. eapply wp_mono; [by eapply create_binding_handle_created|].
  intros [s h] w1 [[(Hs & Hok1 & Ho1 & Hmv1)|(Hs & Hok1 & Hf & Hh & bh & Hun & Ho1 & Hmv1)]|(Hs & Hok1 & Ho1 & i & Hmv1)];
    simpl in *; [rewrite (proj2 (Z.eqb_neq s 0)) by done; simpl negb; cbn iota; wp_step| |
    rewrite (proj2 (Z.eqb_neq s 0)) by done; simpl negb; cbn iota; wp_step].
  - left. do 3 (split; [done|]). by left.
  - subst s. simpl negb. cbn iota. wp_step. pose proof (server_insert _ _ _ _ _ _ _ Hsrv Hf Hok1 Ho1) as Hsrv1.
    eapply wp_mono; [by apply (handle_insert_inserted e Hlock)|].
    intros s w2 [Hmv2 [(Hs & Hok2 & Ho2)|(-> & _ & _ & Hni & p & q & Hfp & Hsrv2 & Hfr)]].
    + assert (s <> 0) as Hsn by (destruct Hs as [[-> _]| ->]; discriminate).
      rewrite (proj2 (Z.eqb_neq s 0)) by done. simpl negb. cbn iota. wp_step.
      eapply wp_mono; [eapply (remove_binding_handle_disposes h bh); [done|rewrite Ho2, Ho1; apply lookup_insert_eq]|].
      intros [] w3 (Hok3 & Ho3 & Hmv3). wp_step. left. split; [done|]. split; [done|].
      split; [|left; solve_moved]. rewrite Ho3, Ho2, Ho1. by apply delete_insert_id.
    + simpl negb. cbn iota. wp_step. right. split; [done|]. split; [done|].
      rewrite Ho1 in Hfp. apply lookup_insert_None in Hfp as [Hfp Hne].
      assert (h <> ref) by congruence.
      assert (h ∉ addresses l) as Hnh.
      { intros Hin. destruct (chain_node _ _ _ _ Hc Hin) as [c ?]. congruence. }
      exists p, q, h, bh. do 4 (split; [done|]). split; [done|].
      split; [rewrite Hfr, Ho1 by done; apply lookup_insert_eq|]. split; [solve_moved|].
      intros a ? ? ? ?. rewrite Hfr, Ho1 by done. by apply lookup_insert_ne.
  - left. do 3 (split; [done|]). right. by exists i.
Qed.

Definition enable_then_disable (ref adapter filter : Z) : UM Z :=
  err ← nvm_dis_rpc_enable ref adapter filter;
  (if err =? 0 then nvm_dis_rpc_disable ref adapter else mret tt);;
  mret err.

(** The server and the rest of the heap are as they were; only the counter and the
    head pointer of an empty list were written. *)
Definition server_restored (ref : Z) (r : nvm_admin_reference) (l : list (Z * entry))
    (w : uworld) (err : Z) (w' : uworld) : Prop :=
  err <> 0 /\ objs w' = objs w /\ (moved w w' (fun _ => 0) \/ exists i, moved w w' (local_intr_owns i))
  \/ err = 0 /\ moved w w' (fun _ => 0)
     /\ (exists q, server w' ref (with_handles ((fun n => n - 1) <$> (Z.add 1 <$> ar_n_handles r)) q r) l)
     /\ forall a, a <> ref -> a ∉ addresses l -> objs w' !! a = objs w !! a.

Lemma enable_disable_restores ref r l ct adapter filter w :
  server w ref r l -> ctrl_alive w (ar_ctrl r) ct ->
  wp e (enable_then_disable ref adapter filter) w (server_restored ref r l w).
Proof.
  intros Hsrv Hct. unfold enable_then_disable. wp_step. eapply wp_mono; [by eapply rpc_enable_enabled|].
  intros err w1 [(Hs & Hok1 & Ho1 & Hmv1)|(-> & Hni & p & q & h & bh & Hfp & Hfh & Hne & Hun & Hsrv1 & Hh & Hmv1 & Hfr)].
  { rewrite (proj2 (Z.eqb_neq err 0)) by done. repeat wp_step. by left. }
  change (0 =? 0) with true. cbn iota. wp_step. unfold nvm_dis_rpc_disable.
  eapply wp_mono; [eapply (handle_remove_removed e Hlock ref p (Entry adapter h (Some DEL_remove_binding_handle)) l []);
    [exact Hsrv1|exact Hni|]|].
  - exists DEL_remove_binding_handle, (OBindingHandle bh). split; [done|]. split; [exact Hh|]. split; [done|].
    intros n w2 Hok2 Hh2. by apply remove_binding_handle_disposes.
  - intros [] w2 (Hmv2 & [q' Hsrv2] & Hp2 & Hh2 & Hfr2). wp_step. rewrite app_nil_r in Hsrv2. simpl in *.
    right. split; [done|]. split; [solve_moved|]. split; [exists q'; exact Hsrv2|].
    intros a Ha Hal. destruct (decide (a = p)) as [->|Hap]; [by rewrite Hp2|].
    destruct (decide (a = h)) as [->|Hah]; [by rewrite Hh2|]. rewrite Hfr2 by done. by apply Hfr.
Qed.
End specs.

(** ** Messages *)

Lemma length_rpc_cmd node intr m cmd : length (rpc_cmd node intr m cmd) = Z.to_nat sizeof_rpc_cmd.
Proof. unfold rpc_cmd. rewrite !length_app, !length_le_bytes, length_bytes_at. done. Qed.

(** What a server reads from a delivered request. *)
Lemma rpc_cmd_fields m m0 request node intr cmd :
  let m' := st_bytes m request (rpc_cmd node intr m0 cmd) in
  ld 4 m' request = u32 node /\ ld 4 m' (request_intr_no request) = u32 intr
  /\ forall i, 0 <= i < 64 -> ld8 m' (request_cmd request + i) = ld8 m0 (cmd + i).
Proof.
  cbv zeta. unfold rpc_cmd, request_intr_no, request_cmd. split; [apply ld_st_le_bytes|].
  rewrite !st_bytes_app, !length_le_bytes. split.
  - rewrite ld_st_bytes_before by lia. change (Z.of_nat 4) with 4.
    pose proof (ld_st_le_bytes 4 (st_bytes m request (le_bytes 4 node)) (request + 4) intr []) as E.
    rewrite app_nil_r in E. exact E.
  - intros i Hi. rewrite ld8_st_bytes_at, decide_True by lia. f_equal. lia.
Qed.

(** The caller's command and completion after the reply was copied to them. *)
Definition reply_copied (m : mem) (reply : list Z) (cmd cpl : Z) : Prop :=
  (forall i, 0 <= i < 64 -> ld8 m (cmd + i) = default 0 (reply !! Z.to_nat i) mod 256)
  /\ (forall i, 0 <= i < 16 -> ld8 m (cpl + i) = default 0 (reply !! Z.to_nat (64 + i)) mod 256).

Lemma copy_reply m reply cmd cpl : (80 <= length reply)%nat -> apart cmd 64 cpl 16 ->
  reply_copied (st_bytes (st_bytes m cmd (take 64 reply)) cpl (take 16 (drop 64 reply))) reply cmd cpl.
Proof.
  intros Hl Ha. unfold apart in Ha.
  assert (length (take 64 reply) = 64%nat) as H1 by (rewrite length_take; lia).
  assert (length (take 16 (drop 64 reply)) = 16%nat) as H2 by (rewrite length_take, length_drop; lia).
  split; intros i Hi; rewrite !ld8_st_bytes, H1, H2.
  - rewrite decide_False by lia. rewrite decide_True by lia. rewrite lookup_take_lt by lia. do 3 f_equal. lia.
  - rewrite decide_True by lia. rewrite lookup_take_lt by lia. rewrite lookup_drop. do 3 f_equal. lia.
Qed.

(** The three steps of a remote command: trigger, wait, copy. *)
Definition exchanged (e : uenv) (b : binding) (cmd cpl : Z) (w : uworld) (v : Z) (w' : uworld) : Prop :=
  let trigger := SCITriggerDataInterrupt (ri_intr (b_rintr b))
                   (rpc_cmd (li_node_id (b_lintr b)) (li_intr_no (b_lintr b)) (w_mem w) cmd) in
  let wait := SCIWaitForDataInterrupt (li_intr (b_lintr b)) sizeof_rpc_cpl RPC_COMMAND_TIMEOUT in
  let w1 := after e w trigger in
  let w2 := after e w1 wait in
  let answer := fst (e_resp e w1 wait) in
  if negb (is_ok (r_sci (fst (e_resp e w trigger)))) then v = ENOTCONN /\ w' = w1
  else if negb (is_ok (r_sci answer))
  then v = (if bool_decide (r_sci answer = SCI_ERR_TIMEOUT) then ETIMEDOUT else EIO) /\ w' = w2
  else w_st w' = w_st w /\ w_log w' = w_log w2 /\ reply_copied (w_mem w') (r_list answer) cmd cpl
       /\ v = (if ld 4 (w_mem w') cmd =? 0 then EPERM else 0).

Section exchange.
Context `{Build} (e : uenv).

Lemma remote_command_exchanged p b cmd cpl w :
  heap_ok w -> objs w !! p = Some (OBinding b) -> cmd <> NULL -> cpl <> NULL -> apart cmd 64 cpl 16 ->
  (forall w i n t, (80 <= length (r_list (fst (e_resp e w (SCIWaitForDataInterrupt i n t)))))%nat) ->
  wp e (remote_command p cmd cpl) w (exchanged e b cmd cpl w).
Proof.
  intros Hok Hp Hcmd Hcpl Ha Hlen. unfold remote_command, pack.
  rewrite (proj2 (Z.eqb_neq cmd NULL)), (proj2 (Z.eqb_neq cpl NULL)) by done. cbn [orb]. cbn iota.
  wp_step. eapply wp_load; [done|exact Hp|]. do 2 wp_step. 
  unfold _nvm_remote_intr_trigger, _nvm_local_intr_wait. do 3 wp_step.
  unfold exchanged. set (w1 := after e w _). destruct (is_ok _) eqn:Et; cbn [negb]; cbn iota.
  2: { wp_step. change (negb (ENOTCONN =? 0)) with true. cbn iota. repeat wp_step. by rewrite pack_errno. }
  wp_step. change (negb (0 =? 0)) with false. cbn iota. do 3 wp_step.
  set (w2 := after e w1 _). specialize (Hlen w1 (li_intr (b_lintr b)) sizeof_rpc_cpl RPC_COMMAND_TIMEOUT).
  set (answer := fst (e_resp e w1 _)) in *.
  unfold is_ok. destruct (r_sci answer) eqn:Er.
  all: try (rewrite bool_decide_eq_false_2 by done; cbn [negb]; cbn iota).
  2-11: wp_step; match goal with |- wp _ (if negb (?x =? 0) then _ else _) _ _ =>
      change (negb (x =? 0)) with true end; cbn iota; repeat wp_step; rewrite pack_errno;
      (split; [by first [rewrite bool_decide_eq_true_2 by done|rewrite bool_decide_eq_false_2 by done]|done]).
  rewrite bool_decide_eq_true_2 by done. cbn [negb]. cbn iota. wp_step.
  change (negb (0 =? 0)) with false. cbn iota. rewrite (proj2 (Nat.ltb_ge _ _)) by done. cbn iota.
  unfold upd_mem, ld_mem. repeat wp_step; (split; [done|]; split; [done|]); cbn [w_mem];
    (split; [by apply copy_reply|]); rewrite pack_errno; cbn [w_mem] in *; by rewrite E.
Qed.
End exchange.

(** Any message a handle made by [create_binding_handle] receives: the callback
    reads the adapter, which nothing ever wrote. *)
Lemma handle_remote_command_unset `{Build} e reply handle request len h w :
  heap_ok w -> objs w !! handle = Some (OBindingHandle h) -> adapter_unset h ->
  len = sizeof_rpc_cmd -> faults e (handle_remote_command reply handle request len) w Uninitialised.
Proof.
  intros Hok Hh Hun ->. unfold handle_remote_command. apply faults_bind. eapply wp_load; [done|exact Hh|].
  unfold ld_mem. apply faults_bind. repeat wp_step. apply faults_bind. repeat wp_step.
  change (sizeof_rpc_cmd =? sizeof_rpc_cmd) with true. cbn [negb]. cbn iota.
  unfold known. rewrite Hun. by apply faults_now.
Qed.

(** ** Properties *)

(** C35: binding to a remote controller and unbinding again leaves neither memory,
    nor a device, shared segment, mapping, descriptor or interrupt behind, on any
    path of [nvm_dis_rpc_bind]: when no exported interrupt can be connected
    everything is undone and no reference handed out. It always returns. Assumed:
    SISCI is busy only transiently, descriptors are checked (no [NDEBUG]), and
    locks can be taken. *)
Theorem dis_rpc_bind_balanced `{Build} e ctrl ct adapter w :
  busy_bounded e -> NDEBUG = false -> (forall w p, r_val (fst (e_resp e w (Mutex_lock p))) = 0) ->
  heap_ok w -> ctrl_alive w ctrl ct ->
  exists r w', run (bind_then_unbind ctrl adapter) e w = Ok r w' /\ balanced w r w'.
Proof. intros Hb Hd Hl Hok Hct. by eapply wp_run, bind_unbind_clean. Qed.

(** Enabling a server's adapter and disabling it again restores the list of
    handles, the rest of the heap and every SISCI resource. An adapter that cannot
    be enabled (unknown, already enabled, or any resource missing) leaves the heap
    as it was and owns nothing afterwards, with one exception the code has: it may
    leave its data interrupt behind. It always returns. *)
Theorem dis_rpc_enable_restores `{Build} e ref r l ct adapter filter w :
  busy_bounded e -> NDEBUG = false -> (forall w p, r_val (fst (e_resp e w (Mutex_lock p))) = 0) ->
  server w ref r l -> ctrl_alive w (ar_ctrl r) ct ->
  exists err w', run (enable_then_disable ref adapter filter) e w = Ok err w'
  /\ server_restored ref r l w err w'.
Proof. intros Hb Hd Hl Hs Hct. by eapply wp_run, enable_disable_restores. Qed.


(** No server can answer a request: [create_binding_handle] hands out handles
    whose interrupt has no adapter, and for such a handle [handle_remote_command]
    uses the indeterminate field on every message of the right size. *)
Theorem handle_remote_command_uninitialised `{Build} e ref r ct adapter cb w :
  busy_bounded e -> NDEBUG = false ->
  heap_ok w -> objs w !! ref = Some (OAqRef r) -> ctrl_alive w (ar_ctrl r) ct ->
  exists res w', run (create_binding_handle ref adapter cb) e w = Ok res w'
  /\ (fst res = 0 -> forall reply request,
       faults e (handle_remote_command reply (snd res) request sizeof_rpc_cmd) w' Uninitialised).
Proof.
  intros Hb Hd Hok Hr Hct.
  destruct (wp_run _ _ _ _ (create_binding_handle_created e Hb Hd ref r _ ct adapter cb w Hok Hr eq_refl Hct))
    as (res & w' & Hrun & [[[? _]|(_ & Hok' & _ & _ & h & Hun & Ho & _)]|[? _]]);
    exists res, w'; (split; [done|]); intros Hz; [done| |done].
  intros reply request. eapply handle_remote_command_unset; [done|rewrite Ho; apply lookup_insert_eq|done|done].
Qed.

(** ** Witnesses *)

#[local] Instance sample_build : Build := {| NDEBUG := false; CUDA := false |}.

(** Every call succeeds; locks are free, messages are 80 zero bytes. *)
Definition rpc_env : uenv :=
  const_env (fun c => match c with
    | Mutex_lock _ | Mutex_init _ => resp_ok 0
    | SCIWaitForDataInterrupt _ _ _ => Resp 0 0 0 SCI_ERR_OK (replicate 80 0)
    | _ => resp_ok RPC_MAGIC_SIGNATURE
    end) 1.

Lemma rpc_env_busy : busy_bounded rpc_env.
Proof. by apply const_env_busy; [lia|intros []]. Qed.

Lemma rpc_env_locks w p : r_val (fst (e_resp rpc_env w (Mutex_lock p))) = 0.
Proof. done. Qed.

Definition rpc_ref : nvm_admin_reference := AdminReference 1 (Some 0) NULL NULL None None.

(** The cluster controller of [DisDma] with a server reference at 3 and a binding
    at 4. *)
Definition rpc_world : uworld :=
  World empty (Heap (<[3 := OAqRef rpc_ref]> (<[4 := OBinding sample_binding]> (objs smartio_world))) 5) [].

Lemma rpc_world_server : server rpc_world 3 rpc_ref [].
Proof.
  split; [|by split]. split; [done|]. intros p o. simpl.
  rewrite !lookup_insert_Some, lookup_singleton_Some. lia.
Qed.

Lemma rpc_world_ctrl : ctrl_alive rpc_world 1 smartio_ctrl.
Proof. split; [reflexivity|]. intros _ _. eexists. reflexivity. Qed.

Lemma dis_rpc_bind_balanced_witness :
  exists r w', run (bind_then_unbind 1 0) rpc_env rpc_world = Ok r w' /\ balanced rpc_world r w'.
Proof.
  apply (dis_rpc_bind_balanced rpc_env 1 smartio_ctrl 0 rpc_world);
    [exact rpc_env_busy|reflexivity|exact rpc_env_locks|apply rpc_world_server|exact rpc_world_ctrl].
Defined.

Lemma dis_rpc_enable_restores_witness :
  exists err w', run (enable_then_disable 3 2 0) rpc_env rpc_world = Ok err w'
  /\ server_restored 3 rpc_ref [] rpc_world err w'.
Proof.
  apply (dis_rpc_enable_restores rpc_env 3 rpc_ref [] smartio_ctrl 2 0 rpc_world);
    [exact rpc_env_busy|reflexivity|exact rpc_env_locks|apply rpc_world_server|exact rpc_world_ctrl].
Defined.


Lemma handle_remote_command_uninitialised_witness :
  exists res w', run (create_binding_handle 3 2 0) rpc_env rpc_world = Ok res w'
  /\ (fst res = 0 -> forall reply request,
       faults rpc_env (handle_remote_command reply (snd res) request sizeof_rpc_cmd) w' Uninitialised).
Proof.
  apply (handle_remote_command_uninitialised rpc_env 3 rpc_ref smartio_ctrl 2 0 rpc_world);
    [exact rpc_env_busy|reflexivity|apply rpc_world_server|reflexivity|exact rpc_world_ctrl].
Defined.

(** The interrupt that [create_binding_handle] leaves behind when the shared
    segment cannot be mapped. *)
Example enable_leaks_interrupt :
  match run (nvm_dis_rpc_enable 3 2 0)
    (const_env (fun c => match c with
       | SCIMapRemoteSegment _ _ _ => Resp 0 0 0 SCI_ERR_NOT_CONNECTED []
       | _ => fst (e_resp rpc_env rpc_world c)
       end) 1) rpc_world with
  | Ok err w' => err = ENOTCONN /\ bal w' (KLocalIntr RPC_MAGIC_SIGNATURE) = 1
  | _ => False
  end.
Proof. vm_compute. done. Qed.
