(* ===== verification/Admin.v ===== *)
(** * Admin commands ([src/admin.c])

    Identify, queue creation and queue counts, on any reference: each builds a
    command, hands it to [nvm_raw_rpc] and decodes what came back. The local
    variables [command] and [completion] are at addresses the functions are
    given. The builders are in [Command]. Creating an I/O queue through a local
    reference is followed from the command the controller sees to the queue the
    caller gets. *)
From S2P Require Import Prelude Bits Memory Effects Types Runtime Command Error Queue.
From S2P Require Import DisDevice DisMap Ctrl Dma Rpc RpcHandles RpcCommand.

Section admin.
Context `{RpcCallbacks}.

(** [1 << n] in a type whose shifts are defined below [w]. *)
Definition shift1 (w n : Z) : UM Z := if n <? w then mret (2 ^ n) else fail BadShift.

Definition divide (a b : Z) : UM Z := if b =? 0 then fail DivByZero else mret (a / b).

(** [command] and [completion] zeroed. *)
Definition clear_messages (command completion : Z) : UM unit :=
  upd_mem (fun m => memset m command 0 64);;
  upd_mem (fun m => memset m completion 0 16).

(** ** Identify *)

Definition ctrl_info0 : nvm_ctrl_info := CtrlInfo 0 0 0 0 0 0 [] [] [] [] 0 0 0 0 0 0.

(** The fields read from registers and from the handle. *)
Definition info_registers (c : nvm_ctrl_t) : UM nvm_ctrl_info :=
  version ← read_reg 32 (VER (ctrl_mm_ptr c));
  stride ← shift1 64 (ctrl_dstrd c);
  cqr ← CAP_CQR (ctrl_mm_ptr c);
  mret (CtrlInfo version (ctrl_page_size c) stride (ctrl_timeout c) (booln cqr) (ctrl_max_entries c)
          (replicate 4 0) (replicate 20 0) (replicate 40 0) (replicate 8 0) 0 0 0 0 0 0).

(** The fields decoded from the Identify Controller data at [ptr]. *)
Definition info_identify (c : nvm_ctrl_t) (i : nvm_ctrl_info) (ptr : Z) : UM nvm_ctrl_info :=
  m ← get_mem;
  mdts ← shift1 64 (ld 1 m (ptr + 77));
  mpsmin ← CAP_MPSMIN (ctrl_mm_ptr c);
  unit ← shift1 64 (12 + mpsmin);
  let max_data_size := u64 (mdts * unit) in
  max_data_pages ← divide max_data_size (ci_page_size i);
  m ← get_mem;
  mret (CtrlInfo (ci_nvme_version i) (ci_page_size i) (ci_db_stride i) (ci_timeout i)
          (ci_contiguous i) (ci_max_entries i)
          (bytes_at 4 m ptr) (bytes_at 20 m (ptr + 4)) (bytes_at 40 m (ptr + 24)) (bytes_at 8 m (ptr + 64))
          max_data_size max_data_pages
          (2 ^ _RB (ld 1 m (ptr + 513)) 3 0) (2 ^ _RB (ld 1 m (ptr + 512)) 3 0)
          (ld 2 m (ptr + 514)) (ld 4 m (ptr + 516))).

(** Returns the status and what [*info] holds afterwards ([None]: not written). *)
Definition nvm_admin_ctrl_info (command completion ref info ptr ioaddr : Z) : UM (Z * option nvm_ctrl_info) :=
  if (info =? NULL) || (ptr =? NULL) || (ioaddr =? 0)
  then status ← pack NULL EINVAL; mret (status, None)
  else
    clear_messages command completion;;
    upd_mem (fun m => memset m ptr 0 (Z.to_nat 0x1000));;
    ctrl ← nvm_ctrl_from_aq_ref ref;
    c ← load_ctrl ctrl;
    i ← info_registers c;
    upd_mem (fun m => _nvm_admin_identify_ctrl m command ioaddr);;
    err ← nvm_raw_rpc ref command completion;
    if negb (nvm_ok err) then mret (err, Some i)
    else
      i ← info_identify c i ptr;
      status ← pack NULL 0;
      mret (status, Some i).

Definition ns_info0 (ns_id : Z) : nvm_ns_info := NsInfo ns_id 0 0 0 0 0.

(** The fields decoded from the Identify Namespace data at [ptr]. *)
Definition ns_identify (ns_id ptr : Z) : UM nvm_ns_info :=
  m ← get_mem;
  let format_idx := _RB (ld 1 m (ptr + 26)) 3 0 in
  let lba_format := ld 4 m (ptr + 128 + 4 * format_idx) in
  lba_data_size ← shift1 31 (_RB lba_format 23 16);
  mret (NsInfo ns_id (ld 8 m ptr) (ld 8 m (ptr + 8)) (ld 8 m (ptr + 16)) lba_data_size
          (_RB lba_format 15 0)).

Definition nvm_admin_ns_info (command completion ref info ns_id ptr ioaddr : Z) : UM (Z * option nvm_ns_info) :=
  if (info =? NULL) || (ptr =? NULL) || (ioaddr =? 0)
  then status ← pack NULL EINVAL; mret (status, None)
  else
    clear_messages command completion;;
    upd_mem (fun m => memset m ptr 0 (Z.to_nat 0x1000));;
    upd_mem (fun m => _nvm_admin_identify_ns m command ns_id ioaddr);;
    err ← nvm_raw_rpc ref command completion;
    if negb (nvm_ok err) then mret (err, Some (ns_info0 ns_id))
    else
      i ← ns_identify ns_id ptr;
      status ← pack NULL 0;
      mret (status, Some i).

(** ** Queues: the queue is [None] while [*cq] or [*sq] is not written *)

Definition nvm_admin_cq_create (command completion ref id vaddr ioaddr : Z) : UM (Z * option nvm_queue_t) :=
  ctrl ← nvm_ctrl_from_aq_ref ref;
  if id =? 0 then mret (EINVAL, None)
  else
    c ← load_ctrl ctrl;
    let queue := nvm_queue_clear c true id vaddr ioaddr in
    clear_messages command completion;;
    upd_mem (fun m => _nvm_admin_cq_create m command queue);;
    err ← nvm_raw_rpc ref command completion;
    if negb (nvm_ok err) then mret (err, None)
    else status ← pack NULL 0; mret (status, Some queue).

Definition nvm_admin_sq_create (command completion ref : Z) (cq : nvm_queue_t) (id vaddr ioaddr : Z)
    : UM (Z * option nvm_queue_t) :=
  ctrl ← nvm_ctrl_from_aq_ref ref;
  if id =? 0 then mret (EINVAL, None)
  else
    c ← load_ctrl ctrl;
    let queue := nvm_queue_clear c false id vaddr ioaddr in
    clear_messages command completion;;
    upd_mem (fun m => _nvm_admin_sq_create m command queue cq);;
    err ← nvm_raw_rpc ref command completion;
    if negb (nvm_ok err) then mret (err, None)
    else status ← pack NULL 0; mret (status, Some queue).

(** ** Queue counts: [(n_cqs, n_sqs)] is [None] while they are not written *)

(** The two counts in dword 0 of a completion, as [uint16_t]. *)
Definition queue_counts (m : mem) (completion : Z) : Z * Z :=
  let dw0 := ld_dword m completion 0 in
  (u16 (Z.land dw0 0xffff + 1), u16 (Z.shiftr dw0 16 + 1)).

Definition nvm_admin_get_num_queues (command completion ref : Z) : UM (Z * option (Z * Z)) :=
  clear_messages command completion;;
  upd_mem (fun m => _nvm_admin_current_num_queues m command false 0 0);;
  err ← nvm_raw_rpc ref command completion;
  if negb (nvm_ok err) then mret (err, None)
  else
    m ← get_mem;
    status ← pack NULL 0;
    mret (status, Some (queue_counts m completion)).

Definition nvm_admin_request_num_queues (command completion ref n_cqs n_sqs : Z) : UM (Z * option (Z * Z)) :=
  if (n_cqs =? 0) || (n_sqs =? 0) then status ← pack NULL EINVAL; mret (status, None)
  else
    clear_messages command completion;;
    upd_mem (fun m => _nvm_admin_current_num_queues m command true n_cqs n_sqs);;
    err ← nvm_raw_rpc ref command completion;
    if negb (err =? 0) then mret (err, None)
    else
      m ← get_mem;
      status ← pack NULL 0;
      mret (status, Some (queue_counts m completion)).

(** The counts are written to the function's own parameters. *)
Definition nvm_admin_set_num_queues (command completion ref n_cqs n_sqs : Z) : UM Z :=
  '(status, _) ← nvm_admin_request_num_queues command completion ref n_cqs n_sqs;
  mret status.

(** ** Commands through a local reference *)

Context (e : uenv).

(** The world in which [nvm_raw_rpc] is called: the messages are zeroed and [f]
    built the command. *)
Definition asking (w : uworld) (command completion : Z) (f : mem -> mem) : uworld :=
  World (f (zero_cmd (memset (w_mem w) completion 0 16) command)) (w_st w) (w_log w).

Lemma wp_asking {A} f command completion (k : UM A) w (Q : A -> uworld -> Prop) :
  apart command 64 completion 16 -> wp e k (asking w command completion f) Q ->
  wp e (clear_messages command completion;; upd_mem f;; k) w Q.
Proof.
  intros Ha HQ. unfold clear_messages, upd_mem. repeat wp_step. simpl w_mem. simpl w_st. simpl w_log.
  rewrite memset_comm by exact Ha. exact HQ.
Qed.

(** What a caller of [nvm_raw_rpc] knows afterwards: [answer v] is handed out. *)
Definition answered_locally {A} (w : uworld) (ref command completion : Z) (f : mem -> mem)
    (a : local_admin) (admin k E C : Z) (answer : Z -> mem -> option A) (r : Z * option A) (w' : uworld) : Prop :=
  r = (fst r, answer (fst r) (w_mem w'))
  /\ moved w w' (fun _ => 0)
  /\ executed_locked e (asking w command completion f) ref command completion a admin k E C (fst r) w'.

Hypothesis Hlock : forall w p, r_val (fst (e_resp e w (Mutex_lock p))) = 0.

(** A live local reference [ref] to [ctrl] whose ring the two messages avoid. *)
Record local_ready (w : uworld) (ref command completion : Z) (r : nvm_admin_reference) (a : local_admin)
    (k E C : Z) : Prop := {
  lr_heap : heap_ok w;
  lr_ref : objs w !! ref = Some (OAqRef r);
  lr_stub : ar_stub r = Some STUB_execute_command;
  lr_admin : objs w !! ar_data r = Some (to_obj a);
  lr_ready : admin_ready k E C (la_asq a);
  lr_ring : apart command 64 (q_vaddr (la_asq a)) (64 * 2 ^ k);
  lr_messages : apart command 64 completion 16;
}.

Lemma raw_rpc_answered {A} w ref command completion r a k E C f (decode : mem -> A) :
  local_ready w ref command completion r a k E C ->
  wp e (err ← nvm_raw_rpc ref command completion;
        if negb (nvm_ok err) then mret (err, None)
        else m ← get_mem; status ← pack NULL 0; mret (status, Some (decode m)))
    (asking w command completion f)
    (answered_locally w ref command completion f a (ar_data r) k E C
       (fun v m => if v =? 0 then Some (decode m) else None)).
Proof.
  intros [Hok Hr Hs Ha Hq Hring Hmsg]. wp_step.
  eapply wp_mono; [eapply (raw_rpc_executed e _ ref command completion r a k E C);
                   [by eapply heap_ok_st|apply Hlock|exact Hr|exact Hs|exact Ha|exact Hq|exact Hring|exact Hmsg]|].
  intros v w' [Hmv Hex]. unfold nvm_ok, pack.
  destruct (Z.eqb_spec v 0) as [->|Hv]; simpl negb; cbn iota; repeat wp_step; rewrite ?pack_errno;
    (split; [simpl; try done; by rewrite (proj2 (Z.eqb_neq v 0))|]); by split.
Qed.

Lemma cq_create_answered w ref command completion r a k E C ct id vaddr ioaddr :
  local_ready w ref command completion r a k E C -> objs w !! ar_ctrl r = Some (OController ct) -> id <> 0 ->
  let queue := nvm_queue_clear (ct_handle ct) true id vaddr ioaddr in
  wp e (nvm_admin_cq_create command completion ref id vaddr ioaddr) w
    (answered_locally w ref command completion (fun m => _nvm_admin_cq_create m command queue)
       a (ar_data r) k E C (fun v _ => if v =? 0 then Some queue else None)).
Proof.
  intros Hlr Hct Hid queue. pose proof Hlr as [Hok Hr _ _ _ _ Hmsg]. unfold nvm_admin_cq_create, nvm_ctrl_from_aq_ref.
  rewrite (proj2 (Z.eqb_neq ref NULL)) by (by eapply heap_ok_nonnull). simpl negb. cbn iota.
  do 2 wp_step. eapply wp_load; [done|exact Hr|]. wp_step. rewrite (proj2 (Z.eqb_neq id 0)) by done. cbn iota.
  wp_step. eapply wp_load_ctrl; [done|exact Hct|]. cbn zeta. apply wp_asking; [done|].
  by apply (raw_rpc_answered w ref command completion r a k E C _ (fun _ => queue)).
Qed.

Lemma sq_create_answered w ref command completion r a k E C ct cq id vaddr ioaddr :
  local_ready w ref command completion r a k E C -> objs w !! ar_ctrl r = Some (OController ct) -> id <> 0 ->
  let queue := nvm_queue_clear (ct_handle ct) false id vaddr ioaddr in
  wp e (nvm_admin_sq_create command completion ref cq id vaddr ioaddr) w
    (answered_locally w ref command completion (fun m => _nvm_admin_sq_create m command queue cq)
       a (ar_data r) k E C (fun v _ => if v =? 0 then Some queue else None)).
Proof.
  intros Hlr Hct Hid queue. pose proof Hlr as [Hok Hr _ _ _ _ Hmsg]. unfold nvm_admin_sq_create, nvm_ctrl_from_aq_ref.
  rewrite (proj2 (Z.eqb_neq ref NULL)) by (by eapply heap_ok_nonnull). simpl negb. cbn iota.
  do 2 wp_step. eapply wp_load; [done|exact Hr|]. wp_step. rewrite (proj2 (Z.eqb_neq id 0)) by done. cbn iota.
  wp_step. eapply wp_load_ctrl; [done|exact Hct|]. cbn zeta. apply wp_asking; [done|].
  by apply (raw_rpc_answered w ref command completion r a k E C _ (fun _ => queue)).
Qed.

Lemma request_num_queues_answered w ref command completion r a k E C n_cqs n_sqs :
  local_ready w ref command completion r a k E C -> n_cqs <> 0 -> n_sqs <> 0 ->
  wp e (nvm_admin_request_num_queues command completion ref n_cqs n_sqs) w
    (answered_locally w ref command completion (fun m => _nvm_admin_current_num_queues m command true n_cqs n_sqs)
       a (ar_data r) k E C (fun v m => if v =? 0 then Some (queue_counts m completion) else None)).
Proof.
  intros Hlr Hc Hs. unfold nvm_admin_request_num_queues.
  rewrite (proj2 (Z.eqb_neq n_cqs 0)), (proj2 (Z.eqb_neq n_sqs 0)) by done. simpl orb. cbn iota.
  apply wp_asking; [by destruct Hlr|].
  by apply (raw_rpc_answered w ref command completion r a k E C _ (fun m => queue_counts m completion)).
Qed.

(** The half-words [x] and [y] of dword 0 come back as the counts [(y + 1, x + 1)]. *)
Lemma queue_counts_halves m completion x y :
  0 <= x < 65535 -> 0 <= y < 65535 -> ld_dword m completion 0 = x * 65536 + y ->
  queue_counts m completion = (y + 1, x + 1).
Proof.
  intros Hx Hy Hd. unfold queue_counts. rewrite Hd. change 0xffff with (Z.ones 16).
  rewrite Z.land_ones, Z.shiftr_div_pow2 by lia. change (2 ^ 16) with 65536.
  rewrite (Z.add_comm (x * 65536)), Z.mod_add, Z.mod_small, Z.div_add, Z.div_small by lia.
  by rewrite !u16_small by lia.
Qed.
End admin.

Lemma queue_clear_entries c is_cq id vaddr ioaddr :
  1 <= ctrl_max_entries c < 65536 -> 64 <= ctrl_page_size c ->
  1 <= q_max_entries (nvm_queue_clear c is_cq id vaddr ioaddr) <= 65536.
Proof.
  intros Hn Hps. simpl. set (size := if is_cq then sizeof_cpl else sizeof_cmd).
  assert (1 <= ctrl_page_size c / size).
  { apply Z.div_le_lower_bound; subst size; destruct is_cq; unfold sizeof_cpl, sizeof_cmd; lia. }
  unfold _MIN. zcases; rewrite u16_small by lia; lia.
Qed.

(** ** Properties *)

(** C29: through a local reference, creating an I/O queue pair hands the controller
    the Create Completion Queue and Create Submission Queue commands for the
    cleared queues (0's based size and identifier in dword 10, the bus address in
    PRP1, contiguous, and for the submission queue its completion queue), runs
    each of them under the lock as [execute_command] does, and hands out the
    queue exactly when that returns 0. The completion's status is not looked at:
    a queue the controller refused to create is handed out as well. *)
Theorem create_io_queues_local `{RpcCallbacks} e w ref command completion r a k E C ct cq id vaddr ioaddr :
  (forall w p, r_val (fst (e_resp e w (Mutex_lock p))) = 0) ->
  local_ready w ref command completion r a k E C -> objs w !! ar_ctrl r = Some (OController ct) ->
  0 < id < 65536 -> q_no cq in_u 16 ->
  1 <= ctrl_max_entries (ct_handle ct) < 65536 -> 64 <= ctrl_page_size (ct_handle ct) ->
  let queue is_cq := nvm_queue_clear (ct_handle ct) is_cq id vaddr ioaddr in
  let build_cq m := _nvm_admin_cq_create m command (queue true) in
  let build_sq m := _nvm_admin_sq_create m command (queue false) cq in
  let size is_cq := q_max_entries (queue is_cq) - 1 in
  dwords (w_mem (asking w command completion build_cq)) command
    = [5; 0; 0; 0; 0; 0; u32 ioaddr; u32 (Z.shiftr ioaddr 32); 0; 0; size true * 65536 + id; 1; 0; 0; 0; 0]
  /\ dwords (w_mem (asking w command completion build_sq)) command
    = [1; 0; 0; 0; 0; 0; u32 ioaddr; u32 (Z.shiftr ioaddr 32); 0; 0;
       size false * 65536 + id; q_no cq * 65536 + 1; 0; 0; 0; 0]
  /\ (exists v w', run (nvm_admin_cq_create command completion ref id vaddr ioaddr) e w = Ok v w'
      /\ answered_locally e w ref command completion build_cq a (ar_data r) k E C
           (fun v _ => if v =? 0 then Some (queue true) else None) v w')
  /\ (exists v w', run (nvm_admin_sq_create command completion ref cq id vaddr ioaddr) e w = Ok v w'
      /\ answered_locally e w ref command completion build_sq a (ar_data r) k E C
           (fun v _ => if v =? 0 then Some (queue false) else None) v w').
Proof.
  intros Hl Hlr Hct Hid Hcq Hn Hps queue build_cq build_sq size. pose proof (fun b => queue_clear_entries (ct_handle ct) b id vaddr ioaddr Hn Hps) as Hme.
  split; [apply (cq_create_fields _ _ (queue true)); [simpl; lia|by apply Hme]|].
  split; [apply (sq_create_fields _ _ (queue false)); [simpl; lia|done|by apply Hme]|].
  split; apply wp_run; [by apply cq_create_answered; [..|lia]|by apply sq_create_answered; [..|lia]].
Qed.

(** The request for [n_cqs] completion and [n_sqs] submission queues carries
    [n_cqs - 1] in the upper and [n_sqs - 1] in the lower half of dword 11, but the
    answer is decoded the other way round: a controller that grants exactly what
    was requested makes the function report [n_sqs] completion queues and [n_cqs]
    submission queues. *)
Theorem request_num_queues_swaps `{RpcCallbacks} e w ref command completion r a k E C n_cqs n_sqs :
  (forall w p, r_val (fst (e_resp e w (Mutex_lock p))) = 0) ->
  local_ready w ref command completion r a k E C -> 0 < n_cqs < 65536 -> 0 < n_sqs < 65536 ->
  let build m := _nvm_admin_current_num_queues m command true n_cqs n_sqs in
  let granted := (n_cqs - 1) * 65536 + (n_sqs - 1) in
  dwords (w_mem (asking w command completion build)) command
    = [9; 0; 0; 0; 0; 0; 0; 0; 0; 0; 7; granted; 0; 0; 0; 0]
  /\ exists v counts w', run (nvm_admin_request_num_queues command completion ref n_cqs n_sqs) e w = Ok (v, counts) w'
    /\ (exists answer, answered_locally e w ref command completion build a (ar_data r) k E C answer (v, counts) w')
    /\ (v = 0 -> ld_dword (w_mem w') completion 0 = granted -> counts = Some (n_sqs, n_cqs)).
Proof.
  intros Hl Hlr Hc Hs build granted. split.
  - unfold asking, build. simpl w_mem. rewrite num_queues_dwords. unfold admin_dwords.
    rewrite <- (u32_small (Z.shiftl (n_cqs - 1) 16)) by (rewrite Z.shiftl_mul_pow2; lia).
    by rewrite dword_fields by lia.
  - destruct (wp_run _ _ _ _ (request_num_queues_answered e Hl w ref command completion r a k E C n_cqs n_sqs
                Hlr ltac:(lia) ltac:(lia))) as ([v counts] & w' & Hrun & Hans).
    exists v, counts, w'. split; [done|]. split; [by eexists|]. intros -> Hd.
    destruct Hans as [[=->] _]. simpl. f_equal.
    rewrite (queue_counts_halves _ _ (n_cqs - 1) (n_sqs - 1)) by (done || lia). f_equal; lia.
Qed.

(** ** Witnesses *)

#[local] Existing Instance sample_callbacks.

Lemma queue_world_ready : local_ready queue_world 1 0x1000 0x2000 queue_ref queue_admin 2 0 0.
Proof.
  constructor; [exact queue_world_ok|reflexivity|reflexivity|reflexivity|exact queue_admin_ready
    |left; simpl; lia|left; lia].
Qed.

Lemma create_io_queues_local_witness :
  exists v w', run (nvm_admin_cq_create 0x1000 0x2000 1 1 0x30000 0x60000) lock_env queue_world = Ok v w'
  /\ answered_locally lock_env queue_world 1 0x1000 0x2000
       (fun m => _nvm_admin_cq_create m 0x1000 (nvm_queue_clear (ct_handle queue_ctrl) true 1 0x30000 0x60000))
       queue_admin 2 2 0 0
       (fun v _ => if v =? 0 then Some (nvm_queue_clear (ct_handle queue_ctrl) true 1 0x30000 0x60000) else None) v w'.
Proof.
  refine (proj1 (proj2 (proj2 (create_io_queues_local lock_env queue_world 1 0x1000 0x2000 queue_ref queue_admin
            2 0 0 queue_ctrl (Queue 2 64 16 0 0 1 0 0 0 0) 1 0x30000 0x60000 _ _ _ _ _ _ _))));
    [exact lock_env_locks|exact queue_world_ready|reflexivity|lia|simpl; lia|simpl; lia|simpl; lia].
Defined.

Lemma request_num_queues_swaps_witness :
  dwords (w_mem (asking queue_world 0x1000 0x2000 (fun m => _nvm_admin_current_num_queues m 0x1000 true 4 2))) 0x1000
  = [9; 0; 0; 0; 0; 0; 0; 0; 0; 0; 7; 3 * 65536 + 1; 0; 0; 0; 0].
Proof.
  apply (request_num_queues_swaps lock_env queue_world 1 0x1000 0x2000 queue_ref queue_admin 2 0 0 4 2);
    [exact lock_env_locks|exact queue_world_ready|lia|lia].
Defined.
