(* ===== verification/KTypes.v ===== *)
(** * The kernel module: calls, state and primitive accesses

    [src/module] runs in the kernel: its environment is the memory manager, the
    DMA and PCI layers, the character device layer and, with [_CUDA], the NVIDIA
    driver. Kernels from 4.11 on are assumed where the source selects by version.
    [printk] has no effect on the state and is left out. Pointers into
    [ctrl_devs] and [ctrl_refs] are indices, kernel objects from [kmalloc] have a
    number, and the list header a structure begins with is a node of its own map. *)
From S2P Require Import Prelude Memory Effects.
From stdpp Require Export strings pretty.

#[global] Open Scope Z_scope.

(** What the kernel headers, the build and the module parameters fix. *)
Class Kernel := {
  has_CUDA : bool;
  PAGE_SHIFT : Z;
  dma_mapping_error : Z -> Z -> Z;     (** device, bus address *)
  MAJOR : Z -> Z;
  MINOR : Z -> Z;
  MKDEV : Z -> Z -> Z;
  IOW : Z -> Z -> Z -> Z;              (** [_IOW] *)
  num_ctrl_devs : Z;
  num_ctrl_refs : Z;
  max_pages_per_map : Z;
}.

(** ** Calls out of the module *)

Inductive kcall :=
  | Kmalloc (size : Z) | Kcalloc (n size : Z)
  | Get_user_pages (vaddr n_pages : Z) | Put_page (page : Z)
  | Dma_map_page (pdev page : Z) | Dma_unmap_page (pdev addr : Z)
  | P2p_get_pages (vaddr length map : Z) | P2p_put_pages (vaddr pages : Z)
  | P2p_dma_map_pages (pdev pages : Z) | P2p_dma_unmap_pages (pdev pages mappings : Z)
  | P2p_free_page_table (pages : Z) | P2p_free_dma_mapping (mappings : Z)
  | Copy_from_user (src n : Z) | Copy_to_user (dst n : Z)
  | Cdev_add (dev : nat) (rdev : Z) | Cdev_del (dev : nat)
  | Device_create (cls rdev : Z) (name : string) | Device_destroy (cls rdev : Z)
  | Pci_request_region (pdev : Z) | Pci_release_region (pdev : Z)
  | Pci_enable_device (pdev : Z) | Pci_disable_device (pdev : Z)
  | Pci_set_master (pdev : Z) | Pci_clear_master (pdev : Z)
  | Pci_resource_len (pdev : Z) | Pci_resource_start (pdev : Z)
  | Vm_iomap_memory (vma start len : Z)
  | Alloc_chrdev_region (n : Z) | Unregister_chrdev_region (first n : Z)
  | Class_create | Class_destroy (cls : Z)
  | Pci_register_driver | Pci_unregister_driver.

(** [k_val]: the return value, negative for an error (an [ERR_PTR] included);
    [k_ptr]: the pointer or device number returned or written; [k_num] and
    [k_list]: a count and an array written by the callee. *)
Record kresp := KResp { k_val : Z; k_ptr : Z; k_num : Z; k_list : list Z }.

(** ** Data *)

(** Who holds a [struct map_list_head]: the two list heads of a controller
    reference, or a map descriptor. *)
Inductive knode := UserHead (ref : nat) | GpuHead (ref : nat) | MapNode (map : Z).

#[global] Instance node_eq_dec : EqDecision knode.
Proof. solve_decision. Defined.

#[global] Instance node_countable : Countable knode.
Proof.
  refine (inj_countable'
    (fun x => match x with UserHead r => inl (inl r) | GpuHead r => inl (inr r) | MapNode m => inr m end)
    (fun x => match x with inl (inl r) => UserHead r | inl (inr r) => GpuHead r | inr m => MapNode m end) _).
  by intros [].
Defined.

Record map_list_head := ListHead { mlh_next : option knode; mlh_prev : option knode; mlh_vaddr : Z }.

Abbreviation nodes := (gmap knode map_list_head).

(** Fields are [None] while indeterminate; [addrs] has the room that was allocated. *)
Record map_descriptor := MapDescriptor {
  map_pdev : option Z;
  map_page_size : Z;
  map_n_pages : option Z;
  map_pages : option Z;
  map_mappings : option Z;
  map_n_addrs : option Z;
  map_addrs : list (option Z);
}.

Record ctrl_ref := CtrlRef { ref_flags : Z; ref_ctrl : option nat; ref_owner : Z }.

Record ctrl_dev := CtrlDev {
  cd_in_use : Z; cd_pdev : Z; cd_name : string; cd_rdev : Z; cd_cls : Z; cd_chrdev : Z;
}.

Record kstate := KState {
  k_nodes : nodes;
  k_maps : gmap Z map_descriptor;
  k_arrays : gmap Z (list Z);          (** arrays of page pointers *)
  k_next : Z;
  k_refs : option (list ctrl_ref);     (** [ctrl_refs]; [None] when not allocated *)
  k_devs : option (list ctrl_dev);     (** [ctrl_devs] *)
  k_first : Z;                         (** [dev_first] *)
  k_class : Z;                         (** [dev_class] *)
}.

Abbreviation kworld := (world kcall kresp kstate).
Abbreviation kenv := (env kcall kresp kstate).
Abbreviation KM := (M kcall kresp kstate).

(** ** Updating the state *)

Definition set_nodes (s : kstate) (x : nodes) : kstate :=
  KState x (k_maps s) (k_arrays s) (k_next s) (k_refs s) (k_devs s) (k_first s) (k_class s).
Definition set_maps (s : kstate) (x : gmap Z map_descriptor) : kstate :=
  KState (k_nodes s) x (k_arrays s) (k_next s) (k_refs s) (k_devs s) (k_first s) (k_class s).
Definition set_arrays (s : kstate) (x : gmap Z (list Z)) : kstate :=
  KState (k_nodes s) (k_maps s) x (k_next s) (k_refs s) (k_devs s) (k_first s) (k_class s).
Definition set_k_next (s : kstate) (x : Z) : kstate :=
  KState (k_nodes s) (k_maps s) (k_arrays s) x (k_refs s) (k_devs s) (k_first s) (k_class s).
Definition set_refs (s : kstate) (x : option (list ctrl_ref)) : kstate :=
  KState (k_nodes s) (k_maps s) (k_arrays s) (k_next s) x (k_devs s) (k_first s) (k_class s).
Definition set_devs (s : kstate) (x : option (list ctrl_dev)) : kstate :=
  KState (k_nodes s) (k_maps s) (k_arrays s) (k_next s) (k_refs s) x (k_first s) (k_class s).
Definition set_chrdev (s : kstate) (first cls : Z) : kstate :=
  KState (k_nodes s) (k_maps s) (k_arrays s) (k_next s) (k_refs s) (k_devs s) first cls.

Definition modify (f : kstate -> kstate) : KM unit := s ← get_st; put_st (f s).

(** ** Reading and writing objects *)

Definition or_fail {A} (f : fault) (x : option A) : KM A :=
  match x with Some a => mret a | None => fail f end.

(** The value of a field, which must have been set. *)
Definition init {A} (x : option A) : KM A := or_fail Uninitialised x.

Definition load_md (p : Z) : KM map_descriptor := s ← get_st; or_fail BadPointer (k_maps s !! p).
Definition store_map (p : Z) (m : map_descriptor) : KM unit :=
  load_md p;; modify (fun s => set_maps s (<[p := m]> (k_maps s))).
Definition load_array (p : Z) : KM (list Z) := s ← get_st; or_fail BadPointer (k_arrays s !! p).

Definition load_ref (i : nat) : KM ctrl_ref :=
  s ← get_st; or_fail BadPointer (k_refs s ≫= (fun l => l !! i)).
Definition store_ref (i : nat) (r : ctrl_ref) : KM unit :=
  load_ref i;; modify (fun s => set_refs s (insert i r <$> k_refs s)).
Definition load_dev (i : nat) : KM ctrl_dev :=
  s ← get_st; or_fail BadPointer (k_devs s ≫= (fun l => l !! i)).
Definition store_dev (i : nat) (d : ctrl_dev) : KM unit :=
  load_dev i;; modify (fun s => set_devs s (insert i d <$> k_devs s)).

(** [kfree] of a map descriptor, with the list header in it, and of an array. *)
Definition kfree_map (p : Z) : KM unit :=
  s ← get_st;
  match k_maps s !! p with
  | Some _ => put_st (set_nodes (set_maps s (delete p (k_maps s))) (delete (MapNode p) (k_nodes s)))
  | None => fail DoubleFree
  end.
Definition kfree_array (p : Z) : KM unit :=
  s ← get_st;
  match k_arrays s !! p with
  | Some _ => put_st (set_arrays s (delete p (k_arrays s)))
  | None => fail DoubleFree
  end.

(** [test_and_set_bit] and [test_and_clear_bit] on a word: the old bit, the new word. *)
Definition test_and_set_bit (n w : Z) : bool * Z := (Z.testbit w n, Z.setbit w n).
Definition test_and_clear_bit (n w : Z) : bool * Z := (Z.testbit w n, Z.clearbit w n).

(** Run a list operation on the nodes. *)
Definition on_nodes {A} (f : nodes -> option (A * nodes)) : KM A :=
  s ← get_st;
  '(a, h) ← or_fail BadPointer (f (k_nodes s));
  put_st (set_nodes s h);;
  mret a.
