(* ===== verification/KList.v ===== *)
(** * Sorted lists of mappings ([src/module/list.c])

    The operations on the nodes, [None] where a pointer to nothing is followed
    (or, for the two loops, where the list is cyclic: a proper list has at most
    as many nodes as there are), and their equivalence with insertion, deletion
    and search in a sorted sequence. *)
From Stdlib Require Import Sorted.
From S2P Require Import Prelude Memory Effects KTypes.

(** ** Operations *)

Definition set_mlh_next (n : option knode) (x : map_list_head) : map_list_head :=
  ListHead n (mlh_prev x) (mlh_vaddr x).
Definition set_mlh_prev (p : option knode) (x : map_list_head) : map_list_head :=
  ListHead (mlh_next x) p (mlh_vaddr x).

Definition list_init (h : nodes) (ptr : knode) (vaddr : Z) : nodes :=
  <[ptr := ListHead None None vaddr]> h.

Fixpoint find_loop (fuel : nat) (h : nodes) (ptr : option knode) (vaddr : Z) : option (option knode) :=
  match fuel, ptr with
  | O, _ => None
  | _, None => Some None
  | S fuel', Some p =>
      x ← h !! p;
      if mlh_vaddr x <=? vaddr
      then if mlh_vaddr x =? vaddr then Some (Some p) else find_loop fuel' h (mlh_next x) vaddr
      else Some None
  end.

Definition list_find (h : nodes) (list_start : knode) (vaddr : Z) : option (option knode) :=
  x ← h !! list_start; find_loop (S (size h)) h (mlh_next x) vaddr.

Definition list_remove (h : nodes) (curr : knode) : option nodes :=
  x ← h !! curr;
  let next := mlh_next x in
  let prev := mlh_prev x in
  h ← match prev with
      | Some p => y ← h !! p; Some (<[p := set_mlh_next next y]> h)
      | None => Some h
      end;
  h ← match next with
      | Some n => y ← h !! n; Some (<[n := set_mlh_prev prev y]> h)
      | None => Some h
      end;
  y ← h !! curr;
  Some (<[curr := ListHead None None (mlh_vaddr y)]> h).

(** Returns [curr], [next] and [count]. *)
Fixpoint insert_loop (fuel : nat) (h : nodes) (vaddr : Z) (curr : knode) (next : option knode) (count : Z)
    : option (knode * option knode * Z) :=
  match fuel, next with
  | O, _ => None
  | _, None => Some (curr, None, count)
  | S fuel', Some n =>
      x ← h !! n;
      if mlh_vaddr x <? vaddr then insert_loop fuel' h vaddr n (mlh_next x) (count + 1)
      else Some (curr, Some n, count)
  end.

Definition list_insert (h : nodes) (list_start insert : knode) : option (Z * nodes) :=
  i ← h !! insert;
  x ← h !! list_start;
  '(curr, next, count) ← insert_loop (S (size h)) h (mlh_vaddr i) list_start (mlh_next x) 0;
  c ← h !! curr;
  if mlh_vaddr c =? mlh_vaddr i then Some (- EEXIST, h)
  else
    let h := <[curr := set_mlh_next (Some insert) c]> h in
    i ← h !! insert;
    let h := <[insert := ListHead next (Some curr) (mlh_vaddr i)]> h in
    h ← match next with
        | Some n => y ← h !! n; Some (<[n := set_mlh_prev (Some insert) y]> h)
        | None => Some h
        end;
    Some (count, h).

(** ** Lists as sequences

    [link h p x l q y]: the nodes of [l], with their addresses, are linked from
    the pointer [x], the first one back to [p]; the last node (or [p]) is [q] and
    the pointer that leaves it is [y]. A list is its head, at address 0, followed
    by its entries. *)

Fixpoint link (h : nodes) (p x : option knode) (l : list (knode * Z)) (q y : option knode) : Prop :=
  match l with
  | [] => p = q /\ x = y
  | (i, v) :: l' => x = Some i /\ exists n, h !! i = Some (ListHead n p v) /\ link h (Some i) n l' q y
  end.

Definition is_list (h : nodes) (head : knode) (l : list (knode * Z)) : Prop :=
  NoDup (head :: l.*1) /\ exists q, link h None (Some head) ((head, 0) :: l) q None.

Definition sorted (l : list (knode * Z)) : Prop := StronglySorted (fun a b => snd a <= snd b) l.

(** Reference definitions: the first entry at an address, insertion before the
    first entry that is not smaller, and deletion. *)
Definition first_at (v : Z) (l : list (knode * Z)) : option knode :=
  fst <$> head (filter (fun e => snd e = v) l).

Fixpoint place (e : knode * Z) (l : list (knode * Z)) : list (knode * Z) :=
  match l with
  | [] => [e]
  | d :: l' => if snd d <? snd e then d :: place e l' else e :: l
  end.

Fixpoint position (v : Z) (l : list (knode * Z)) : Z :=
  match l with
  | [] => 0
  | d :: l' => if snd d <? v then 1 + position v l' else 0
  end.

Lemma link_app h p x l1 l2 q y :
  link h p x (l1 ++ l2) q y <-> exists p' x', link h p x l1 p' x' /\ link h p' x' l2 q y.
Proof.
  revert p x. induction l1 as [|[i v] l1 IH]; intros p x; simpl.
  - split; [by intros ?; exists p, x|]. by intros (p' & x' & [-> ->] & ?).
  - split.
    + intros (-> & n & Hi & (p' & x' & H1 & H2)%IH). exists p', x'. split; [|done]. split; [done|]. by exists n.
    + intros (p' & x' & (-> & n & Hi & H1) & H2). split; [done|]. exists n. split; [done|]. apply IH. by exists p', x'.
Qed.

Lemma link_frame h h' p x l q y :
  (forall i, i ∈ l.*1 -> h' !! i = h !! i) -> link h p x l q y -> link h' p x l q y.
Proof.
  revert p x. induction l as [|[i v] l IH]; intros p x Heq; [done|]. simpl.
  intros (-> & n & Hi & Hl). split; [done|]. exists n. split.
  - rewrite Heq; [done|]. simpl. set_solver.
  - apply IH; [|done]. intros j Hj. apply Heq. simpl. set_solver.
Qed.

Lemma link_lookup h p x l q y i : link h p x l q y -> i ∈ l.*1 -> is_Some (h !! i).
Proof.
  revert p x. induction l as [|[j v] l IH]; intros p x; simpl; [set_solver|].
  intros (-> & n & Hj & Hl) Hi. apply elem_of_cons in Hi as [->|Hi]; [by eexists|]. by eapply IH.
Qed.

Lemma is_list_frame h h' head l :
  (forall i, i = head \/ i ∈ l.*1 -> h' !! i = h !! i) -> is_list h head l -> is_list h' head l.
Proof.
  intros Heq [Hnd [q Hl]]. split; [done|]. exists q. eapply link_frame; [|exact Hl].
  intros i. simpl. intros Hi. apply Heq. set_solver.
Qed.

(** A list has fewer entries than there are nodes, so the loops have fuel enough. *)
Lemma is_list_size h head l : is_list h head l -> (S (length l) <= size h)%nat.
Proof.
  intros [Hnd [q Hl]]. assert (list_to_set (C:=gset knode) (head :: l.*1) ⊆ dom h) as Hs.
  { intros i Hi. apply elem_of_dom. eapply link_lookup; [exact Hl|]. simpl. set_solver. }
  apply subseteq_size in Hs. rewrite size_list_to_set in Hs by done. simpl in Hs.
  by rewrite length_fmap, size_dom in Hs.
Qed.

(** ** Searching *)

Lemma first_at_above v l : Forall (fun e => v < snd e) l -> first_at v l = None.
Proof.
  intros Hl. unfold first_at. replace (filter (fun e => snd e = v) l) with (@nil (knode * Z)); [done|].
  symmetry. induction Hl; [done|]. rewrite filter_cons_False by lia. done.
Qed.

Lemma find_loop_first fuel h p x l q v :
  link h p x l q None -> sorted l -> (length l < fuel)%nat -> find_loop fuel h x v = Some (first_at v l).
Proof.
  revert fuel p x. induction l as [|[i u] l IH]; intros fuel p x Hl Hs Hf; (destruct fuel as [|fuel]; [simpl in Hf; lia|]).
  - by destruct Hl as [_ ->].
  - destruct Hl as (-> & n & Hi & Hl). simpl. rewrite Hi. simpl.
    apply StronglySorted_inv in Hs as [Hs Hall]. unfold first_at.
    destruct (Z.leb_spec u v); [destruct (Z.eqb_spec u v) as [->|Hne]|].
    + by rewrite filter_cons_True.
    + rewrite filter_cons_False by done. simpl in Hf. eapply IH; [done|done|lia].
    + rewrite filter_cons_False by (simpl; lia).
      fold (first_at v l). rewrite first_at_above; [done|].
      eapply Forall_impl; [exact Hall|]. simpl. lia.
Qed.

(** ** Removing *)

Lemma is_list_split h head l1 i v l2 :
  is_list h head (l1 ++ (i, v) :: l2) ->
  exists pre p u pp n, (head, 0) :: l1 = pre ++ [(p, u)]
  /\ link h None (Some head) pre pp (Some p) /\ h !! p = Some (ListHead (Some i) pp u)
  /\ h !! i = Some (ListHead n (Some p) v)
  /\ exists q, link h (Some i) n l2 q None.
Proof.
  intros [Hnd [q Hl]]. rewrite app_comm_cons in Hl.
  destruct (exists_last (l := (head, 0) :: l1)) as (pre & [p u] & Hpre); [done|].
  rewrite Hpre, <- app_assoc in Hl. apply link_app in Hl as (pp & x & Hpre' & Hl). simpl in Hl.
  destruct Hl as (-> & n & Hp & -> & n' & Hi & Hl).
  exists pre, p, u, pp, n'. do 4 (split; [done|]). by exists q.
Qed.

(** Rewrite lookups in updated maps at keys known to be different. *)
Ltac node_lookup :=
  repeat first
  [ rewrite lookup_insert_eq
  | rewrite lookup_insert_ne by (first [done | congruence | set_solver]) ].

Lemma nodup_pieces (pre : list (knode * Z)) p u i l2 :
  NoDup ((pre ++ [(p, u)]).*1 ++ i :: l2) ->
  p <> i /\ (p ∉ pre.*1) /\ (i ∉ pre.*1) /\ (p ∉ l2) /\ (i ∉ l2)
  /\ (forall j, j ∈ pre.*1 -> j ∉ l2) /\ NoDup l2 /\ NoDup ((pre ++ [(p, u)]).*1 ++ l2).
Proof.
  rewrite fmap_app, <- !app_assoc. simpl. rewrite !list.NoDup_app, !list.NoDup_cons.
  intros (H1 & H2 & (H3 & H4 & H5)). set_solver.
Qed.

(** Writing [prev] of the node at [n], if there is one. *)
Definition set_prev_at (n p' : option knode) (h : nodes) : nodes :=
  match n with
  | Some j => match h !! j with Some y => <[j := set_mlh_prev p' y]> h | None => h end
  | None => h
  end.

Lemma set_prev_at_eq h p p' n l q :
  link h p n l q None ->
  match n with Some j => y ← h !! j; Some (<[j := set_mlh_prev p' y]> h) | None => Some h end
  = Some (set_prev_at n p' h).
Proof. destruct l as [|[j w] l]; [by intros [_ ->]|]. intros (-> & n' & Hj & _). simpl. by rewrite Hj. Qed.

Lemma set_prev_at_other h p p' n l q j :
  link h p n l q None -> j ∉ l.*1 -> set_prev_at n p' h !! j = h !! j.
Proof.
  destruct l as [|[i w] l]; [by intros [_ ->]|]. intros (-> & n' & Hj & _) Hi. simpl in *. rewrite Hj.
  node_lookup. done.
Qed.

Lemma set_prev_at_link h p p' n l q :
  NoDup l.*1 -> link h p n l q None -> exists q', link (set_prev_at n p' h) p' n l q' None.
Proof.
  destruct l as [|[i w] l]; [intros _ [_ ->]; by exists p'|]. simpl. intros [Hni Hnd]%list.NoDup_cons (-> & n' & Hj & Hl).
  exists q. simpl. rewrite Hj. split; [done|]. exists n'. node_lookup. split; [done|].
  eapply link_frame; [|exact Hl]. intros k Hk. by node_lookup.
Qed.

(** [h'] differs from [h] at the nodes of [l] only. *)
Definition only_changes (l : list knode) (h h' : nodes) : Prop := forall j, j ∉ l -> h' !! j = h !! j.

Lemma list_remove_removes h head l1 i v l2 :
  is_list h head (l1 ++ (i, v) :: l2) ->
  exists h', list_remove h i = Some h' /\ is_list h' head (l1 ++ l2)
  /\ h' !! i = Some (ListHead None None v) /\ only_changes (head :: (l1 ++ (i, v) :: l2).*1) h h'.
Proof.
  intros Hl. pose proof Hl as [Hnd _].
  apply is_list_split in Hl as (pre & p & u & pp & n & Hpre & Hlp & Hp & Hi & q & Hl2).
  change (head :: (l1 ++ (i, v) :: l2).*1) with ((head, 0).1 :: (l1 ++ (i, v) :: l2).*1) in *.
  rewrite <- fmap_cons, app_comm_cons, Hpre, fmap_app in *. simpl in Hnd.
  destruct (nodup_pieces _ _ _ _ _ Hnd) as (Hpi & Hpp & Hip & Hpl & Hil & Hpl2 & Hn2 & Hnd2).
  set (h1 := <[p := set_mlh_next n (ListHead (Some i) pp u)]> h).
  assert (link h1 (Some i) n l2 q None) as Hl2'.
  { eapply link_frame; [|exact Hl2]. intros j Hj. unfold h1. by node_lookup. }
  destruct (set_prev_at_link h1 _ (Some p) _ _ _ Hn2 Hl2') as [q' Hq'].
  set (h2 := set_prev_at n (Some p) h1) in *.
  assert (forall j, j ∉ l2.*1 -> h2 !! j = h1 !! j) as Hoth by (intros; by eapply set_prev_at_other).
  assert (h2 !! i = Some (ListHead n (Some p) v)) as Hi2.
  { rewrite Hoth by done. unfold h1. by node_lookup. }
  exists (<[i := ListHead None None v]> h2). split; [|split; [|split]].
  - unfold list_remove. rewrite Hi. simpl. rewrite Hp. simpl. fold h1.
    rewrite (set_prev_at_eq _ _ (Some p) _ _ _ Hl2'). fold h2. simpl. by rewrite Hi2.
  - split.
    + change (head :: (l1 ++ l2).*1) with (((head, 0) :: l1 ++ l2).*1). by rewrite app_comm_cons, Hpre, fmap_app.
    + exists q'. rewrite app_comm_cons, Hpre, <- app_assoc. apply link_app. exists pp, (Some p). split.
      * eapply link_frame; [|exact Hlp]. intros j Hj. node_lookup. rewrite Hoth by (by apply Hpl2).
        unfold h1. by node_lookup.
      * split; [done|]. exists n. node_lookup. rewrite Hoth by done. unfold h1. node_lookup. split; [done|].
        eapply link_frame; [|exact Hq']. intros j Hj. by node_lookup.
  - by node_lookup.
  - intros j Hj. simpl in Hj. rewrite !fmap_app in Hj. simpl in Hj. node_lookup. rewrite Hoth by set_solver.
    unfold h1. by node_lookup.
Qed.

(** ** Inserting *)

Lemma insert_loop_splits fuel h curr next l q e count :
  link h (Some curr) next l q None -> (length l < fuel)%nat ->
  exists l1 l2 c n, l = l1 ++ l2 /\ place e l = l1 ++ e :: l2 /\ position (snd e) l = Z.of_nat (length l1)
  /\ insert_loop fuel h (snd e) curr next count = Some (c, n, count + position (snd e) l)
  /\ link h (Some curr) next l1 (Some c) n /\ link h (Some c) n l2 q None
  /\ Forall (fun d => snd d < snd e) l1.
Proof.
  revert fuel curr next count. induction l as [|[i u] l IH]; intros fuel curr next count Hl Hf;
    (destruct fuel as [|fuel]; [simpl in Hf; lia|]).
  - destruct Hl as [<- ->]. exists [], [], curr, None. simpl. rewrite Z.add_0_r. done.
  - pose proof Hl as (-> & n & Hi & Hl'). simpl. rewrite Hi. simpl.
    destruct (Z.ltb_spec u (snd e)).
    + simpl in Hf. destruct (IH fuel i n (count + 1) Hl' ltac:(lia)) as (l1 & l2 & c & n' & -> & -> & -> & -> & H1 & H2 & H3).
      exists ((i, u) :: l1), l2, c, n'. do 2 (split; [done|]). split; [simpl; lia|]. split; [do 2 f_equal; lia|].
      split; [|by split; [|constructor]]. simpl. split; [done|]. by exists n.
    + exists [], ((i, u) :: l), curr, (Some i). rewrite Z.add_0_r. by do 6 (split; [done|]).
Qed.

(** The loop never stops at an entry that is not smaller, so only address 0 is refused. *)
Lemma list_insert_places h head l i x v :
  is_list h head l -> h !! i = Some x -> mlh_vaddr x = v -> i ∉ head :: l.*1 -> 0 < v ->
  exists h', list_insert h head i = Some (position v l, h') /\ is_list h' head (place (i, v) l)
  /\ only_changes (i :: head :: l.*1) h h'.
Proof.
  intros Hl Hi Hv Hni Hpos. pose proof (is_list_size _ _ _ Hl) as Hsz.
  destruct Hl as [Hnd [q Hl]]. pose proof Hl as (_ & n0 & Hh & Hl0).
  destruct (insert_loop_splits (S (size h)) h head n0 l q (i, v) 0 Hl0 ltac:(lia))
    as (l1 & l2 & c & n & El & Epl & _ & Eins & H1 & Hl2 & Hlt); simpl snd in Eins.
  assert (link h None (Some head) ((head, 0) :: l1) (Some c) n) as Hl1 by (split; [done|]; by exists n0).
  destruct (exists_last (l := (head, 0) :: l1)) as (pre & [p u] & Hpre); [done|].
  assert (u < v) as Hu.
  { assert (Forall (fun d => snd d < v) ((head, 0) :: l1)) as HF by (constructor; [simpl; lia|done]).
    rewrite Hpre, Forall_app, Forall_singleton in HF. by destruct HF as [_ ?]. }
  rewrite Hpre in Hl1. apply link_app in Hl1 as (pp & y & Hlp & (-> & n' & Hp & [[= <-] ->])).
  subst l. rewrite fmap_app in Hnd, Hni.
  assert (NoDup ((pre ++ [(p, u)]).*1 ++ i :: l2.*1)) as Hnd'.
  { rewrite <- Hpre. simpl. rewrite app_comm_cons, <- Permutation_middle. by constructor. }
  destruct (nodup_pieces _ _ _ _ _ Hnd') as (Hpi & Hpp & Hip & Hpl & Hil & Hpl2 & Hn2 & _).
  set (h1 := <[p := set_mlh_next (Some i) (ListHead n pp u)]> h).
  set (h2 := <[i := ListHead n (Some p) v]> h1).
  assert (link h2 (Some p) n l2 q None) as Hl2'.
  { eapply link_frame; [|exact Hl2]. intros j Hj. unfold h2, h1. by node_lookup. }
  destruct (set_prev_at_link h2 _ (Some i) _ _ _ Hn2 Hl2') as [q' Hq'].
  set (h3 := set_prev_at n (Some i) h2) in *.
  assert (forall j, j ∉ l2.*1 -> h3 !! j = h2 !! j) as Hoth by (intros; by eapply set_prev_at_other).
  exists h3. split; [|split; [split|]].
  - unfold list_insert. rewrite Hi. cbn [mbind option_bind]. rewrite Hh. cbn [mbind option_bind mlh_next].
    rewrite Hv, Eins. simpl. rewrite Hp. simpl. rewrite (proj2 (Z.eqb_neq u v)) by lia. fold h1.
    assert (h1 !! i = Some x) as -> by (unfold h1; by node_lookup). simpl. rewrite Hv. fold h2.
    by rewrite (set_prev_at_eq _ _ (Some i) _ _ _ Hl2').
  - rewrite Epl, fmap_app. change (NoDup (((head, 0) :: l1).*1 ++ i :: l2.*1)). by rewrite Hpre.
  - exists q'. rewrite Epl, app_comm_cons, Hpre, <- app_assoc. apply link_app. exists pp, (Some p). split.
    + eapply link_frame; [|exact Hlp]. intros j Hj. rewrite Hoth by (by apply Hpl2). unfold h2, h1. by node_lookup.
    + split; [done|]. exists (Some i). rewrite Hoth by done. unfold h2, h1. node_lookup. split; [done|].
      split; [done|]. exists n. rewrite Hoth by done. unfold h2. node_lookup. by split.
  - intros j Hj. rewrite fmap_app in Hj. assert (j <> p).
    { intros ->. apply Hj. apply elem_of_cons. right. change (p ∈ ((head, 0) :: l1).*1 ++ l2.*1). rewrite Hpre, fmap_app. set_solver. }
    rewrite Hoth by set_solver. unfold h2, h1. by node_lookup.
Qed.

Lemma list_insert_zero h head l i x :
  is_list h head l -> Forall (fun e => 0 <= snd e) l -> h !! i = Some x -> mlh_vaddr x = 0 ->
  list_insert h head i = Some (- EEXIST, h).
Proof.
  intros Hl Hnn Hi Hv. destruct Hl as [_ [q (_ & n0 & Hh & Hl0)]].
  unfold list_insert. rewrite Hi. simpl. rewrite Hh. simpl. rewrite Hv.
  destruct l as [|[j u] l]; [destruct Hl0 as [_ ->]|destruct Hl0 as (-> & n & Hj & _)].
  - simpl. by rewrite Hh.
  - apply Forall_cons in Hnn as [Hu _]. simpl in *. rewrite Hj. simpl.
    rewrite (proj2 (Z.ltb_ge u 0)) by done. simpl. by rewrite Hh.
Qed.

Lemma place_below e l k : Forall (fun d => k <= snd d) l -> k <= snd e -> Forall (fun d => k <= snd d) (place e l).
Proof.
  induction 1 as [|d l Hd Hl IH]; simpl; intros He; [by constructor|].
  destruct (snd d <? snd e); constructor; auto.
Qed.

Lemma place_sorted e l : sorted l -> sorted (place e l).
Proof.
  induction 1 as [|d l Hl IH Hd]; simpl; [repeat constructor|].
  destruct (Z.ltb_spec (snd d) (snd e)); constructor; [done| |by constructor|].
  - apply place_below; [done|lia].
  - constructor; [done|]. eapply Forall_impl; [exact Hd|]. simpl. intros ? ?. lia.
Qed.

Lemma place_permutes e l : place e l ≡ₚ e :: l.
Proof.
  induction l as [|d l IH]; simpl; [done|]. destruct (snd d <? snd e); [|done].
  rewrite IH. apply Permutation_swap.
Qed.

Lemma place_split e l : exists l1 l2, l = l1 ++ l2 /\ place e l = l1 ++ e :: l2.
Proof.
  induction l as [|d l (l1 & l2 & E & Ep)]; simpl; [by exists [], []|].
  destruct (snd d <? snd e); [|by exists [], (d :: l)]. exists (d :: l1), l2. rewrite Ep. by subst l.
Qed.

(** The entry placed last is the first one found at its address. *)
Lemma first_at_place i v l : first_at v (place (i, v) l) = Some i.
Proof.
  unfold first_at. induction l as [|d l IH]; simpl; [by rewrite filter_cons_True|].
  destruct (Z.ltb_spec (snd d) v); [rewrite filter_cons_False by lia; exact IH|by rewrite filter_cons_True].
Qed.

Lemma list_find_first h head l v : is_list h head l -> sorted l -> list_find h head v = Some (first_at v l).
Proof.
  intros Hl Hs. pose proof (is_list_size _ _ _ Hl). destruct Hl as [_ [q (_ & n & Hh & Hl)]].
  unfold list_find. rewrite Hh. cbn [mbind option_bind mlh_next]. eapply find_loop_first; [done|done|lia].
Qed.

(** ** Property *)

(** C20: on a proper list the three operations are those of a sorted sequence.
    [list_find] is linear search, although it stops at the first larger address.
    [list_insert] puts a node at a positive address before the first entry that is
    not smaller, returns its position, keeps the sequence sorted and changes no
    other node; it refuses only address 0, the head's own, and inserts an address
    that is present already a second time. [list_remove] takes out one entry. *)
Theorem list_ops_sorted h head l :
  is_list h head l -> sorted l -> Forall (fun e => 0 <= snd e) l ->
  (forall v, list_find h head v = Some (first_at v l))
  /\ (forall i x v, h !! i = Some x -> mlh_vaddr x = v -> i ∉ head :: l.*1 -> 0 < v ->
       exists h', list_insert h head i = Some (position v l, h') /\ is_list h' head (place (i, v) l)
       /\ sorted (place (i, v) l) /\ place (i, v) l ≡ₚ (i, v) :: l
       /\ only_changes (i :: head :: l.*1) h h')
  /\ (forall i x, h !! i = Some x -> mlh_vaddr x = 0 -> list_insert h head i = Some (- EEXIST, h))
  /\ (forall l1 i v l2, l = l1 ++ (i, v) :: l2 ->
       exists h', list_remove h i = Some h' /\ is_list h' head (l1 ++ l2)
       /\ h' !! i = Some (ListHead None None v) /\ only_changes (head :: l.*1) h h').
Proof.
  intros Hl Hs Hnn. split; [|split; [|split]].
  - intros v. by apply list_find_first.
  - intros i x v Hi Hv Hni Hpos. destruct (list_insert_places _ _ _ _ _ _ Hl Hi Hv Hni Hpos) as (h' & ? & ? & ?).
    exists h'. auto using place_sorted, place_permutes.
  - intros i x. by eapply list_insert_zero.
  - intros l1 i v l2 ->. by apply list_remove_removes.
Qed.

(** ** Witness *)

(** The head, entries at 4096 and 8192, and a node at 4096 that is not linked. *)
Definition sample_nodes : nodes :=
  list_to_map [(UserHead 0, ListHead (Some (MapNode 1)) None 0);
               (MapNode 1, ListHead (Some (MapNode 2)) (Some (UserHead 0)) 4096);
               (MapNode 2, ListHead None (Some (MapNode 1)) 8192);
               (MapNode 3, ListHead None None 4096)].

Lemma sample_nodes_list : is_list sample_nodes (UserHead 0) [(MapNode 1, 4096); (MapNode 2, 8192)].
Proof.
  split; [repeat constructor; set_solver|]. exists (Some (MapNode 2)).
  repeat (split; [reflexivity|]; eexists; split; [reflexivity|]). done.
Qed.

Lemma list_ops_sorted_witness :
  exists h', list_insert sample_nodes (UserHead 0) (MapNode 3)
             = Some (position 4096 [(MapNode 1, 4096); (MapNode 2, 8192)], h')
  /\ is_list h' (UserHead 0) [(MapNode 3, 4096); (MapNode 1, 4096); (MapNode 2, 8192)]
  /\ sorted [(MapNode 3, 4096); (MapNode 1, 4096); (MapNode 2, 8192)].
Proof.
  destruct (proj1 (proj2 (list_ops_sorted sample_nodes (UserHead 0) [(MapNode 1, 4096); (MapNode 2, 8192)]
    sample_nodes_list ltac:(repeat constructor; simpl; lia) ltac:(repeat constructor; simpl; lia)))
    (MapNode 3) (ListHead None None 4096) 4096 eq_refl eq_refl ltac:(set_solver) ltac:(lia))
    as (h' & H1 & H2 & H3 & _).
  by exists h'.
Defined.
