(* ===== verification/KMap.v ===== *)
(** * Pinning and mapping memory ([src/module/map.c])

    Controller references, mappings of user pages and of GPU memory. The ledger
    counts pinned pages, DMA mappings, and the NVIDIA driver's page tables and
    mappings. *)
From S2P Require Import Prelude Memory Effects KTypes KList.

Definition GPU_PAGE_SHIFT : Z := 16.
Definition GPU_PAGE_SIZE : Z := Z.shiftl 1 GPU_PAGE_SHIFT.
Definition GPU_PAGE_MASK : Z := u64 (Z.lnot (GPU_PAGE_SIZE - 1)).
Definition IN_USE_BIT : Z := 1.

(** [sizeof(struct map_descriptor)], with room for one address. *)
Definition sizeof_map_descriptor : Z := 80.
Definition sizeof_dma_addr : Z := 8.

(** The number of addresses for which an object of [size] bytes has room. *)
Definition addrs_room (size : Z) : nat :=
  Z.to_nat ((size - (sizeof_map_descriptor - sizeof_dma_addr)) / sizeof_dma_addr).

Definition set_map_pdev (x : Z) (d : map_descriptor) : map_descriptor :=
  MapDescriptor (Some x) (map_page_size d) (map_n_pages d) (map_pages d) (map_mappings d) (map_n_addrs d) (map_addrs d).
Definition set_map_page_size (x : Z) (d : map_descriptor) : map_descriptor :=
  MapDescriptor (map_pdev d) x (map_n_pages d) (map_pages d) (map_mappings d) (map_n_addrs d) (map_addrs d).
Definition set_map_n_pages (x : Z) (d : map_descriptor) : map_descriptor :=
  MapDescriptor (map_pdev d) (map_page_size d) (Some x) (map_pages d) (map_mappings d) (map_n_addrs d) (map_addrs d).
Definition set_map_pages (x : Z) (d : map_descriptor) : map_descriptor :=
  MapDescriptor (map_pdev d) (map_page_size d) (map_n_pages d) (Some x) (map_mappings d) (map_n_addrs d) (map_addrs d).
Definition set_map_mappings (x : Z) (d : map_descriptor) : map_descriptor :=
  MapDescriptor (map_pdev d) (map_page_size d) (map_n_pages d) (map_pages d) (Some x) (map_n_addrs d) (map_addrs d).
Definition set_map_n_addrs (x : Z) (d : map_descriptor) : map_descriptor :=
  MapDescriptor (map_pdev d) (map_page_size d) (map_n_pages d) (map_pages d) (map_mappings d) (Some x) (map_addrs d).
Definition set_map_addrs (x : list (option Z)) (d : map_descriptor) : map_descriptor :=
  MapDescriptor (map_pdev d) (map_page_size d) (map_n_pages d) (map_pages d) (map_mappings d) (map_n_addrs d) x.

Definition update_map (p : Z) (f : map_descriptor -> map_descriptor) : KM unit :=
  d ← load_md p; store_map p (f d).

(** [md->addrs[i] = addr]. *)
Definition set_addr (md i addr : Z) : KM unit :=
  d ← load_md md;
  if (0 <=? i) && (i <? Z.of_nat (length (map_addrs d)))
  then store_map md (set_map_addrs (<[Z.to_nat i := Some addr]> (map_addrs d)) d)
  else fail BadPointer.

Definition get_addr (d : map_descriptor) (i : Z) : KM Z :=
  a ← or_fail BadPointer (map_addrs d !! Z.to_nat i); init a.

(** The DMA layer dereferences the device it is handed. *)
Definition dma_call (pdev : Z) (c : kcall) : KM kresp := if pdev =? NULL then fail NullDeref else ext c.

Section map.
Context `{Kernel}.

Definition PAGE_SIZE : Z := Z.shiftl 1 PAGE_SHIFT.
Definition PAGE_MASK : Z := u64 (Z.lnot (PAGE_SIZE - 1)).

(** [kmalloc] of a descriptor with room for [n_pages] addresses. *)
Definition alloc_map (n_pages page_size : Z) : KM Z :=
  let size := u64 (sizeof_map_descriptor + u64 (u64 (n_pages - 1) * sizeof_dma_addr)) in
  r ← ext (Kmalloc size);
  if k_val r =? 0 then mret NULL
  else
    s ← get_st;
    let md := MapDescriptor None page_size None None None None (replicate (addrs_room size) None) in
    put_st (set_k_next (set_maps s (<[k_next s := md]> (k_maps s))) (k_next s + 1));;
    mret (k_next s).

(** ** User pages *)

Definition lock_user_pages (map vaddr n_pages : Z) : KM Z :=
  r ← ext (Kcalloc n_pages 8);
  if k_val r =? 0 then mret (- ENOMEM)
  else
    s ← get_st;
    let pages := k_next s in
    put_st (set_k_next (set_arrays s (<[pages := replicate (Z.to_nat n_pages) NULL]> (k_arrays s))) (pages + 1));;
    g ← ext (Get_user_pages vaddr n_pages);
    modify (fun s => set_arrays s
      (<[pages := k_list g ++ drop (length (k_list g)) (replicate (Z.to_nat n_pages) NULL)]> (k_arrays s)));;
    let retval := k_val g in
    if retval <=? 0 then kfree_array pages;; mret retval
    else
      update_map map (set_map_n_pages retval);;
      update_map map (set_map_pages pages);;
      mret 0.

(** Maps [pages[i]], ...; returns the index at which the loop is left. *)
Fixpoint dma_map_loop (fuel : nat) (pdev : Z) (pages : list Z) (md i : Z) : KM Z :=
  match fuel with
  | O => out_of_fuel
  | S fuel' =>
      d ← load_md md;
      n ← init (map_n_pages d);
      if i <? n then
        page ← or_fail BadPointer (pages !! Z.to_nat i);
        r ← dma_call pdev (Dma_map_page pdev page);
        set_addr md i (k_ptr r);;
        if negb (dma_mapping_error pdev (k_ptr r) =? 0) then mret i
        else dma_map_loop fuel' pdev pages md (i + 1)
      else mret i
  end.

Definition map_user_pages (ref : nat) (vaddr n_pages : Z) : KM (Z * Z) :=
  if n_pages <? 1 then mret (- EINVAL, NULL)
  else
    md ← alloc_map n_pages PAGE_SIZE;
    if md =? NULL then mret (- ENOMEM, NULL)
    else
      let vaddr := Z.land vaddr PAGE_MASK in
      on_nodes (fun h => Some (tt, list_init h (MapNode md) vaddr));;
      err ← lock_user_pages md vaddr n_pages;
      if negb (err =? 0) then kfree_map md;; mret (err, NULL)
      else
        r ← load_ref ref;
        c ← or_fail NullDeref (ref_ctrl r);
        dev ← load_dev c;
        update_map md (set_map_pdev (cd_pdev dev));;
        d ← load_md md;
        p ← init (map_pages d);
        pages ← load_array p;
        n ← init (map_n_pages d);
        i ← dma_map_loop (S (Z.to_nat n)) (cd_pdev dev) pages md 0;
        update_map md (set_map_n_addrs i);;
        on_nodes (fun h => list_insert h (UserHead ref) (MapNode md));;
        mret (0, md).

(** [for (i = 0; i < n_addrs; ++i) dma_unmap_page(dev, map->addrs[i], ...)] *)
Fixpoint dma_unmap_loop (fuel : nat) (d : map_descriptor) (pdev n i : Z) : KM unit :=
  match fuel with
  | O => out_of_fuel
  | S fuel' =>
      if i <? n then
        addr ← get_addr d i;
        dma_call pdev (Dma_unmap_page pdev addr);;
        dma_unmap_loop fuel' d pdev n (i + 1)
      else mret tt
  end.

(** [for (i = 0; i < n_pages; ++i) put_page(pages[i])] *)
Fixpoint put_page_loop (fuel : nat) (pages : list Z) (n i : Z) : KM unit :=
  match fuel with
  | O => out_of_fuel
  | S fuel' =>
      if i <? n then
        page ← or_fail BadPointer (pages !! Z.to_nat i);
        ext (Put_page page);;
        put_page_loop fuel' pages n (i + 1)
      else mret tt
  end.

Definition remove_node (map : Z) : KM unit :=
  on_nodes (fun h => (fun h' => (tt, h')) <$> list_remove h (MapNode map)).

Definition unmap_user_pages (map : Z) : KM unit :=
  remove_node map;;
  d ← load_md map;
  pdev ← init (map_pdev d);
  n_addrs ← init (map_n_addrs d);
  dma_unmap_loop (S (Z.to_nat n_addrs)) d pdev n_addrs 0;;
  p ← init (map_pages d);
  pages ← load_array p;
  n_pages ← init (map_n_pages d);
  put_page_loop (S (Z.to_nat n_pages)) pages n_pages 0;;
  kfree_array p;;
  kfree_map map.

(** A found node is the header of a map descriptor; NULL when there is none. *)
Definition as_map (x : option knode) : KM Z :=
  match x with
  | Some (MapNode p) => mret p
  | None => mret NULL
  | Some _ => fail BadPointer
  end.

Definition find_user_page_map (ref : nat) (vaddr : Z) : KM Z :=
  let vaddr := Z.land vaddr PAGE_MASK in
  x ← on_nodes (fun h => (fun x => (x, h)) <$> list_find h (UserHead ref) vaddr);
  as_map x.

(** ** GPU memory *)

(** The driver releases the pages while they are mapped. *)
Definition free_callback (map : Z) : KM unit :=
  d ← load_md map;
  pages ← init (map_pages d);
  ext (P2p_free_page_table pages);;
  mappings ← init (map_mappings d);
  (if negb (mappings =? NULL) then ext (P2p_free_dma_mapping mappings);; mret tt else mret tt);;
  update_map map (set_map_pages NULL);;
  update_map map (set_map_mappings NULL).

Fixpoint gpu_addrs_loop (fuel : nat) (addrs : list Z) (md i : Z) : KM unit :=
  match fuel with
  | O => out_of_fuel
  | S fuel' =>
      d ← load_md md;
      n ← init (map_n_pages d);
      if i <? n then
        addr ← or_fail BadPointer (addrs !! Z.to_nat i);
        set_addr md i addr;;
        d ← load_md md;
        n_addrs ← init (map_n_addrs d);
        update_map md (set_map_n_addrs (n_addrs + 1));;
        gpu_addrs_loop fuel' addrs md (i + 1)
      else mret tt
  end.

Definition map_gpu_memory (ref : nat) (vaddr n_pages : Z) : KM (Z * Z) :=
  if n_pages <? 1 then mret (- EINVAL, NULL)
  else
    md ← alloc_map n_pages GPU_PAGE_SIZE;
    if md =? NULL then mret (- ENOMEM, NULL)
    else
      let vaddr := Z.land vaddr GPU_PAGE_MASK in
      r ← load_ref ref;
      c ← or_fail NullDeref (ref_ctrl r);
      dev ← load_dev c;
      let pdev := cd_pdev dev in
      update_map md (set_map_pdev pdev);;
      on_nodes (fun h => Some (tt, list_init h (MapNode md) vaddr));;
      g ← ext (P2p_get_pages vaddr (u64 (GPU_PAGE_SIZE * n_pages)) md);
      if negb (k_val g =? 0) then kfree_map md;; mret (k_val g, NULL)
      else
        update_map md (set_map_pages (k_ptr g));;
        m ← ext (P2p_dma_map_pages pdev (k_ptr g));
        if negb (k_val m =? 0) then
          ext (P2p_put_pages vaddr (k_ptr g));;
          kfree_map md;;
          mret (k_val m, NULL)
        else
          update_map md (set_map_mappings (k_ptr m));;
          update_map md (set_map_n_pages (k_num g));;
          update_map md (set_map_n_addrs 0);;
          gpu_addrs_loop (S (Z.to_nat (k_num g))) (k_list m) md 0;;
          on_nodes (fun h => list_insert h (GpuHead ref) (MapNode md));;
          mret (0, md).

Definition unmap_gpu_memory (map : Z) : KM unit :=
  remove_node map;;
  d ← load_md map;
  mappings ← init (map_mappings d);
  pages ← init (map_pages d);
  (if negb (mappings =? NULL) then
     pdev ← init (map_pdev d);
     ext (P2p_dma_unmap_pages pdev pages mappings);; mret tt
   else mret tt);;
  (if negb (pages =? NULL) then
     s ← get_st;
     x ← or_fail BadPointer (k_nodes s !! MapNode map);
     ext (P2p_put_pages (mlh_vaddr x) pages);; mret tt
   else mret tt);;
  kfree_map map.

Definition find_gpu_map (ref : nat) (vaddr : Z) : KM Z :=
  let vaddr := Z.land vaddr GPU_PAGE_MASK in
  x ← on_nodes (fun h => (fun x => (x, h)) <$> list_find h (GpuHead ref) vaddr);
  as_map x.

(** ** Controller references *)

Definition ctrl_ref_get (ref : nat) (dev : nat) (pid : Z) : KM (option nat) :=
  r ← load_ref ref;
  let '(taken, flags) := test_and_set_bit IN_USE_BIT (ref_flags r) in
  store_ref ref (CtrlRef flags (ref_ctrl r) (ref_owner r));;
  if taken then mret None
  else
    store_ref ref (CtrlRef flags (Some dev) pid);;
    on_nodes (fun h => Some (tt, list_init h (UserHead ref) 0));;
    on_nodes (fun h => Some (tt, list_init h (GpuHead ref) 0));;
    mret (Some ref).

(** [while (head.next != NULL) unmap(head.next);] *)
Fixpoint unmap_loop (fuel : nat) (head : knode) (unmap : Z -> KM unit) : KM unit :=
  match fuel with
  | O => out_of_fuel
  | S fuel' =>
      s ← get_st;
      x ← or_fail BadPointer (k_nodes s !! head);
      match mlh_next x with
      | None => mret tt
      | Some (MapNode p) => unmap p;; unmap_loop fuel' head unmap
      | Some _ => fail BadPointer
      end
  end.

(** There are at most as many rounds as there are nodes. *)
Definition unmap_all (head : knode) (unmap : Z -> KM unit) : KM unit :=
  s ← get_st; unmap_loop (S (size (k_nodes s))) head unmap.

Definition ctrl_ref_put (ref : nat) : KM unit :=
  (if has_CUDA then unmap_all (GpuHead ref) unmap_gpu_memory else mret tt);;
  unmap_all (UserHead ref) unmap_user_pages;;
  r ← load_ref ref;
  store_ref ref (CtrlRef (snd (test_and_clear_bit IN_USE_BIT (ref_flags r))) None 0).

(** ** The ledger *)

Inductive kkey :=
  | KPinned (page : Z) | KDma (pdev addr : Z) | KP2pPages (pages : Z) | KP2pMapping (mappings : Z)
  | KRegion (pdev : Z) | KEnabled (pdev : Z) | KCdev (dev : nat) | KDevice (rdev : Z)
  | KNumbers | KClass | KDriver.

#[global] Instance kkey_eq_dec : EqDecision kkey.
Proof. solve_decision. Defined.

(** The sum of [one] over a list of keys. *)
Fixpoint units (l : list kkey) (κ : kkey) : Z :=
  match l with [] => 0 | x :: l' => one x κ + units l' κ end.

Definition when (b : bool) (x : Z) : Z := if b then x else 0.

#[global] Instance kdelta : Ledger kcall kresp kkey := fun c r κ =>
  match c with
  | Get_user_pages _ _ => when (0 <? k_val r) (units (KPinned <$> k_list r) κ)
  | Put_page page => - one (KPinned page) κ
  | Dma_map_page pdev _ => when (dma_mapping_error pdev (k_ptr r) =? 0) (one (KDma pdev (k_ptr r)) κ)
  | Dma_unmap_page pdev addr => - one (KDma pdev addr) κ
  | P2p_get_pages _ _ _ => when (k_val r =? 0) (one (KP2pPages (k_ptr r)) κ)
  | P2p_put_pages _ pages => - one (KP2pPages pages) κ
  | P2p_free_page_table pages => - one (KP2pPages pages) κ
  | P2p_dma_map_pages _ _ => when (k_val r =? 0) (one (KP2pMapping (k_ptr r)) κ)
  | P2p_dma_unmap_pages _ _ mappings => - one (KP2pMapping mappings) κ
  | P2p_free_dma_mapping mappings => - one (KP2pMapping mappings) κ
  | Pci_request_region pdev => when (k_val r =? 0) (one (KRegion pdev) κ)
  | Pci_release_region pdev => - one (KRegion pdev) κ
  | Pci_enable_device pdev => when (negb (k_val r <? 0)) (one (KEnabled pdev) κ)
  | Pci_disable_device pdev => - one (KEnabled pdev) κ
  | Cdev_add dev _ => when (k_val r =? 0) (one (KCdev dev) κ)
  | Cdev_del dev => - one (KCdev dev) κ
  | Device_create _ rdev _ => when (negb (k_val r <? 0)) (one (KDevice rdev) κ)
  | Device_destroy _ rdev => - one (KDevice rdev) κ
  | Alloc_chrdev_region _ => when (negb (k_val r <? 0)) (one KNumbers κ)
  | Unregister_chrdev_region _ _ => - one KNumbers κ
  | Class_create => when (negb (k_val r <? 0)) (one KClass κ)
  | Class_destroy _ => - one KClass κ
  | Pci_register_driver => when (k_val r =? 0) (one KDriver κ)
  | Pci_unregister_driver => - one KDriver κ
  | _ => 0
  end.

End map.
