(* ===== verification/KMapUser.v ===== *)
(** * Mappings of user pages: properties of [src/module/map.c]

    Rules for the primitives of [KTypes], what a user mapping owns, and the
    specifications of [map_user_pages] and [unmap_user_pages]. *)
From S2P Require Import Prelude Memory Effects KTypes KList KMap.

(** ** Ledger and state rules *)

Definition with_st (w : kworld) (s : kstate) : kworld := World (w_mem w) s (w_log w).

Section rules.
Context `{Kernel} (e : kenv).

Definition kmoved (w w' : kworld) (L : kkey -> Z) : Prop := forall κ, bal w' κ = bal w κ + L κ.

Definition kanswers (w : kworld) (c : kcall) (r : kresp) : Prop := r = fst (e_resp e w c).

Lemma kmoved_refl w : kmoved w w (fun _ => 0).
Proof. intros κ. lia. Qed.

Lemma wp_kext c w (Q : kresp -> kworld -> Prop) :
  (forall r w', kanswers w c r -> w_st w' = w_st w -> kmoved w w' (kdelta c r) -> Q r w') ->
  wp e (ext c) w Q.
Proof. intros HQ. apply wp_ext, HQ; [done|done|]. intros κ. by rewrite bal_after. Qed.

Lemma wp_set_st f w (Q : unit -> kworld -> Prop) :
  (forall w', w_st w' = f (w_st w) -> kmoved w w' (fun _ => 0) -> Q tt w') -> wp e (modify f) w Q.
Proof. intros HQ. unfold modify. repeat wp_step. apply HQ; [done|]. intros κ. unfold bal. simpl. lia. Qed.

Lemma wp_or_fail {A} f (x : option A) a w (Q : A -> kworld -> Prop) :
  x = Some a -> Q a w -> wp e (or_fail f x) w Q.
Proof. by intros ->. Qed.

Lemma wp_load_md p d w (Q : map_descriptor -> kworld -> Prop) :
  k_maps (w_st w) !! p = Some d -> Q d w -> wp e (load_md p) w Q.
Proof. intros Hp HQ. unfold load_md. repeat wp_step. by eapply wp_or_fail. Qed.

Lemma wp_update_map p d f w (Q : unit -> kworld -> Prop) :
  k_maps (w_st w) !! p = Some d ->
  (forall w', w_st w' = set_maps (w_st w) (<[p := f d]> (k_maps (w_st w))) -> kmoved w w' (fun _ => 0) -> Q tt w') ->
  wp e (update_map p f) w Q.
Proof.
  intros Hp HQ. unfold update_map, store_map. wp_step. eapply wp_load_md; [done|]. wp_step.
  eapply wp_load_md; [done|]. by apply wp_set_st.
Qed.

Lemma wp_load_array p l w (Q : list Z -> kworld -> Prop) :
  k_arrays (w_st w) !! p = Some l -> Q l w -> wp e (load_array p) w Q.
Proof. intros Hp HQ. unfold load_array. repeat wp_step. by eapply wp_or_fail. Qed.

Lemma wp_load_ref i l r w (Q : ctrl_ref -> kworld -> Prop) :
  k_refs (w_st w) = Some l -> l !! i = Some r -> Q r w -> wp e (load_ref i) w Q.
Proof. intros Hl Hi HQ. unfold load_ref. repeat wp_step. eapply wp_or_fail; [|done]. by rewrite Hl. Qed.

Lemma wp_store_ref i l r0 r w (Q : unit -> kworld -> Prop) :
  k_refs (w_st w) = Some l -> l !! i = Some r0 ->
  (forall w', w_st w' = set_refs (w_st w) (Some (<[i := r]> l)) -> kmoved w w' (fun _ => 0) -> Q tt w') ->
  wp e (store_ref i r) w Q.
Proof.
  intros Hl Hi HQ. unfold store_ref. wp_step. eapply wp_load_ref; [done..|].
  apply wp_set_st. intros w' Hst. apply HQ. by rewrite Hst, Hl.
Qed.

Lemma wp_load_dev i l d w (Q : ctrl_dev -> kworld -> Prop) :
  k_devs (w_st w) = Some l -> l !! i = Some d -> Q d w -> wp e (load_dev i) w Q.
Proof. intros Hl Hi HQ. unfold load_dev. repeat wp_step. eapply wp_or_fail; [|done]. by rewrite Hl. Qed.

Lemma wp_on_nodes {A} (f : nodes -> option (A * nodes)) a h w (Q : A -> kworld -> Prop) :
  f (k_nodes (w_st w)) = Some (a, h) ->
  (forall w', w_st w' = set_nodes (w_st w) h -> kmoved w w' (fun _ => 0) -> Q a w') ->
  wp e (on_nodes f) w Q.
Proof.
  intros Hf HQ. unfold on_nodes. repeat wp_step. eapply wp_or_fail; [done|]. cbn iota. repeat wp_step.
  apply HQ; [done|]. intros κ. unfold bal. simpl. lia.
Qed.

Lemma wp_kfree_map p d w (Q : unit -> kworld -> Prop) :
  k_maps (w_st w) !! p = Some d ->
  (forall w', w_st w' = set_nodes (set_maps (w_st w) (delete p (k_maps (w_st w))))
                          (delete (MapNode p) (k_nodes (w_st w))) -> kmoved w w' (fun _ => 0) -> Q tt w') ->
  wp e (kfree_map p) w Q.
Proof.
  intros Hp HQ. unfold kfree_map. repeat wp_step; [|congruence].
  apply HQ; [done|]. intros κ. unfold bal. simpl. lia.
Qed.

Lemma wp_kfree_array p l w (Q : unit -> kworld -> Prop) :
  k_arrays (w_st w) !! p = Some l ->
  (forall w', w_st w' = set_arrays (w_st w) (delete p (k_arrays (w_st w))) -> kmoved w w' (fun _ => 0) -> Q tt w') ->
  wp e (kfree_array p) w Q.
Proof.
  intros Hp HQ. unfold kfree_array. repeat wp_step; [|congruence].
  apply HQ; [done|]. intros κ. unfold bal. simpl. lia.
Qed.

Lemma wp_dma_call pdev c w (Q : kresp -> kworld -> Prop) :
  pdev <> NULL ->
  (forall r w', kanswers w c r -> w_st w' = w_st w -> kmoved w w' (kdelta c r) -> Q r w') ->
  wp e (dma_call pdev c) w Q.
Proof. intros Hp HQ. unfold dma_call. rewrite (proj2 (Z.eqb_neq pdev NULL)) by done. by apply wp_kext. Qed.

End rules.

Lemma units_app l l' κ : units (l ++ l') κ = units l κ + units l' κ.
Proof. induction l as [|x l IH]; simpl; lia. Qed.

(** Add up what each step of the path moved. *)
Ltac solve_kmoved_at κ :=
  repeat match goal with Hm : kmoved _ _ _ |- _ => specialize (Hm κ) end;
  unfold kdelta, when in *; rewrite ?fmap_cons, ?fmap_app, ?units_app in *;
  cbn [units fmap list_fmap] in *; lia.

Ltac solve_kmoved := let κ := fresh "κ" in intros κ; solve_kmoved_at κ.

(** ** What a mapping of user pages owns *)

Record mapping := Mapping { mp_pdev : Z; mp_pages : list Z; mp_addrs : list Z }.

Definition owned_keys (m : mapping) : list kkey :=
  (KPinned <$> mp_pages m) ++ (KDma (mp_pdev m) <$> mp_addrs m).

(** The descriptor [p] describes [m]: the page array is the object allocated
    right after the descriptor. *)
Definition user_map (s : kstate) (p : Z) (m : mapping) : Prop :=
  mp_pdev m <> NULL
  /\ (exists rest, k_arrays s !! (p + 1) = Some (mp_pages m ++ rest))
  /\ exists size mappings rest, k_maps s !! p = Some (MapDescriptor (Some (mp_pdev m)) size
       (Some (Z.of_nat (length (mp_pages m)))) (Some (p + 1)) mappings
       (Some (Z.of_nat (length (mp_addrs m)))) ((Some <$> mp_addrs m) ++ rest)).

(** Nothing but list nodes, descriptors, arrays and the allocator has changed. *)
Definition same_rest (s s' : kstate) : Prop :=
  k_refs s' = k_refs s /\ k_devs s' = k_devs s /\ k_first s' = k_first s /\ k_class s' = k_class s.

(** The descriptors [ps] and the arrays [arrs] have been freed. *)
Definition frees (ps arrs : list Z) (s s' : kstate) : Prop :=
  same_rest s s' /\ k_next s' = k_next s
  /\ (forall q, k_maps s' !! q = if decide (q ∈ ps) then None else k_maps s !! q)
  /\ (forall q, k_arrays s' !! q = if decide (q ∈ arrs) then None else k_arrays s !! q).

(** ** Unmapping *)

Section unmap.
Context `{Kernel} (e : kenv).

Lemma dma_unmap_loop_all fuel d pdev addrs done more rest w (Q : unit -> kworld -> Prop) :
  pdev <> NULL -> map_addrs d = (Some <$> addrs) ++ rest -> addrs = done ++ more -> (length more < fuel)%nat ->
  (forall w', w_st w' = w_st w -> kmoved w w' (fun κ => - units (KDma pdev <$> more) κ) -> Q tt w') ->
  wp e (dma_unmap_loop fuel d pdev (Z.of_nat (length addrs)) (Z.of_nat (length done))) w Q.
Proof.
  intros Hp Hd. revert done more w. induction fuel as [|fuel IH]; intros done more w Ha Hf HQ; [lia|].
  simpl. destruct more as [|a more].
  - rewrite app_nil_r in Ha. subst done. rewrite (proj2 (Z.ltb_ge _ _)) by lia. wp_step. apply HQ; [done|].
    intros κ. simpl. lia.
  - subst addrs. rewrite (proj2 (Z.ltb_lt _ _)) by (rewrite length_app; simpl; lia). unfold get_addr.
    wp_step. wp_step. eapply wp_or_fail.
    { rewrite Hd, Nat2Z.id, lookup_app_l by (rewrite length_fmap, length_app; simpl; lia).
      by rewrite list_lookup_fmap, list_lookup_middle. }
    eapply wp_or_fail; [done|]. wp_step. apply wp_dma_call; [done|]. intros r w1 _ Hst Hmv.
    replace (Z.of_nat (length done) + 1) with (Z.of_nat (length (done ++ [a]))) by (rewrite length_app; simpl; lia).
    eapply (IH (done ++ [a]) more); [by rewrite <- app_assoc|simpl in Hf; lia|].
    intros w2 Hst2 Hmv2. apply HQ; [congruence|]. solve_kmoved.
Qed.

Lemma put_page_loop_all fuel pages done more rest w (Q : unit -> kworld -> Prop) :
  pages = done ++ more -> (length more < fuel)%nat ->
  (forall w', w_st w' = w_st w -> kmoved w w' (fun κ => - units (KPinned <$> more) κ) -> Q tt w') ->
  wp e (put_page_loop fuel (pages ++ rest) (Z.of_nat (length pages)) (Z.of_nat (length done))) w Q.
Proof.
  revert done more w. induction fuel as [|fuel IH]; intros done more w Ha Hf HQ; [lia|].
  simpl. destruct more as [|a more].
  - rewrite app_nil_r in Ha. subst done. rewrite (proj2 (Z.ltb_ge _ _)) by lia. wp_step. apply HQ; [done|].
    intros κ. simpl. lia.
  - subst pages. rewrite (proj2 (Z.ltb_lt _ _)) by (rewrite length_app; simpl; lia).
    wp_step. eapply wp_or_fail.
    { rewrite Nat2Z.id, lookup_app_l by (rewrite length_app; simpl; lia). by rewrite list_lookup_middle. }
    wp_step. apply wp_kext. intros r w1 _ Hst Hmv.
    replace (Z.of_nat (length done) + 1) with (Z.of_nat (length (done ++ [a]))) by (rewrite length_app; simpl; lia).
    eapply (IH (done ++ [a]) more); [by rewrite <- app_assoc|simpl in Hf; lia|].
    intros w2 Hst2 Hmv2. apply HQ; [congruence|]. solve_kmoved.
Qed.

(** What is left after the entry [p] between [l1] and [l2] has been unmapped. *)
Definition unmapped (head : knode) (l l' : list (knode * Z)) (ps arrs : list Z) (L : kkey -> Z) (w w' : kworld) : Prop :=
  is_list (k_nodes (w_st w')) head l' /\ only_changes (head :: l.*1) (k_nodes (w_st w)) (k_nodes (w_st w'))
  /\ frees ps arrs (w_st w) (w_st w') /\ kmoved w w' (fun κ => - L κ).

Lemma remove_node_removes head l1 p v l2 w (Q : unit -> kworld -> Prop) :
  is_list (k_nodes (w_st w)) head (l1 ++ (MapNode p, v) :: l2) ->
  (forall w' h, w_st w' = set_nodes (w_st w) h -> kmoved w w' (fun _ => 0) ->
     is_list h head (l1 ++ l2) -> h !! MapNode p = Some (ListHead None None v) ->
     only_changes (head :: (l1 ++ (MapNode p, v) :: l2).*1) (k_nodes (w_st w)) h -> Q tt w') ->
  wp e (remove_node p) w Q.
Proof.
  intros Hl HQ. destruct (list_remove_removes _ _ _ _ _ _ Hl) as (h & Hr & Hl' & Hp & Hc).
  unfold remove_node. eapply wp_on_nodes; [by rewrite Hr|]. intros w' Hst Hmv. by eapply HQ.
Qed.

(** Freeing the unlinked node keeps the list. *)
Lemma delete_unlinked h head l1 p v l2 h' :
  is_list h head (l1 ++ (MapNode p, v) :: l2) -> is_list h' head (l1 ++ l2) ->
  only_changes (head :: (l1 ++ (MapNode p, v) :: l2).*1) h h' ->
  is_list (delete (MapNode p) h') head (l1 ++ l2)
  /\ only_changes (head :: (l1 ++ (MapNode p, v) :: l2).*1) h (delete (MapNode p) h').
Proof.
  intros [Hnd _] Hl' Hc. rewrite fmap_app in Hnd. simpl in Hnd. split.
  - eapply is_list_frame; [|exact Hl']. intros j Hj. rewrite lookup_delete_ne; [done|]. intros <-.
    apply list.NoDup_cons in Hnd as [Hnh Hnd]. apply list.NoDup_app in Hnd as (_ & Hd & [Hn _]%list.NoDup_cons).
    rewrite fmap_app in Hj. set_solver.
  - intros j Hj. rewrite lookup_delete_ne; [by apply Hc|]. intros <-. apply Hj. rewrite fmap_app. set_solver.
Qed.

Lemma unmap_user_pages_unmaps head l1 p v l2 m w :
  is_list (k_nodes (w_st w)) head (l1 ++ (MapNode p, v) :: l2) -> user_map (w_st w) p m ->
  wp e (unmap_user_pages p) w (fun _ w' =>
    unmapped head (l1 ++ (MapNode p, v) :: l2) (l1 ++ l2) [p] [p + 1] (units (owned_keys m)) w w').
Proof.
  intros Hl (Hdev & [rest Harr] & size & mps & rest' & Hd). unfold unmap_user_pages. wp_step.
  eapply remove_node_removes; [done|]. intros w1 h Hst1 Hmv1 Hl1 Hp1 Hc1.
  destruct (delete_unlinked _ _ _ _ _ _ _ Hl Hl1 Hc1) as [Hl2 Hc2].
  wp_step. eapply wp_load_md; [by rewrite Hst1|]. do 2 (wp_step; eapply wp_or_fail; [done|]).
  wp_step. eapply (dma_unmap_loop_all _ _ _ (mp_addrs m) [] (mp_addrs m)); [done|done|done|lia|].
  intros w2 Hst2 Hmv2. wp_step. eapply wp_or_fail; [done|]. wp_step.
  eapply wp_load_array; [by rewrite Hst2, Hst1|]. wp_step. eapply wp_or_fail; [done|].
  wp_step. eapply (put_page_loop_all _ _ [] (mp_pages m)); [done|lia|].
  intros w3 Hst3 Hmv3. wp_step. eapply wp_kfree_array; [by rewrite Hst3, Hst2, Hst1|]. intros w4 Hst4 Hmv4.
  eapply wp_kfree_map; [by rewrite Hst4, Hst3, Hst2, Hst1|]. intros w5 Hst5 Hmv5.
  rewrite Hst3, Hst2, Hst1 in Hst4. rewrite Hst4 in Hst5. unfold unmapped. rewrite Hst5. simpl.
  split; [done|]. split; [done|]. split; [|unfold owned_keys; solve_kmoved].
  split; [done|]. split; [done|]. split; intros q; simpl; rewrite lookup_delete; repeat case_decide; try done; set_solver.
Qed.

End unmap.

(** ** Mapping *)

(** Objects are numbered from 1; the numbers from [k_next] on are free. *)
Definition kheap_ok (s : kstate) : Prop :=
  0 < k_next s /\ forall p, k_next s <= p ->
    k_maps s !! p = None /\ k_arrays s !! p = None /\ k_nodes s !! MapNode p = None.

(** Only the allocator has moved. *)
Definition only_next (s s' : kstate) : Prop := s' = set_k_next s (k_next s') /\ k_next s <= k_next s'.

(** [get_user_pages] pins at least one page and at most as many as requested, or
    fails with a negative error and pins none. *)
Definition pins (e : kenv) : Prop := forall w vaddr n r, kanswers e w (Get_user_pages vaddr n) r -> 0 < n ->
  k_val r < 0 /\ k_list r = [] \/ 0 < k_val r <= n /\ Z.of_nat (length (k_list r)) = k_val r.

Section map.
Context `{Kernel} (e : kenv).

Lemma addrs_room_fits n : 0 < n < 2 ^ 60 ->
  Z.of_nat (addrs_room (u64 (sizeof_map_descriptor + u64 (u64 (n - 1) * sizeof_dma_addr)))) = n.
Proof.
  intros Hn. unfold addrs_room, sizeof_map_descriptor, sizeof_dma_addr.
  rewrite (u64_small (n - 1)), (u64_small ((n - 1) * 8)), u64_small by lia.
  replace (80 + (n - 1) * 8 - (80 - 8)) with (n * 8) by lia. rewrite Z.div_mul by lia. lia.
Qed.

(** A descriptor fresh from the allocator. *)
Definition blank_map (room : nat) (page_size : Z) : map_descriptor :=
  MapDescriptor None page_size None None None None (replicate room None).

Lemma wp_alloc_map n page_size w (Q : Z -> kworld -> Prop) :
  0 < n < 2 ^ 60 -> 0 < k_next (w_st w) ->
  (forall w', w_st w' = w_st w -> kmoved w w' (fun _ => 0) -> Q NULL w') ->
  (forall w', let p := k_next (w_st w) in
     w_st w' = set_k_next (set_maps (w_st w) (<[p := blank_map (Z.to_nat n) page_size]> (k_maps (w_st w)))) (p + 1) ->
     kmoved w w' (fun _ => 0) -> Q p w') ->
  wp e (alloc_map n page_size) w Q.
Proof.
  intros Hn Hok H0 HQ. unfold alloc_map. wp_step. apply wp_kext. intros r w1 _ Hst Hmv.
  pose proof (addrs_room_fits n Hn) as Hroom. apply (f_equal Z.to_nat) in Hroom. rewrite Nat2Z.id in Hroom.
  repeat wp_step; [by apply H0|].
  rewrite Hst, Hroom. apply HQ; [done|].
  intros κ. specialize (Hmv κ). unfold bal, kdelta in *. simpl. lia.
Qed.

(** What pinning leaves: the pages and the two fields of the descriptor. *)
Definition pinned (map n : Z) (d : map_descriptor) (w w' : kworld) : Prop :=
  exists pages rest, let a := k_next (w_st w) in
  w_st w' = set_k_next (set_arrays (set_maps (w_st w)
              (<[map := set_map_pages a (set_map_n_pages (Z.of_nat (length pages)) d)]> (k_maps (w_st w))))
              (<[a := pages ++ rest]> (k_arrays (w_st w)))) (a + 1)
  /\ 0 < Z.of_nat (length pages) <= n /\ kmoved w w' (units (KPinned <$> pages)).

(** Some pages at [vaddr] could be pinned. *)
Definition can_pin (vaddr : Z) : Prop := exists w n g, kanswers e w (Get_user_pages vaddr n) g /\ 0 < k_val g.

Lemma lock_user_pages_pins map vaddr n d w :
  pins e -> kheap_ok (w_st w) -> 0 < n -> k_maps (w_st w) !! map = Some d ->
  wp e (lock_user_pages map vaddr n) w (fun r w' =>
    r <> 0 /\ only_next (w_st w) (w_st w') /\ kmoved w w' (fun _ => 0)
    \/ r = 0 /\ can_pin vaddr /\ pinned map n d w w').
Proof.
  intros Hpin [Hpos Hfresh] Hn Hd. unfold lock_user_pages. wp_step. apply wp_kext. intros r w1 _ Hst Hmv.
  wp_step; [wp_step; left; rewrite Hst; split; [done|]; split; [by destruct (w_st w)|done]|].
  wp_step. wp_step. rewrite Hst. set (a := k_next (w_st w)). wp_step. wp_step. wp_step.
  apply wp_kext. intros g w2 Hg Hst2 Hmv2. wp_step. apply wp_set_st. intros w3 Hst3 Hmv3. rewrite Hst2 in Hst3.
  simpl in Hst3. rewrite insert_insert_eq in Hst3.
  assert (kmoved w w3 (kdelta (Get_user_pages vaddr n) g)) as Hmv'.
  { intros κ. specialize (Hmv κ). specialize (Hmv2 κ). specialize (Hmv3 κ). unfold bal, kdelta, when in *. simpl in *. lia. }
  destruct (Hfresh a ltac:(lia)) as (_ & Hfa & _).
  destruct (Hpin _ _ _ _ Hg Hn) as [[Hneg Hnil]|[Hr Hlen]].
  - rewrite (proj2 (Z.leb_le _ _)) by lia. wp_step. eapply wp_kfree_array; [rewrite Hst3; apply lookup_insert_eq|].
    intros w4 Hst4 Hmv4. wp_step. left. split; [lia|]. split.
    + rewrite Hst4, Hst3. simpl. rewrite delete_insert_id by done. split; [by destruct (w_st w)|simpl; lia].
    + intros κ. specialize (Hmv' κ). specialize (Hmv4 κ). unfold kdelta, when in *.
      rewrite (proj2 (Z.ltb_ge _ _)) in Hmv' by lia. lia.
  - rewrite (proj2 (Z.leb_gt _ _)) by lia. wp_step. eapply wp_update_map; [by rewrite Hst3|]. intros w4 Hst4 Hmv4.
    wp_step. eapply wp_update_map; [rewrite Hst4; apply lookup_insert_eq|]. intros w5 Hst5 Hmv5. wp_step. right.
    split; [done|]. split; [eexists _, _, g; split; [exact Hg|lia]|]. exists (k_list g), (drop (length (k_list g)) (replicate (Z.to_nat n) NULL)). split.
    + rewrite Hst5, Hst4, Hst3. simpl. rewrite insert_insert_eq, Hlen. done.
    + split; [lia|]. intros κ. specialize (Hmv' κ). specialize (Hmv4 κ). specialize (Hmv5 κ). unfold kdelta, when in *.
      rewrite (proj2 (Z.ltb_lt _ _)) in Hmv' by lia. lia.
Qed.

(** The loop maps a prefix of the pages and stops early only on a mapping error. *)
Lemma dma_map_loop_maps fuel pdev pages md d done rest w n (Q : Z -> kworld -> Prop) :
  pdev <> NULL -> k_maps (w_st w) !! md = Some d -> map_n_pages d = Some n ->
  map_addrs d = (Some <$> done) ++ rest -> n <= Z.of_nat (length pages) ->
  Z.of_nat (length done) <= n <= Z.of_nat (length (map_addrs d)) -> (n < Z.of_nat (length done) + Z.of_nat fuel) ->
  (forall more rest' w', w_st w' = set_maps (w_st w)
       (<[md := set_map_addrs ((Some <$> done ++ more) ++ rest') d]> (k_maps (w_st w))) ->
     Z.of_nat (length (done ++ more)) <= n -> kmoved w w' (units (KDma pdev <$> more)) ->
     Q (Z.of_nat (length (done ++ more))) w') ->
  wp e (dma_map_loop fuel pdev pages md (Z.of_nat (length done))) w Q.
Proof.
  intros Hp. revert d done rest w. induction fuel as [|fuel IH]; intros d done rest w Hd Hn Ha Hpg Hi Hf HQ; [lia|].
  simpl. wp_step. eapply wp_load_md; [done|]. wp_step. eapply wp_or_fail; [done|].
  destruct (Z.ltb_spec (Z.of_nat (length done)) n).
  - destruct (lookup_lt_is_Some_2 pages (length done) ltac:(lia)) as [page Hpage].
    wp_step. eapply wp_or_fail; [by rewrite Nat2Z.id|]. wp_step. apply wp_dma_call; [done|]. intros r w1 _ Hst1 Hmv1.
    unfold set_addr. wp_step. wp_step. eapply wp_load_md; [by rewrite Hst1|].
    rewrite (proj2 (Z.leb_le 0 _)), (proj2 (Z.ltb_lt _ _)) by lia. simpl andb. cbn iota. unfold store_map.
    wp_step. eapply wp_load_md; [by rewrite Hst1|]. apply wp_set_st. intros w2 Hst2 Hmv2. rewrite Hst1 in Hst2.
    rewrite Nat2Z.id in Hst2. destruct rest as [|x rest].
    { rewrite Ha, app_nil_r, length_fmap in *. lia. }
    assert (<[length done := Some (k_ptr r)]> (map_addrs d) = (Some <$> done) ++ Some (k_ptr r) :: rest) as Hins.
    { rewrite Ha. rewrite insert_app_r_alt by (rewrite length_fmap; lia). by rewrite length_fmap, Nat.sub_diag. }
    rewrite Hins in Hst2.
    destruct (Z.eqb_spec (dma_mapping_error pdev (k_ptr r)) 0) as [Herr|Herr]; simpl negb; cbn iota.
    + replace (Z.of_nat (length done) + 1) with (Z.of_nat (length (done ++ [k_ptr r]))) by (rewrite length_app; simpl; lia).
      eapply (IH _ (done ++ [k_ptr r]) rest);
        [rewrite Hst2; apply lookup_insert_eq|done|simpl; by rewrite fmap_app, <- app_assoc|done| |rewrite length_app; simpl; lia|].
      { simpl. rewrite Ha in Hi. rewrite !length_app, !length_fmap in *. simpl in *. lia. }
      intros more rest' w3 Hst3 Hle Hmv3. rewrite <- app_assoc in *. apply (HQ ([k_ptr r] ++ more) rest'); [|done|].
      * rewrite Hst3, Hst2. simpl. by rewrite insert_insert_eq.
      * intros κ. specialize (Hmv1 κ). specialize (Hmv2 κ). specialize (Hmv3 κ). unfold kdelta, when in *.
        rewrite Herr in Hmv1. rewrite fmap_app, units_app. simpl in Hmv1, Hmv3 |- *. lia.
    + wp_step. specialize (HQ [] (Some (k_ptr r) :: rest) w2). rewrite app_nil_r in HQ. apply HQ; [done|lia|].
      intros κ. specialize (Hmv1 κ). specialize (Hmv2 κ). unfold kdelta, when in *.
      rewrite (proj2 (Z.eqb_neq _ 0)) in Hmv1 by done. simpl in *. lia.
  - wp_step. specialize (HQ [] rest w). rewrite app_nil_r, <- Ha in HQ. apply HQ; [|lia|intros κ; simpl; lia].
    destruct d. simpl in *. rewrite insert_id by done. by destruct (w_st w).
Qed.
(** The reference at index [ref] is to a device at [pdev] that is present. *)
Definition ref_of (s : kstate) (ref : nat) (pdev : Z) : Prop :=
  pdev <> NULL /\ exists refs r c devs dev, k_refs s = Some refs /\ refs !! ref = Some r
  /\ ref_ctrl r = Some c /\ k_devs s = Some devs /\ devs !! c = Some dev /\ cd_pdev dev = pdev.

(** The mapping [p] of [m] has been added, in front of its equals if it has an address. *)
Definition added (ref : nat) (v : Z) (l : list (knode * Z)) (p : Z) (m : mapping) (w w' : kworld) : Prop :=
  let s := w_st w in let s' := w_st w' in
  user_map s' p m
  /\ is_list (k_nodes s') (UserHead ref) (if v =? 0 then l else place (MapNode p, v) l)
  /\ only_changes (MapNode p :: UserHead ref :: l.*1) (k_nodes s) (k_nodes s')
  /\ same_rest s s' /\ k_next s' = p + 2 /\ kheap_ok s'
  /\ (forall q, q <> p -> k_maps s' !! q = k_maps s !! q)
  /\ (forall q, q <> p + 1 -> k_arrays s' !! q = k_arrays s !! q)
  /\ kmoved w w' (units (owned_keys m)).

Definition user_mapped (ref : nat) (v n : Z) (l : list (knode * Z)) (pdev : Z) (w : kworld) (r : Z * Z) (w' : kworld) : Prop :=
  fst r <> 0 /\ snd r = NULL /\ only_next (w_st w) (w_st w') /\ kmoved w w' (fun _ => 0)
  \/ exists m, r = (0, k_next (w_st w)) /\ mp_pdev m = pdev
     /\ 0 < Z.of_nat (length (mp_pages m)) <= n /\ (length (mp_addrs m) <= length (mp_pages m))%nat
     /\ added ref v l (k_next (w_st w)) m w w'.

Lemma page_addr_nonneg vaddr : 0 <= Z.land vaddr PAGE_MASK.
Proof. apply Z.land_nonneg. right. unfold PAGE_MASK. pose proof (u64_bound (Z.lnot (PAGE_SIZE - 1))). lia. Qed.

(** Linking a new node, whatever its address. *)
Lemma insert_node h head l i v :
  is_list h head l -> Forall (fun e => 0 <= snd e) l -> h !! i = Some (ListHead None None v) ->
  i ∉ head :: l.*1 -> 0 <= v ->
  exists r h', list_insert h head i = Some (r, h') /\ is_list h' head (if v =? 0 then l else place (i, v) l)
  /\ only_changes (i :: head :: l.*1) h h'.
Proof.
  intros Hl Hnn Hi Hni Hv. destruct (Z.eqb_spec v 0) as [->|Hne].
  - exists (- EEXIST), h. by rewrite (list_insert_zero _ _ _ _ _ Hl Hnn Hi).
  - destruct (list_insert_places h head l i _ v Hl Hi eq_refl Hni ltac:(lia)) as (h' & ? & ? & ?). by eexists _, h'.
Qed.

Lemma fresh_not_listed h head l p : is_list h head l -> h !! MapNode p = None -> MapNode p ∉ head :: l.*1.
Proof.
  intros [_ [q Hl]] Hn Hin. destruct (link_lookup _ _ _ _ _ _ (MapNode p) Hl Hin) as [x Hx]. congruence.
Qed.

(** From the pinned pages on: mapping them and linking the descriptor. *)
Lemma map_pinned_pages ref v n l pdev p d pages rest w w0 :
  kheap_ok (w_st w0) -> is_list (k_nodes (w_st w0)) (UserHead ref) l -> Forall (fun e => 0 <= snd e) l ->
  ref_of (w_st w0) ref pdev -> 0 <= v -> 0 < Z.of_nat (length pages) <= n -> n < 2 ^ 60 -> p = k_next (w_st w0) ->
  d = set_map_pages (p + 1) (set_map_n_pages (Z.of_nat (length pages)) (blank_map (Z.to_nat n) PAGE_SIZE)) ->
  w_st w = KState (<[MapNode p := ListHead None None v]> (k_nodes (w_st w0))) (<[p := d]> (k_maps (w_st w0)))
             (<[p + 1 := pages ++ rest]> (k_arrays (w_st w0))) (p + 2)
             (k_refs (w_st w0)) (k_devs (w_st w0)) (k_first (w_st w0)) (k_class (w_st w0)) ->
  kmoved w0 w (units (KPinned <$> pages)) ->
  wp e (r ← load_ref ref;
        c ← or_fail NullDeref (ref_ctrl r);
        dev ← load_dev c;
        update_map p (set_map_pdev (cd_pdev dev));;
        d ← load_md p;
        a ← init (map_pages d);
        pages ← load_array a;
        n ← init (map_n_pages d);
        i ← dma_map_loop (S (Z.to_nat n)) (cd_pdev dev) pages p 0;
        update_map p (set_map_n_addrs i);;
        on_nodes (fun h => list_insert h (UserHead ref) (MapNode p));;
        mret (0, p)) w (user_mapped ref v n l pdev w0).
Proof.
  intros [Hpos Hfresh] Hl Hnn (Hpd & refs & rr & c & devs & dev & Hrefs & Hrr & Hc & Hdevs & Hdev & Hcd) Hv Hlen Hn Hp Hd Hst Hmv.
  wp_step. eapply wp_load_ref; [rewrite Hst; exact Hrefs|exact Hrr|]. wp_step. eapply wp_or_fail; [exact Hc|].
  wp_step. eapply wp_load_dev; [rewrite Hst; exact Hdevs|exact Hdev|]. rewrite Hcd.
  wp_step. eapply wp_update_map; [rewrite Hst; apply lookup_insert_eq|]. intros w1 Hst1 Hmv1. rewrite Hst in Hst1.
  unfold set_maps in Hst1. simpl in Hst1. rewrite insert_insert_eq in Hst1.
  wp_step. eapply wp_load_md; [rewrite Hst1; apply lookup_insert_eq|]. subst d.
  wp_step. eapply wp_or_fail; [done|]. wp_step. eapply wp_load_array; [rewrite Hst1; apply lookup_insert_eq|].
  wp_step. eapply wp_or_fail; [done|]. wp_step.
  eapply (dma_map_loop_maps _ pdev (pages ++ rest) p _ [] (replicate (Z.to_nat n) None) w1 (Z.of_nat (length pages)));
    [done|rewrite Hst1; apply lookup_insert_eq|done|done|rewrite length_app; lia|simpl; rewrite length_replicate; lia|simpl; lia|].
  intros more rest' w2 Hst2 Hle Hmv2. rewrite Hst1 in Hst2. unfold set_maps in Hst2. simpl in Hst2, Hle.
  rewrite insert_insert_eq in Hst2.
  wp_step. eapply wp_update_map; [rewrite Hst2; apply lookup_insert_eq|]. intros w3 Hst3 Hmv3. rewrite Hst2 in Hst3.
  unfold set_maps in Hst3. simpl in Hst3. rewrite insert_insert_eq in Hst3.
  destruct (Hfresh p ltac:(lia)) as (Hfm & _ & Hfn).
  assert (is_list (<[MapNode p := ListHead None None v]> (k_nodes (w_st w0))) (UserHead ref) l) as Hl'.
  { eapply is_list_frame; [|exact Hl]. intros j Hj. rewrite lookup_insert_ne; [done|]. intros <-.
    apply (fresh_not_listed _ _ _ p Hl Hfn). set_solver. }
  destruct (insert_node _ _ l (MapNode p) v Hl' Hnn (lookup_insert_eq _ _ _) (fresh_not_listed _ _ _ p Hl Hfn) Hv)
    as (x & h' & Hins & Hl'' & Hch).
  wp_step. eapply wp_on_nodes; [rewrite Hst3; exact Hins|]. intros w4 Hst4 Hmv4. rewrite Hst3 in Hst4. wp_step.
  right. exists (Mapping pdev pages more). simpl. rewrite Hp. split; [done|]. split; [done|]. split; [done|]. split; [lia|].
  unfold added. rewrite Hst4. simpl. rewrite <- Hp. split.
  { split; [done|]. split; [exists rest; apply lookup_insert_eq|]. exists PAGE_SIZE, None, rest'. simpl. by rewrite lookup_insert_eq. }
  split; [done|]. split.
  { intros j Hj. rewrite Hch by done. rewrite lookup_insert_ne; [done|]. intros <-. apply Hj. set_solver. }
  split; [done|]. split; [done|]. split.
  { split; simpl; [lia|]. intros q Hq. destruct (Hfresh q ltac:(lia)) as (H1 & H2 & H3).
    rewrite !lookup_insert_ne by lia. rewrite H1, H2. do 2 (split; [done|]).
    rewrite Hch; [by rewrite lookup_insert_ne by (intros [=]; lia)|].
    intros [[=]|Hin]%elem_of_cons; [lia|]. by apply (fresh_not_listed _ _ _ q Hl). }
  split; [by intros q Hq; rewrite lookup_insert_ne|]. split; [by intros q Hq; rewrite lookup_insert_ne|].
  unfold owned_keys. simpl. solve_kmoved.
Qed.

Lemma map_user_pages_maps ref vaddr n l pdev w :
  pins e -> kheap_ok (w_st w) -> is_list (k_nodes (w_st w)) (UserHead ref) l -> Forall (fun d => 0 <= snd d) l ->
  ref_of (w_st w) ref pdev -> 0 < n < 2 ^ 60 ->
  wp e (map_user_pages ref vaddr n) w (fun r w' => user_mapped ref (Z.land vaddr PAGE_MASK) n l pdev w r w'
    /\ (fst r = 0 -> can_pin (Z.land vaddr PAGE_MASK))).
Proof.
  intros Hpin Hok Hl Hnn Href Hn. pose proof Hok as [Hpos Hfresh]. unfold map_user_pages.
  rewrite (proj2 (Z.ltb_ge n 1)) by lia. wp_step. apply wp_alloc_map; [done|done| |].
  { intros w1 Hst Hmv. change (NULL =? NULL) with true. cbn iota. wp_step. split; [|done]. left. split; [done|]. split; [done|].
    split; [|done]. rewrite Hst. split; [by destruct (w_st w)|done]. }
  intros w1 p Hst1 Hmv1. rewrite (proj2 (Z.eqb_neq p NULL)) by (unfold p, NULL; lia).
  destruct (Hfresh p ltac:(lia)) as (Hfm & Hfa & Hfn).
  wp_step. eapply wp_on_nodes; [done|]. intros w2 Hst2 Hmv2. rewrite Hst1 in Hst2. wp_step.
  eapply wp_mono.
  { apply lock_user_pages_pins; [done| |lia|rewrite Hst2; apply lookup_insert_eq]. rewrite Hst2.
    split; simpl; [lia|]. intros q Hq. destruct (Hfresh q ltac:(lia)) as (? & ? & ?). unfold list_init.
    rewrite !lookup_insert_ne by (first [lia | intros [=]; lia]). done. }
  intros err w3 [(Herr & Hst3 & Hmv3)|(-> & Hcan & pages & rest & Hst3 & Hlen & Hmv3)].
  - rewrite (proj2 (Z.eqb_neq err 0)) by done. simpl negb. cbn iota. destruct Hst3 as [Hst3 Hle]. wp_step.
    eapply wp_kfree_map; [rewrite Hst3, Hst2; apply lookup_insert_eq|]. intros w4 Hst4 Hmv4. wp_step. split; [|done]. left.
    split; [done|]. split; [done|]. split; [|solve_kmoved]. rewrite Hst4, Hst3, Hst2. unfold list_init, only_next. simpl.
    rewrite !delete_insert_id by done. rewrite Hst2 in Hle. simpl in Hle. split; [by destruct (w_st w)|unfold p in *; lia].
  - simpl negb. cbn iota. rewrite Hst2 in Hst3. simpl in Hst3.
    eapply wp_mono; [|intros x w' Hx; split; [exact Hx|done]].
    eapply (map_pinned_pages ref (Z.land vaddr PAGE_MASK) n l pdev p _ pages rest w3 w);
      [done|done|done|done|apply page_addr_nonneg|done|lia|done|reflexivity| |solve_kmoved].
    rewrite Hst3. unfold set_k_next, set_arrays, set_maps, list_init. simpl. rewrite insert_insert_eq. f_equal. lia.
Qed.
End map.

(** ** Property *)

Section property.
Context `{Kernel} (e : kenv).

Lemma find_user_page_map_finds ref vaddr l p w :
  is_list (k_nodes (w_st w)) (UserHead ref) l -> sorted l ->
  first_at (Z.land vaddr PAGE_MASK) l = Some (MapNode p) ->
  run (find_user_page_map ref vaddr) e w = Ok p w.
Proof.
  intros Hl Hs Hf. unfold run, find_user_page_map, on_nodes, mbind, M_bind, get_st. simpl.
  rewrite (list_find_first _ _ _ _ Hl Hs), Hf. simpl. destruct w as [m [] lg]. done.
Qed.

(** Everything is as in [w] again, but for the allocator. *)
Definition restored (ref : nat) (l : list (knode * Z)) (w w' : kworld) : Prop :=
  is_list (k_nodes (w_st w')) (UserHead ref) l
  /\ only_changes (MapNode (k_next (w_st w)) :: UserHead ref :: l.*1) (k_nodes (w_st w)) (k_nodes (w_st w'))
  /\ k_maps (w_st w') = k_maps (w_st w) /\ k_arrays (w_st w') = k_arrays (w_st w)
  /\ same_rest (w_st w) (w_st w') /\ kmoved w w' (fun _ => 0).

Lemma unmap_added ref v l m w w1 :
  kheap_ok (w_st w) -> v <> 0 -> added ref v l (k_next (w_st w)) m w w1 ->
  wp e (unmap_user_pages (k_next (w_st w))) w1 (fun _ w2 => restored ref l w w2).
Proof.
  intros [_ Hfresh] Hv (Hm & Hl & Hc & Hr & _ & _ & Hmaps & Harrs & Hmv). set (p := k_next (w_st w)) in *.
  rewrite (proj2 (Z.eqb_neq v 0)) in Hl by done. destruct (place_split (MapNode p, v) l) as (l1 & l2 & -> & Epl).
  rewrite Epl in Hl. destruct (Hfresh p ltac:(lia)) as (Hfm & _ & _). destruct (Hfresh (p + 1) ltac:(lia)) as (_ & Hfa & _).
  eapply wp_mono; [by apply (unmap_user_pages_unmaps e (UserHead ref) l1 p v l2 m)|].
  intros _ w2 (Hl2 & Hc2 & (Hr2 & _ & Hmaps2 & Harrs2) & Hmv2). split; [done|]. split; [|split; [|split; [|split]]].
  - intros j Hj. rewrite Hc2; [by apply Hc|]. revert Hj. rewrite !fmap_app. simpl. set_solver.
  - apply map_eq. intros q. rewrite Hmaps2. case_decide as Hq; [|apply Hmaps; set_solver].
    apply list_elem_of_singleton in Hq as ->. by rewrite Hfm.
  - apply map_eq. intros q. rewrite Harrs2. case_decide as Hq; [|apply Harrs; set_solver].
    apply list_elem_of_singleton in Hq as ->. by rewrite Hfa.
  - destruct Hr as (? & ? & ? & ?), Hr2 as (? & ? & ? & ?). repeat split; congruence.
  - solve_kmoved.
Qed.

(** [map_user_pages] always returns. Either it fails and nothing is left, or
    some of the requested pages (at least one, possibly fewer than requested) are
    pinned, a prefix of these (possibly not all) is mapped for the device, and the
    descriptor is in the reference's sorted list, where looking the address up
    finds it, before any older mapping of the same address; unmapping what was
    found unpins and unmaps exactly that, and restores lists and objects. *)
Theorem map_unmap_restores ref vaddr n l pdev w :
  pins e -> kheap_ok (w_st w) -> is_list (k_nodes (w_st w)) (UserHead ref) l -> sorted l ->
  Forall (fun d => 0 <= snd d) l -> ref_of (w_st w) ref pdev -> 0 < n < 2 ^ 60 -> Z.land vaddr PAGE_MASK <> 0 ->
  exists r w1, run (map_user_pages ref vaddr n) e w = Ok r w1
  /\ user_mapped ref (Z.land vaddr PAGE_MASK) n l pdev w r w1
  /\ (fst r = 0 -> run (find_user_page_map ref vaddr) e w1 = Ok (snd r) w1
        /\ exists w2, run (unmap_user_pages (snd r)) e w1 = Ok tt w2 /\ restored ref l w w2).
Proof.
  intros Hpin Hok Hl Hs Hnn Href Hn Hv.
  destruct (wp_run _ _ _ _ (map_user_pages_maps e ref vaddr n l pdev w Hpin Hok Hl Hnn Href Hn)) as (r & w1 & Hrun & Hmap & _).
  exists r, w1. split; [done|]. split; [done|]. intros Hr.
  destruct Hmap as [(Hne & _)|(m & -> & _ & _ & _ & Hadd)]; [done|]. simpl. pose proof Hadd as (_ & Hl1 & _).
  rewrite (proj2 (Z.eqb_neq _ 0)) in Hl1 by done. split.
  - eapply find_user_page_map_finds; [exact Hl1|by apply place_sorted|apply first_at_place].
  - destruct (wp_run _ _ _ _ (unmap_added ref _ l m w w1 Hok Hv Hadd)) as ([] & w2 & ? & ?). by exists w2.
Qed.
End property.

(** ** Witness *)

(** Pages of 4096 bytes; no mapping fails. *)
#[local] Instance sample_kernel : Kernel := {|
  has_CUDA := false; PAGE_SHIFT := 12; dma_mapping_error _ _ := 0; MAJOR _ := 0; MINOR _ := 0;
  MKDEV _ n := n; IOW _ n _ := n; num_ctrl_devs := 1; num_ctrl_refs := 1; max_pages_per_map := 32768 |}.

(** Two of the requested pages are pinned, at 77 and 78. *)
Definition sample_kenv : kenv := Env (fun w c =>
  (match c with Get_user_pages _ n => KResp (Z.min n 2) 0 0 (take (Z.to_nat n) [77; 78]) | _ => KResp 1 5 0 [] end,
   w_mem w)) 10.

Lemma sample_kenv_pins : pins sample_kenv.
Proof.
  intros w v n r -> Hn. right. simpl. split; [lia|]. rewrite length_take. simpl. lia.
Qed.

(** One device at 9, one reference to it with an empty list. *)
Definition sample_kstate : kstate := KState {[UserHead 0 := ListHead None None 0]} empty empty 1
  (Some [CtrlRef 2 (Some 0%nat) 1]) (Some [CtrlDev 2 9 "disnvme0" 0 0 0]) 0 0.

Lemma map_unmap_restores_witness :
  exists r w1, run (map_user_pages 0 0x7000 3) sample_kenv (World empty sample_kstate []) = Ok r w1
  /\ user_mapped 0 0x7000 3 [] 9 (World empty sample_kstate []) r w1.
Proof.
  destruct (map_unmap_restores sample_kenv 0 0x7000 3 [] 9 (World empty sample_kstate []) sample_kenv_pins)
    as (r & w1 & Hrun & Hm & _).
  - split; [simpl; lia|]. intros p Hp. simpl. done.
  - split; [repeat constructor; set_solver|]. exists (Some (UserHead 0)). split; [done|]. by exists None.
  - constructor.
  - constructor.
  - split; [done|]. by exists [CtrlRef 2 (Some 0%nat) 1], (CtrlRef 2 (Some 0%nat) 1), 0%nat,
      [CtrlDev 2 9 "disnvme0" 0 0 0], (CtrlDev 2 9 "disnvme0" 0 0 0).
  - lia.
  - done.
  - assert (Z.land 0x7000 PAGE_MASK = 0x7000) as E by (vm_compute; reflexivity).
    rewrite E in Hm. exists r, w1. split; [exact Hrun|exact Hm].
Defined.
