(* ===== verification/KRef.v ===== *)
(** * GPU mappings and controller references: properties of [src/module/map.c]

    What a GPU mapping owns, the specifications of [map_gpu_memory],
    [unmap_gpu_memory] and [free_callback], and the release of a reference with
    everything mapped through it. *)
From S2P Require Import Prelude Memory Effects KTypes KList KMap KMapUser.

(** ** GPU mappings *)

(** A GPU mapping: NULL pointers once the driver has released the pages itself. *)
Record gpu_mapping := GpuMapping { gm_pdev : Z; gm_pages : Z; gm_mappings : Z }.

Definition gpu_owned_keys (g : gpu_mapping) : list kkey :=
  (if gm_pages g =? NULL then [] else [KP2pPages (gm_pages g)])
  ++ (if gm_mappings g =? NULL then [] else [KP2pMapping (gm_mappings g)]).

Definition gpu_map (s : kstate) (p : Z) (g : gpu_mapping) : Prop :=
  exists size n n_addrs addrs, k_maps s !! p = Some (MapDescriptor (Some (gm_pdev g)) size
    (Some n) (Some (gm_pages g)) (Some (gm_mappings g)) (Some (Z.of_nat n_addrs)) addrs)
  /\ exists l rest, length l = n_addrs /\ addrs = (Some <$> l) ++ rest.

(** What the driver's calls give: page tables and mappings are not NULL, there is
    an entry for each 64 KiB asked for, and the mapping of a page table that has
    just been obtained has an address for each of its entries. *)
Definition p2p_ok (e : kenv) : Prop :=
  (forall w v len p r, kanswers e w (P2p_get_pages v len p) r -> k_val r = 0 ->
     k_ptr r <> NULL /\ k_num r = len / GPU_PAGE_SIZE)
  /\ (forall w pdev pages r v len p r0 log, kanswers e w (P2p_dma_map_pages pdev pages) r -> k_val r = 0 ->
     w_log w = (P2p_get_pages v len p, r0) :: log -> k_ptr r0 = pages ->
     k_ptr r <> NULL /\ Z.of_nat (length (k_list r)) = k_num r0).

Section gpu.
Context `{Kernel} (e : kenv).

Lemma unmap_gpu_memory_unmaps head l1 p v l2 g w :
  is_list (k_nodes (w_st w)) head (l1 ++ (MapNode p, v) :: l2) -> gpu_map (w_st w) p g ->
  wp e (unmap_gpu_memory p) w (fun _ w' =>
    unmapped head (l1 ++ (MapNode p, v) :: l2) (l1 ++ l2) [p] [] (units (gpu_owned_keys g)) w w').
Proof.
  intros Hl (size & n & n_addrs & addrs & Hd & _). unfold unmap_gpu_memory. wp_step.
  eapply remove_node_removes; [done|]. intros w1 h Hst1 Hmv1 Hl1 Hp1 Hc1.
  destruct (delete_unlinked _ _ _ _ _ _ _ Hl Hl1 Hc1) as [Hl2 Hc2].
  wp_step. eapply wp_load_md; [by rewrite Hst1|]. do 2 (wp_step; eapply wp_or_fail; [done|]). wp_step.
  eapply (wp_mono _ _ _ (fun _ w' => w_st w' = w_st w1
    /\ kmoved w1 w' (fun κ => - units (if gm_mappings g =? NULL then [] else [KP2pMapping (gm_mappings g)]) κ))).
  { destruct (Z.eqb_spec (gm_mappings g) NULL); simpl negb; cbn iota.
    - wp_step. split; [done|]. intros κ. simpl. lia.
    - wp_step. eapply wp_or_fail; [done|]. wp_step. apply wp_kext. intros r w2 _ Hst2 Hmv2. wp_step.
      split; [done|]. solve_kmoved. }
  intros [] w2 [Hst2 Hmv2]. wp_step.
  eapply (wp_mono _ _ _ (fun _ w' => w_st w' = w_st w1
    /\ kmoved w2 w' (fun κ => - units (if gm_pages g =? NULL then [] else [KP2pPages (gm_pages g)]) κ))).
  { destruct (Z.eqb_spec (gm_pages g) NULL); simpl negb; cbn iota.
    - wp_step. split; [done|]. intros κ. simpl. lia.
    - do 2 wp_step. wp_step. eapply wp_or_fail; [by rewrite Hst2, Hst1|]. wp_step. apply wp_kext.
      intros r w3 _ Hst3 Hmv3. wp_step. split; [congruence|]. solve_kmoved. }
  intros [] w3 [Hst3 Hmv3]. eapply wp_kfree_map; [by rewrite Hst3, Hst1|]. intros w4 Hst4 Hmv4.
  rewrite Hst3, Hst1 in Hst4. unfold unmapped. rewrite Hst4. simpl.
  split; [done|]. split; [done|]. split; [|unfold gpu_owned_keys; solve_kmoved].
  split; [done|]. split; [done|]. split; intros q; simpl; rewrite ?lookup_delete; repeat case_decide; try done; set_solver.
Qed.

(** The driver takes the pages back: the mapping is left without anything to release. *)
Lemma free_callback_releases p g w :
  gpu_map (w_st w) p g -> gm_pages g <> NULL ->
  wp e (free_callback p) w (fun _ w' => gpu_map (w_st w') p (GpuMapping (gm_pdev g) NULL NULL)
    /\ (exists d, w_st w' = set_maps (w_st w) (<[p := d]> (k_maps (w_st w))))
    /\ kmoved w w' (fun κ => - units (gpu_owned_keys g) κ)).
Proof.
  intros (size & n & n_addrs & addrs & Hd & Hl) Hne. unfold free_callback.
  wp_step. eapply wp_load_md; [done|]. wp_step. eapply wp_or_fail; [done|]. wp_step. apply wp_kext.
  intros r w1 _ Hst1 Hmv1. wp_step. eapply wp_or_fail; [done|]. wp_step.
  eapply (wp_mono _ _ _ (fun _ w' => w_st w' = w_st w1
    /\ kmoved w1 w' (fun κ => - units (if gm_mappings g =? NULL then [] else [KP2pMapping (gm_mappings g)]) κ))).
  { destruct (Z.eqb_spec (gm_mappings g) NULL); simpl negb; cbn iota.
    - wp_step. split; [done|]. intros κ. simpl. lia.
    - wp_step. apply wp_kext. intros r' w2 _ Hst2 Hmv2. wp_step. split; [done|]. solve_kmoved. }
  intros [] w2 [Hst2 Hmv2]. wp_step. eapply wp_update_map; [by rewrite Hst2, Hst1|]. intros w3 Hst3 Hmv3.
  eapply wp_update_map; [rewrite Hst3; apply lookup_insert_eq|]. intros w4 Hst4 Hmv4.
  rewrite Hst3, Hst2, Hst1 in Hst4. rewrite Hst4. simpl. rewrite insert_insert_eq.
  split; [exists size, n, n_addrs, addrs; split; [apply lookup_insert_eq|done]|].
  split; [by eexists|]. unfold gpu_owned_keys.
  rewrite (proj2 (Z.eqb_neq (gm_pages g) NULL)) by done. solve_kmoved.
Qed.

(** The loop copies all addresses. *)
Lemma gpu_addrs_loop_copies fuel addrs md d done more rest w (Q : unit -> kworld -> Prop) :
  k_maps (w_st w) !! md = Some d -> map_n_pages d = Some (Z.of_nat (length addrs)) ->
  map_n_addrs d = Some (Z.of_nat (length done)) -> map_addrs d = (Some <$> done) ++ rest ->
  addrs = done ++ more -> (length more <= length rest)%nat -> (length more < fuel)%nat ->
  (forall rest' w', w_st w' = set_maps (w_st w)
       (<[md := set_map_n_addrs (Z.of_nat (length addrs)) (set_map_addrs ((Some <$> addrs) ++ rest') d)]> (k_maps (w_st w))) ->
     kmoved w w' (fun _ => 0) -> Q tt w') ->
  wp e (gpu_addrs_loop fuel addrs md (Z.of_nat (length done))) w Q.
Proof.
  revert d done more rest w. induction fuel as [|fuel IH]; intros d done more rest w Hd Hn Hna Ha Heq Hr Hf HQ; [lia|].
  simpl. wp_step. eapply wp_load_md; [done|]. wp_step. eapply wp_or_fail; [done|]. destruct more as [|a more].
  - rewrite app_nil_r in Heq. subst done. rewrite (proj2 (Z.ltb_ge _ _)) by lia. wp_step.
    apply (HQ rest); [|apply kmoved_refl]. rewrite <- Ha. destruct d. simpl in *. subst. rewrite insert_id by done.
    by destruct (w_st w).
  - destruct rest as [|x rest]; [simpl in Hr; lia|]. subst addrs.
    rewrite (proj2 (Z.ltb_lt _ _)) by (rewrite length_app; simpl; lia). wp_step. eapply wp_or_fail.
    { by rewrite Nat2Z.id, list_lookup_middle. }
    unfold set_addr. wp_step. wp_step. eapply wp_load_md; [done|].
    assert (Z.of_nat (length done) < Z.of_nat (length (map_addrs d))).
    { rewrite Ha, length_app, length_fmap. simpl. lia. }
    rewrite (proj2 (Z.leb_le 0 _)), (proj2 (Z.ltb_lt _ _)) by lia. simpl andb. cbn iota. unfold store_map.
    wp_step. eapply wp_load_md; [done|]. apply wp_set_st. intros w2 Hst2 Hmv2. rewrite Nat2Z.id in Hst2.
    assert (<[length done := Some a]> (map_addrs d) = (Some <$> done ++ [a]) ++ rest) as Hins.
    { rewrite Ha, insert_app_r_alt by (rewrite length_fmap; lia). rewrite length_fmap, Nat.sub_diag, fmap_app, <- app_assoc. done. }
    rewrite Hins in Hst2. wp_step. eapply wp_load_md; [rewrite Hst2; apply lookup_insert_eq|].
    wp_step. eapply wp_or_fail; [done|]. wp_step. eapply wp_update_map; [rewrite Hst2; apply lookup_insert_eq|].
    intros w3 Hst3 Hmv3. rewrite Hst2 in Hst3. unfold set_maps in Hst3. simpl in Hst3. rewrite insert_insert_eq in Hst3.
    replace (Z.of_nat (length done) + 1) with (Z.of_nat (length (done ++ [a]))) in * by (rewrite length_app; simpl; lia).
    eapply (IH _ (done ++ [a]) more rest); [rewrite Hst3; apply lookup_insert_eq|exact Hn|done|done|by rewrite <- app_assoc|simpl in Hr; lia|simpl in Hf; lia|].
    intros rest' w4 Hst4 Hmv4. apply (HQ rest'); [|solve_kmoved]. rewrite Hst4, Hst3. unfold set_maps. simpl.
    by rewrite insert_insert_eq.
Qed.

(** The mapping [p] of [g] has been added to the list of GPU mappings. *)
Definition gpu_added (ref : nat) (v : Z) (l : list (knode * Z)) (p : Z) (g : gpu_mapping) (w w' : kworld) : Prop :=
  let s := w_st w in let s' := w_st w' in
  gpu_map s' p g
  /\ is_list (k_nodes s') (GpuHead ref) (if v =? 0 then l else place (MapNode p, v) l)
  /\ only_changes (MapNode p :: GpuHead ref :: l.*1) (k_nodes s) (k_nodes s')
  /\ same_rest s s' /\ k_next s' = p + 1 /\ kheap_ok s'
  /\ (forall q, q <> p -> k_maps s' !! q = k_maps s !! q)
  /\ k_arrays s' = k_arrays s
  /\ kmoved w w' (units (gpu_owned_keys g)).

Definition gpu_mapped (ref : nat) (v : Z) (l : list (knode * Z)) (pdev : Z) (w : kworld) (r : Z * Z) (w' : kworld) : Prop :=
  fst r <> 0 /\ snd r = NULL /\ only_next (w_st w) (w_st w') /\ kmoved w w' (fun _ => 0)
  \/ exists g, r = (0, k_next (w_st w)) /\ gm_pdev g = pdev /\ gm_pages g <> NULL /\ gm_mappings g <> NULL
     /\ gpu_added ref v l (k_next (w_st w)) g w w'.

Lemma gpu_addr_nonneg vaddr : 0 <= Z.land vaddr GPU_PAGE_MASK.
Proof. apply Z.land_nonneg. right. unfold GPU_PAGE_MASK. pose proof (u64_bound (Z.lnot (GPU_PAGE_SIZE - 1))). lia. Qed.

(** Freeing the descriptor just allocated leaves the allocator's move only. *)
Lemma wp_kfree_fresh p d x (w0 w : kworld) (Q : unit -> kworld -> Prop) :
  kheap_ok (w_st w0) -> p = k_next (w_st w0) ->
  w_st w = KState (<[MapNode p := x]> (k_nodes (w_st w0))) (<[p := d]> (k_maps (w_st w0)))
             (k_arrays (w_st w0)) (p + 1)
             (k_refs (w_st w0)) (k_devs (w_st w0)) (k_first (w_st w0)) (k_class (w_st w0)) ->
  (forall w', only_next (w_st w0) (w_st w') -> kmoved w w' (fun _ => 0) -> Q tt w') ->
  wp e (kfree_map p) w Q.
Proof.
  intros [_ Hfresh] Hp Hst HQ. destruct (Hfresh p ltac:(lia)) as (Hfm & _ & Hfn).
  eapply wp_kfree_map; [rewrite Hst; apply lookup_insert_eq|]. intros w' Hst' Hmv. apply HQ; [|done].
  rewrite Hst', Hst. unfold only_next. simpl. rewrite !delete_insert_id by done. split; [by destruct (w_st w0)|lia].
Qed.

(** From the mapped page table on: copying the addresses and linking the descriptor. *)
Lemma link_gpu_map ref v n l p d g addrs (w w0 : kworld) :
  kheap_ok (w_st w0) -> is_list (k_nodes (w_st w0)) (GpuHead ref) l -> Forall (fun e => 0 <= snd e) l ->
  0 <= v -> Z.of_nat (length addrs) = n -> p = k_next (w_st w0) ->
  d = MapDescriptor (Some (gm_pdev g)) GPU_PAGE_SIZE (Some n) (Some (gm_pages g)) (Some (gm_mappings g))
        (Some 0) (replicate (Z.to_nat n) None) ->
  w_st w = KState (<[MapNode p := ListHead None None v]> (k_nodes (w_st w0))) (<[p := d]> (k_maps (w_st w0)))
             (k_arrays (w_st w0)) (p + 1)
             (k_refs (w_st w0)) (k_devs (w_st w0)) (k_first (w_st w0)) (k_class (w_st w0)) ->
  kmoved w0 w (units (gpu_owned_keys g)) -> gm_pages g <> NULL -> gm_mappings g <> NULL ->
  wp e (gpu_addrs_loop (S (Z.to_nat n)) addrs p 0;;
        on_nodes (fun h => list_insert h (GpuHead ref) (MapNode p));;
        mret (0, p)) w (gpu_mapped ref v l (gm_pdev g) w0).
Proof.
  intros [Hpos Hfresh] Hl Hnn Hv Hlen Hp Hd Hst Hmv Hgp Hgm. destruct (Hfresh p ltac:(lia)) as (Hfm & _ & Hfn). wp_step.
  eapply (gpu_addrs_loop_copies _ addrs p d [] addrs (replicate (Z.to_nat n) None) w);
    [rewrite Hst; apply lookup_insert_eq|subst d; simpl; by rewrite Hlen|by subst d|by subst d|done
    |rewrite length_replicate; lia|lia|].
  intros rest w1 Hst1 Hmv1. rewrite Hst in Hst1. unfold set_maps in Hst1. simpl in Hst1. rewrite insert_insert_eq in Hst1.
  assert (is_list (<[MapNode p := ListHead None None v]> (k_nodes (w_st w0))) (GpuHead ref) l) as Hl'.
  { eapply is_list_frame; [|exact Hl]. intros j Hj. rewrite lookup_insert_ne; [done|]. intros <-.
    apply (fresh_not_listed _ _ _ p Hl Hfn). set_solver. }
  destruct (insert_node _ _ l (MapNode p) v Hl' Hnn (lookup_insert_eq _ _ _) (fresh_not_listed _ _ _ p Hl Hfn) Hv)
    as (x & h' & Hins & Hl'' & Hch).
  wp_step. eapply wp_on_nodes; [rewrite Hst1; exact Hins|]. intros w4 Hst4 Hmv4. rewrite Hst1 in Hst4. wp_step.
  right. exists g. rewrite <- Hp. do 4 (split; [done|]). unfold gpu_added. rewrite Hst4. simpl. split.
  { subst d. eexists _, _, (length addrs), _. simpl. rewrite lookup_insert_eq. split; [done|]. by eexists addrs, rest. }
  split; [done|]. split.
  { intros j Hj. rewrite Hch by done. rewrite lookup_insert_ne; [done|]. intros <-. apply Hj. set_solver. }
  split; [done|]. split; [done|]. split.
  { split; simpl; [lia|]. intros q Hq. destruct (Hfresh q ltac:(lia)) as (H1 & H2 & H3).
    rewrite lookup_insert_ne by lia. do 2 (split; [done|]).
    rewrite Hch; [by rewrite lookup_insert_ne by (intros [=]; lia)|].
    intros [[=]|Hin]%elem_of_cons; [lia|]. by apply (fresh_not_listed _ _ _ q Hl). }
  split; [by intros q Hq; rewrite lookup_insert_ne|]. split; [done|]. solve_kmoved.
Qed.

Lemma wp_update_map_log p d f w (Q : unit -> kworld -> Prop) :
  k_maps (w_st w) !! p = Some d ->
  (forall w', w_st w' = set_maps (w_st w) (<[p := f d]> (k_maps (w_st w))) -> kmoved w w' (fun _ => 0) ->
     w_log w' = w_log w -> Q tt w') ->
  wp e (update_map p f) w Q.
Proof.
  intros Hp HQ. unfold update_map, store_map, modify. wp_step. eapply wp_load_md; [done|].
  repeat wp_step. eapply wp_load_md; [done|]. repeat wp_step. apply HQ; [done| |done].
  intros κ. unfold bal. simpl. lia.
Qed.

(** The driver lends pages at [vaddr]. *)
Definition can_lend (vaddr : Z) : Prop := exists w len p g, kanswers e w (P2p_get_pages vaddr len p) g /\ k_val g = 0.

Lemma map_gpu_memory_maps ref vaddr n l pdev w :
  p2p_ok e -> kheap_ok (w_st w) -> is_list (k_nodes (w_st w)) (GpuHead ref) l -> Forall (fun d => 0 <= snd d) l ->
  ref_of (w_st w) ref pdev -> 0 < n < 2 ^ 48 ->
  wp e (map_gpu_memory ref vaddr n) w (fun r w' => gpu_mapped ref (Z.land vaddr GPU_PAGE_MASK) l pdev w r w'
    /\ (fst r = 0 -> can_lend (Z.land vaddr GPU_PAGE_MASK))).
Proof.
  intros [Hget Hmap] Hok Hl Hnn (Hpd & refs & rr & c & devs & dev & Hrefs & Hrr & Hc & Hdevs & Hdev & Hcd) Hn.
  pose proof Hok as [Hpos Hfresh]. unfold map_gpu_memory.
  rewrite (proj2 (Z.ltb_ge n 1)) by lia. wp_step. apply wp_alloc_map; [lia|done| |].
  { intros w1 Hst Hmv. change (NULL =? NULL) with true. cbn iota. wp_step. split; [|done]. left. split; [done|]. split; [done|].
    split; [|done]. rewrite Hst. split; [by destruct (w_st w)|done]. }
  intros w1 p Hst1 Hmv1. rewrite (proj2 (Z.eqb_neq p NULL)) by (unfold p, NULL; lia).
  wp_step. eapply wp_load_ref; [rewrite Hst1; exact Hrefs|exact Hrr|]. wp_step. eapply wp_or_fail; [exact Hc|].
  wp_step. eapply wp_load_dev; [rewrite Hst1; exact Hdevs|exact Hdev|]. rewrite Hcd. cbn zeta.
  wp_step. eapply wp_update_map; [rewrite Hst1; apply lookup_insert_eq|]. intros w2 Hst2 Hmv2. rewrite Hst1 in Hst2.
  unfold set_maps in Hst2. simpl in Hst2. rewrite insert_insert_eq in Hst2.
  wp_step. eapply wp_on_nodes; [done|]. intros w3 Hst3 Hmv3. rewrite Hst2 in Hst3. unfold list_init in Hst3. simpl in Hst3.
  wp_step. apply wp_ext. set (w4 := after e w3 _). set (g := fst _).
  assert (kanswers e w3 (P2p_get_pages (Z.land vaddr GPU_PAGE_MASK) (u64 (GPU_PAGE_SIZE * n)) p) g) as Hg by done.
  assert (kmoved w3 w4 (kdelta (P2p_get_pages (Z.land vaddr GPU_PAGE_MASK) (u64 (GPU_PAGE_SIZE * n)) p) g)) as Hmv4 by done.
  assert (w_st w4 = w_st w3) as Hst4 by done. rewrite Hst3 in Hst4.
  unfold kdelta, when in Hmv4. destruct (Z.eqb_spec (k_val g) 0) as [Hg0|Hg0]; simpl negb; cbn iota.
  2:{ wp_step. eapply (wp_kfree_fresh p _ _ w); [done|done|exact Hst4|]. intros w5 Hst5 Hmv5. wp_step. split; [|done]. left.
      split; [done|]. split; [done|]. split; [done|]. solve_kmoved. }
  destruct (Hget _ _ _ _ _ Hg Hg0) as [Hgn Hge].
  assert (k_num g = n) as Hnum.
  { rewrite Hge. unfold GPU_PAGE_SIZE, GPU_PAGE_SHIFT. rewrite Z.shiftl_mul_pow2 by lia.
    rewrite u64_small by lia. rewrite Z.mul_comm. apply Z.div_mul. lia. }
  wp_step. eapply wp_update_map_log; [rewrite Hst4; apply lookup_insert_eq|]. intros w5 Hst5 Hmv5 Hlog5. rewrite Hst4 in Hst5.
  unfold set_maps in Hst5. simpl in Hst5. rewrite insert_insert_eq in Hst5.
  wp_step. apply wp_kext. intros m w6 Hm Hst6 Hmv6. rewrite Hst5 in Hst6. unfold kdelta, when in Hmv6.
  destruct (Z.eqb_spec (k_val m) 0) as [Hm0|Hm0]; simpl negb; cbn iota.
  - destruct (Hmap _ _ _ _ _ _ _ _ _ Hm Hm0 Hlog5 eq_refl) as [Hmn Hml].
    wp_step. eapply wp_update_map; [rewrite Hst6; apply lookup_insert_eq|]. intros w7 Hst7 Hmv7. rewrite Hst6 in Hst7.
    unfold set_maps in Hst7. simpl in Hst7. rewrite insert_insert_eq in Hst7.
    wp_step. eapply wp_update_map; [rewrite Hst7; apply lookup_insert_eq|]. intros w8 Hst8 Hmv8. rewrite Hst7 in Hst8.
    unfold set_maps in Hst8. simpl in Hst8. rewrite insert_insert_eq in Hst8.
    wp_step. eapply wp_update_map; [rewrite Hst8; apply lookup_insert_eq|]. intros w9 Hst9 Hmv9. rewrite Hst8 in Hst9.
    unfold set_maps in Hst9. simpl in Hst9. rewrite insert_insert_eq in Hst9. rewrite Hnum in Hst9 |- *.
    eapply wp_mono; [|intros x w' Hx; split; [exact Hx|intros _; by eexists w3, _, p, g]].
    eapply (link_gpu_map ref (Z.land vaddr GPU_PAGE_MASK) n l p _ (GpuMapping pdev (k_ptr g) (k_ptr m)) (k_list m) w9 w);
      [done|done|done|apply gpu_addr_nonneg|by rewrite Hml|done|reflexivity|exact Hst9| |done|done].
    unfold gpu_owned_keys. simpl gm_pages. simpl gm_mappings.
    rewrite (proj2 (Z.eqb_neq (k_ptr g) NULL)), (proj2 (Z.eqb_neq (k_ptr m) NULL)) by done. solve_kmoved.
  - wp_step. apply wp_kext. intros r7 w7 _ Hst7 Hmv7. rewrite Hst6 in Hst7. wp_step.
    eapply (wp_kfree_fresh p _ _ w); [done|done|exact Hst7|]. intros w8 Hst8 Hmv8. wp_step. split; [|done]. left.
    split; [done|]. split; [done|]. split; [done|]. unfold kdelta in Hmv7. solve_kmoved.
Qed.

End gpu.

(** ** Unmapping a whole list *)

Lemma frees_nil s : frees [] [] s s.
Proof. by repeat split. Qed.

Lemma frees_app ps arrs ps' arrs' s s1 s2 :
  frees ps arrs s s1 -> frees ps' arrs' s1 s2 -> frees (ps ++ ps') (arrs ++ arrs') s s2.
Proof.
  intros ((? & ? & ? & ?) & ? & Hm1 & Ha1) ((? & ? & ? & ?) & ? & Hm2 & Ha2).
  split; [repeat split; congruence|]. split; [congruence|].
  split; intros q; [rewrite Hm2, Hm1|rewrite Ha2, Ha1]; repeat case_decide; try done; set_solver.
Qed.

Lemma only_changes_trans l l' h h1 h2 : (forall j, j ∈ l' -> j ∈ l) ->
  only_changes l h h1 -> only_changes l' h1 h2 -> only_changes l h h2.
Proof. intros Hs H1 H2 j Hj. rewrite H2, H1; auto. Qed.

(** Entries of a list: descriptor, address, and what it describes. *)
Definition as_nodes {A} (items : list (Z * Z * A)) : list (knode * Z) :=
  (fun x => (MapNode x.1.1, x.1.2)) <$> items.
Definition ids {A} (items : list (Z * Z * A)) : list Z := (fun x => x.1.1) <$> items.

Lemma as_nodes_fst {A} (items : list (Z * Z * A)) : (as_nodes items).*1 = MapNode <$> ids items.
Proof. unfold as_nodes, ids. by rewrite <- !list_fmap_compose. Qed.

Lemma ids_in {A} (items : list (Z * Z * A)) x : x ∈ items -> x.1.1 ∈ ids items.
Proof. intros Hx. by apply list_elem_of_fmap_2 with (f := fun x => x.1.1). Qed.

Section unmap_all.
Context `{Kernel} (e : kenv) {A : Type} (unmap : Z -> KM unit) (head : knode)
  (own : kstate -> Z -> A -> Prop) (keys : A -> list kkey) (arrs : Z -> list Z).

Hypothesis Hunmap : forall l1 p v l2 a w,
  is_list (k_nodes (w_st w)) head (l1 ++ (MapNode p, v) :: l2) -> own (w_st w) p a ->
  wp e (unmap p) w (fun _ w' =>
    unmapped head (l1 ++ (MapNode p, v) :: l2) (l1 ++ l2) [p] (arrs p) (units (keys a)) w w').
Hypothesis Hown : forall p q a s s', p <> q -> frees [p] (arrs p) s s' -> own s q a -> own s' q a.

Definition keys_of (items : list (Z * Z * A)) : list kkey := concat ((fun x => keys x.2) <$> items).
Definition arrs_of (items : list (Z * Z * A)) : list Z := concat ((fun x => arrs x.1.1) <$> items).

Lemma unmap_loop_empties fuel items w (Q : unit -> kworld -> Prop) :
  is_list (k_nodes (w_st w)) head (as_nodes items) -> Forall (fun x => own (w_st w) x.1.1 x.2) items ->
  (length items < fuel)%nat ->
  (forall w', unmapped head (as_nodes items) [] (ids items) (arrs_of items) (units (keys_of items)) w w' -> Q tt w') ->
  wp e (unmap_loop fuel head unmap) w Q.
Proof.
  revert items w. induction fuel as [|fuel IH]; intros items w Hl Ho Hf HQ; [lia|].
  pose proof Hl as [Hnd [q (_ & n & Hh & Hlk)]]. simpl. wp_step. wp_step. wp_step. eapply wp_or_fail; [exact Hh|]. simpl.
  destruct items as [|[[p v] a] items].
  - destruct Hlk as [_ ->]. wp_step. apply HQ. split; [done|]. split; [by intros ? ?|]. split; [apply frees_nil|].
    intros κ. simpl. lia.
  - destruct Hlk as [-> _]. apply Forall_cons in Ho as [Hp Ho]. wp_step. simpl in Hf, Hp.
    eapply wp_mono; [by apply (Hunmap [] p v (as_nodes items) a)|]. intros [] w1 (Hl1 & Hc1 & Hfr1 & Hmv1).
    apply (IH items); [exact Hl1| |lia|].
    + rewrite Forall_forall in Ho. apply Forall_forall. intros x Hx. eapply Hown; [|exact Hfr1|by apply Ho].
      intros ->. apply list.NoDup_cons in Hnd as [_ Hnd]. simpl in Hnd. apply list.NoDup_cons in Hnd as [Hn _].
      apply Hn. rewrite as_nodes_fst. apply list_elem_of_fmap_2. unfold ids. by apply list_elem_of_fmap_2 with (f := fun x => x.1.1).
    + intros w2 (Hl2 & Hc2 & Hfr2 & Hmv2). apply HQ. split; [done|]. split; [|split].
      * eapply only_changes_trans; [|exact Hc1|exact Hc2]. intros j. simpl. rewrite !elem_of_cons. tauto.
      * by apply (frees_app [p] (arrs p) (ids items) (arrs_of items) _ (w_st w1)).
      * intros κ. specialize (Hmv1 κ). specialize (Hmv2 κ). unfold keys_of in *. simpl. rewrite units_app.
        change (list_fmap _ _ ?f items) with (f <$> items). lia.
Qed.

Lemma unmap_all_empties items w (Q : unit -> kworld -> Prop) :
  is_list (k_nodes (w_st w)) head (as_nodes items) -> Forall (fun x => own (w_st w) x.1.1 x.2) items ->
  (forall w', unmapped head (as_nodes items) [] (ids items) (arrs_of items) (units (keys_of items)) w w' -> Q tt w') ->
  wp e (unmap_all head unmap) w Q.
Proof.
  intros Hl Ho HQ. unfold unmap_all. do 2 wp_step. eapply unmap_loop_empties; [done|done| |done].
  pose proof (is_list_size _ _ _ Hl) as Hs. unfold as_nodes in Hs. rewrite length_fmap in Hs. lia.
Qed.
End unmap_all.

(** ** What is mapped through a reference *)

(** The entries of its two lists. *)
Definition view : Type := list (Z * Z * mapping) * list (Z * Z * gpu_mapping).

Definition view_ids (v : view) : list Z := ids v.1 ++ ids v.2.
Definition view_keys (v : view) : list kkey := keys_of gpu_owned_keys v.2 ++ keys_of owned_keys v.1.
(** The page arrays of the user mappings. *)
Definition view_arrs (v : view) : list Z := arrs_of (fun p => [p + 1]) v.1.

Definition entries_ok (l : list (knode * Z)) : Prop := sorted l /\ Forall (fun d => 0 <= snd d) l.

Record ref_maps `{Kernel} (s : kstate) (i : nat) (v : view) : Prop := {
  rm_user : is_list (k_nodes s) (UserHead i) (as_nodes v.1);
  rm_gpu : is_list (k_nodes s) (GpuHead i) (as_nodes v.2);
  rm_user_own : Forall (fun x => user_map s x.1.1 x.2) v.1;
  rm_gpu_own : Forall (fun x => gpu_map s x.1.1 x.2) v.2;
  rm_ids : NoDup (view_ids v);
  rm_user_ok : entries_ok (as_nodes v.1);
  rm_gpu_ok : entries_ok (as_nodes v.2);
  rm_cuda : has_CUDA = false -> v.2 = [];
}.

Lemma user_map_frees ps arrs s s' p m :
  p ∉ ps -> p + 1 ∉ arrs -> frees ps arrs s s' -> user_map s p m -> user_map s' p m.
Proof.
  intros Hp Ha (_ & _ & Hm & Har) (Hd & [rest Hr] & size & mps & rest' & Hmp). split; [done|].
  split; [exists rest; by rewrite Har, decide_False|]. exists size, mps, rest'. by rewrite Hm, decide_False.
Qed.

Lemma gpu_map_frees ps arrs s s' p g : p ∉ ps -> frees ps arrs s s' -> gpu_map s p g -> gpu_map s' p g.
Proof.
  intros Hp (_ & _ & Hm & _) (size & n & k & addrs & Hmp & Hl). exists size, n, k, addrs.
  by rewrite Hm, decide_False.
Qed.

Lemma view_arrs_in v q : q ∈ view_arrs v <-> exists p, p ∈ ids v.1 /\ q = p + 1.
Proof.
  unfold view_arrs, arrs_of, ids. induction v.1 as [|x l IH]; simpl.
  - split; [by intros ?%elem_of_nil|by intros (? & ?%elem_of_nil & _)].
  - rewrite elem_of_cons, IH. setoid_rewrite elem_of_cons. split; [|naive_solver].
    intros [->|(p & ? & ->)]; [by exists x.1.1; auto|by exists p; auto].
Qed.

Definition free_ref (r : ctrl_ref) : ctrl_ref := CtrlRef (Z.clearbit (ref_flags r) IN_USE_BIT) None 0.

(** The reference at [i] is free, and all that was mapped through it is gone. *)
Definition released `{Kernel} (i : nat) (refs : list ctrl_ref) (r : ctrl_ref) (v : view) (w w' : kworld) : Prop :=
  is_list (k_nodes (w_st w')) (UserHead i) [] /\ is_list (k_nodes (w_st w')) (GpuHead i) []
  /\ only_changes (UserHead i :: GpuHead i :: (MapNode <$> view_ids v)) (k_nodes (w_st w)) (k_nodes (w_st w'))
  /\ (exists s1, frees (view_ids v) (view_arrs v) (w_st w) s1
      /\ w_st w' = set_refs s1 (Some (<[i := free_ref r]> refs)))
  /\ kmoved w w' (fun κ => - units (view_keys v) κ).

Section put.
Context `{Kernel} (e : kenv).

Lemma unmap_gpu_all i v w (Q : unit -> kworld -> Prop) :
  ref_maps (w_st w) i v ->
  (forall w', is_list (k_nodes (w_st w')) (GpuHead i) [] ->
     only_changes (GpuHead i :: (MapNode <$> ids v.2)) (k_nodes (w_st w)) (k_nodes (w_st w')) ->
     frees (ids v.2) [] (w_st w) (w_st w') -> kmoved w w' (fun κ => - units (keys_of gpu_owned_keys v.2) κ) -> Q tt w') ->
  wp e (if has_CUDA then unmap_all (GpuHead i) unmap_gpu_memory else mret tt) w Q.
Proof.
  intros Hv HQ. destruct has_CUDA eqn:Hc.
  - eapply (unmap_all_empties e unmap_gpu_memory (GpuHead i) gpu_map gpu_owned_keys (fun _ => []) ltac:(intros; by apply unmap_gpu_memory_unmaps)
      ltac:(intros ? ? ? ? ? ?; apply gpu_map_frees; set_solver) v.2); [apply Hv|apply Hv|].
    intros w' (Hl & Hch & Hfr & Hmv). apply HQ; [done|by rewrite as_nodes_fst in Hch| |exact Hmv].
    replace (@nil Z) with (arrs_of (A:=gpu_mapping) (fun _ => []) v.2); [done|]. unfold arrs_of. generalize v.2. intros l. clear. by induction l.
  - destruct v as [ul gl]. assert (gl = []) as -> by (by apply (rm_cuda _ _ _ Hv)).
    wp_step. apply HQ; [apply Hv|by intros ? ?|apply frees_nil|]. intros κ. simpl. lia.
Qed.

Lemma ctrl_ref_put_releases i refs r v w :
  ref_maps (w_st w) i v -> k_refs (w_st w) = Some refs -> refs !! i = Some r ->
  wp e (ctrl_ref_put i) w (fun _ w' => released i refs r v w w').
Proof.
  intros Hv Hrefs Hr. unfold ctrl_ref_put. wp_step. apply (unmap_gpu_all i v); [done|].
  intros w1 Hl1 Hc1 Hf1 Hmv1. pose proof (rm_ids _ _ _ Hv) as Hids. unfold view_ids in Hids.
  apply list.NoDup_app in Hids as (_ & Hdis & _).
  assert (forall n, n = UserHead i \/ n ∈ (as_nodes v.1).*1 -> k_nodes (w_st w1) !! n = k_nodes (w_st w) !! n) as Hsame.
  { intros n Hn. apply Hc1. rewrite as_nodes_fst in Hn. intros [->|Hin]%elem_of_cons; [destruct Hn as [[=]|Hn]|].
    - by apply list_elem_of_fmap in Hn as (? & [=] & _).
    - apply list_elem_of_fmap in Hin as (p & -> & Hp). destruct Hn as [[=]|(q & [=->] & Hq)%list_elem_of_fmap].
      by apply (Hdis q). }
  wp_step. eapply (unmap_all_empties e unmap_user_pages (UserHead i) user_map owned_keys (fun p => [p + 1])
      ltac:(intros; by apply unmap_user_pages_unmaps)
      ltac:(intros ? ? ? ? ? ?; apply user_map_frees; rewrite list_elem_of_singleton; lia) v.1).
  { eapply is_list_frame; [exact Hsame|apply Hv]. }
  { pose proof (rm_user_own _ _ _ Hv) as Ho. rewrite Forall_forall in Ho |- *. intros x Hx.
    eapply user_map_frees; [|apply not_elem_of_nil|exact Hf1|by apply Ho]. by apply Hdis, ids_in. }
  intros w2 (Hl2 & Hc2 & Hf2 & Hmv2). rewrite as_nodes_fst in Hc2. pose proof (frees_app _ _ _ _ _ _ _ Hf1 Hf2) as Hf.
  destruct (proj1 Hf) as (Hrefs2 & _). wp_step. eapply wp_load_ref; [by rewrite Hrefs2|done|].
  eapply wp_store_ref; [by rewrite Hrefs2|done|]. intros w3 Hst3 Hmv3. unfold released. rewrite Hst3. simpl.
  split; [done|]. split; [|split; [|split]].
  - eapply is_list_frame; [|exact Hl1]. intros n [->|Hn]; [|set_solver]. apply Hc2.
    intros [[=]|(? & [=] & _)%list_elem_of_fmap]%elem_of_cons.
  - intros n Hn. unfold view_ids in Hn. rewrite fmap_app in Hn. rewrite Hc2, Hc1; [done|set_solver|set_solver].
  - exists (w_st w2). split; [|done]. destruct Hf as (Hr' & Hn' & Hm' & Ha'). split; [done|]. split; [done|].
    split; intros q; [rewrite Hm'|rewrite Ha']; unfold view_ids, view_arrs; repeat case_decide; try done; set_solver.
  - unfold view_keys. solve_kmoved.
Qed.
End put.

(** ** Property *)

(** C19: releasing a controller reference always comes to an end, whatever the
    memory manager and the DMA layer answer: both loops unmap the first entry
    until the list is empty. Afterwards every page pinned and every mapping made
    through the reference has been given back exactly once, the descriptors and
    page arrays are freed, the slot is free, and other references' nodes and
    objects are as they were. *)
Theorem ref_put_unmaps_all `{Kernel} e i refs r v w :
  ref_maps (w_st w) i v -> k_refs (w_st w) = Some refs -> refs !! i = Some r ->
  exists w', run (ctrl_ref_put i) e w = Ok tt w' /\ released i refs r v w w'.
Proof.
  intros Hv Hrefs Hr. destruct (wp_run _ _ _ _ (ctrl_ref_put_releases e i refs r v w Hv Hrefs Hr)) as ([] & w' & ? & ?).
  by exists w'.
Qed.

(** ** Witness *)

#[local] Instance cuda_kernel : Kernel := {|
  has_CUDA := true; PAGE_SHIFT := 12; dma_mapping_error _ _ := 0; MAJOR _ := 0; MINOR _ := 0;
  MKDEV _ n := n; IOW _ n _ := n; num_ctrl_devs := 1; num_ctrl_refs := 1; max_pages_per_map := 32768 |}.

(** One mapping of two user pages and one of GPU memory through reference 0. *)
Definition mapped_kstate : kstate := KState
  (list_to_map [(UserHead 0, ListHead (Some (MapNode 1)) None 0);
                (MapNode 1, ListHead None (Some (UserHead 0)) 0x7000);
                (GpuHead 0, ListHead (Some (MapNode 3)) None 0);
                (MapNode 3, ListHead None (Some (GpuHead 0)) 0x10000)])
  (<[1 := MapDescriptor (Some 9) 4096 (Some 2) (Some 2) None (Some 2) [Some 5; Some 6; None]]>
     {[3 := MapDescriptor (Some 9) 65536 (Some 1) (Some 50) (Some 60) (Some 1) [Some 7]]})
  {[2 := [77; 78; 0]]} 4
  (Some [CtrlRef 2 (Some 0%nat) 1]) (Some [CtrlDev 2 9 "disnvme0" 0 0 0]) 0 0.

Definition mapped_view : view :=
  ([(1, 0x7000, Mapping 9 [77; 78] [5; 6])], [(3, 0x10000, GpuMapping 9 50 60)]).

Lemma mapped_kstate_maps : ref_maps mapped_kstate 0 mapped_view.
Proof.
  constructor; simpl.
  - split; [repeat constructor; set_solver|]. exists (Some (MapNode 1)).
    repeat (split; [reflexivity|]; eexists; split; [reflexivity|]). done.
  - split; [repeat constructor; set_solver|]. exists (Some (MapNode 3)).
    repeat (split; [reflexivity|]; eexists; split; [reflexivity|]). done.
  - repeat constructor; simpl; [done|by exists [0]|]. by exists 4096, None, [None].
  - repeat constructor. exists 65536, 1, 1%nat, [Some 7]. split; [reflexivity|]. by exists [7], [].
  - repeat constructor; set_solver.
  - repeat constructor. simpl. lia.
  - repeat constructor. simpl. lia.
  - done.
Qed.

Lemma ref_put_unmaps_all_witness :
  exists w', run (ctrl_ref_put 0) sample_kenv (World empty mapped_kstate []) = Ok tt w'
  /\ released 0 [CtrlRef 2 (Some 0%nat) 1] (CtrlRef 2 (Some 0%nat) 1) mapped_view (World empty mapped_kstate []) w'.
Proof.
  exact (ref_put_unmaps_all sample_kenv 0 [CtrlRef 2 (Some 0%nat) 1] (CtrlRef 2 (Some 0%nat) 1) mapped_view
    (World empty mapped_kstate []) mapped_kstate_maps eq_refl eq_refl).
Defined.
