(* ===== verification/KCdev.v ===== *)
(** * Controller devices and their character devices ([src/module/cdev.c]) *)
From S2P Require Import Prelude Memory Effects KTypes KList KMap.

(** [dev->in_use], [dev->pdev] and [dev->chrdev] written. *)
Definition set_in_use (x : Z) (d : ctrl_dev) : ctrl_dev :=
  CtrlDev x (cd_pdev d) (cd_name d) (cd_rdev d) (cd_cls d) (cd_chrdev d).
Definition set_pdev (x : Z) (d : ctrl_dev) : ctrl_dev :=
  CtrlDev (cd_in_use d) x (cd_name d) (cd_rdev d) (cd_cls d) (cd_chrdev d).
Definition set_cd_chrdev (x : Z) (d : ctrl_dev) : ctrl_dev :=
  CtrlDev (cd_in_use d) (cd_pdev d) (cd_name d) (cd_rdev d) (cd_cls d) x.

Definition update_dev (i : nat) (f : ctrl_dev -> ctrl_dev) : KM unit := d ← load_dev i; store_dev i (f d).

Section cdev.
Context `{Kernel}.

(** [snprintf] into [char name[64]]. *)
Definition device_name (name : string) (num : Z) : string :=
  String.substring 0 63 (String.append name (pretty num)).

Definition ctrl_dev_reset (dev : nat) (first num cls : Z) (name : string) : KM unit :=
  d ← load_dev dev;
  store_dev dev (CtrlDev (Z.clearbit (cd_in_use d) 1) NULL (device_name name num)
    (MKDEV (MAJOR first) (MINOR first + num)) cls NULL).

Definition ctrl_dev_get (dev : nat) (pdev : Z) : KM (option nat) :=
  d ← load_dev dev;
  let '(old, in_use) := test_and_set_bit 1 (cd_in_use d) in
  store_dev dev (set_in_use in_use d);;
  if negb old then update_dev dev (set_pdev pdev);; mret (Some dev)
  else mret None.

Definition ctrl_dev_chrdev_remove (dev : nat) : KM unit :=
  d ← load_dev dev;
  if negb (cd_chrdev d =? NULL) then
    ext (Device_destroy (cd_cls d) (cd_rdev d));;
    ext (Cdev_del dev);;
    update_dev dev (set_cd_chrdev NULL)
  else mret tt.

Definition ctrl_dev_put (dev : nat) : KM unit :=
  ctrl_dev_chrdev_remove dev;;
  update_dev dev (set_pdev NULL);;
  update_dev dev (fun d => set_in_use (snd (test_and_clear_bit 1 (cd_in_use d))) d).

Definition ctrl_dev_chrdev_create (dev : nat) : KM Z :=
  d ← load_dev dev;
  if negb (cd_chrdev d =? NULL) then mret 0
  else if cd_pdev d =? NULL then mret (- EBADF)
  else
    r ← ext (Cdev_add dev (cd_rdev d));
    if negb (k_val r =? 0) then mret (k_val r)
    else
      c ← ext (Device_create (cd_cls d) (cd_rdev d) (cd_name d));
      if k_val c <? 0 then
        ext (Cdev_del dev);;
        mret (k_val c)
      else
        update_dev dev (set_cd_chrdev (k_ptr c));;
        mret 0.

End cdev.
