(* ===== verification/KPci.v ===== *)
(** * The driver: file operations, PCI operations and module life cycle ([src/module/pci.c]) *)
From S2P Require Import Prelude Memory Effects KTypes KList KMap KCdev.

Definition DRIVER_NAME : string := "disnvme".
Definition NVM_IOCTL_TYPE : Z := 0x80.

(** [sizeof(struct ctrl_dev)] and [sizeof(struct ctrl_ref)] are the compiler's. *)
Definition sizeof_nvm_ioctl_map : Z := 24.

Section pci.
Context `{Kernel} (sizeof_ctrl_dev sizeof_ctrl_ref : Z).

(** The requests of [src/ioctl.h]. *)
Definition NVM_MAP_HOST_MEMORY : Z := IOW NVM_IOCTL_TYPE 1 sizeof_nvm_ioctl_map.
Definition NVM_MAP_DEVICE_MEMORY : Z := IOW NVM_IOCTL_TYPE 2 sizeof_nvm_ioctl_map.
Definition NVM_UNMAP_MEMORY : Z := IOW NVM_IOCTL_TYPE 3 8.

(** ** Looking up references and devices *)

(** From index [i] on, [fuel] indices are left; [owner] is [None] for any. *)
Fixpoint find_ref_loop (fuel : nat) (dev : nat) (owner : option Z) (i : nat) : KM (option nat) :=
  match fuel with
  | O => mret None
  | S fuel' =>
      ref ← load_ref i;
      if bool_decide (ref_ctrl ref = Some dev)
         && match owner with None => true | Some pid => ref_owner ref =? pid end
      then load_dev dev;; mret (Some i)
      else find_ref_loop fuel' dev owner (S i)
  end.

Definition find_ref (dev : nat) (owner : option Z) : KM (option nat) :=
  find_ref_loop (Z.to_nat num_ctrl_refs) dev owner 0.

(** [i_cdev] is the index of the device whose [cdev] the inode refers to. *)
Fixpoint find_dev_by_inode_loop (fuel : nat) (i_cdev : option nat) (i : nat) : KM (option nat) :=
  match fuel with
  | O => mret None
  | S fuel' =>
      if bool_decide (i_cdev = Some i) then load_dev i;; mret (Some i)
      else find_dev_by_inode_loop fuel' i_cdev (S i)
  end.

Definition find_dev_by_inode (i_cdev : option nat) : KM (option nat) :=
  find_dev_by_inode_loop (Z.to_nat num_ctrl_devs) i_cdev 0.

Fixpoint find_dev_by_pdev_loop (fuel : nat) (pdev : Z) (i : nat) : KM (option nat) :=
  match fuel with
  | O => mret None
  | S fuel' =>
      dev ← load_dev i;
      if cd_pdev dev =? pdev then mret (Some i) else find_dev_by_pdev_loop fuel' pdev (S i)
  end.

Definition find_dev_by_pdev (pdev : Z) : KM (option nat) :=
  find_dev_by_pdev_loop (Z.to_nat num_ctrl_devs) pdev 0.

(** ** File operations: [pid] is the current process *)

Fixpoint ref_get_loop (fuel : nat) (dev : nat) (pid : Z) (i : nat) : KM Z :=
  match fuel with
  | O => mret (- ENOSPC)
  | S fuel' =>
      ref ← ctrl_ref_get i dev pid;
      match ref with
      | Some _ => mret 0
      | None => ref_get_loop fuel' dev pid (S i)
      end
  end.

Definition ref_get (i_cdev : option nat) (pid : Z) : KM Z :=
  dev ← find_dev_by_inode i_cdev;
  match dev with
  | None => mret (- EBADF)
  | Some dev =>
      d ← load_dev dev;
      if cd_pdev d =? NULL then mret (- EBADF)
      else ref_get_loop (Z.to_nat num_ctrl_refs) dev pid 0
  end.

Definition ref_put (i_cdev : option nat) (pid : Z) : KM Z :=
  dev ← find_dev_by_inode i_cdev;
  match dev with
  | None => mret (- EBADF)
  | Some dev =>
      ref ← find_ref dev (Some pid);
      match ref with
      | None => mret (- EBADF)
      | Some ref => ctrl_ref_put ref;; mret 0
      end
  end.

(** The [n] bytes at [src] of user memory; what could not be copied reads as zero. *)
Definition copy_from_user (src n : Z) : KM (list Z) :=
  r ← ext (Copy_from_user src n);
  m ← get_mem;
  mret (bytes_at (Z.to_nat (n - k_val r)) m src ++ replicate (Z.to_nat (k_val r)) 0).

Definition copy_to_user (dst : Z) (bytes : list Z) : KM unit :=
  r ← ext (Copy_to_user dst (Z.of_nat (length bytes)));
  m ← get_mem;
  put_mem (st_bytes m dst (take (length bytes - Z.to_nat (k_val r)) bytes)).

Record nvm_ioctl_map := IoctlMap { vaddr_start : Z; request_n_pages : Z; ioaddrs : Z }.

Definition ioctl_map_of (bytes : list Z) : nvm_ioctl_map :=
  IoctlMap (u64_at bytes 0) (u64_at bytes 8) (u64_at bytes 16).

(** The first [n] addresses of a descriptor, which must have been set. *)
Fixpoint addrs_bytes (fuel : nat) (d : map_descriptor) (i : Z) : KM (list Z) :=
  match fuel with
  | O => mret []
  | S fuel' => a ← get_addr d i; l ← addrs_bytes fuel' d (i + 1); mret (le_bytes 8 a ++ l)
  end.

(** Map with [map] and hand the bus addresses to the caller. *)
Definition ioctl_map (arg : Z) (map : Z -> Z -> KM (Z * Z)) : KM Z :=
  bytes ← copy_from_user arg sizeof_nvm_ioctl_map;
  let request := ioctl_map_of bytes in
  if u64 max_pages_per_map <=? request_n_pages request then mret (- EINVAL)
  else
    '(retval, p) ← map (vaddr_start request) (request_n_pages request);
    if (retval =? 0) && negb (p =? NULL) then
      d ← load_md p;
      n ← init (map_n_addrs d);
      l ← addrs_bytes (Z.to_nat n) d 0;
      copy_to_user (ioaddrs request) l;;
      mret retval
    else mret retval.

Definition ioctl_unmap (ref : nat) (arg : Z) : KM Z :=
  bytes ← copy_from_user arg 8;
  let addr := u64_at bytes 0 in
  p ← find_user_page_map ref addr;
  if negb (p =? NULL) then unmap_user_pages p;; mret 0
  else if has_CUDA then
    p ← find_gpu_map ref addr;
    if negb (p =? NULL) then unmap_gpu_memory p;; mret 0 else mret (- EINVAL)
  else mret (- EINVAL).

Definition ref_ioctl (i_cdev : option nat) (pid cmd arg : Z) : KM Z :=
  dev ← find_dev_by_inode i_cdev;
  match dev with
  | None => mret (- EBADF)
  | Some dev =>
      ref ← find_ref dev (Some pid);
      match ref with
      | None => mret (- EBADF)
      | Some ref =>
          if cmd =? NVM_MAP_HOST_MEMORY then ioctl_map arg (map_user_pages ref)
          else if has_CUDA && (cmd =? NVM_MAP_DEVICE_MEMORY) then ioctl_map arg (map_gpu_memory ref)
          else if cmd =? NVM_UNMAP_MEMORY then ioctl_unmap ref arg
          else mret (- EINVAL)
      end
  end.

Definition ref_mmap (i_cdev : option nat) (vma vm_start vm_end : Z) : KM Z :=
  dev ← find_dev_by_inode i_cdev;
  match dev with
  | None => mret (- EBADF)
  | Some dev =>
      d ← load_dev dev;
      if cd_pdev d =? NULL then mret (- EAGAIN)
      else
        len ← ext (Pci_resource_len (cd_pdev d));
        if k_ptr len <? u64 (vm_end - vm_start) then mret (- EINVAL)
        else
          start ← ext (Pci_resource_start (cd_pdev d));
          r ← ext (Vm_iomap_memory vma (k_ptr start) (u64 (vm_end - vm_start)));
          mret (k_val r)
  end.

(** ** PCI operations *)

Fixpoint dev_get_loop (fuel : nat) (pdev : Z) (i : nat) : KM (option nat) :=
  match fuel with
  | O => mret None
  | S fuel' =>
      dev ← ctrl_dev_get i pdev;
      match dev with
      | Some dev => mret (Some dev)
      | None => dev_get_loop fuel' pdev (S i)
      end
  end.

Definition add_pci_dev (pdev : Z) : KM Z :=
  dev ← dev_get_loop (Z.to_nat num_ctrl_devs) pdev 0;
  match dev with
  | None => mret (- ENOSPC)
  | Some dev =>
      r ← ext (Pci_request_region pdev);
      if negb (k_val r =? 0) then ctrl_dev_put dev;; mret (k_val r)
      else
        r ← ext (Pci_enable_device pdev);
        if k_val r <? 0 then
          ext (Pci_release_region pdev);;
          ctrl_dev_put dev;;
          mret (k_val r)
        else
          err ← ctrl_dev_chrdev_create dev;
          if negb (err =? 0) then
            ext (Pci_release_region pdev);;
            ext (Pci_disable_device pdev);;
            ctrl_dev_put dev;;
            mret err
          else
            ext (Pci_set_master pdev);;
            mret 0
  end.

(** [while ((ref = find_ref(dev, NULL)) != NULL) ctrl_ref_put(ref);] Each round
    releases one of the [num_ctrl_refs] slots. *)
Fixpoint put_refs_loop (fuel : nat) (dev : nat) : KM unit :=
  match fuel with
  | O => out_of_fuel
  | S fuel' =>
      ref ← find_ref dev None;
      match ref with
      | Some ref => ctrl_ref_put ref;; put_refs_loop fuel' dev
      | None => mret tt
      end
  end.

Definition remove_pci_dev (pdev : Z) : KM unit :=
  if pdev =? NULL then mret tt
  else
    ext (Pci_clear_master pdev);;
    ext (Pci_disable_device pdev);;
    ext (Pci_release_region pdev);;
    dev ← find_dev_by_pdev pdev;
    match dev with
    | None => mret tt
    | Some dev =>
        put_refs_loop (S (Z.to_nat num_ctrl_refs)) dev;;
        ctrl_dev_put dev
    end.

(** ** Loading and unloading *)

Definition ctrl_dev0 : ctrl_dev := CtrlDev 0 NULL EmptyString 0 NULL NULL.
Definition ctrl_ref0 : ctrl_ref := CtrlRef 0 None 0.

(** The list heads of [n] zeroed references. *)
Fixpoint zero_heads (n : nat) (h : nodes) : nodes :=
  match n with
  | O => h
  | S n' => zero_heads n' (<[UserHead n' := ListHead None None 0]> (<[GpuHead n' := ListHead None None 0]> h))
  end.

Fixpoint drop_heads (n : nat) (h : nodes) : nodes :=
  match n with
  | O => h
  | S n' => drop_heads n' (delete (UserHead n') (delete (GpuHead n') h))
  end.

Definition alloc_devs : KM bool :=
  r ← ext (Kcalloc (u64 num_ctrl_devs) sizeof_ctrl_dev);
  if k_val r =? 0 then modify (fun s => set_devs s None);; mret false
  else modify (fun s => set_devs s (Some (replicate (Z.to_nat num_ctrl_devs) ctrl_dev0)));; mret true.

Definition alloc_refs : KM bool :=
  r ← ext (Kcalloc (u64 num_ctrl_refs) sizeof_ctrl_ref);
  if k_val r =? 0 then modify (fun s => set_refs s None);; mret false
  else
    let n := Z.to_nat num_ctrl_refs in
    modify (fun s => set_nodes (set_refs s (Some (replicate n ctrl_ref0))) (zero_heads n (k_nodes s)));;
    mret true.

(** [kfree(ctrl_devs)] and [kfree(ctrl_refs)]. *)
Definition free_devs : KM unit :=
  s ← get_st;
  match k_devs s with Some _ => put_st (set_devs s None) | None => fail DoubleFree end.
Definition free_refs : KM unit :=
  s ← get_st;
  match k_refs s with
  | Some l => put_st (set_nodes (set_refs s None) (drop_heads (length l) (k_nodes s)))
  | None => fail DoubleFree
  end.

Fixpoint reset_devs_loop (fuel : nat) (first cls : Z) (i : nat) : KM unit :=
  match fuel with
  | O => mret tt
  | S fuel' => ctrl_dev_reset i first (Z.of_nat i) cls DRIVER_NAME;; reset_devs_loop fuel' first cls (S i)
  end.

Definition disnvme_entry : KM Z :=
  devs ← alloc_devs;
  if negb devs then mret (- ENOMEM)
  else
    refs ← alloc_refs;
    if negb refs then free_devs;; mret (- ENOMEM)
    else
      r ← ext (Alloc_chrdev_region num_ctrl_devs);
      if k_val r <? 0 then free_refs;; free_devs;; mret (k_val r)
      else
        modify (fun s => set_chrdev s (k_ptr r) (k_class s));;
        let first := k_ptr r in
        c ← ext Class_create;
        modify (fun s => set_chrdev s first (k_ptr c));;
        if k_val c <? 0 then
          ext (Unregister_chrdev_region first num_ctrl_devs);;
          free_refs;; free_devs;;
          mret (k_val c)
        else
          reset_devs_loop (Z.to_nat num_ctrl_devs) first (k_ptr c) 0;;
          p ← ext Pci_register_driver;
          if negb (k_val p =? 0) then
            ext (Class_destroy (k_ptr c));;
            ext (Unregister_chrdev_region first num_ctrl_devs);;
            free_refs;; free_devs;;
            mret (k_val p)
          else mret 0.

Definition disnvme_exit : KM unit :=
  ext Pci_unregister_driver;;
  s ← get_st;
  ext (Class_destroy (k_class s));;
  ext (Unregister_chrdev_region (k_first s) num_ctrl_devs);;
  free_refs;;
  free_devs.

End pci.
