(* ===== verification/KDriver.v ===== *)
(** * An invariant of the driver: properties of [src/module/pci.c]

    The tables of device slots and reference slots, the lists that hang off every
    reference, and the file and PCI operations that move between such states. *)
From Stdlib Require Import Sorted.
From S2P Require Import Prelude Memory Effects KTypes KList KMap KMapUser KRef KCdev KPci.

(** ** Frames *)

Section frames.
Context `{Kernel}.

(** Between [s] and [s'] only the lists of reference [i] and the objects [X] have changed. *)
Definition touches (i : nat) (X : list Z) (s s' : kstate) : Prop :=
  (forall n, n <> UserHead i -> n <> GpuHead i -> n ∉ MapNode <$> X -> k_nodes s' !! n = k_nodes s !! n)
  /\ (forall p, p ∉ X -> k_maps s' !! p = k_maps s !! p)
  /\ (forall p, p ∉ X -> k_arrays s' !! (p + 1) = k_arrays s !! (p + 1)).

Lemma user_map_ext s s' p m :
  k_maps s' !! p = k_maps s !! p -> k_arrays s' !! (p + 1) = k_arrays s !! (p + 1) ->
  user_map s p m -> user_map s' p m.
Proof. intros Hm Ha (? & [rest ?] & size & mps & rest' & ?). split; [done|]. rewrite Hm, Ha. eauto 10. Qed.

Lemma gpu_map_ext s s' p g : k_maps s' !! p = k_maps s !! p -> gpu_map s p g -> gpu_map s' p g.
Proof. intros Hm (size & n & k & addrs & ? & ?). exists size, n, k, addrs. by rewrite Hm. Qed.

Lemma map_node_in p (X : list Z) : MapNode p ∈ MapNode <$> X <-> p ∈ X.
Proof.
  split; [|apply list_elem_of_fmap_2]. by intros (q & [= ->] & ?)%list_elem_of_fmap.
Qed.

Lemma map_node_fmap n (X : list Z) : n ∈ MapNode <$> X <-> exists p, p ∈ X /\ n = MapNode p.
Proof. rewrite list_elem_of_fmap. split; intros (p & ? & ?); eauto. Qed.

(** The maps of another reference are not touched. *)
Lemma ref_maps_frame s s' i j X v :
  touches i X s s' -> i <> j -> (forall p, p ∈ view_ids v -> p ∉ X) -> ref_maps s j v -> ref_maps s' j v.
Proof.
  intros (Hn & Hm & Ha) Hij Hd []. unfold view_ids in Hd.
  assert (forall (l : list Z) head, (forall p, p ∈ l -> p ∉ X) -> head = UserHead j \/ head = GpuHead j ->
    forall n, n = head \/ n ∈ MapNode <$> l -> k_nodes s' !! n = k_nodes s !! n) as Hnodes.
  { intros l head Hl Hhead n Hin. apply Hn; destruct Hin as [->|(p & -> & Hp)%list_elem_of_fmap];
      try (destruct Hhead as [-> | ->]; congruence); try congruence.
    - intros (p & -> & _)%list_elem_of_fmap. destruct Hhead; congruence.
    - rewrite map_node_in. by apply Hl. }
  constructor; try done.
  - eapply is_list_frame; [|exact rm_user]. rewrite as_nodes_fst. apply Hnodes; [set_solver|by left].
  - eapply is_list_frame; [|exact rm_gpu]. rewrite as_nodes_fst. apply Hnodes; [set_solver|by right].
  - rewrite Forall_forall in rm_user_own |- *. intros x Hx. pose proof (ids_in _ _ Hx).
    eapply user_map_ext; [apply Hm|apply Ha|by apply rm_user_own]; apply Hd; set_solver.
  - rewrite Forall_forall in rm_gpu_own |- *. intros x Hx. pose proof (ids_in _ _ Hx).
    eapply gpu_map_ext; [apply Hm|by apply rm_gpu_own]; apply Hd; set_solver.
Qed.

(** Mapped objects are below the allocator's frontier. *)
Lemma view_ids_below s i v p : kheap_ok s -> ref_maps s i v -> p ∈ view_ids v -> p < k_next s.
Proof.
  intros [_ Hf] Hv Hp. destruct (decide (p < k_next s)) as [|Hge]; [done|].
  destruct (Hf p ltac:(lia)) as (Hn & _). apply elem_of_app in Hp as [Hp|Hp].
  - apply list_elem_of_fmap in Hp as (x & -> & Hx). pose proof (rm_user_own _ _ _ Hv) as Ho.
    rewrite Forall_forall in Ho. destruct (Ho x Hx) as (_ & _ & ? & ? & ? & E). congruence.
  - apply list_elem_of_fmap in Hp as (x & -> & Hx). pose proof (rm_gpu_own _ _ _ Hv) as Ho.
    rewrite Forall_forall in Ho. destruct (Ho x Hx) as (? & ? & ? & ? & E & _). congruence.
Qed.

(** ** The invariant *)

(** A slot is taken exactly when it refers to a device, which is then present. *)
Record slot_ok (devs : list ctrl_dev) (r : ctrl_ref) (v : view) : Prop := {
  slot_taken : Z.testbit (ref_flags r) IN_USE_BIT = bool_decide (ref_ctrl r <> None);
  slot_empty : ref_ctrl r = None -> v = ([], []);
  slot_dev : forall c, ref_ctrl r = Some c -> exists d, devs !! c = Some d /\ cd_pdev d <> NULL;
}.

(** A device slot is taken exactly when it has a PCI device; a character device needs one. *)
Record dev_ok (d : ctrl_dev) : Prop := {
  dev_taken : Z.testbit (cd_in_use d) 1 = bool_decide (cd_pdev d <> NULL);
  dev_chrdev : cd_pdev d = NULL -> cd_chrdev d = NULL;
}.

Record driver_inv (s : kstate) (V : list view) (devs : list ctrl_dev) (refs : list ctrl_ref) : Prop := {
  di_refs : k_refs s = Some refs;
  di_devs : k_devs s = Some devs;
  di_heap : kheap_ok s;
  di_nrefs : length refs = Z.to_nat num_ctrl_refs;
  di_ndevs : length devs = Z.to_nat num_ctrl_devs;
  di_views : length V = length refs;
  di_maps : forall i v, V !! i = Some v -> ref_maps s i v;
  di_disjoint : forall i j vi vj p, V !! i = Some vi -> V !! j = Some vj ->
    p ∈ view_ids vi -> p ∈ view_ids vj -> i = j;
  di_slots : forall i r v, refs !! i = Some r -> V !! i = Some v -> slot_ok devs r v;
  di_dev : forall c d, devs !! c = Some d -> dev_ok d;
}.

Definition driver_ok (s : kstate) : Prop := exists V devs refs, driver_inv s V devs refs.

(** A step that concerns reference [i] only and takes its maps from [v] to [v']. *)
Record ref_step (i : nat) (v v' : view) (s s' : kstate) : Prop := {
  rs_maps : ref_maps s' i v';
  rs_touches : exists X, touches i X s s' /\ forall p, p ∈ X -> p ∈ view_ids v \/ k_next s <= p;
  rs_ids : forall p, p ∈ view_ids v' -> p ∈ view_ids v \/ k_next s <= p;
  rs_heap : kheap_ok s';
}.

(** It keeps the invariant, if the slot of [i] fits the new maps. *)
Lemma driver_ref_step s s' V devs refs refs' i v v' r' :
  driver_inv s V devs refs -> V !! i = Some v -> ref_step i v v' s s' ->
  k_refs s' = Some refs' -> k_devs s' = Some devs -> refs' = <[i := r']> refs -> slot_ok devs r' v' ->
  driver_inv s' (<[i := v']> V) devs refs'.
Proof.
  intros HI Hi [Hv' (X & Ht & HX) Hids Hh] Hr' Hd' -> Hs. destruct HI.
  assert (i < length V)%nat by (by eapply lookup_lt_Some).
  assert (forall j vj p, j <> i -> V !! j = Some vj -> p ∈ view_ids vj ->
    ~ (p ∈ view_ids v \/ k_next s <= p)) as Hother.
  { intros j vj p Hj HVj Hp [Hin|Hge]; [by apply Hj, (di_disjoint0 j i vj v p)|].
    pose proof (view_ids_below _ _ _ _ di_heap0 (di_maps0 _ _ HVj) Hp). lia. }
  constructor; try done; rewrite ?length_insert; try done.
  - intros j vj Hj. apply list_lookup_insert_Some in Hj as [(<- & <- & _)|(Hne & Hj)]; [done|].
    eapply ref_maps_frame; [exact Ht|done| |by apply di_maps0]. intros p Hp HpX. by eapply (Hother j vj p); auto.
  - intros j k vj vk p Hj Hk Hpj Hpk.
    apply list_lookup_insert_Some in Hj as [(<- & <- & _)|(Hne & Hj)];
      apply list_lookup_insert_Some in Hk as [(<- & <- & _)|(Hne' & Hk)]; try done.
    + exfalso. by eapply (Hother k vk p); auto.
    + exfalso. by eapply (Hother j vj p); auto.
    + by eapply (di_disjoint0 j k vj vk p).
  - intros j r vj Hj HVj. apply list_lookup_insert_Some in Hj as [(<- & <- & _)|(Hne & Hj)].
    + rewrite list_lookup_insert_eq in HVj by done. by injection HVj as <-.
    + rewrite list_lookup_insert_ne in HVj by done. by apply (di_slots0 j).
Qed.

End frames.

(** ** Steps of a reference *)

Section steps.
Context `{Kernel}.

Lemma touches_frees i X ps arrs L s s' :
  frees ps arrs s s' -> only_changes L (k_nodes s) (k_nodes s') ->
  (forall p, p ∈ ps -> p ∈ X) -> (forall q, q ∈ arrs -> exists p, p ∈ X /\ q = p + 1) ->
  (forall n, n ∈ L -> n = UserHead i \/ n = GpuHead i \/ n ∈ MapNode <$> X) -> touches i X s s'.
Proof.
  intros (_ & _ & Hm & Ha) Hc Hps Harrs HL. split; [|split].
  - intros n Hu Hg HX. apply Hc. intros Hin. destruct (HL n Hin) as [|[|]]; done.
  - intros p Hp. rewrite Hm, decide_False; auto.
  - intros p Hp. rewrite Ha, decide_False; [done|]. intros (q & Hq & E)%Harrs. by assert (p = q) as -> by lia.
Qed.

Lemma kheap_ok_frees ps arrs L s s' :
  frees ps arrs s s' -> only_changes L (k_nodes s) (k_nodes s') ->
  (forall p, k_next s <= p -> MapNode p ∉ L) -> kheap_ok s -> kheap_ok s'.
Proof.
  intros (_ & Hn & Hm & Ha) Hc HL [Hpos Hf]. split; [by rewrite Hn|]. rewrite Hn. intros p Hp.
  destruct (Hf p Hp) as (H1 & H2 & H3). rewrite Hm, Ha, (Hc (MapNode p)), H1, H2, H3 by auto.
  repeat case_decide; done.
Qed.

(** Freeing mapped objects is a step, if the remaining maps are proper. *)
Lemma frees_step i v v' ps arrs L s s' :
  kheap_ok s -> ref_maps s i v -> ref_maps s' i v' -> frees ps arrs s s' -> only_changes L (k_nodes s) (k_nodes s') ->
  (forall p, p ∈ ps -> p ∈ view_ids v) -> (forall q, q ∈ arrs -> exists p, p ∈ view_ids v /\ q = p + 1) ->
  (forall n, n ∈ L -> n = UserHead i \/ n = GpuHead i \/ n ∈ MapNode <$> view_ids v) ->
  (forall p, p ∈ view_ids v' -> p ∈ view_ids v) -> ref_step i v v' s s'.
Proof.
  intros Hok Hv Hv' Hf Hc Hps Harrs HL Hids. constructor; [done| |by auto|].
  - exists (view_ids v). split; [by eapply touches_frees|by auto].
  - eapply kheap_ok_frees; [done..| |done]. intros p Hp Hin. destruct (HL _ Hin) as [[=]|[[=]|Hx%map_node_in]].
    pose proof (view_ids_below _ _ _ _ Hok Hv Hx). lia.
Qed.

Lemma as_nodes_app {A} (a b : list (Z * Z * A)) : as_nodes (a ++ b) = as_nodes a ++ as_nodes b.
Proof. apply fmap_app. Qed.
Lemma ids_app {A} (a b : list (Z * Z * A)) : ids (a ++ b) = ids a ++ ids b.
Proof. apply fmap_app. Qed.

Lemma sorted_app_remove l1 x l2 : sorted (l1 ++ x :: l2) -> sorted (l1 ++ l2).
Proof.
  unfold sorted. induction l1 as [|d l1 IH]; simpl; intros Hs; apply StronglySorted_inv in Hs as [Hs Hd]; [done|].
  constructor; [by apply IH|]. rewrite Forall_app, Forall_cons in Hd. rewrite Forall_app. tauto.
Qed.

Lemma entries_remove l1 x l2 : entries_ok (l1 ++ x :: l2) -> entries_ok (l1 ++ l2).
Proof.
  intros [Hs Hf]. split; [by eapply sorted_app_remove|]. rewrite Forall_app, Forall_cons in Hf. rewrite Forall_app. tauto.
Qed.

Lemma entries_place e l : entries_ok l -> 0 <= snd e -> entries_ok (place e l).
Proof. intros [Hs Hf] He. split; [by apply place_sorted|]. by apply place_below. Qed.

(** What changes of the lists and objects leave alone. *)
Lemma is_list_other L h h' head l (X : list Z) :
  only_changes L h h' -> is_list h head l -> l.*1 = MapNode <$> X -> head ∉ L ->
  (forall p, p ∈ X -> MapNode p ∉ L) -> is_list h' head l.
Proof.
  intros Hc Hl El Hh HX. eapply is_list_frame; [|exact Hl]. intros n [->|Hn]; [by apply Hc|]. apply Hc.
  rewrite El in Hn. apply list_elem_of_fmap in Hn as (p & -> & Hp). auto.
Qed.

Lemma user_maps_free p s s' (ul : list (Z * Z * mapping)) :
  frees [p] [p + 1] s s' -> p ∉ ids ul -> Forall (fun x => user_map s x.1.1 x.2) ul ->
  Forall (fun x => user_map s' x.1.1 x.2) ul.
Proof.
  intros Hf Hp. rewrite !Forall_forall. intros Ho x Hx. pose proof (ids_in _ _ Hx).
  assert (x.1.1 <> p) by (intros E; by rewrite E in *).
  eapply user_map_frees; [| |exact Hf|by auto]; rewrite list_elem_of_singleton; lia.
Qed.

Lemma user_maps_kept p s s' (ul : list (Z * Z * mapping)) :
  frees [p] [] s s' -> p ∉ ids ul -> Forall (fun x => user_map s x.1.1 x.2) ul ->
  Forall (fun x => user_map s' x.1.1 x.2) ul.
Proof.
  intros Hf Hp. rewrite !Forall_forall. intros Ho x Hx. pose proof (ids_in _ _ Hx).
  eapply user_map_frees; [|apply not_elem_of_nil|exact Hf|by auto]. rewrite list_elem_of_singleton. by intros <-.
Qed.

Lemma gpu_maps_free p arrs s s' (gl : list (Z * Z * gpu_mapping)) :
  frees [p] arrs s s' -> p ∉ ids gl -> Forall (fun x => gpu_map s x.1.1 x.2) gl ->
  Forall (fun x => gpu_map s' x.1.1 x.2) gl.
Proof.
  intros Hf Hp. rewrite !Forall_forall. intros Ho x Hx. pose proof (ids_in _ _ Hx).
  eapply gpu_map_frees; [|exact Hf|by auto]. rewrite list_elem_of_singleton. by intros <-.
Qed.

(** The nodes an operation on one of the lists changes. *)
Lemma listed_nodes {A} head (items : list (Z * Z * A)) n :
  n ∈ head :: (as_nodes items).*1 <-> n = head \/ exists p, p ∈ ids items /\ n = MapNode p.
Proof.
  rewrite as_nodes_fst, elem_of_cons, list_elem_of_fmap. split; intros [|(p & ? & ?)]; eauto.
Qed.

Lemma ids_middle {A} (i1 : list (Z * Z * A)) x i2 : ids (i1 ++ x :: i2) ≡ₚ x.1.1 :: ids (i1 ++ i2).
Proof. rewrite !ids_app. simpl. by rewrite Permutation_middle. Qed.

(** An entry of the user list has been unmapped. *)
Lemma user_unmapped_step i (i1 i2 : list (Z * Z * mapping)) x gl L w w' :
  let ul := i1 ++ x :: i2 in
  kheap_ok (w_st w) -> ref_maps (w_st w) i (ul, gl) ->
  unmapped (UserHead i) (as_nodes ul) (as_nodes (i1 ++ i2)) [x.1.1] [x.1.1 + 1] L w w' ->
  ref_step i (ul, gl) (i1 ++ i2, gl) (w_st w) (w_st w').
Proof.
  intros ul Hok Hv (Hl & Hc & Hf & _). pose proof Hv as [Hul Hgl Huo Hgo Hids Hue Hge Hcu]. unfold view_ids in Hids. simpl in *.
  assert (x.1.1 ∈ ids ul) as Hin by (unfold ul; rewrite ids_middle; set_solver).
  assert (forall q, q ∈ ids (i1 ++ i2) -> q ∈ ids ul) as Hsub by (intros q; unfold ul; rewrite ids_middle; set_solver).
  pose proof Hids as Hnd. unfold ul in Hnd. rewrite ids_middle in Hnd. simpl in Hnd.
  apply list.NoDup_cons in Hnd as [Hx Hnd]. rewrite elem_of_app in Hx.
  apply list.NoDup_app in Hids as (_ & Hd & _).
  eapply frees_step; [done|done| |exact Hf|exact Hc| | | |]; unfold view_ids; simpl.
  - constructor; simpl; try done.
    + eapply is_list_other; [exact Hc|exact Hgl|apply as_nodes_fst| |].
      * rewrite listed_nodes. by intros [?|(? & _ & ?)].
      * intros p Hp. rewrite listed_nodes. intros [?|(q & Hq & [= ->])]; [done|]. by apply (Hd q).
    + eapply user_maps_free; [exact Hf|tauto|]. unfold ul in Huo. rewrite Forall_app, Forall_cons in Huo. rewrite Forall_app. tauto.
    + eapply gpu_maps_free; [exact Hf|tauto|done].
    + unfold ul in Hue. rewrite as_nodes_app in *. by eapply entries_remove.
  - intros q ->%list_elem_of_singleton. set_solver.
  - intros q ->%list_elem_of_singleton. exists x.1.1. set_solver.
  - intros n. rewrite listed_nodes, map_node_fmap. intros [|(p & ? & ->)]; [tauto|]. do 2 right. exists p. set_solver.
  - intros q. rewrite !elem_of_app. intros [|]; auto.
Qed.

Lemma gpu_unmapped_step i ul (i1 i2 : list (Z * Z * gpu_mapping)) x L w w' :
  let gl := i1 ++ x :: i2 in
  kheap_ok (w_st w) -> ref_maps (w_st w) i (ul, gl) ->
  unmapped (GpuHead i) (as_nodes gl) (as_nodes (i1 ++ i2)) [x.1.1] [] L w w' ->
  ref_step i (ul, gl) (ul, i1 ++ i2) (w_st w) (w_st w').
Proof.
  intros gl Hok Hv (Hl & Hc & Hf & _). pose proof Hv as [Hul Hgl Huo Hgo Hids Hue Hge Hcu]. unfold view_ids in Hids. simpl in *.
  assert (x.1.1 ∈ ids gl) as Hin by (unfold gl; rewrite ids_middle; set_solver).
  assert (forall q, q ∈ ids (i1 ++ i2) -> q ∈ ids gl) as Hsub by (intros q; unfold gl; rewrite ids_middle; set_solver).
  pose proof Hids as Hnd. unfold gl in Hnd. rewrite ids_middle, <- Permutation_middle in Hnd.
  apply list.NoDup_cons in Hnd as [Hx Hnd]. rewrite elem_of_app in Hx.
  apply list.NoDup_app in Hids as (_ & Hd & _).
  eapply frees_step; [done|done| |exact Hf|exact Hc| | | |]; unfold view_ids; simpl.
  - constructor; simpl; try done.
    + eapply is_list_other; [exact Hc|exact Hul|apply as_nodes_fst| |].
      * rewrite listed_nodes. by intros [?|(? & _ & ?)].
      * intros p Hp. rewrite listed_nodes. intros [?|(q & Hq & [= ->])]; [done|]. by apply (Hd q).
    + eapply user_maps_kept; [exact Hf|tauto|done].
    + eapply gpu_maps_free; [exact Hf|tauto|]. unfold gl in Hgo. rewrite Forall_app, Forall_cons in Hgo. rewrite Forall_app. tauto.
    + unfold gl in Hge. rewrite as_nodes_app in *. by eapply entries_remove.
    + intros Hno. specialize (Hcu Hno). unfold gl in Hcu. symmetry in Hcu. by apply app_cons_not_nil in Hcu.
  - intros q ->%list_elem_of_singleton. set_solver.
  - intros q []%elem_of_nil.
  - intros n. rewrite listed_nodes, map_node_fmap. intros [|(p & ? & ->)]; [tauto|]. do 2 right. exists p. set_solver.
  - intros q. rewrite !elem_of_app. intros [|]; auto.
Qed.
(** Placing a new entry among the items. *)
Lemma place_items {A} p u (a : A) (items : list (Z * Z * A)) :
  exists i1 i2, items = i1 ++ i2 /\ place (MapNode p, u) (as_nodes items) = as_nodes (i1 ++ (p, u, a) :: i2).
Proof.
  destruct (place_split (MapNode p, u) (as_nodes items)) as (l1 & l2 & El & ->).
  apply fmap_app_inv in El as (i1 & i2 & -> & -> & ->). exists i1, i2. split; [done|]. by rewrite as_nodes_app.
Qed.

Lemma added_touches i X s s' :
  (forall n, n <> UserHead i -> n <> GpuHead i -> n ∉ MapNode <$> X -> k_nodes s' !! n = k_nodes s !! n) ->
  (forall q, q ∉ X -> k_maps s' !! q = k_maps s !! q) -> (forall q, q ∉ X -> k_arrays s' !! (q + 1) = k_arrays s !! (q + 1)) ->
  touches i X s s'.
Proof. by split. Qed.

(** An entry of one of the lists holds its keys. *)
Lemma keys_of_middle {A} (keys : A -> list kkey) i1 x i2 κ :
  units (keys_of keys (i1 ++ x :: i2)) κ = units (keys_of keys (i1 ++ i2)) κ + units (keys x.2) κ.
Proof. unfold keys_of. rewrite !fmap_app, !concat_app, fmap_cons. cbn [concat]. rewrite !units_app. lia. Qed.

Lemma view_keys_user i1 x i2 gl κ :
  units (view_keys (i1 ++ x :: i2, gl)) κ = units (view_keys (i1 ++ i2, gl)) κ + units (owned_keys x.2) κ.
Proof. unfold view_keys. rewrite !units_app. cbn [fst snd]. rewrite keys_of_middle. lia. Qed.

Lemma view_keys_gpu ul i1 x i2 κ :
  units (view_keys (ul, i1 ++ x :: i2)) κ = units (view_keys (ul, i1 ++ i2)) κ + units (gpu_owned_keys x.2) κ.
Proof. unfold view_keys. rewrite !units_app. cbn [fst snd]. rewrite keys_of_middle. lia. Qed.

(** A new user mapping has been added. *)
Lemma user_added_step i ul gl u m w w' :
  kheap_ok (w_st w) -> ref_maps (w_st w) i (ul, gl) -> 0 <= u ->
  added i u (as_nodes ul) (k_next (w_st w)) m w w' ->
  exists ul', ref_step i (ul, gl) (ul', gl) (w_st w) (w_st w')
    /\ (u <> 0 -> forall κ, units (view_keys (ul', gl)) κ = units (view_keys (ul, gl)) κ + units (owned_keys m) κ).
Proof.
  intros Hok Hv Hu (Hm & Hl & Hc & _ & _ & Hok' & Hmaps & Harrs & _). set (p := k_next (w_st w)) in *.
  pose proof (fun q => view_ids_below _ _ _ q Hok Hv) as Hbelow. fold p in Hbelow.
  destruct Hv as [Hul Hgl Huo Hgo Hids Hue Hge Hcu]. unfold view_ids in *. simpl in *.
  assert (p ∉ ids ul ++ ids gl) as Hp by (intros Hin; specialize (Hbelow p Hin); lia).
  assert (forall q, q ∈ ids ul ++ ids gl -> k_maps (w_st w') !! q = k_maps (w_st w) !! q
    /\ k_arrays (w_st w') !! (q + 1) = k_arrays (w_st w) !! (q + 1)) as Hsame.
  { intros q Hq. specialize (Hbelow q Hq). split; [apply Hmaps|apply Harrs]; lia. }
  assert (Forall (fun x => user_map (w_st w') x.1.1 x.2) ul) as Huo'.
  { rewrite Forall_forall in *. intros x Hx. pose proof (ids_in _ _ Hx).
    eapply user_map_ext; [apply Hsame|apply Hsame|by auto]; set_solver. }
  assert (Forall (fun x => gpu_map (w_st w') x.1.1 x.2) gl) as Hgo'.
  { rewrite Forall_forall in *. intros x Hx. pose proof (ids_in _ _ Hx). eapply gpu_map_ext; [apply Hsame|by auto]; set_solver. }
  assert (is_list (k_nodes (w_st w')) (GpuHead i) (as_nodes gl)) as Hgl'.
  { eapply is_list_other; [exact Hc|exact Hgl|apply as_nodes_fst| |].
    - rewrite elem_of_cons, listed_nodes. by intros [?|[?|(? & _ & ?)]].
    - intros q Hq. rewrite elem_of_cons, listed_nodes. apply list.NoDup_app in Hids as (_ & Hd & _).
      intros [[= ->]|[?|(k & Hk & [= ->])]]; [set_solver|done|by apply (Hd k)]. }
  assert (touches i (p :: ids ul ++ ids gl) (w_st w) (w_st w')) as Ht.
  { split; [|split; intros q Hq; [apply Hmaps; set_solver|apply Harrs; intros E; apply Hq; assert (q = p) as -> by lia; set_solver]].
    intros n Hn _ HX. apply Hc. rewrite elem_of_cons, listed_nodes. rewrite map_node_fmap in HX.
    intros [->|[?|(k & Hk & ->)]]; [|done|]; apply HX; eexists; (split; [|done]); set_solver. }
  assert (exists ul', is_list (k_nodes (w_st w')) (UserHead i) (as_nodes ul')
    /\ Forall (fun x => user_map (w_st w') x.1.1 x.2) ul' /\ entries_ok (as_nodes ul')
    /\ NoDup (ids ul' ++ ids gl) /\ (forall q, q ∈ ids ul' -> q = p \/ q ∈ ids ul)
    /\ (u <> 0 -> forall κ, units (view_keys (ul', gl)) κ = units (view_keys (ul, gl)) κ + units (owned_keys m) κ))
    as (ul' & Hl' & Ho' & He' & Hn' & Hi' & Hk').
  { destruct (Z.eqb_spec u 0); [exists ul; do 5 (split; [by auto|]); by intros []|].
    destruct (place_items p u m ul) as (i1 & i2 & -> & Epl). exists (i1 ++ (p, u, m) :: i2). rewrite <- Epl.
    split; [done|]. split; [rewrite Forall_app, Forall_cons in *; tauto|]. split; [by apply entries_place|].
    rewrite ids_middle. simpl. split; [by constructor|]. split; [intros q; by rewrite ids_middle, elem_of_cons|].
    intros _ κ. apply view_keys_user. }
  exists ul'. split; [|done]. constructor; unfold view_ids; simpl.
  - by constructor.
  - exists (p :: ids ul ++ ids gl). split; [done|]. intros q. rewrite elem_of_cons. intros [->|]; [right; lia|by left].
  - intros q. rewrite !elem_of_app. intros [Hq|Hq]; [|tauto]. destruct (Hi' q Hq) as [->|]; [right; lia|tauto].
  - done.
Qed.

Lemma gpu_added_step i ul gl u g w w' :
  kheap_ok (w_st w) -> ref_maps (w_st w) i (ul, gl) -> 0 <= u -> has_CUDA = true ->
  gpu_added i u (as_nodes gl) (k_next (w_st w)) g w w' ->
  exists gl', ref_step i (ul, gl) (ul, gl') (w_st w) (w_st w')
    /\ (u <> 0 -> forall κ, units (view_keys (ul, gl')) κ = units (view_keys (ul, gl)) κ + units (gpu_owned_keys g) κ).
Proof.
  intros Hok Hv Hu Hcuda (Hm & Hl & Hc & _ & _ & Hok' & Hmaps & Harrs & _). set (p := k_next (w_st w)) in *.
  pose proof (fun q => view_ids_below _ _ _ q Hok Hv) as Hbelow. fold p in Hbelow.
  destruct Hv as [Hul Hgl Huo Hgo Hids Hue Hge Hcu]. unfold view_ids in *. simpl in *.
  assert (p ∉ ids ul ++ ids gl) as Hp by (intros Hin; specialize (Hbelow p Hin); lia).
  assert (forall q, q ∈ ids ul ++ ids gl -> k_maps (w_st w') !! q = k_maps (w_st w) !! q) as Hsame.
  { intros q Hq. specialize (Hbelow q Hq). apply Hmaps. lia. }
  assert (Forall (fun x => user_map (w_st w') x.1.1 x.2) ul) as Huo'.
  { rewrite Forall_forall in *. intros x Hx. pose proof (ids_in _ _ Hx).
    eapply user_map_ext; [apply Hsame; set_solver|by rewrite Harrs|by auto]. }
  assert (Forall (fun x => gpu_map (w_st w') x.1.1 x.2) gl) as Hgo'.
  { rewrite Forall_forall in *. intros x Hx. pose proof (ids_in _ _ Hx). eapply gpu_map_ext; [apply Hsame|by auto]; set_solver. }
  assert (is_list (k_nodes (w_st w')) (UserHead i) (as_nodes ul)) as Hul'.
  { eapply is_list_other; [exact Hc|exact Hul|apply as_nodes_fst| |].
    - rewrite elem_of_cons, listed_nodes. by intros [?|[?|(? & _ & ?)]].
    - intros q Hq. rewrite elem_of_cons, listed_nodes. apply list.NoDup_app in Hids as (_ & Hd & _).
      intros [[= ->]|[?|(k & Hk & [= ->])]]; [set_solver|done|by apply (Hd k)]. }
  assert (touches i (p :: ids ul ++ ids gl) (w_st w) (w_st w')) as Ht.
  { split; [|split; intros q Hq; [apply Hmaps; set_solver|by rewrite Harrs]].
    intros n _ Hn HX. apply Hc. rewrite elem_of_cons, listed_nodes. rewrite map_node_fmap in HX.
    intros [->|[?|(k & Hk & ->)]]; [|done|]; apply HX; eexists; (split; [|done]); set_solver. }
  assert (exists gl', is_list (k_nodes (w_st w')) (GpuHead i) (as_nodes gl')
    /\ Forall (fun x => gpu_map (w_st w') x.1.1 x.2) gl' /\ entries_ok (as_nodes gl')
    /\ NoDup (ids ul ++ ids gl') /\ (forall q, q ∈ ids gl' -> q = p \/ q ∈ ids gl)
    /\ (u <> 0 -> forall κ, units (view_keys (ul, gl')) κ = units (view_keys (ul, gl)) κ + units (gpu_owned_keys g) κ))
    as (gl' & Hl' & Ho' & He' & Hn' & Hi' & Hk').
  { destruct (Z.eqb_spec u 0); [exists gl; do 5 (split; [by auto|]); by intros []|].
    destruct (place_items p u g gl) as (i1 & i2 & -> & Epl). exists (i1 ++ (p, u, g) :: i2). rewrite <- Epl.
    split; [done|]. split; [rewrite Forall_app, Forall_cons in *; tauto|]. split; [by apply entries_place|].
    rewrite ids_middle. simpl. split; [rewrite <- Permutation_middle; by constructor|].
    split; [intros q; by rewrite ids_middle, elem_of_cons|]. intros _ κ. apply view_keys_gpu. }
  exists gl'. split; [|done]. constructor; unfold view_ids; simpl.
  - constructor; simpl; try done. congruence.
  - exists (p :: ids ul ++ ids gl). split; [done|]. intros q. rewrite elem_of_cons. intros [->|]; [right; lia|by left].
  - intros q. rewrite !elem_of_app. intros [Hq|Hq]; [tauto|]. destruct (Hi' q Hq) as [->|]; [right; lia|tauto].
  - done.
Qed.

(** Only the allocator has moved. *)
Lemma only_next_step i v s s' : kheap_ok s -> ref_maps s i v -> only_next s s' -> ref_step i v v s s'.
Proof.
  intros [Hpos Hf] Hv [-> Hle]. simpl in Hle. constructor.
  - by destruct Hv.
  - exists []. split; [by split|by intros p ?%elem_of_nil].
  - by left.
  - split; simpl; [lia|]. intros p Hp. apply Hf. lia.
Qed.

Lemma ref_maps_empty s i :
  is_list (k_nodes s) (UserHead i) [] -> is_list (k_nodes s) (GpuHead i) [] -> ref_maps s i ([], []).
Proof.
  intros Hu Hg. assert (entries_ok []) by (split; constructor).
  constructor; [exact Hu|exact Hg|by apply Forall_nil|by apply Forall_nil|by apply NoDup_nil|done|done|done].
Qed.

(** Everything has been unmapped. *)
Lemma released_step i refs r v w w' :
  kheap_ok (w_st w) -> ref_maps (w_st w) i v -> released i refs r v w w' -> ref_step i v ([], []) (w_st w) (w_st w').
Proof.
  intros Hok Hv (Hu & Hg & Hc & (s1 & Hf & Hst) & _).
  assert (only_changes (UserHead i :: GpuHead i :: (MapNode <$> view_ids v)) (k_nodes (w_st w)) (k_nodes s1)) as Hc1
    by (rewrite Hst in Hc; exact Hc).
  assert (ref_step i v ([], []) (w_st w) s1) as [[] (X & Ht & HX) ? ?].
  { eapply frees_step; [done|done| |exact Hf|exact Hc1|done| | |].
    - rewrite Hst in Hu, Hg. by apply ref_maps_empty.
    - intros q (p & Hp & ->)%view_arrs_in. exists p. split; [|done]. unfold view_ids. set_solver.
    - intros n. rewrite !elem_of_cons. tauto.
    - by intros p ?%elem_of_nil. }
  rewrite Hst. constructor; [by constructor|by exists X|done|done].
Qed.
End steps.
