(* ===== verification/KAccount.v ===== *)
(** * What the driver holds: an account kept next to its invariant

    The ledger of [KMap] counts what the module has acquired from the kernel and
    not given back. Here it is related to the driver's state: every page pinned,
    mapping, region, enabled device, character device and number belongs to an
    entry of one of the tables or lists. *)
From S2P Require Import Prelude Memory Effects KTypes KList KMap KMapUser KRef KCdev KPci KDriver.

(** ** Sums of keys over a table *)

Definition keys_at {A} (f : nat -> A -> list kkey) (l : list A) : list kkey := concat (imap f l).

Lemma keys_at_insert {A} (f : nat -> A -> list kkey) l i x x' κ : l !! i = Some x ->
  units (keys_at f (<[i := x']> l)) κ = units (keys_at f l) κ - units (f i x) κ + units (f i x') κ.
Proof.
  unfold keys_at. revert f i. induction l as [|y l IH]; intros f i Hi; [done|]. destruct i as [|i]; simpl in *.
  - injection Hi as ->. rewrite !units_app. lia.
  - rewrite !units_app, (IH (f ∘ S) i Hi). simpl. lia.
Qed.

Lemma keys_at_none {A} (f : nat -> A -> list kkey) l : (forall i x, l !! i = Some x -> f i x = []) -> keys_at f l = [].
Proof.
  unfold keys_at. revert f. induction l as [|y l IH]; intros f Hf; simpl; [done|].
  rewrite (Hf 0%nat y) by done. apply IH. intros i x Hi. by apply (Hf (S i)).
Qed.

(** ** What a device slot holds *)

(** The region of the device, its enabling, and its character device. *)
Definition pci_keys (d : ctrl_dev) : list kkey :=
  if cd_pdev d =? NULL then [] else [KRegion (cd_pdev d); KEnabled (cd_pdev d)].
Definition chr_keys (c : nat) (d : ctrl_dev) : list kkey :=
  if cd_chrdev d =? NULL then [] else [KCdev c; KDevice (cd_rdev d)].
Definition dev_keys (c : nat) (d : ctrl_dev) : list kkey := pci_keys d ++ chr_keys c d.

(** What the loaded module holds, given what is mapped through its references. *)
Definition held_keys (V : list view) (devs : list ctrl_dev) : list kkey :=
  [KNumbers; KClass; KDriver] ++ keys_at (fun _ => view_keys) V ++ keys_at dev_keys devs.

Lemma held_keys_view V devs i v v' κ : V !! i = Some v ->
  units (held_keys (<[i := v']> V) devs) κ = units (held_keys V devs) κ - units (view_keys v) κ + units (view_keys v') κ.
Proof. intros Hi. unfold held_keys. rewrite !units_app, (keys_at_insert _ _ _ _ _ _ Hi). lia. Qed.

Lemma held_keys_dev V devs c d d' κ : devs !! c = Some d ->
  units (held_keys V (<[c := d']> devs)) κ = units (held_keys V devs) κ - units (dev_keys c d) κ + units (dev_keys c d') κ.
Proof. intros Hc. unfold held_keys. rewrite !units_app, (keys_at_insert _ _ _ _ _ _ Hc). lia. Qed.

(** ** The account *)

(** The invariant, and, of a run in which the kernel behaves as [lawful] says, a
    ledger that differs by [D] from what the state accounts for. *)
Record accounts `{Kernel} (lawful : Prop) (D : kkey -> Z) (w : kworld)
    (V : list view) (devs : list ctrl_dev) (refs : list ctrl_ref) : Prop := {
  ac_inv : driver_inv (w_st w) V devs refs;
  ac_bal : lawful -> forall κ, bal w κ = units (held_keys V devs) κ + D κ;
}.

Definition accounted `{Kernel} (lawful : Prop) (w : kworld) : Prop :=
  exists V devs refs, accounts lawful (fun _ => 0) w V devs refs.

(** Nothing is mapped at address 0; a device that was created is not NULL. *)
Definition min_addr (e : kenv) : Prop :=
  (forall w n r, kanswers e w (Get_user_pages 0 n) r -> k_val r <= 0)
  /\ (forall w len p r, kanswers e w (P2p_get_pages 0 len p) r -> k_val r <> 0)
  /\ (forall w cls rdev name r, kanswers e w (Device_create cls rdev name) r -> 0 <= k_val r -> k_ptr r <> NULL).

Section account.
Context `{Kernel} (lawful : Prop).

Lemma accounts_inv_ok D w V devs refs : accounts lawful D w V devs refs -> driver_ok (w_st w).
Proof. intros HA. by exists V, devs, refs; apply ac_inv in HA. Qed.

Lemma accounts_move D D' L w w' V devs refs refs' :
  accounts lawful D w V devs refs -> driver_inv (w_st w') V devs refs' -> kmoved w w' L ->
  (lawful -> forall κ, D κ + L κ = D' κ) -> accounts lawful D' w' V devs refs'.
Proof.
  intros [_ Hb] HI Hmv HL. split; [done|]. intros Hlaw κ. specialize (HL Hlaw κ). specialize (Hb Hlaw κ). specialize (Hmv κ). lia.
Qed.

(** A call that changes nothing but the ledger. *)
Lemma accounts_call D D' L w w' V devs refs :
  accounts lawful D w V devs refs -> w_st w' = w_st w -> kmoved w w' L ->
  (lawful -> forall κ, D κ + L κ = D' κ) -> accounts lawful D' w' V devs refs.
Proof. intros HA Hst. eapply accounts_move; [exact HA|]. rewrite Hst. apply HA. Qed.

Lemma accounts_still D w w' V devs refs :
  accounts lawful D w V devs refs -> w_st w' = w_st w -> kmoved w w' (fun _ => 0) -> accounts lawful D w' V devs refs.
Proof. intros HA Hst Hmv. eapply accounts_call; [done..|]. intros _ κ. apply Z.add_0_r. Qed.

Lemma accounts_view D D' L w w' V devs refs refs' i v v' :
  accounts lawful D w V devs refs -> V !! i = Some v -> driver_inv (w_st w') (<[i := v']> V) devs refs' -> kmoved w w' L ->
  (lawful -> forall κ, units (view_keys v) κ + D κ + L κ = units (view_keys v') κ + D' κ) ->
  accounts lawful D' w' (<[i := v']> V) devs refs'.
Proof.
  intros [_ Hb] Hi HI Hmv HL. split; [done|]. intros Hlaw κ.
  rewrite (Hmv κ), (Hb Hlaw κ), (held_keys_view V devs i v v' κ Hi). specialize (HL Hlaw κ). lia.
Qed.

Lemma accounts_dev D D' L w w' V devs refs c d d' :
  accounts lawful D w V devs refs -> devs !! c = Some d -> driver_inv (w_st w') V (<[c := d']> devs) refs -> kmoved w w' L ->
  (lawful -> forall κ, units (dev_keys c d) κ + D κ + L κ = units (dev_keys c d') κ + D' κ) ->
  accounts lawful D' w' V (<[c := d']> devs) refs.
Proof.
  intros [_ Hb] Hc HI Hmv HL. split; [done|]. intros Hlaw κ.
  rewrite (Hmv κ), (Hb Hlaw κ), (held_keys_dev V devs c d d' κ Hc). specialize (HL Hlaw κ). lia.
Qed.

(** Without devices nothing is mapped, and only what loading acquired is held. *)
Lemma held_keys_idle s V devs refs :
  driver_inv s V devs refs -> Forall (fun d => cd_pdev d = NULL) devs -> held_keys V devs = [KNumbers; KClass; KDriver].
Proof.
  intros HI Hd. rewrite Forall_lookup in Hd. unfold held_keys. rewrite !keys_at_none; [done| |].
  - intros c d Hc. specialize (Hd c d Hc). unfold dev_keys, pci_keys, chr_keys.
    by rewrite (dev_chrdev _ (di_dev _ _ _ _ HI c d Hc) Hd), Hd.
  - intros i v Hv. destruct (lookup_lt_is_Some_2 refs i) as [r Hr].
    { rewrite <- (di_views _ _ _ _ HI). by eapply lookup_lt_Some. }
    pose proof (di_slots _ _ _ _ HI _ _ _ Hr Hv) as Hs. rewrite (slot_empty _ _ _ Hs); [done|].
    destruct (ref_ctrl r) as [c|] eqn:Ec; [|done]. destruct (slot_dev _ _ _ Hs c Ec) as (d & Hc & Hp).
    by rewrite (Hd c d Hc) in Hp.
Qed.
End account.

(** Without the law there is only the invariant. *)
Lemma accounted_false `{Kernel} w : accounted False w <-> driver_ok (w_st w).
Proof.
  split; intros (V & devs & refs & HI); exists V, devs, refs; [by destruct HI|]. by split.
Qed.
