(* ===== verification/KOps.v ===== *)
(** * The driver's operations: properties of [src/module/pci.c] and [src/module/cdev.c]

    Every file operation and PCI operation takes a driver state that satisfies the
    invariant of [KDriver] to another one, keeps the account of [KAccount], and
    always returns. *)
From S2P Require Import Prelude Memory Effects KTypes KList KMap KMapUser KRef KCdev KPci KDriver KAccount.

(** ** Lookups: they change nothing *)

Section lookups.
Context `{Kernel} (e : kenv).

Lemma find_ref_loop_finds fuel dev owner i refs devs d w (Q : option nat -> kworld -> Prop) :
  k_refs (w_st w) = Some refs -> k_devs (w_st w) = Some devs -> devs !! dev = Some d ->
  (fuel + i)%nat = length refs ->
  (forall j r, refs !! j = Some r -> ref_ctrl r = Some dev -> Q (Some j) w) ->
  ((forall j r, (i <= j)%nat -> refs !! j = Some r -> owner = None -> ref_ctrl r <> Some dev) -> Q None w) ->
  wp e (find_ref_loop fuel dev owner i) w Q.
Proof.
  intros Hr Hd Hdev. revert i. induction fuel as [|fuel IH]; intros i Hf HS HN; simpl.
  - wp_step. apply HN. intros j r Hj Hlk. apply lookup_lt_Some in Hlk. lia.
  - destruct (lookup_lt_is_Some_2 refs i ltac:(lia)) as [r Hi]. wp_step. eapply wp_load_ref; [done..|].
    case_bool_decide as Hc; simpl andb.
    + destruct (match owner with None => true | Some pid => ref_owner r =? pid end) eqn:E.
      * wp_step. eapply wp_load_dev; [done..|]. wp_step. by eapply HS.
      * apply (IH (S i)); [lia|done|]. intros Hn. apply HN. intros j r' Hj Hlk Ho. by subst owner.
    + apply (IH (S i)); [lia|done|]. intros Hn. apply HN. intros j r' Hj Hlk Ho.
      destruct (decide (j = i)) as [->|]; [congruence|]. apply (Hn j r'); [lia|done|done].
Qed.

Lemma find_ref_finds dev owner refs devs d w (Q : option nat -> kworld -> Prop) :
  k_refs (w_st w) = Some refs -> k_devs (w_st w) = Some devs -> devs !! dev = Some d ->
  length refs = Z.to_nat num_ctrl_refs ->
  (forall j r, refs !! j = Some r -> ref_ctrl r = Some dev -> Q (Some j) w) ->
  ((forall j r, refs !! j = Some r -> owner = None -> ref_ctrl r <> Some dev) -> Q None w) ->
  wp e (find_ref dev owner) w Q.
Proof.
  intros Hr Hd Hdev Hl HS HN. unfold find_ref. eapply find_ref_loop_finds; [done..|lia|done|].
  intros Hn. apply HN. intros j r. apply Hn. lia.
Qed.

Lemma find_dev_by_inode_loop_finds fuel i_cdev i devs w (Q : option nat -> kworld -> Prop) :
  k_devs (w_st w) = Some devs -> (fuel + i)%nat = length devs ->
  (forall c d, devs !! c = Some d -> Q (Some c) w) -> Q None w ->
  wp e (find_dev_by_inode_loop fuel i_cdev i) w Q.
Proof.
  intros Hd. revert i. induction fuel as [|fuel IH]; intros i Hf HS HN; simpl; [by wp_step|].
  case_bool_decide; [|apply IH; [lia|done|done]].
  destruct (lookup_lt_is_Some_2 devs i ltac:(lia)) as [d Hi]. wp_step. eapply wp_load_dev; [done..|].
  wp_step. by eapply HS.
Qed.

Lemma find_dev_by_inode_finds i_cdev devs w (Q : option nat -> kworld -> Prop) :
  k_devs (w_st w) = Some devs -> length devs = Z.to_nat num_ctrl_devs ->
  (forall c d, devs !! c = Some d -> Q (Some c) w) -> Q None w ->
  wp e (find_dev_by_inode i_cdev) w Q.
Proof. intros Hd Hl HS HN. eapply find_dev_by_inode_loop_finds; [done|lia|done|done]. Qed.

Lemma find_dev_by_pdev_loop_finds fuel pdev i devs w (Q : option nat -> kworld -> Prop) :
  k_devs (w_st w) = Some devs -> (fuel + i)%nat = length devs ->
  (forall c d, devs !! c = Some d -> cd_pdev d = pdev -> Q (Some c) w) ->
  ((forall c d, (i <= c)%nat -> devs !! c = Some d -> cd_pdev d <> pdev) -> Q None w) ->
  wp e (find_dev_by_pdev_loop fuel pdev i) w Q.
Proof.
  intros Hd. revert i. induction fuel as [|fuel IH]; intros i Hf HS HN; simpl.
  - wp_step. apply HN. intros c d Hc Hlk. apply lookup_lt_Some in Hlk. lia.
  - destruct (lookup_lt_is_Some_2 devs i ltac:(lia)) as [d Hi]. wp_step. eapply wp_load_dev; [done..|].
    wp_step; zbool; [wp_step; by eapply HS|]. apply IH; [lia|done|]. intros Hn. apply HN. intros c d' Hc Hlk.
    destruct (decide (c = i)) as [->|]; [congruence|]. apply (Hn c d'); [lia|done].
Qed.
End lookups.

(** ** Devices *)

Section devices.
Context `{Kernel} (e : kenv).

Lemma wp_update_dev c devs d f w (Q : unit -> kworld -> Prop) :
  k_devs (w_st w) = Some devs -> devs !! c = Some d ->
  (forall w', w_st w' = set_devs (w_st w) (Some (<[c := f d]> devs)) -> kmoved w w' (fun _ => 0) -> Q tt w') ->
  wp e (update_dev c f) w Q.
Proof.
  intros Hd Hc HQ. unfold update_dev, store_dev. wp_step. eapply wp_load_dev; [done..|].
  wp_step. eapply wp_load_dev; [done..|]. apply wp_set_st. intros w' Hst Hmv. apply HQ; [|done]. by rewrite Hst, Hd.
Qed.

(** A released device slot. *)
Definition free_dev (d : ctrl_dev) : ctrl_dev :=
  CtrlDev (Z.clearbit (cd_in_use d) 1) NULL (cd_name d) (cd_rdev d) (cd_cls d) NULL.

Lemma ctrl_dev_put_frees c devs d w (Q : unit -> kworld -> Prop) :
  k_devs (w_st w) = Some devs -> devs !! c = Some d ->
  (forall w', w_st w' = set_devs (w_st w) (Some (<[c := free_dev d]> devs)) ->
     kmoved w w' (fun κ => - units (chr_keys c d) κ) -> Q tt w') ->
  wp e (ctrl_dev_put c) w Q.
Proof.
  intros Hd Hc HQ. assert (c < length devs)%nat by (by eapply lookup_lt_Some).
  unfold ctrl_dev_put, ctrl_dev_chrdev_remove. wp_step.
  eapply (wp_mono _ _ _ (fun _ w' => w_st w' = set_devs (w_st w) (Some (<[c := set_cd_chrdev NULL d]> devs))
    /\ kmoved w w' (fun κ => - units (chr_keys c d) κ))).
  { unfold chr_keys. wp_step. eapply wp_load_dev; [done..|]. destruct (Z.eqb_spec (cd_chrdev d) NULL) as [E|E]; simpl negb; cbn iota.
    - wp_step. split; [|intros κ; simpl; lia]. destruct d. simpl in *. subst. unfold set_cd_chrdev. simpl.
      rewrite list_insert_id by done. rewrite <- Hd. by destruct (w_st w).
    - wp_step. apply wp_kext. intros r1 w1 _ Hst1 Hmv1. wp_step. apply wp_kext. intros r2 w2 _ Hst2 Hmv2.
      eapply wp_update_dev; [by rewrite Hst2, Hst1|done|]. intros w3 Hst3 Hmv3. split; [by rewrite Hst3, Hst2, Hst1|solve_kmoved]. }
  intros [] w1 [Hst1 Hmv1]. wp_step.
  eapply wp_update_dev; [by rewrite Hst1|apply list_lookup_insert_eq; done|]. intros w2 Hst2 Hmv2. rewrite Hst1, list_insert_insert_eq in Hst2.
  eapply wp_update_dev; [by rewrite Hst2|apply list_lookup_insert_eq; done|]. intros w3 Hst3 Hmv3. rewrite Hst2, list_insert_insert_eq in Hst3.
  apply HQ; [by rewrite Hst3|solve_kmoved].
Qed.

(** Storing a device slot keeps the invariant, if nothing refers to a slot that is emptied. *)
Lemma driver_dev_step s V devs refs c d' :
  driver_inv s V devs refs -> dev_ok d' ->
  (cd_pdev d' = NULL -> forall i r, refs !! i = Some r -> ref_ctrl r <> Some c) ->
  driver_inv (set_devs s (Some (<[c := d']> devs))) V (<[c := d']> devs) refs.
Proof.
  intros [Hrefs Hdevs Hheap Hnr Hnd Hnv Hmaps Hdisj Hslots Hdevok] Hd' Hfree. constructor; simpl; try done.
  - by rewrite length_insert.
  - intros i v Hi. by destruct (Hmaps i v Hi).
  - intros i r v Hr Hv. destruct (Hslots i r v Hr Hv) as [Ht He Hdev]. constructor; [done|done|].
    intros k Hk. destruct (Hdev k Hk) as (d & Hd & Hp). destruct (decide (k = c)) as [->|].
    + exists d'. split; [apply list_lookup_insert_eq; by eapply lookup_lt_Some|]. intros Hn. by apply (Hfree Hn i r).
    + exists d. by rewrite list_lookup_insert_ne.
  - intros k d Hk. apply list_lookup_insert_Some in Hk as [(<- & <- & _)|(_ & Hk)]; [done|by eapply Hdevok].
Qed.

Lemma free_dev_ok d : dev_ok (free_dev d).
Proof. constructor; [|done]. unfold free_dev. cbn [cd_in_use]. by rewrite Z.clearbit_eq. Qed.

(** No reference is to a slot without a PCI device. *)
Lemma absent_unreferenced s V devs refs c d :
  driver_inv s V devs refs -> devs !! c = Some d -> cd_pdev d = NULL ->
  forall i r, refs !! i = Some r -> ref_ctrl r <> Some c.
Proof.
  intros HI Hd Hp i r Hr Hc. destruct (lookup_lt_is_Some_2 V i) as [v Hv].
  { rewrite (di_views _ _ _ _ HI). by eapply lookup_lt_Some. }
  destruct (slot_dev _ _ _ (di_slots _ _ _ _ HI _ _ _ Hr Hv) c Hc) as (d' & ? & ?). congruence.
Qed.

End devices.

(** ** References *)

Section references.
Context `{Kernel} (lawful : Prop) (e : kenv).

Lemma setbit_same w n : 0 <= n -> Z.testbit w n = true -> Z.setbit w n = w.
Proof.
  intros Hn Ht. apply Z.bits_inj'. intros i Hi. rewrite Z.setbit_eqb by done.
  destruct (Z.eqb_spec n i) as [<-|]; [by rewrite Ht|done].
Qed.

Lemma driver_view s V devs refs i r :
  driver_inv s V devs refs -> refs !! i = Some r -> exists v, V !! i = Some v.
Proof. intros HI Hr. apply lookup_lt_is_Some_2. rewrite (di_views _ _ _ _ HI). by eapply lookup_lt_Some. Qed.

(** The two heads of a reference with no maps are as [list_init] leaves them. *)
Lemma empty_heads s i :
  ref_maps s i ([], []) ->
  list_init (list_init (k_nodes s) (UserHead i) 0) (GpuHead i) 0 = k_nodes s.
Proof.
  intros Hv. destruct (rm_user _ _ _ Hv) as [_ [q (_ & n & Hu & _ & ->)]].
  destruct (rm_gpu _ _ _ Hv) as [_ [q' (_ & n' & Hg & _ & ->)]].
  unfold list_init. rewrite (insert_id (k_nodes s)) by exact Hu. by rewrite insert_id.
Qed.

(** A step that only writes the slot [i]. *)
Lemma driver_slot_step s V devs refs i v r' :
  driver_inv s V devs refs -> V !! i = Some v -> slot_ok devs r' v ->
  driver_inv (set_refs s (Some (<[i := r']> refs))) V devs (<[i := r']> refs).
Proof.
  intros [Hrefs Hdevs Hheap Hnr Hnd Hnv Hmaps Hdisj Hslots Hdevok] Hv Hs. constructor; simpl; try done.
  - by rewrite length_insert.
  - by rewrite length_insert.
  - intros j u Hj. by destruct (Hmaps j u Hj).
  - intros j r u Hj Hu. apply list_lookup_insert_Some in Hj as [(<- & <- & _)|(_ & Hj)]; [congruence|by eapply Hslots].
Qed.

Lemma ctrl_ref_get_ok i dev pid V devs refs r d w (Q : option nat -> kworld -> Prop) :
  accounts lawful (fun _ => 0) w V devs refs -> refs !! i = Some r -> devs !! dev = Some d -> cd_pdev d <> NULL ->
  (forall x w' refs', accounts lawful (fun _ => 0) w' V devs refs' -> length refs' = length refs -> Q x w') ->
  wp e (ctrl_ref_get i dev pid) w Q.
Proof.
  intros HA Hr Hd Hp HQ. pose proof (ac_inv _ _ _ _ _ _ HA) as HI. destruct (driver_view _ _ _ _ _ _ HI Hr) as [v Hv].
  pose proof (di_slots _ _ _ _ HI _ _ _ Hr Hv) as [Htaken Hempty Hdev].
  pose proof (di_refs _ _ _ _ HI) as Hrefs. assert (i < length refs)%nat by (by eapply lookup_lt_Some).
  unfold ctrl_ref_get. wp_step. eapply wp_load_ref; [done..|]. unfold test_and_set_bit. cbn iota. wp_step.
  eapply wp_store_ref; [done..|]. intros w1 Hst1 Hmv1. destruct (Z.testbit (ref_flags r) IN_USE_BIT) eqn:Ht.
  - wp_step. apply (HQ _ _ refs); [|done]. eapply accounts_still; [exact HA| |done]. rewrite setbit_same in Hst1 by done. rewrite Hst1.
    rewrite list_insert_id by (by destruct r). rewrite <- Hrefs. by destruct (w_st w).
  - assert (ref_ctrl r = None) as Hn.
    { destruct (ref_ctrl r); [|done]. rewrite bool_decide_eq_true_2 in Htaken by done. congruence. }
    specialize (Hempty Hn). subst v. wp_step.
    eapply wp_store_ref; [by rewrite Hst1|by apply list_lookup_insert_eq|]. intros w2 Hst2 Hmv2.
    rewrite Hst1, list_insert_insert_eq in Hst2.
    wp_step. eapply wp_on_nodes; [done|]. intros w3 Hst3 Hmv3. wp_step. eapply wp_on_nodes; [done|]. intros w4 Hst4 Hmv4. wp_step.
    rewrite Hst3, Hst2 in Hst4. unfold set_nodes, set_refs in Hst4. simpl in Hst4.
    rewrite (empty_heads (w_st w) i) in Hst4 by (by apply (di_maps _ _ _ _ HI)).
    eapply (HQ _ _ (<[i := CtrlRef (Z.setbit (ref_flags r) IN_USE_BIT) (Some dev) pid]> refs)); [|apply length_insert].
    eapply (accounts_move lawful _ _ (fun _ => 0)); [exact HA| |solve_kmoved|intros; apply Z.add_0_r].
    rewrite Hst4. apply (driver_slot_step (w_st w) V devs refs i ([], [])); [done|done|]. constructor; cbn [ref_flags ref_ctrl].
    + by rewrite Z.setbit_eq.
    + done.
    + intros c [= <-]. by exists d.
Qed.

(** Releasing a reference: afterwards the slot refers to nothing. *)
Lemma ctrl_ref_put_ok D i V devs refs r w (Q : unit -> kworld -> Prop) :
  accounts lawful D w V devs refs -> refs !! i = Some r ->
  (forall w', accounts lawful D w' (<[i := ([], [])]> V) devs (<[i := free_ref r]> refs) -> Q tt w') ->
  wp e (ctrl_ref_put i) w Q.
Proof.
  intros HA Hr HQ. pose proof (ac_inv _ _ _ _ _ _ HA) as HI. destruct (driver_view _ _ _ _ _ _ HI Hr) as [v Hv].
  pose proof (di_maps _ _ _ _ HI _ _ Hv) as Hm. pose proof (di_heap _ _ _ _ HI) as Hok.
  eapply wp_mono; [apply (ctrl_ref_put_releases e i refs r v); [done|apply (di_refs _ _ _ _ HI)|done]|]. intros [] w' Hrel.
  apply HQ. pose proof (released_step _ _ _ _ _ _ Hok Hm Hrel) as Hstep.
  destruct Hrel as (_ & _ & _ & (s1 & ((_ & Hd & _) & _) & Hst) & Hmv).
  eapply accounts_view; [exact HA|exact Hv| |exact Hmv|intros _ κ; simpl; lia].
  eapply (driver_ref_step (w_st w)); [done|done|exact Hstep|by rewrite Hst| |reflexivity|].
  - rewrite Hst. simpl. rewrite Hd. apply (di_devs _ _ _ _ HI).
  - constructor; [|done|done]. unfold free_ref. cbn [ref_flags]. by rewrite Z.clearbit_eq.
Qed.

(** A step of the maps of reference [i]. *)
Lemma driver_maps_step s s' V devs refs i r v v' :
  driver_inv s V devs refs -> refs !! i = Some r -> V !! i = Some v -> ref_ctrl r <> None ->
  ref_step i v v' s s' -> same_rest s s' -> driver_inv s' (<[i := v']> V) devs refs.
Proof.
  intros HI Hr Hv Hc Hstep (Hrefs & Hdevs & _). pose proof (di_slots _ _ _ _ HI _ _ _ Hr Hv) as [Ht _ Hd].
  assert (refs = <[i := r]> refs) as Hid by (by rewrite list_insert_id).
  eapply (driver_ref_step s); [done|done|exact Hstep| | |exact Hid|].
  - rewrite Hrefs. apply (di_refs _ _ _ _ HI).
  - rewrite Hdevs. apply (di_devs _ _ _ _ HI).
  - by constructor.
Qed.

End references.

(** ** User memory *)

Section user.
Context `{Kernel} (e : kenv).

Lemma copy_from_user_reads src n w (Q : list Z -> kworld -> Prop) :
  (forall bytes w', w_st w' = w_st w -> kmoved w w' (fun _ => 0) -> Forall (fun b => 0 <= b) bytes -> Q bytes w') ->
  wp e (copy_from_user src n) w Q.
Proof.
  intros HQ. unfold copy_from_user. wp_step. apply wp_kext. intros r w1 _ Hst1 Hmv1. repeat wp_step.
  apply HQ; [done|exact Hmv1|]. rewrite Forall_app. split.
  - unfold bytes_at. rewrite Forall_fmap. apply Forall_forall. intros i _. apply ld8_bound.
  - apply Forall_replicate. lia.
Qed.

Lemma copy_to_user_writes dst bytes w (Q : unit -> kworld -> Prop) :
  (forall w', w_st w' = w_st w -> kmoved w w' (fun _ => 0) -> Q tt w') -> wp e (copy_to_user dst bytes) w Q.
Proof.
  intros HQ. unfold copy_to_user. wp_step. apply wp_kext. intros r w1 _ Hst1 Hmv1. repeat wp_step. by apply HQ.
Qed.

Lemma u64_at_nonneg bytes i : Forall (fun b => 0 <= b) bytes -> 0 <= u64_at bytes i.
Proof.
  intros Hb. unfold u64_at. assert (Forall (fun b => 0 <= b) (take 8 (drop i bytes))) as Hf by (by apply Forall_take, Forall_drop).
  induction Hf as [|b l Hb' _ IH]; simpl; lia.
Qed.

(** The addresses of a descriptor can be copied out. *)
Definition readable (s : kstate) (p : Z) : Prop :=
  exists d l rest, k_maps s !! p = Some d /\ map_n_addrs d = Some (Z.of_nat (length l)) /\ map_addrs d = (Some <$> l) ++ rest.

Lemma addrs_bytes_reads d l done more rest w (Q : list Z -> kworld -> Prop) :
  map_addrs d = (Some <$> l) ++ rest -> l = done ++ more ->
  Q (concat (le_bytes 8 <$> more)) w -> wp e (addrs_bytes (length more) d (Z.of_nat (length done))) w Q.
Proof.
  intros Hd. revert done Q. induction more as [|a more IH]; intros done Q El HQ; simpl; [by wp_step|].
  wp_step. unfold get_addr. wp_step. eapply wp_or_fail.
  { rewrite Hd, Nat2Z.id, El, fmap_app, <- app_assoc, lookup_app_r by (rewrite length_fmap; lia).
    by rewrite length_fmap, Nat.sub_diag. }
  eapply wp_or_fail; [done|]. wp_step.
  replace (Z.of_nat (length done) + 1) with (Z.of_nat (length (done ++ [a]))) by (rewrite length_app; simpl; lia).
  apply (IH (done ++ [a])); [by rewrite <- app_assoc|]. by wp_step.
Qed.

(** A mapping request keeps whatever its mapping operation establishes. *)
Lemma ioctl_map_keeps arg map (P : kworld -> Prop) w :
  0 < max_pages_per_map < 2 ^ 48 -> P w ->
  (forall w w', w_st w' = w_st w -> kmoved w w' (fun _ => 0) -> P w -> P w') ->
  (forall vaddr n w, P w -> 0 <= n < 2 ^ 48 ->
     wp e (map vaddr n) w (fun r w' => P w' /\ (fst r = 0 -> readable (w_st w') (snd r)))) ->
  wp e (ioctl_map arg map) w (fun _ w' => P w').
Proof.
  intros Hmax HP Hstill Hmap. unfold ioctl_map. wp_step. apply copy_from_user_reads. intros bytes w1 Hst1 Hmv1 Hb.
  pose proof (Hstill _ _ Hst1 Hmv1 HP) as HP1. rewrite (u64_small max_pages_per_map) by lia. wp_step; [by wp_step|]. zbool. wp_step.
  eapply wp_mono; [apply Hmap; [done|]|].
  { split; [by apply u64_at_nonneg|]. lia. }
  intros [retval p] w2 [HP2 Hread]. cbn [fst snd] in *. wp_step; [|by wp_step].
  zbool. destruct (Hread ltac:(done)) as (d & l & rest & Hp & Hn & Ha).
  wp_step. eapply wp_load_md; [done|]. wp_step. eapply wp_or_fail; [done|]. wp_step. rewrite Nat2Z.id.
  eapply (addrs_bytes_reads d l [] l rest); [done|done|]. wp_step. apply copy_to_user_writes.
  intros w3 Hst3 Hmv3. wp_step. by apply (Hstill w2).
Qed.
End user.

(** ** Mapping and unmapping requests *)

Section requests.
Context `{Kernel} (lawful : Prop) (e : kenv).
Context (Hpins : pins e) (Hp2p : p2p_ok e) (Hmin : lawful -> min_addr e).

(** A slot taken for a device that is present. *)
Lemma slot_ref_of s V devs refs i r c :
  driver_inv s V devs refs -> refs !! i = Some r -> ref_ctrl r = Some c ->
  exists d, devs !! c = Some d /\ ref_of s i (cd_pdev d).
Proof.
  intros HI Hr Hc. destruct (driver_view _ _ _ _ _ _ HI Hr) as [v Hv].
  destruct (slot_dev _ _ _ (di_slots _ _ _ _ HI _ _ _ Hr Hv) c Hc) as (d & Hd & Hp). exists d. split; [done|].
  split; [done|]. exists refs, r, c, devs, d. repeat split; try done; [apply (di_refs _ _ _ _ HI)|apply (di_devs _ _ _ _ HI)].
Qed.

(** The invariant and the account, with the tables as they are. *)
Definition held (devs : list ctrl_dev) (refs : list ctrl_ref) (w : kworld) : Prop :=
  exists V, accounts lawful (fun _ => 0) w V devs refs.

Lemma held_still devs refs w w' : w_st w' = w_st w -> kmoved w w' (fun _ => 0) -> held devs refs w -> held devs refs w'.
Proof. intros Hst Hmv [V HA]. exists V. by eapply accounts_still. Qed.

Lemma only_next_rest s s' : only_next s s' -> same_rest s s'.
Proof. by intros [-> _]. Qed.

(** A step of the maps of reference [i] that moves as much as the view says. *)
Lemma held_step devs refs V i r v v' L w w' :
  accounts lawful (fun _ => 0) w V devs refs -> refs !! i = Some r -> ref_ctrl r <> None -> V !! i = Some v ->
  ref_step i v v' (w_st w) (w_st w') -> same_rest (w_st w) (w_st w') -> kmoved w w' L ->
  (lawful -> forall κ, units (view_keys v') κ = units (view_keys v) κ + L κ) -> held devs refs w'.
Proof.
  intros HA Hr Hc Hv Hstep Hrest Hmv HL. exists (<[i := v']> V). eapply accounts_view; [exact HA|exact Hv| |exact Hmv|].
  - eapply driver_maps_step; [apply (ac_inv _ _ _ _ _ _ HA)|done..].
  - intros Hlaw κ. rewrite (HL Hlaw κ). cbn beta. lia.
Qed.

Lemma map_user_pages_held devs refs i r vaddr n w :
  held devs refs w -> refs !! i = Some r -> ref_ctrl r <> None -> 0 <= n < 2 ^ 48 ->
  wp e (map_user_pages i vaddr n) w (fun x w' => held devs refs w' /\ (fst x = 0 -> readable (w_st w') (snd x))).
Proof.
  intros [V HA] Hr Hc Hn. destruct (decide (n = 0)) as [->|].
  { unfold map_user_pages. simpl. wp_step. split; [by exists V|done]. }
  pose proof (ac_inv _ _ _ _ _ _ HA) as HI.
  destruct (driver_view _ _ _ _ _ _ HI Hr) as [[ul gl] Hv]. pose proof (di_maps _ _ _ _ HI _ _ Hv) as Hm.
  pose proof (di_heap _ _ _ _ HI) as Hok. destruct (ref_ctrl r) as [c|] eqn:Ec; [|done].
  destruct (slot_ref_of _ _ _ _ _ _ _ HI Hr Ec) as (d & _ & Href).
  eapply wp_mono; [apply (map_user_pages_maps e i vaddr n (as_nodes ul) (cd_pdev d));
    [done|done|apply (rm_user _ _ _ Hm)|apply (rm_user_ok _ _ _ Hm)|done|lia]|].
  intros [err p] w' [[(Herr & _ & Hnx & Hmv)|(m & [= -> ->] & _ & _ & _ & Hadd)] Hcan]; cbn [fst snd] in *.
  - split; [|done]. eapply held_step; [exact HA|done|by rewrite Ec|done|by apply only_next_step|by apply only_next_rest|done|].
    intros _ κ. cbn beta. lia.
  - destruct (user_added_step i ul gl _ m w w' Hok Hm (page_addr_nonneg vaddr) Hadd) as (ul' & Hstep & Hkeys).
    destruct Hadd as ((_ & _ & size & mps & rest & Hp) & _ & _ & Hrest & _ & _ & _ & _ & Hmv). split.
    + eapply held_step; [exact HA|done|by rewrite Ec|done|exact Hstep|exact Hrest|exact Hmv|].
      intros Hlaw κ. apply Hkeys. intros E0. destruct (Hcan eq_refl) as (wg & ng & g & Hg & Hpos). rewrite E0 in Hg.
      pose proof (proj1 (Hmin Hlaw) _ _ _ Hg). lia.
    + intros _. by eexists _, (mp_addrs m), rest.
Qed.

Lemma map_gpu_memory_held devs refs i r vaddr n w :
  has_CUDA = true ->
  held devs refs w -> refs !! i = Some r -> ref_ctrl r <> None -> 0 <= n < 2 ^ 48 ->
  wp e (map_gpu_memory i vaddr n) w (fun x w' => held devs refs w' /\ (fst x = 0 -> readable (w_st w') (snd x))).
Proof.
  intros Hcuda [V HA] Hr Hc Hn. destruct (decide (n = 0)) as [->|].
  { unfold map_gpu_memory. simpl. wp_step. split; [by exists V|done]. }
  pose proof (ac_inv _ _ _ _ _ _ HA) as HI.
  destruct (driver_view _ _ _ _ _ _ HI Hr) as [[ul gl] Hv]. pose proof (di_maps _ _ _ _ HI _ _ Hv) as Hm.
  pose proof (di_heap _ _ _ _ HI) as Hok. destruct (ref_ctrl r) as [c|] eqn:Ec; [|done].
  destruct (slot_ref_of _ _ _ _ _ _ _ HI Hr Ec) as (d & _ & Href).
  eapply wp_mono; [apply (map_gpu_memory_maps e i vaddr n (as_nodes gl) (cd_pdev d));
    [done|done|apply (rm_gpu _ _ _ Hm)|apply (rm_gpu_ok _ _ _ Hm)|done|lia]|].
  intros [err p] w' [[(Herr & _ & Hnx & Hmv)|(g & [= -> ->] & _ & _ & _ & Hadd)] Hcan]; cbn [fst snd] in *.
  - split; [|done]. eapply held_step; [exact HA|done|by rewrite Ec|done|by apply only_next_step|by apply only_next_rest|done|].
    intros _ κ. cbn beta. lia.
  - destruct (gpu_added_step i ul gl _ g w w' Hok Hm (gpu_addr_nonneg vaddr) Hcuda Hadd) as (gl' & Hstep & Hkeys).
    destruct Hadd as ((size & k & na & addrs & Hp & l & rest & <- & Ha) & _ & _ & Hrest & _ & _ & _ & _ & Hmv). split.
    + eapply held_step; [exact HA|done|by rewrite Ec|done|exact Hstep|exact Hrest|exact Hmv|].
      intros Hlaw κ. apply Hkeys. intros E0. destruct (Hcan eq_refl) as (wg & len & pg & g0 & Hg & H0). rewrite E0 in Hg.
      by apply (proj1 (proj2 (Hmin Hlaw)) _ _ _ _ Hg).
    + intros _. by eexists _, l, rest.
Qed.

(** What a search finds is an entry of the list. *)
Lemma first_at_item {A} v (items : list (Z * Z * A)) n :
  first_at v (as_nodes items) = Some n -> exists i1 x i2, items = i1 ++ x :: i2 /\ n = MapNode x.1.1.
Proof.
  unfold first_at. induction items as [|x items IH]; simpl; [done|].
  destruct (decide (snd (MapNode x.1.1, x.1.2) = v)) as [Hv|Hv].
  - rewrite filter_cons_True by done. intros [= <-]. by exists [], x, items.
  - rewrite filter_cons_False by done. intros (i1 & y & i2 & -> & ->)%IH. by exists (x :: i1), y, i2.
Qed.

Lemma wp_on_nodes_same {A} (f : nodes -> option (A * nodes)) a w (Q : A -> kworld -> Prop) :
  f (k_nodes (w_st w)) = Some (a, k_nodes (w_st w)) -> Q a w -> wp e (on_nodes f) w Q.
Proof.
  intros Hf HQ. unfold on_nodes. repeat wp_step. eapply wp_or_fail; [done|]. cbn iota. repeat wp_step.
  replace (World _ _ _) with w; [done|]. by destruct w as [? [] ?].
Qed.

Lemma find_map_finds {A} head vaddr (items : list (Z * Z * A)) w (Q : Z -> kworld -> Prop) :
  is_list (k_nodes (w_st w)) head (as_nodes items) -> sorted (as_nodes items) ->
  Q NULL w -> (forall i1 x i2, items = i1 ++ x :: i2 -> Q x.1.1 w) ->
  wp e (x ← on_nodes (fun h => (fun x => (x, h)) <$> list_find h head vaddr); as_map x) w Q.
Proof.
  intros Hl Hs HN HS. wp_step. eapply wp_on_nodes_same; [by rewrite (list_find_first _ _ _ _ Hl Hs)|].
  destruct (first_at vaddr (as_nodes items)) as [n|] eqn:E; simpl; [|by wp_step].
  destruct (first_at_item _ _ _ E) as (i1 & x & i2 & Hit & ->). wp_step. by eapply HS.
Qed.

Lemma unmap_user_held devs refs i r V i1 x i2 gl w (Q : unit -> kworld -> Prop) :
  accounts lawful (fun _ => 0) w V devs refs -> refs !! i = Some r -> ref_ctrl r <> None -> V !! i = Some (i1 ++ x :: i2, gl) ->
  (forall w', held devs refs w' -> Q tt w') -> wp e (unmap_user_pages x.1.1) w Q.
Proof.
  intros HA Hr Hc Hv HQ. pose proof (ac_inv _ _ _ _ _ _ HA) as HI.
  pose proof (di_maps _ _ _ _ HI _ _ Hv) as Hm. pose proof (di_heap _ _ _ _ HI) as Hok.
  pose proof (rm_user_own _ _ _ Hm) as Ho. simpl in Ho. apply Forall_app in Ho as [_ [Ho _]%Forall_cons].
  eapply wp_mono.
  { apply (unmap_user_pages_unmaps e (UserHead i) (as_nodes i1) x.1.1 x.1.2 (as_nodes i2) x.2); [|exact Ho].
    pose proof (rm_user _ _ _ Hm) as Hl. simpl in Hl. by rewrite as_nodes_app in Hl. }
  intros [] w' Hun. apply HQ. pose proof Hun as (_ & _ & (Hrest & _) & Hmv).
  eapply held_step; [exact HA|done|done|done| |exact Hrest|exact Hmv|].
  - apply (user_unmapped_step i i1 i2 x gl (units (owned_keys x.2)) w w' Hok Hm). by rewrite !as_nodes_app.
  - intros _ κ. rewrite view_keys_user. cbn beta. lia.
Qed.

Lemma unmap_gpu_held devs refs i r V ul i1 x i2 w (Q : unit -> kworld -> Prop) :
  accounts lawful (fun _ => 0) w V devs refs -> refs !! i = Some r -> ref_ctrl r <> None -> V !! i = Some (ul, i1 ++ x :: i2) ->
  (forall w', held devs refs w' -> Q tt w') -> wp e (unmap_gpu_memory x.1.1) w Q.
Proof.
  intros HA Hr Hc Hv HQ. pose proof (ac_inv _ _ _ _ _ _ HA) as HI.
  pose proof (di_maps _ _ _ _ HI _ _ Hv) as Hm. pose proof (di_heap _ _ _ _ HI) as Hok.
  pose proof (rm_gpu_own _ _ _ Hm) as Ho. simpl in Ho. apply Forall_app in Ho as [_ [Ho _]%Forall_cons].
  eapply wp_mono.
  { apply (unmap_gpu_memory_unmaps e (GpuHead i) (as_nodes i1) x.1.1 x.1.2 (as_nodes i2) x.2); [|exact Ho].
    pose proof (rm_gpu _ _ _ Hm) as Hl. simpl in Hl. by rewrite as_nodes_app in Hl. }
  intros [] w' Hun. apply HQ. pose proof Hun as (_ & _ & (Hrest & _) & Hmv).
  eapply held_step; [exact HA|done|done|done| |exact Hrest|exact Hmv|].
  - apply (gpu_unmapped_step i ul i1 i2 x (units (gpu_owned_keys x.2)) w w' Hok Hm). by rewrite !as_nodes_app.
  - intros _ κ. rewrite view_keys_gpu. cbn beta. lia.
Qed.

Lemma ioctl_unmap_held devs refs i r arg w :
  held devs refs w -> refs !! i = Some r -> ref_ctrl r <> None ->
  wp e (ioctl_unmap i arg) w (fun _ w' => held devs refs w').
Proof.
  intros Hh Hr Hc. unfold ioctl_unmap. wp_step. apply copy_from_user_reads. intros bytes w1 Hst1 Hmv1 _.
  destruct (held_still _ _ _ _ Hst1 Hmv1 Hh) as [V HA]. pose proof (ac_inv _ _ _ _ _ _ HA) as HI.
  destruct (driver_view _ _ _ _ _ _ HI Hr) as [[ul gl] Hv]. pose proof (di_maps _ _ _ _ HI _ _ Hv) as Hm.
  assert (wp e (if has_CUDA then p ← find_gpu_map i (u64_at bytes 0);
                if negb (p =? NULL) then unmap_gpu_memory p;; mret 0 else mret (- EINVAL) else mret (- EINVAL)) w1
            (fun _ w' => held devs refs w')) as Hgpu.
  { destruct has_CUDA; [|wp_step; by exists V]. wp_step.
    eapply find_map_finds; [apply (rm_gpu _ _ _ Hm)|apply (rm_gpu_ok _ _ _ Hm)|simpl; wp_step; by exists V|].
    intros i1 x i2 Hgl. simpl in Hgl. subst gl. wp_step; [|wp_step; by exists V]. wp_step.
    eapply unmap_gpu_held; [done..|]. intros w2 Hh2. by wp_step. }
  wp_step. eapply find_map_finds; [apply (rm_user _ _ _ Hm)|apply (rm_user_ok _ _ _ Hm)|exact Hgpu|].
  intros i1 x i2 Hul. simpl in Hul. subst ul. destruct (negb (x.1.1 =? NULL)); [|exact Hgpu]. wp_step.
  eapply unmap_user_held; [done..|]. intros w2 Hh2. by wp_step.
Qed.
End requests.

(** ** File operations *)

Section file_ops.
Context `{Kernel} (lawful : Prop) (e : kenv).
Context (Hpins : pins e) (Hp2p : p2p_ok e) (Hmin : lawful -> min_addr e) (Hmax : 0 < max_pages_per_map < 2 ^ 48).

Abbreviation ok := (accounted lawful).

Lemma accounts_ok w V devs refs : accounts lawful (fun _ => 0) w V devs refs -> ok w.
Proof. intros HA. by exists V, devs, refs. Qed.

Lemma ok_still w w' : w_st w' = w_st w -> kmoved w w' (fun _ => 0) -> ok w -> ok w'.
Proof. intros Hst Hmv (V & devs & refs & HA). exists V, devs, refs. by eapply accounts_still. Qed.

Lemma ref_get_loop_ok fuel dev pid i V devs refs d w :
  accounts lawful (fun _ => 0) w V devs refs -> devs !! dev = Some d -> cd_pdev d <> NULL -> (fuel + i)%nat = length refs ->
  wp e (ref_get_loop fuel dev pid i) w (fun _ w' => ok w').
Proof.
  revert i refs w. induction fuel as [|fuel IH]; intros i refs w HA Hd Hp Hf; simpl; [wp_step; by eapply accounts_ok|].
  destruct (lookup_lt_is_Some_2 refs i ltac:(lia)) as [r Hr]. wp_step.
  eapply ctrl_ref_get_ok; [done..|]. intros x w' refs' HA' Hl. destruct x; [wp_step; by eapply accounts_ok|].
  apply (IH (S i) refs'); [done|done|done|lia].
Qed.

Lemma ref_get_ok i_cdev pid w : ok w -> wp e (ref_get i_cdev pid) w (fun _ w' => ok w').
Proof.
  intros Hok. pose proof Hok as (V & devs & refs & HA). pose proof (ac_inv _ _ _ _ _ _ HA) as HI.
  pose proof (di_devs _ _ _ _ HI) as Hdevs. unfold ref_get. wp_step.
  eapply find_dev_by_inode_finds; [done|apply (di_ndevs _ _ _ _ HI)| |by wp_step].
  intros c d Hd. wp_step. eapply wp_load_dev; [done..|]. wp_step; [by wp_step|]. zbool.
  eapply ref_get_loop_ok; [done..|]. rewrite (di_nrefs _ _ _ _ HI). lia.
Qed.

(** Find the caller's reference and go on with it. *)
Lemma with_ref {A} i_cdev pid (x : A) (k : nat -> KM A) w (Q : A -> kworld -> Prop) :
  ok w -> Q x w ->
  (forall V devs refs i r, accounts lawful (fun _ => 0) w V devs refs -> refs !! i = Some r -> ref_ctrl r <> None ->
     wp e (k i) w Q) ->
  wp e (dev ← find_dev_by_inode i_cdev;
        match dev with
        | None => mret x
        | Some dev => ref ← find_ref dev (Some pid); match ref with None => mret x | Some ref => k ref end
        end) w Q.
Proof.
  intros (V & devs & refs & HA) Hx Hk. pose proof (ac_inv _ _ _ _ _ _ HA) as HI. wp_step.
  eapply find_dev_by_inode_finds; [apply (di_devs _ _ _ _ HI)|apply (di_ndevs _ _ _ _ HI)| |by wp_step].
  intros c d Hd. wp_step.
  eapply find_ref_finds; [apply (di_refs _ _ _ _ HI)|apply (di_devs _ _ _ _ HI)|done|apply (di_nrefs _ _ _ _ HI)| |by intros _; wp_step].
  intros i r Hr Hc. eapply Hk; [done|done|]. by rewrite Hc.
Qed.

Lemma ref_put_ok i_cdev pid w : ok w -> wp e (ref_put i_cdev pid) w (fun _ w' => ok w').
Proof.
  intros Hok. unfold ref_put. apply with_ref; [done|done|]. intros V devs refs i r HA Hr _. wp_step.
  eapply ctrl_ref_put_ok; [done..|]. intros w' HA'. wp_step. by eapply accounts_ok.
Qed.

Lemma held_ok devs refs w : held lawful devs refs w -> ok w.
Proof. intros [V HA]. by eapply accounts_ok. Qed.

Lemma ref_ioctl_ok i_cdev pid cmd arg w : ok w -> wp e (ref_ioctl i_cdev pid cmd arg) w (fun _ w' => ok w').
Proof.
  intros Hok. unfold ref_ioctl. apply with_ref; [done|done|]. intros V devs refs i r HA Hr Hc.
  assert (held lawful devs refs w) as Hh by (by exists V).
  assert (forall A (m : KM A), wp e m w (fun _ w' => held lawful devs refs w') -> wp e m w (fun _ w' => ok w')) as Hweak.
  { intros A m Hm. eapply wp_mono; [exact Hm|]. intros x w' Hx. exact (held_ok _ _ _ Hx). }
  wp_step.
  - apply Hweak, ioctl_map_keeps; [done|done|by apply held_still|]. intros. by eapply map_user_pages_held.
  - wp_step; [|wp_step; [by eapply Hweak, ioctl_unmap_held|by wp_step]].
    apply andb_true_iff in E0 as [Hcuda _]. apply Hweak, ioctl_map_keeps; [done|done|by apply held_still|].
    intros. by eapply map_gpu_memory_held.
Qed.

Lemma ref_mmap_ok i_cdev vma vm_start vm_end w : ok w -> wp e (ref_mmap i_cdev vma vm_start vm_end) w (fun _ w' => ok w').
Proof.
  intros Hok. pose proof Hok as (V & devs & refs & HA). pose proof (ac_inv _ _ _ _ _ _ HA) as HI. unfold ref_mmap. wp_step.
  eapply find_dev_by_inode_finds; [apply (di_devs _ _ _ _ HI)|apply (di_ndevs _ _ _ _ HI)| |by wp_step].
  intros c d Hd. wp_step. eapply wp_load_dev; [apply (di_devs _ _ _ _ HI)|done|]. wp_step; [by wp_step|].
  wp_step. apply wp_kext. intros len w1 _ Hst1 Hmv1. pose proof (ok_still _ _ Hst1 Hmv1 Hok) as Hok1. wp_step; [by wp_step|].
  wp_step. apply wp_kext. intros st w2 _ Hst2 Hmv2. pose proof (ok_still _ _ Hst2 Hmv2 Hok1) as Hok2.
  wp_step. apply wp_kext. intros x w3 _ Hst3 Hmv3. wp_step. by apply (ok_still w2).
Qed.
End file_ops.

(** ** PCI operations *)

Section pci_ops.
Context `{Kernel} (lawful : Prop) (e : kenv) (Hmin : lawful -> min_addr e).

Abbreviation ok := (accounted lawful).

Definition unreferenced (c : nat) (refs : list ctrl_ref) : Prop := forall i r, refs !! i = Some r -> ref_ctrl r <> Some c.

(** A slot taken for [pdev] that nothing refers to; of what it stands for, [L] is not held yet. *)
Definition taken_for (pdev : Z) (L : list kkey) (V : list view) (refs : list ctrl_ref) (c : nat) (w : kworld) : Prop :=
  exists devs d, accounts lawful (fun κ => - units L κ) w V devs refs /\ devs !! c = Some d /\ cd_pdev d = pdev
  /\ unreferenced c refs.

Definition both (pdev : Z) : list kkey := [KRegion pdev; KEnabled pdev].

Lemma taken_call pdev L L' M V refs c w w' :
  taken_for pdev L V refs c w -> w_st w' = w_st w -> kmoved w w' M -> (forall κ, M κ + units L' κ = units L κ) ->
  taken_for pdev L' V refs c w'.
Proof.
  intros (devs & d & HA & Hrest) Hst Hmv HM. exists devs, d. split; [|done].
  eapply accounts_call; [exact HA|done|exact Hmv|]. intros _ κ. specialize (HM κ). cbn beta. lia.
Qed.

Lemma dev_keys_absent c d : dev_ok d -> cd_pdev d = NULL -> dev_keys c d = [].
Proof.
  intros [_ Hchr] Hp. specialize (Hchr Hp). unfold dev_keys, pci_keys, chr_keys. by rewrite Hp, Hchr.
Qed.

Lemma dev_get_loop_takes fuel pdev i V devs refs w (Q : option nat -> kworld -> Prop) :
  pdev <> NULL -> accounts lawful (fun _ => 0) w V devs refs -> (fuel + i)%nat = length devs ->
  (forall w', ok w' -> Q None w') -> (forall c w', taken_for pdev (both pdev) V refs c w' -> Q (Some c) w') ->
  wp e (dev_get_loop fuel pdev i) w Q.
Proof.
  intros Hp. revert i w. induction fuel as [|fuel IH]; intros i w HA Hf HN HS; simpl; [wp_step; by eapply HN, accounts_ok|].
  pose proof (ac_inv _ _ _ _ _ _ HA) as HI.
  destruct (lookup_lt_is_Some_2 devs i ltac:(lia)) as [d Hd]. pose proof (di_devs _ _ _ _ HI) as Hdevs.
  pose proof (di_dev _ _ _ _ HI _ _ Hd) as Hdok. pose proof Hdok as [Ht Hchr]. unfold ctrl_dev_get. do 2 wp_step.
  eapply wp_load_dev; [done..|]. unfold test_and_set_bit. cbn iota. wp_step. unfold store_dev.
  wp_step. eapply wp_load_dev; [done..|]. apply wp_set_st. intros w1 Hst1 Hmv1. rewrite Hdevs in Hst1. simpl in Hst1.
  destruct (Z.testbit (cd_in_use d) 1) eqn:Eb; simpl negb; cbn iota.
  - wp_step. apply (IH (S i)); [|lia|done|done]. eapply accounts_still; [exact HA| |done].
    rewrite Hst1, setbit_same by done. rewrite list_insert_id by (by destruct d). rewrite <- Hdevs. by destruct (w_st w).
  - assert (cd_pdev d = NULL) as Hnull.
    { destruct (decide (cd_pdev d = NULL)); [done|]. rewrite bool_decide_eq_true_2 in Ht by done. congruence. }
    wp_step. eapply wp_update_dev; [by rewrite Hst1|by apply list_lookup_insert_eq, (lookup_lt_Some devs i d)|].
    intros w2 Hst2 Hmv2. rewrite Hst1, list_insert_insert_eq in Hst2. repeat wp_step. apply HS.
    exists (<[i := set_pdev pdev (set_in_use (Z.setbit (cd_in_use d) 1) d)]> devs). eexists.
    split; [|split; [by apply list_lookup_insert_eq, (lookup_lt_Some devs i d)|split; [done|exact (absent_unreferenced _ _ _ _ _ _ HI Hd Hnull)]]].
    eapply (accounts_dev _ _ _ (fun _ => 0)); [exact HA|exact Hd| |solve_kmoved|].
    + rewrite Hst2. apply (driver_dev_step (w_st w)); [done| |by intros Hn; destruct Hp].
      constructor; cbn [set_pdev set_in_use cd_in_use cd_pdev cd_chrdev]; [|done].
      by rewrite Z.setbit_eq, bool_decide_eq_true_2.
    + intros _ κ. rewrite (dev_keys_absent i d Hdok Hnull). unfold dev_keys, pci_keys, chr_keys, both. simpl.
      rewrite (Hchr Hnull), (proj2 (Z.eqb_neq pdev NULL) Hp). simpl. lia.
Qed.

(** Giving a taken slot up again. *)
Lemma taken_put pdev V refs c w (Q : unit -> kworld -> Prop) :
  pdev <> NULL -> taken_for pdev (both pdev) V refs c w -> (forall w', ok w' -> Q tt w') -> wp e (ctrl_dev_put c) w Q.
Proof.
  intros Hp (devs & d & HA & Hd & Hpd & Hfree) HQ. pose proof (ac_inv _ _ _ _ _ _ HA) as HI.
  eapply ctrl_dev_put_frees; [apply (di_devs _ _ _ _ HI)|done|].
  intros w' Hst Hmv. apply HQ. eexists _, _, _. eapply accounts_dev; [exact HA|exact Hd| |exact Hmv|].
  - rewrite Hst. apply driver_dev_step; [exact HI|apply free_dev_ok|done].
  - intros _ κ. unfold dev_keys, pci_keys, both. rewrite units_app, Hpd, (proj2 (Z.eqb_neq pdev NULL) Hp). simpl. lia.
Qed.

Lemma chrdev_create_takes pdev V refs c w (Q : Z -> kworld -> Prop) :
  pdev <> NULL -> taken_for pdev [] V refs c w ->
  (forall err w', taken_for pdev [] V refs c w' -> Q err w') -> wp e (ctrl_dev_chrdev_create c) w Q.
Proof.
  intros Hp Ht HQ. pose proof Ht as (devs & d & HA & Hd & Hpd & Hfree). pose proof (ac_inv _ _ _ _ _ _ HA) as HI.
  pose proof (di_devs _ _ _ _ HI) as Hdevs.
  unfold ctrl_dev_chrdev_create. wp_step. eapply wp_load_dev; [done..|].
  destruct (Z.eqb_spec (cd_chrdev d) NULL) as [Hc|Hc]; simpl negb; cbn iota; [|wp_step; by eapply HQ].
  wp_step; [wp_step; by eapply HQ|]. wp_step. apply wp_kext. intros r w1 _ Hst1 Hmv1. unfold kdelta, when in Hmv1.
  destruct (Z.eqb_spec (k_val r) 0) as [Hr|Hr]; simpl negb; cbn iota.
  2:{ wp_step. apply HQ. eapply taken_call; [exact Ht|done|exact Hmv1|]. intros κ. simpl. lia. }
  wp_step. apply wp_kext. intros r' w2 Hcr Hst2 Hmv2. unfold kdelta, when in Hmv2.
  destruct (Z.ltb_spec (k_val r') 0) as [Hr'|Hr']; simpl negb in *; cbn iota in *.
  - wp_step. apply wp_kext. intros r3 w3 _ Hst3 Hmv3. wp_step. apply HQ.
    apply (taken_call pdev [] [] (fun _ => 0) V refs c w); [exact Ht|by rewrite Hst3, Hst2, Hst1|solve_kmoved|done].
  - wp_step. eapply wp_update_dev; [by rewrite Hst2, Hst1|done|]. intros w3 Hst3 Hmv3. wp_step. apply HQ.
    exists (<[c := set_cd_chrdev (k_ptr r') d]> devs). eexists.
    split; [|split; [by apply list_lookup_insert_eq, (lookup_lt_Some devs c d)|by split]].
    eapply (accounts_dev _ _ _ (units [KCdev c; KDevice (cd_rdev d)])); [exact HA|exact Hd| |solve_kmoved|].
    + rewrite Hst3, Hst2, Hst1. pose proof (di_dev _ _ _ _ HI _ _ Hd) as []. apply driver_dev_step; [done| |by subst pdev].
      constructor; [done|]. simpl. by subst pdev.
    + intros Hlaw κ. unfold dev_keys, pci_keys, chr_keys. cbn [set_cd_chrdev cd_chrdev cd_pdev cd_rdev]. rewrite Hc, !units_app.
      rewrite (proj2 (Z.eqb_neq (k_ptr r') NULL)); [simpl; lia|].
      by apply (proj2 (proj2 (Hmin Hlaw)) _ _ _ _ _ Hcr).
Qed.

Lemma taken_ok pdev V refs c w : taken_for pdev [] V refs c w -> ok w.
Proof. intros (devs & d & HA & _). by exists V, devs, refs. Qed.

Lemma add_pci_dev_ok pdev w :
  pdev <> NULL -> ok w -> wp e (add_pci_dev pdev) w (fun _ w' => ok w').
Proof.
  intros Hp (V & devs & refs & HA). pose proof (ac_inv _ _ _ _ _ _ HA) as HI. unfold add_pci_dev. wp_step.
  eapply dev_get_loop_takes; [done|done|rewrite (di_ndevs _ _ _ _ HI); lia|intros w' Hok; by wp_step|].
  intros c w1 Ht. wp_step. apply wp_kext. intros r w2 _ Hst2 Hmv2. unfold kdelta, when in Hmv2.
  assert (forall A (x : A) w, taken_for pdev (both pdev) V refs c w ->
    wp e (ctrl_dev_put c;; mret x) w (fun _ w' => ok w')) as Hput.
  { intros A x w' Ht'. wp_step. eapply taken_put; [done..|]. intros w'' Hok. by wp_step. }
  destruct (Z.eqb_spec (k_val r) 0) as [Hr|Hr]; simpl negb; cbn iota.
  2:{ apply Hput. eapply taken_call; [exact Ht|done|exact Hmv2|]. done. }
  assert (taken_for pdev [KEnabled pdev] V refs c w2) as Ht2.
  { eapply taken_call; [exact Ht|done|exact Hmv2|]. intros κ. unfold both. simpl. lia. }
  wp_step. apply wp_kext. intros r' w3 _ Hst3 Hmv3. unfold kdelta, when in Hmv3.
  destruct (Z.ltb_spec (k_val r') 0) as [Hr'|Hr']; simpl negb in *; cbn iota in *.
  - wp_step. apply wp_kext. intros r4 w4 _ Hst4 Hmv4. apply Hput.
    apply (taken_call pdev [KEnabled pdev] _ (fun κ => - one (KRegion pdev) κ) V refs c w2);
      [exact Ht2|by rewrite Hst4, Hst3|solve_kmoved|]. intros κ. unfold both. simpl. lia.
  - wp_step. eapply (chrdev_create_takes pdev V refs); [done| |].
    { eapply taken_call; [exact Ht2|done|exact Hmv3|]. intros κ. simpl. lia. }
    intros err w4 Ht4. wp_step.
    + wp_step. apply wp_kext. intros r5 w5 _ Hst5 Hmv5. wp_step. apply wp_kext. intros r6 w6 _ Hst6 Hmv6. apply Hput.
      apply (taken_call pdev [] _ (fun κ => - units (both pdev) κ) V refs c w4);
        [exact Ht4|by rewrite Hst6, Hst5|unfold both; solve_kmoved|]. intros κ. simpl. lia.
    + wp_step. apply wp_kext. intros r5 w5 _ Hst5 Hmv5. wp_step. eapply taken_ok, taken_call; [exact Ht4|done|exact Hmv5|done].
Qed.

(** Each round of the removal frees one of the references to the device. *)
Definition references (c : nat) (refs : list ctrl_ref) : nat := length (filter (fun r => ref_ctrl r = Some c) refs).

Lemma references_free c refs i r :
  refs !! i = Some r -> ref_ctrl r = Some c -> (S (references c (<[i := free_ref r]> refs)) = references c refs)%nat.
Proof.
  intros Hi Hc. unfold references. rewrite insert_take_drop by (by eapply lookup_lt_Some).
  rewrite <- (take_drop_middle refs i r Hi) at 3. rewrite !filter_app, filter_cons_False by done.
  rewrite filter_cons_True by done. rewrite !length_app. simpl. lia.
Qed.

Lemma put_refs_loop_ok D fuel c V devs refs d w (Q : unit -> kworld -> Prop) :
  accounts lawful D w V devs refs -> devs !! c = Some d -> (references c refs < fuel)%nat ->
  (forall V' refs' w', accounts lawful D w' V' devs refs' -> unreferenced c refs' -> Q tt w') ->
  wp e (put_refs_loop fuel c) w Q.
Proof.
  intros HA Hd. revert V refs w HA. induction fuel as [|fuel IH]; intros V refs w HA Hf HQ; simpl; [lia|]. wp_step.
  pose proof (ac_inv _ _ _ _ _ _ HA) as HI.
  eapply find_ref_finds; [apply (di_refs _ _ _ _ HI)|apply (di_devs _ _ _ _ HI)|done|apply (di_nrefs _ _ _ _ HI)| |].
  - intros i r Hr Hc. wp_step. eapply ctrl_ref_put_ok; [done|done|]. intros w' HA'.
    pose proof (references_free c refs i r Hr Hc). eapply IH; [done|lia|done].
  - intros Hn. wp_step. eapply HQ; [done|]. intros i r Hr. by apply (Hn i r).
Qed.

(** The device was probed, and has a slot. *)
Definition probed (pdev : Z) (s : kstate) : Prop := exists devs c d, k_devs s = Some devs /\ devs !! c = Some d /\ cd_pdev d = pdev.

Lemma remove_pci_dev_ok pdev w :
  (lawful -> pdev <> NULL -> probed pdev (w_st w)) -> ok w -> wp e (remove_pci_dev pdev) w (fun _ w' => ok w').
Proof.
  intros Hb Hok. unfold remove_pci_dev. destruct (Z.eqb_spec pdev NULL) as [Hp|Hp]; [by wp_step|].
  pose proof Hok as (V & devs & refs & HA0).
  wp_step. apply wp_kext. intros r1 w1 _ Hst1 Hmv1. wp_step. apply wp_kext. intros r2 w2 _ Hst2 Hmv2.
  wp_step. apply wp_kext. intros r3 w3 _ Hst3 Hmv3.
  assert (accounts lawful (fun κ => - units (both pdev) κ) w3 V devs refs) as HA.
  { eapply (accounts_call _ _ _ (fun κ => - units (both pdev) κ)); [exact HA0|by rewrite Hst3, Hst2, Hst1|unfold both; solve_kmoved|done]. }
  pose proof (ac_inv _ _ _ _ _ _ HA) as HI. wp_step. unfold find_dev_by_pdev.
  eapply find_dev_by_pdev_loop_finds; [apply (di_devs _ _ _ _ HI)|rewrite (di_ndevs _ _ _ _ HI); lia| |].
  - intros c d Hd Hpd. wp_step. eapply put_refs_loop_ok; [done|done| |].
    { unfold references. pose proof (length_filter (fun r => ref_ctrl r = Some c) refs). rewrite (di_nrefs _ _ _ _ HI) in *. lia. }
    intros V' refs' w4 HA4 Hfree. eapply taken_put; [exact Hp|by exists devs, d|done].
  - intros Hn. wp_step. exists V, devs, refs. split; [done|]. intros Hlaw. destruct (Hb Hlaw Hp) as (devs' & c & d & Hd' & Hc & Hpd).
    exfalso. pose proof (di_devs _ _ _ _ (ac_inv _ _ _ _ _ _ HA0)) as Hd0. assert (devs' = devs) as -> by congruence.
    apply (Hn c d); [lia|done|done].
Qed.
End pci_ops.
