(* ===== verification/KIoctl.v ===== *)
(** * Requests from user space: properties of [ref_ioctl] in [src/module/pci.c]

    What a process gets for a mapping request: the bus addresses of the pages
    pinned for it, in its own memory; and that the matching request undoes it. *)
From S2P Require Import Prelude Memory Effects KTypes KList KMap KMapUser KRef KCdev KPci KDriver KAccount KOps.

(** ** Memory is left alone *)

(** User memory is accessible, and nobody else writes to it meanwhile. *)
Definition quiet (e : kenv) : Prop :=
  (forall w c, snd (e_resp e w c) = w_mem w)
  /\ (forall w src n r, kanswers e w (Copy_from_user src n) r -> k_val r = 0)
  /\ (forall w dst n r, kanswers e w (Copy_to_user dst n) r -> k_val r = 0).

Section keeps.
Context `{Kernel} (e : kenv) (Hq : quiet e).

(** A computation without a store to memory, of a quiet kernel. *)
Definition keeps_mem {A} (m : KM A) : Prop := forall w a w', run m e w = Ok a w' -> w_mem w' = w_mem w.

Lemma keeps_bind {A B} (m : KM A) (f : A -> KM B) : keeps_mem m -> (forall a, keeps_mem (f a)) -> keeps_mem (m ≫= f).
Proof.
  intros Hm Hf w b w'. unfold run, mbind, M_bind. destruct (m e w) as [a w1| |] eqn:E; [|done..].
  intros E'. rewrite (Hf a w1 b w' E'). by eapply Hm.
Qed.

Lemma keeps_ret {A} (a : A) : keeps_mem (mret a).
Proof. by intros w x w' [= <- <-]. Qed.
Lemma keeps_fail {A} f : keeps_mem (fail f : KM A).
Proof. by intros w x w'. Qed.
Lemma keeps_out {A} : keeps_mem (out_of_fuel : KM A).
Proof. by intros w x w'. Qed.
Lemma keeps_get : keeps_mem get_st.
Proof. by intros w x w' [= <- <-]. Qed.
Lemma keeps_put s : keeps_mem (put_st s).
Proof. by intros w x w' [= <- <-]. Qed.
Lemma keeps_ext c : keeps_mem (ext c).
Proof. intros w x w' [= <- <-]. apply Hq. Qed.

Lemma wp_of_run {A} (m : KM A) a w w' (Q : A -> kworld -> Prop) : run m e w = Ok a w' -> Q a w' -> wp e m w Q.
Proof. intros Hrun HQ. unfold wp. unfold run in Hrun. by rewrite Hrun. Qed.

(** With a specification: the memory is the same afterwards. *)
Lemma wp_keeps {A} (m : KM A) w (Q : A -> kworld -> Prop) :
  keeps_mem m -> wp e m w Q -> wp e m w (fun a w' => Q a w' /\ w_mem w' = w_mem w).
Proof.
  intros Hk Hwp. destruct (wp_run _ _ _ _ Hwp) as (a & w' & Hrun & HQ). eapply wp_of_run; [exact Hrun|].
  split; [done|]. by eapply Hk.
Qed.
End keeps.

Create HintDb keeps.
#[export] Hint Resolve keeps_ret keeps_fail keeps_out keeps_get keeps_put keeps_ext : keeps.

(** Peel a computation apart; loops are left to the caller. *)
Ltac solve_keeps :=
  repeat (progress (intros; cbn zeta) || apply keeps_bind
    || match goal with |- keeps_mem _ (match ?x with _ => _ end) => destruct x end);
  eauto with keeps.

Section mapping_keeps.
Context `{Kernel} (e : kenv) (Hq : quiet e).

Lemma keeps_or_fail {A} f (x : option A) : keeps_mem e (or_fail f x).
Proof. destruct x; [apply keeps_ret|apply keeps_fail]. Qed.
Lemma keeps_modify f : keeps_mem e (modify f).
Proof. unfold modify. solve_keeps. Qed.
Hint Resolve keeps_or_fail keeps_modify : keeps.
Lemma keeps_load_md p : keeps_mem e (load_md p).
Proof. unfold load_md. solve_keeps. Qed.
Lemma keeps_load_array p : keeps_mem e (load_array p).
Proof. unfold load_array. solve_keeps. Qed.
Lemma keeps_load_ref i : keeps_mem e (load_ref i).
Proof. unfold load_ref. solve_keeps. Qed.
Lemma keeps_load_dev i : keeps_mem e (load_dev i).
Proof. unfold load_dev. solve_keeps. Qed.
Hint Resolve keeps_load_md keeps_load_array keeps_load_ref keeps_load_dev : keeps.
Lemma keeps_store_map p d : keeps_mem e (store_map p d).
Proof. unfold store_map. solve_keeps. Qed.
Hint Resolve keeps_store_map : keeps.
Lemma keeps_update_map p f : keeps_mem e (update_map p f).
Proof. unfold update_map. solve_keeps. Qed.
Lemma keeps_on_nodes {A} (f : nodes -> option (A * nodes)) : keeps_mem e (on_nodes f).
Proof. unfold on_nodes. solve_keeps. Qed.
Lemma keeps_kfree_map p : keeps_mem e (kfree_map p).
Proof. unfold kfree_map. solve_keeps. Qed.
Lemma keeps_kfree_array p : keeps_mem e (kfree_array p).
Proof. unfold kfree_array. solve_keeps. Qed.
Lemma keeps_dma_call pdev c : keeps_mem e (dma_call pdev c).
Proof. unfold dma_call. solve_keeps. Qed.
Lemma keeps_set_addr md i a : keeps_mem e (set_addr md i a).
Proof. unfold set_addr. solve_keeps. Qed.
Hint Resolve keeps_update_map keeps_on_nodes keeps_kfree_map keeps_kfree_array keeps_dma_call keeps_set_addr : keeps.
Lemma keeps_init {A} (x : option A) : keeps_mem e (init x).
Proof. apply keeps_or_fail. Qed.
Hint Resolve keeps_init : keeps.
Lemma keeps_alloc_map n size : keeps_mem e (alloc_map n size).
Proof. unfold alloc_map. solve_keeps. Qed.
Lemma keeps_lock_user_pages map vaddr n : keeps_mem e (lock_user_pages map vaddr n).
Proof. unfold lock_user_pages. solve_keeps. Qed.
Lemma keeps_dma_map_loop fuel pdev pages md i : keeps_mem e (dma_map_loop fuel pdev pages md i).
Proof. revert i. induction fuel as [|fuel IH]; intros i; simpl; solve_keeps. Qed.
Hint Resolve keeps_alloc_map keeps_lock_user_pages keeps_dma_map_loop : keeps.

Lemma keeps_map_user_pages ref vaddr n : keeps_mem e (map_user_pages ref vaddr n).
Proof. unfold map_user_pages. solve_keeps. Qed.
End mapping_keeps.

(** ** Finding the caller's reference *)

(** The first reference of process [pid] to device [c] is at [i]. *)
Definition reference_of (refs : list ctrl_ref) (c : nat) (pid : Z) (i : nat) (r : ctrl_ref) : Prop :=
  refs !! i = Some r /\ ref_ctrl r = Some c /\ ref_owner r = pid
  /\ forall j r', (j < i)%nat -> refs !! j = Some r' -> ref_ctrl r' = Some c -> ref_owner r' <> pid.

Section find.
Context `{Kernel} (e : kenv).

Lemma find_dev_by_inode_is c devs d w (Q : option nat -> kworld -> Prop) :
  k_devs (w_st w) = Some devs -> length devs = Z.to_nat num_ctrl_devs -> devs !! c = Some d ->
  Q (Some c) w -> wp e (find_dev_by_inode (Some c)) w Q.
Proof.
  intros Hd Hl Hc HQ. unfold find_dev_by_inode.
  assert (forall fuel i, (i <= c)%nat -> (fuel + i)%nat = length devs ->
    wp e (find_dev_by_inode_loop fuel (Some c) i) w Q) as Hloop.
  { induction fuel as [|fuel IH]; intros i Hi Hf; simpl; [apply lookup_lt_Some in Hc; lia|].
    destruct (decide (i = c)) as [->|Hne].
    - rewrite bool_decide_eq_true_2 by done. wp_step. eapply wp_load_dev; [done..|]. by wp_step.
    - rewrite bool_decide_eq_false_2 by congruence. apply IH; lia. }
  apply Hloop; lia.
Qed.

Lemma find_ref_is refs devs c d pid i r w (Q : option nat -> kworld -> Prop) :
  k_refs (w_st w) = Some refs -> k_devs (w_st w) = Some devs -> devs !! c = Some d ->
  length refs = Z.to_nat num_ctrl_refs -> reference_of refs c pid i r ->
  Q (Some i) w -> wp e (find_ref c (Some pid)) w Q.
Proof.
  intros Hr Hd Hc Hl (Hi & Hrc & Hro & Hfirst) HQ. unfold find_ref.
  assert (forall fuel j, (j <= i)%nat -> (fuel + j)%nat = length refs ->
    wp e (find_ref_loop fuel c (Some pid) j) w Q) as Hloop.
  { induction fuel as [|fuel IH]; intros j Hj Hf; simpl; [apply lookup_lt_Some in Hi; lia|].
    destruct (lookup_lt_is_Some_2 refs j ltac:(lia)) as [r' Hr']. wp_step. eapply wp_load_ref; [done..|].
    destruct (decide (j = i)) as [->|Hne].
    - assert (r' = r) as -> by congruence. rewrite bool_decide_eq_true_2, (proj2 (Z.eqb_eq _ _)) by done. simpl andb. cbn iota.
      wp_step. eapply wp_load_dev; [done..|]. by wp_step.
    - assert (bool_decide (ref_ctrl r' = Some c) && (ref_owner r' =? pid) = false) as ->; [|apply IH; lia].
      apply andb_false_iff. rewrite bool_decide_eq_false, Z.eqb_neq.
      destruct (decide (ref_ctrl r' = Some c)) as [Hx|]; [|by left]. right. intros Hy.
      by apply (Hfirst j r' ltac:(lia) Hr' Hx). }
  apply Hloop; lia.
Qed.
End find.

(** ** Copying requests *)

Section copy.
Context `{Kernel} (e : kenv) (Hq : quiet e).

Lemma copy_from_user_is src n w (Q : list Z -> kworld -> Prop) : 0 <= n ->
  (forall w', w_st w' = w_st w -> w_mem w' = w_mem w -> kmoved w w' (fun _ => 0) ->
     Q (bytes_at (Z.to_nat n) (w_mem w) src) w') ->
  wp e (copy_from_user src n) w Q.
Proof.
  intros Hn HQ. unfold copy_from_user. wp_step. apply wp_ext. do 2 wp_step.
  rewrite (proj1 (proj2 Hq) w src n _ eq_refl). rewrite Z.sub_0_r, app_nil_r. unfold after at 1. cbn [w_mem].
  rewrite (proj1 Hq). apply HQ; [done|apply Hq|]. intros κ. rewrite bal_after. simpl. unfold delta, kdelta. lia.
Qed.

Lemma copy_to_user_is dst bytes w (Q : unit -> kworld -> Prop) :
  (forall w', w_st w' = w_st w -> w_mem w' = st_bytes (w_mem w) dst bytes -> kmoved w w' (fun _ => 0) -> Q tt w') ->
  wp e (copy_to_user dst bytes) w Q.
Proof.
  intros HQ. unfold copy_to_user. wp_step. apply wp_ext. do 2 wp_step. wp_step.
  rewrite (proj2 (proj2 Hq) w dst _ _ eq_refl), Nat.sub_0_r, firstn_all. apply HQ; [done| |].
  - cbn [w_mem]. unfold after. cbn [w_mem]. by rewrite (proj1 Hq).
  - intros κ. unfold bal. simpl. unfold delta, kdelta. lia.
Qed.
End copy.

(** ** Mapping *)

(** The addresses are at [dst], in order, and nothing else was written. *)
Definition handed_out (addrs : list Z) (dst : Z) (m m' : mem) : Prop :=
  (forall j a, addrs !! j = Some a -> ld 8 m' (dst + 8 * Z.of_nat j) = u64 a)
  /\ (forall b, b < dst \/ dst + 8 * Z.of_nat (length addrs) <= b -> ld8 m' b = ld8 m b).

Lemma st_u64s_handed_out addrs dst m : handed_out addrs dst m (st_bytes m dst (concat (le_bytes 8 <$> addrs))).
Proof.
  split; [intros j a; apply ld_st_u64s|]. intros b Hb. rewrite ld8_st_bytes, length_u64s. by rewrite decide_False by lia.
Qed.

(** Reference [ref] maps [v] and [n] pages after it, its list of user mappings being [l]. *)
Definition ioctl_mapped `{Kernel} (ref : nat) (v n dst : Z) (l : list (knode * Z)) (pdev : Z) (w : kworld) (retval : Z)
    (w' : kworld) : Prop :=
  retval <> 0 /\ w_mem w' = w_mem w /\ only_next (w_st w) (w_st w') /\ kmoved w w' (fun _ => 0)
  \/ exists m, retval = 0 /\ mp_pdev m = pdev
     /\ 0 < Z.of_nat (length (mp_pages m)) <= n /\ (length (mp_addrs m) <= length (mp_pages m))%nat
     /\ added ref v l (k_next (w_st w)) m w w' /\ handed_out (mp_addrs m) dst (w_mem w) (w_mem w').

Section map.
Context `{Kernel} (e : kenv) (Hq : quiet e).

Lemma added_frame ref v l p m (w w' x x' : kworld) :
  w_st x = w_st w -> w_st x' = w_st w' -> kmoved x w (fun _ => 0) -> kmoved w' x' (fun _ => 0) ->
  added ref v l p m w w' -> added ref v l p m x x'.
Proof.
  intros Hst Hst' Hmv Hmv' (H1 & H2 & H3 & H4 & H5 & H6 & H7 & H8 & H9). unfold added. rewrite Hst, Hst'.
  do 8 (split; [done|]). intros κ. rewrite (Hmv' κ), (H9 κ), (Hmv κ). lia.
Qed.

Lemma ioctl_map_user ref l pdev arg w :
  pins e -> kheap_ok (w_st w) -> is_list (k_nodes (w_st w)) (UserHead ref) l -> Forall (fun d => 0 <= snd d) l ->
  ref_of (w_st w) ref pdev -> max_pages_per_map < 2 ^ 48 -> 0 < ld 8 (w_mem w) (arg + 8) < max_pages_per_map ->
  wp e (ioctl_map arg (map_user_pages ref)) w
    (ioctl_mapped ref (Z.land (ld 8 (w_mem w) arg) PAGE_MASK) (ld 8 (w_mem w) (arg + 8)) (ld 8 (w_mem w) (arg + 16)) l pdev w).
Proof.
  intros Hpin Hok Hl Hnn Href Hmax Hn. unfold ioctl_map. wp_step. apply copy_from_user_is; [done|done|].
  intros w1 Hst1 Hm1 Hmv1. unfold ioctl_map_of. cbn [vaddr_start request_n_pages ioaddrs].
  change (Z.to_nat sizeof_nvm_ioctl_map) with 24%nat. rewrite !u64_at_bytes by lia.
  change (Z.of_nat 0) with 0. change (Z.of_nat 8) with 8. change (Z.of_nat 16) with 16. rewrite Z.add_0_r.
  set (n := ld 8 (w_mem w) (arg + 8)) in *. set (v := ld 8 (w_mem w) arg). set (dst := ld 8 (w_mem w) (arg + 16)).
  rewrite (u64_small max_pages_per_map), (proj2 (Z.leb_gt _ _)) by lia. wp_step.
  eapply wp_mono; [apply (wp_keeps e), (map_user_pages_maps e ref v n l pdev);
    [by apply keeps_map_user_pages|done|by rewrite ?Hst1..|lia]|].
  intros [retval p] w2 [[Hmap _] Hm2]. 
  destruct Hmap as [(Hne & Hp & Hnx & Hmv2)|(m & [= -> ->] & Hpd & Hpg & Hle & Hadd)]; cbn [fst snd] in *.
  - subst p. rewrite (proj2 (Z.eqb_neq retval 0)) by done. simpl andb. cbn iota. wp_step. left. split; [done|].
    split; [congruence|]. split; [by rewrite <- Hst1|solve_kmoved].
  - rewrite (proj2 (Z.eqb_neq (k_next (w_st w1)) NULL)) by (rewrite Hst1; destruct Hok; unfold NULL; lia). simpl andb. cbn iota.
    pose proof Hadd as ((_ & _ & size & mps & rest & Hd) & _). wp_step. eapply wp_load_md; [done|].
    wp_step. eapply wp_or_fail; [done|]. wp_step. rewrite Nat2Z.id.
    eapply (addrs_bytes_reads e _ (mp_addrs m) [] (mp_addrs m) rest); [done|done|]. wp_step. apply copy_to_user_is; [done|].
    intros w3 Hst3 Hm3 Hmv3. wp_step. right. exists m. rewrite <- Hst1. do 4 (split; [done|]). split.
    + by eapply added_frame.
    + rewrite Hm3, Hm2, Hm1. apply st_u64s_handed_out.
Qed.

(** The matching request undoes it. *)
Lemma ioctl_unmap_user ref v l m arg (w w1 : kworld) :
  kheap_ok (w_st w) -> sorted l -> Z.land v PAGE_MASK <> 0 -> added ref (Z.land v PAGE_MASK) l (k_next (w_st w)) m w w1 ->
  ld 8 (w_mem w1) arg = v ->
  wp e (ioctl_unmap ref arg) w1 (fun r w2 => r = 0 /\ restored ref l w w2).
Proof.
  intros Hok Hs Hv Hadd Harg. unfold ioctl_unmap. wp_step. apply copy_from_user_is; [done|done|]. intros w2 Hst2 _ Hmv2.
  change (Z.to_nat 8) with 8%nat. rewrite u64_at_bytes by lia. change (Z.of_nat 0) with 0. rewrite Z.add_0_r, Harg.
  assert (added ref (Z.land v PAGE_MASK) l (k_next (w_st w)) m w w2) as Hadd2.
  { eapply added_frame; [done|exact Hst2|apply kmoved_refl|exact Hmv2|exact Hadd]. }
  pose proof Hadd2 as (_ & Hl & _). rewrite (proj2 (Z.eqb_neq _ 0)) in Hl by done. wp_step.
  pose proof (find_user_page_map_finds e ref v _ (k_next (w_st w)) w2 Hl (place_sorted _ _ Hs) (first_at_place _ _ _)) as Hrun.
  eapply wp_of_run; [exact Hrun|].
  rewrite (proj2 (Z.eqb_neq (k_next (w_st w)) NULL)) by (destruct Hok; unfold NULL; lia). simpl negb. cbn iota.
  wp_step. eapply wp_mono; [by eapply (unmap_added e ref _ l m w)|]. intros [] w3 Hr. by wp_step.
Qed.
End map.

(** ** Property *)

Section property.
Context `{Kernel} (e : kenv) (Hq : quiet e).

(** The request of a process that holds the reference [i]. *)
Lemma wp_ref_ioctl V devs refs c d pid i r cmd arg w (Q : Z -> kworld -> Prop) :
  driver_inv (w_st w) V devs refs -> devs !! c = Some d -> reference_of refs c pid i r ->
  wp e (if cmd =? NVM_MAP_HOST_MEMORY then ioctl_map arg (map_user_pages i)
        else if has_CUDA && (cmd =? NVM_MAP_DEVICE_MEMORY) then ioctl_map arg (map_gpu_memory i)
        else if cmd =? NVM_UNMAP_MEMORY then ioctl_unmap i arg
        else mret (- EINVAL)) w Q ->
  wp e (ref_ioctl (Some c) pid cmd arg) w Q.
Proof.
  intros HI Hc Hr HQ. unfold ref_ioctl. wp_step.
  eapply find_dev_by_inode_is; [apply (di_devs _ _ _ _ HI)|apply (di_ndevs _ _ _ _ HI)|done|]. wp_step.
  by eapply find_ref_is; [apply (di_refs _ _ _ _ HI)|apply (di_devs _ _ _ _ HI)|done|apply (di_nrefs _ _ _ _ HI)|exact Hr|].
Qed.

(** The tables do not change: requests find the same reference again. *)
Lemma wp_ref_ioctl_again V devs refs c d pid i r cmd arg (w w' : kworld) (Q : Z -> kworld -> Prop) :
  driver_inv (w_st w) V devs refs -> same_rest (w_st w) (w_st w') -> devs !! c = Some d -> reference_of refs c pid i r ->
  cmd = NVM_UNMAP_MEMORY -> NVM_UNMAP_MEMORY <> NVM_MAP_HOST_MEMORY -> NVM_UNMAP_MEMORY <> NVM_MAP_DEVICE_MEMORY ->
  wp e (ioctl_unmap i arg) w' Q -> wp e (ref_ioctl (Some c) pid cmd arg) w' Q.
Proof.
  intros HI (Hrefs & Hdevs & _) Hc Hr -> Hne Hne' HQ. unfold ref_ioctl. wp_step.
  eapply find_dev_by_inode_is; [rewrite Hdevs; apply (di_devs _ _ _ _ HI)|apply (di_ndevs _ _ _ _ HI)|done|]. wp_step.
  eapply find_ref_is; [rewrite Hrefs; apply (di_refs _ _ _ _ HI)|rewrite Hdevs; apply (di_devs _ _ _ _ HI)|done
    |apply (di_nrefs _ _ _ _ HI)|exact Hr|].
  by rewrite (proj2 (Z.eqb_neq _ _) Hne), (proj2 (Z.eqb_neq _ _) Hne'), andb_false_r, Z.eqb_refl.
Qed.

End property.

(** ** Witness *)

#[local] Instance ioctl_kernel : Kernel := {|
  has_CUDA := false; PAGE_SHIFT := 12; dma_mapping_error _ _ := 0; MAJOR _ := 0; MINOR _ := 0;
  MKDEV _ n := n; IOW _ n _ := n; num_ctrl_devs := 1; num_ctrl_refs := 1; max_pages_per_map := 32768 |}.

(** Two pages can be pinned; the bus address of a page is the page. *)
Definition ioctl_kenv : kenv := Env (fun w c =>
  (match c with
   | Get_user_pages _ n => KResp (Z.min n 2) 0 0 (take (Z.to_nat n) [0x77000; 0x78000])
   | Dma_map_page _ page => KResp 0 page 0 []
   | Kmalloc _ | Kcalloc _ _ => KResp 1 0 0 []
   | _ => KResp 0 5 0 []
   end, w_mem w)) 10.

Lemma ioctl_kenv_pins : pins ioctl_kenv.
Proof. intros w v n r -> Hn. right. simpl. split; [lia|]. rewrite length_take. simpl. lia. Qed.

Lemma ioctl_kenv_quiet : quiet ioctl_kenv.
Proof. split; [done|]. by split; intros w a n r ->. Qed.

(** One device at 9, open by process 33; a request for three pages at 0x7000, whose
    addresses go to 0x9000, is at 0x5000. *)
Definition ioctl_kstate : kstate :=
  KState {[UserHead 0 := ListHead None None 0; GpuHead 0 := ListHead None None 0]} empty empty 1
    (Some [CtrlRef 2 (Some 0%nat) 33]) (Some [CtrlDev 2 9 "disnvme0" 0 0 0]) 0 0.
Definition ioctl_world : kworld :=
  World (st 8 (st 8 (st 8 empty 0x5000 0x7000) 0x5008 3) 0x5010 0x9000) ioctl_kstate [].

Lemma ioctl_kstate_inv :
  driver_inv ioctl_kstate [([], [])] [CtrlDev 2 9 "disnvme0" 0 0 0] [CtrlRef 2 (Some 0%nat) 33].
Proof.
  assert (forall h, ioctl_kstate.(k_nodes) !! h = Some (ListHead None None 0) -> is_list (k_nodes ioctl_kstate) h []) as Hl.
  { intros h Hh. split; [by apply NoDup_singleton|]. exists (Some h). split; [done|]. by exists None. }
  constructor; try done.
  - intros i v Hi. apply list_lookup_singleton_Some in Hi as [-> <-]. by apply ref_maps_empty; apply Hl.
  - intros i j vi vj p Hi Hj _ _. apply list_lookup_singleton_Some in Hi as [-> _].
    by apply list_lookup_singleton_Some in Hj as [-> _].
  - intros i r v Hi Hv. apply list_lookup_singleton_Some in Hi as [-> <-].
    apply list_lookup_singleton_Some in Hv as [_ <-]. constructor; [done|done|]. intros c [= <-]. by eexists.
  - intros c d Hc. by apply list_lookup_singleton_Some in Hc as [-> <-].
Qed.

Lemma ioctl_result :
  match run (ref_ioctl (Some 0%nat) 33 NVM_MAP_HOST_MEMORY 0x5000) ioctl_kenv ioctl_world with
  | Ok v w1 => (v =? 0) && (ld 8 (w_mem w1) 0x9000 =? 0x77000) && (ld 8 (w_mem w1) 0x9008 =? 0x78000)
  | _ => false
  end = true.
Proof. by vm_compute. Qed.

