(* ===== verification/KModule.v ===== *)
(** * The life of the module: properties of [src/module/pci.c]

    Loading and unloading, and the transition system of everything that can
    happen to the driver: it is loaded and unloaded, devices come and go, files
    are opened, used and closed, and the NVIDIA driver takes pages back. *)
From S2P Require Import Prelude Memory Effects KTypes KList KMap KMapUser KRef KCdev KPci KDriver KAccount KOps.

(** ** Loading *)

Definition unloaded (s : kstate) : Prop := k_refs s = None /\ k_devs s = None /\ kheap_ok s.

(** The module is not loaded and, of a lawful run, holds nothing but [D]. *)
Definition gone `{Kernel} (lawful : Prop) (D : kkey -> Z) (w : kworld) : Prop :=
  unloaded (w_st w) /\ (lawful -> forall κ, bal w κ = D κ).

Section load.
Context `{Kernel} (lawful : Prop) (e : kenv) (sizeof_ctrl_dev sizeof_ctrl_ref : Z).

Lemma zero_heads_lookup n h x :
  zero_heads n h !! x = match x with
    | UserHead i | GpuHead i => if decide (i < n)%nat then Some (ListHead None None 0) else h !! x
    | MapNode _ => h !! x
    end.
Proof.
  revert h. induction n as [|n IH]; intros h; simpl; [by destruct x|]. rewrite IH. destruct x as [i|i|p].
  - destruct (decide (i = n)) as [->|]; [rewrite decide_False, decide_True by lia; apply lookup_insert_eq|].
    rewrite !lookup_insert_ne by congruence. repeat case_decide; done || lia.
  - destruct (decide (i = n)) as [->|].
    + rewrite decide_False, decide_True by lia. rewrite lookup_insert_ne by done. apply lookup_insert_eq.
    + rewrite !lookup_insert_ne by congruence. repeat case_decide; done || lia.
  - by rewrite !lookup_insert_ne.
Qed.

Lemma drop_heads_lookup n h p : drop_heads n h !! MapNode p = h !! MapNode p.
Proof. revert h. induction n as [|n IH]; intros h; simpl; [done|]. by rewrite IH, !lookup_delete_ne. Qed.

Lemma empty_list h head : h !! head = Some (ListHead None None 0) -> is_list h head [].
Proof. intros Hh. split; [by apply NoDup_singleton|]. exists (Some head). split; [done|]. by exists None. Qed.

(** Freshly allocated tables satisfy the invariant. *)
Lemma loaded_inv s devs :
  kheap_ok s -> k_devs s = Some devs -> length devs = Z.to_nat num_ctrl_devs -> Forall dev_ok devs ->
  let n := Z.to_nat num_ctrl_refs in
  k_refs s = Some (replicate n ctrl_ref0) -> (exists h, k_nodes s = zero_heads n h) ->
  driver_inv s (replicate n ([], [])) devs (replicate n ctrl_ref0).
Proof.
  intros Hok Hd Hl Hdev n Hr [h Hh]. constructor; try done; rewrite ?length_replicate; try done.
  - intros i v [-> Hi]%lookup_replicate. apply ref_maps_empty; apply empty_list; rewrite Hh, zero_heads_lookup;
      by rewrite decide_True by lia.
  - intros i j vi vj p [-> _]%lookup_replicate _ Hp. by apply elem_of_nil in Hp.
  - intros i r v [-> _]%lookup_replicate [-> _]%lookup_replicate. by constructor.
  - intros c d Hc. rewrite Forall_lookup in Hdev. by eapply Hdev.
Qed.

Lemma reset_devs_loop_resets fuel first cls i devs w (Q : unit -> kworld -> Prop) :
  k_devs (w_st w) = Some devs -> (fuel + i)%nat = length devs -> Forall dev_ok devs ->
  Forall (fun d => cd_pdev d = NULL) devs ->
  (forall devs' w', w_st w' = set_devs (w_st w) (Some devs') -> length devs' = length devs -> Forall dev_ok devs' ->
     Forall (fun d => cd_pdev d = NULL) devs' -> kmoved w w' (fun _ => 0) -> Q tt w') ->
  wp e (reset_devs_loop fuel first cls i) w Q.
Proof.
  revert i devs w. induction fuel as [|fuel IH]; intros i devs w Hd Hf Hok Hn HQ; simpl.
  - wp_step. apply (HQ devs); [|done|done|done|apply kmoved_refl]. rewrite <- Hd. by destruct (w_st w).
  - destruct (lookup_lt_is_Some_2 devs i ltac:(lia)) as [d Hi]. unfold ctrl_dev_reset, store_dev. do 2 wp_step.
    eapply wp_load_dev; [done..|]. wp_step. eapply wp_load_dev; [done..|]. apply wp_set_st. intros w1 Hst1 Hmv1.
    rewrite Hd in Hst1. simpl in Hst1. eapply IH; [by rewrite Hst1|rewrite length_insert; lia| | |].
    + apply Forall_insert; [done|]. constructor; [|done]. cbn [cd_in_use]. by rewrite Z.clearbit_eq.
    + by apply Forall_insert.
    + intros devs' w2 Hst2 Hl2 Hok2 Hn2 Hmv2. rewrite length_insert in Hl2.
      apply (HQ devs'); [by rewrite Hst2, Hst1|done|done|done|solve_kmoved].
Qed.

Lemma wp_free_refs l w (Q : unit -> kworld -> Prop) :
  k_refs (w_st w) = Some l ->
  (forall w', w_st w' = set_nodes (set_refs (w_st w) None) (drop_heads (length l) (k_nodes (w_st w))) ->
     kmoved w w' (fun _ => 0) -> Q tt w') ->
  wp e free_refs w Q.
Proof.
  intros Hl HQ. unfold free_refs. wp_step. wp_step. rewrite Hl. wp_step. apply HQ; [done|]. intros κ. unfold bal. simpl. lia.
Qed.

Lemma wp_free_devs l w (Q : unit -> kworld -> Prop) :
  k_devs (w_st w) = Some l ->
  (forall w', w_st w' = set_devs (w_st w) None -> kmoved w w' (fun _ => 0) -> Q tt w') -> wp e free_devs w Q.
Proof.
  intros Hl HQ. unfold free_devs. wp_step. wp_step. rewrite Hl. wp_step. apply HQ; [done|]. intros κ. unfold bal. simpl. lia.
Qed.

(** Freeing both tables leaves the module unloaded. *)
Lemma free_tables {A} D refs devs (m : KM A) w (Q : A -> kworld -> Prop) :
  k_refs (w_st w) = Some refs -> k_devs (w_st w) = Some devs -> kheap_ok (w_st w) -> (lawful -> forall κ, bal w κ = D κ) ->
  (forall w', gone lawful D w' -> wp e m w' Q) -> wp e (free_refs;; free_devs;; m) w Q.
Proof.
  intros Hr Hd [Hpos Hf] Hb HQ. wp_step. eapply wp_free_refs; [done|]. intros w1 Hst1 Hmv1. wp_step.
  eapply wp_free_devs; [by rewrite Hst1|]. intros w2 Hst2 Hmv2. apply HQ. split.
  - rewrite Hst2, Hst1. split; [done|]. split; [done|]. split; [done|]. intros p Hp. simpl. rewrite drop_heads_lookup. by apply Hf.
  - intros Hlaw κ. rewrite (Hmv2 κ), (Hmv1 κ), (Hb Hlaw κ). lia.
Qed.

(** Both tables have been allocated, and [D] has been acquired. *)
Definition tables (D : kkey -> Z) (devs : list ctrl_dev) (w : kworld) : Prop :=
  let n := Z.to_nat num_ctrl_refs in let s := w_st w in
  k_refs s = Some (replicate n ctrl_ref0) /\ k_devs s = Some devs /\ kheap_ok s
  /\ (exists h, k_nodes s = zero_heads n h) /\ (lawful -> forall κ, bal w κ = D κ).

Lemma tables_call D D' L devs w w' :
  tables D devs w -> w_st w' = w_st w -> kmoved w w' L -> (forall κ, D κ + L κ = D' κ) -> tables D' devs w'.
Proof.
  intros (Hr & Hd & Hok & Hh & Hb) Hst Hmv HL. unfold tables. rewrite Hst. do 4 (split; [done|]).
  intros Hlaw κ. rewrite (Hmv κ), (Hb Hlaw κ). apply HL.
Qed.

Lemma tables_chrdev D devs w w' first cls :
  tables D devs w -> w_st w' = set_chrdev (w_st w) first cls -> kmoved w w' (fun _ => 0) -> tables D devs w'.
Proof.
  intros (Hr & Hd & Hok & Hh & Hb) Hst Hmv. unfold tables. rewrite Hst. do 4 (split; [done|]).
  intros Hlaw κ. rewrite (Hmv κ), (Hb Hlaw κ). lia.
Qed.

Lemma tables_freed {A} D devs (m : KM A) w (Q : A -> kworld -> Prop) :
  tables D devs w -> (forall w', gone lawful D w' -> wp e m w' Q) -> wp e (free_refs;; free_devs;; m) w Q.
Proof. intros (Hr & Hd & Hok & _ & Hb). by eapply (free_tables D). Qed.

(** The loaded module holds what loading acquires. *)
Lemma tables_loaded devs w :
  tables (units [KNumbers; KClass; KDriver]) devs w -> length devs = Z.to_nat num_ctrl_devs -> Forall dev_ok devs ->
  Forall (fun d => cd_pdev d = NULL) devs -> accounted lawful w.
Proof.
  intros (Hr & Hd & Hok & Hh & Hb) Hl Hdev Hn.
  pose proof (loaded_inv (w_st w) devs Hok Hd Hl Hdev Hr Hh) as HI. eexists _, _, _. split; [exact HI|].
  intros Hlaw κ. rewrite (held_keys_idle _ _ _ _ HI Hn), (Hb Hlaw κ). lia.
Qed.

(** Both allocations. *)
Lemma alloc_tables {A} (fail_devs fail_refs go : KM A) w (Q : A -> kworld -> Prop) :
  gone lawful (fun _ => 0) w ->
  (forall w', gone lawful (fun _ => 0) w' -> wp e fail_devs w' Q) ->
  (forall w', gone lawful (fun _ => 0) w' -> wp e fail_refs w' Q) ->
  (forall w', tables (fun _ => 0) (replicate (Z.to_nat num_ctrl_devs) ctrl_dev0) w' -> wp e go w' Q) ->
  wp e (devs ← alloc_devs sizeof_ctrl_dev;
        if negb devs then fail_devs
        else refs ← alloc_refs sizeof_ctrl_ref; if negb refs then free_devs;; fail_refs else go) w Q.
Proof.
  intros [(Hr0 & Hd0 & Hok) Hb] HD HR HG. unfold alloc_devs, alloc_refs. do 2 wp_step.
  apply wp_kext. intros r w1 _ Hst1 Hmv1. wp_step.
  { wp_step. apply wp_set_st. intros w2 Hst2 Hmv2. wp_step. apply HD. split; [|intros Hlaw κ; specialize (Hb Hlaw κ); solve_kmoved_at κ].
    rewrite Hst2, Hst1. by repeat split; try apply Hok. }
  wp_step. apply wp_set_st. intros w2 Hst2 Hmv2. wp_step. simpl negb. cbn iota. do 2 wp_step.
  apply wp_kext. intros r' w3 _ Hst3 Hmv3. set (devs := replicate (Z.to_nat num_ctrl_devs) ctrl_dev0) in *. wp_step.
  { wp_step. apply wp_set_st. intros w4 Hst4 Hmv4. wp_step. simpl negb. cbn iota. wp_step.
    eapply wp_free_devs; [by rewrite Hst4, Hst3, Hst2|]. intros w5 Hst5 Hmv5. apply HR.
    split; [|intros Hlaw κ; specialize (Hb Hlaw κ); solve_kmoved_at κ].
    rewrite Hst5, Hst4, Hst3, Hst2, Hst1. by repeat split; try apply Hok. }
  wp_step. apply wp_set_st. intros w4 Hst4 Hmv4. wp_step. simpl negb. cbn iota. apply HG.
  rewrite Hst3, Hst2, Hst1 in Hst4. unfold set_nodes, set_refs, set_devs in Hst4. simpl in Hst4.
  unfold tables. rewrite Hst4. simpl. split; [done|]. split; [done|]. split; [|split; [by eexists|]].
  - destruct Hok as [Hpos Hf]. split; [done|]. intros p. simpl. rewrite zero_heads_lookup. apply Hf.
  - intros Hlaw κ. specialize (Hb Hlaw κ). solve_kmoved_at κ.
Qed.

Lemma disnvme_entry_loads w :
  gone lawful (fun _ => 0) w ->
  wp e (disnvme_entry sizeof_ctrl_dev sizeof_ctrl_ref) w
    (fun r w' => r = 0 /\ accounted lawful w' \/ r <> 0 /\ gone lawful (fun _ => 0) w').
Proof.
  intros Hg. unfold disnvme_entry. eapply alloc_tables; [exact Hg|intros w1 Hg1; wp_step; by right..|].
  intros w1 Ht1. wp_step. apply wp_kext. intros r w2 _ Hst2 Hmv2. unfold kdelta, when in Hmv2.
  destruct (Z.ltb_spec (k_val r) 0) as [Hr|Hr]; simpl negb in *; cbn iota in *.
  { eapply tables_freed; [eapply tables_call; [exact Ht1|done|exact Hmv2|done]|]. intros w3 Hg3. wp_step. right. split; [lia|done]. }
  assert (tables (units [KNumbers]) (replicate (Z.to_nat num_ctrl_devs) ctrl_dev0) w2) as Ht2.
  { eapply tables_call; [exact Ht1|done|exact Hmv2|]. intros κ. simpl. lia. }
  wp_step. apply wp_set_st. intros w3 Hst3 Hmv3. pose proof (tables_chrdev _ _ _ _ _ _ Ht2 Hst3 Hmv3) as Ht3.
  wp_step. apply wp_kext. intros c w4 _ Hst4 Hmv4. unfold kdelta, when in Hmv4. wp_step. apply wp_set_st. intros w5 Hst5 Hmv5.
  destruct (Z.ltb_spec (k_val c) 0) as [Hc|Hc]; simpl negb in *; cbn iota in *.
  { assert (tables (units [KNumbers]) (replicate (Z.to_nat num_ctrl_devs) ctrl_dev0) w5) as Ht5.
    { eapply tables_chrdev; [|exact Hst5|exact Hmv5]. eapply tables_call; [exact Ht3|done|exact Hmv4|]. intros κ. simpl. lia. }
    wp_step. apply wp_kext. intros r6 w6 _ Hst6 Hmv6.
    eapply tables_freed; [eapply tables_call; [exact Ht5|done|exact Hmv6|]|].
    { intros κ. unfold kdelta. simpl. instantiate (1 := fun _ => 0). simpl. lia. }
    intros w7 Hg7. wp_step. right. split; [lia|done]. }
  assert (tables (units [KNumbers; KClass]) (replicate (Z.to_nat num_ctrl_devs) ctrl_dev0) w5) as Ht5.
  { eapply tables_chrdev; [|exact Hst5|exact Hmv5]. eapply tables_call; [exact Ht3|done|exact Hmv4|]. intros κ. simpl. lia. }
  wp_step. eapply reset_devs_loop_resets; [apply Ht5|rewrite length_replicate; lia| | |].
  { apply Forall_replicate. by constructor. }
  { by apply Forall_replicate. }
  intros devs' w6 Hst6 Hl6 Hdev6 Hn6 Hmv6. rewrite length_replicate in Hl6.
  assert (tables (units [KNumbers; KClass]) devs' w6) as Ht6.
  { destruct Ht5 as (? & _ & ? & ? & Hb5). unfold tables. rewrite Hst6. do 4 (split; [done|]).
    intros Hlaw κ. rewrite (Hmv6 κ), (Hb5 Hlaw κ). lia. }
  wp_step. apply wp_kext. intros p w7 _ Hst7 Hmv7. unfold kdelta, when in Hmv7.
  destruct (Z.eqb_spec (k_val p) 0) as [Hp|Hp]; simpl negb in *; cbn iota in *.
  - wp_step. left. split; [done|]. apply (tables_loaded devs'); [|done..].
    eapply tables_call; [exact Ht6|done|exact Hmv7|]. intros κ. simpl. lia.
  - wp_step. apply wp_kext. intros r8 w8 _ Hst8 Hmv8. wp_step. apply wp_kext. intros r9 w9 _ Hst9 Hmv9.
    apply (tables_freed (fun _ => 0) devs'); [|intros w10 Hg10; wp_step; by right].
    eapply (tables_call _ _ (fun κ => - units [KNumbers; KClass] κ)); [exact Ht6|by rewrite Hst9, Hst8|solve_kmoved|].
    intros κ. lia.
Qed.

(** Nothing is bound to the driver any more. *)
Definition idle (s : kstate) : Prop := exists devs, k_devs s = Some devs /\ Forall (fun d => cd_pdev d = NULL) devs.

Lemma disnvme_exit_unloads w :
  (lawful -> idle (w_st w)) -> accounted lawful w -> wp e disnvme_exit w (fun _ w' => gone lawful (fun _ => 0) w').
Proof.
  intros Hidle (V & devs & refs & HA). pose proof (ac_inv _ _ _ _ _ _ HA) as HI.
  unfold disnvme_exit. wp_step. apply wp_kext. intros r1 w1 _ Hst1 Hmv1. wp_step. wp_step.
  wp_step. apply wp_kext. intros r2 w2 _ Hst2 Hmv2. wp_step. apply wp_kext. intros r3 w3 _ Hst3 Hmv3.
  assert (w_st w3 = w_st w) as Hst by congruence.
  change (wp e (free_refs;; free_devs) w3 (fun _ w' => gone lawful (fun _ => 0) w')).
  wp_step. eapply wp_free_refs; [rewrite Hst; apply (di_refs _ _ _ _ HI)|]. intros w4 Hst4 Hmv4.
  eapply wp_free_devs; [rewrite Hst4, Hst; apply (di_devs _ _ _ _ HI)|]. intros w5 Hst5 Hmv5. split.
  - rewrite Hst5, Hst4, Hst. destruct (di_heap _ _ _ _ HI) as [Hpos Hf]. split; [done|]. split; [done|]. split; [done|].
    intros p Hp. simpl. rewrite drop_heads_lookup. by apply Hf.
  - intros Hlaw κ. destruct (Hidle Hlaw) as (devs' & Hd' & Hn). pose proof (di_devs _ _ _ _ HI) as Hd.
    assert (devs' = devs) as -> by congruence. pose proof (ac_bal _ _ _ _ _ _ HA Hlaw κ) as Hb.
    rewrite (held_keys_idle _ _ _ _ HI Hn) in Hb. solve_kmoved_at κ.
Qed.
End load.

(** ** The driver takes pages back *)

Lemma link_unique h p x l q l' q' : link h p x l q None -> link h p x l' q' None -> l = l'.
Proof.
  revert p x l'. induction l as [|[i v] l IH]; intros p x [|[i' v'] l']; simpl; [done| | |].
  - by intros [_ ->] (? & _).
  - by intros (-> & _) [_ ?].
  - intros (-> & n & Hi & Hl) ([= <-] & n' & Hi' & Hl'). rewrite Hi in Hi'. injection Hi' as <- <-. f_equal. by eapply IH.
Qed.

Lemma is_list_unique h head l l' : is_list h head l -> is_list h head l' -> l = l'.
Proof.
  intros [_ [q Hl]] [_ [q' Hl']]. by pose proof (link_unique _ _ _ _ _ _ _ Hl Hl') as [=].
Qed.

Section free.
Context `{Kernel} (lawful : Prop) (e : kenv).

(** The entry [p] of a list of GPU mappings has pages. *)
Definition gpu_listed (s : kstate) (p : Z) : Prop :=
  exists i l d pages, (i < Z.to_nat num_ctrl_refs)%nat /\ is_list (k_nodes s) (GpuHead i) l /\ MapNode p ∈ l.*1
  /\ k_maps s !! p = Some d /\ map_pages d = Some pages /\ pages <> NULL.

Lemma item_of {A} p (items : list (Z * Z * A)) :
  MapNode p ∈ (as_nodes items).*1 -> exists i1 x i2, items = i1 ++ x :: i2 /\ p = x.1.1.
Proof.
  rewrite as_nodes_fst, map_node_in. intros (x & -> & (i1 & i2 & ->)%list_elem_of_split)%list_elem_of_fmap.
  by exists i1, x, i2.
Qed.

(** Replacing what an entry of the GPU list describes. *)
Lemma gpu_replaced_step i ul i1 x i2 g' d s :
  let v := (ul, i1 ++ x :: i2) in
  kheap_ok s -> ref_maps s i v -> let s' := set_maps s (<[x.1.1 := d]> (k_maps s)) in
  gpu_map s' x.1.1 g' -> ref_step i v (ul, i1 ++ (x.1, g') :: i2) s s'.
Proof.
  intros v Hok [Hul Hgl Huo Hgo Hids Hue Hge Hcu] s' Hg'. unfold view_ids, v in *. simpl in *.
  assert (as_nodes (i1 ++ (x.1, g') :: i2) = as_nodes (i1 ++ x :: i2)) as En by (by rewrite !as_nodes_app).
  assert (ids (i1 ++ (x.1, g') :: i2) = ids (i1 ++ x :: i2)) as Ei by (by rewrite !ids_app).
  pose proof Hids as Hnd. rewrite ids_middle, <- Permutation_middle in Hnd. apply list.NoDup_cons in Hnd as [Hx _].
  rewrite elem_of_app, ids_app, elem_of_app in Hx.
  assert (forall q, q <> x.1.1 -> k_maps s' !! q = k_maps s !! q) as Hsame by (intros q Hq; by apply lookup_insert_ne).
  assert (forall (l : list (Z * Z * gpu_mapping)), x.1.1 ∉ ids l -> Forall (fun y => gpu_map s y.1.1 y.2) l ->
    Forall (fun y => gpu_map s' y.1.1 y.2) l) as Hkeep.
  { intros l Hn. rewrite !Forall_forall. intros Ho y Hy. pose proof (ids_in _ _ Hy).
    eapply gpu_map_ext; [apply Hsame; intros E; by rewrite E in *|by apply Ho]. }
  constructor; unfold view_ids; simpl.
  - constructor; simpl; rewrite ?En; try done.
    + rewrite Forall_forall in *. intros y Hy. pose proof (ids_in _ _ Hy).
      eapply user_map_ext; [apply Hsame; intros E; rewrite E in *; tauto|done|by apply Huo].
    + apply Forall_app in Hgo as [Ho1 [_ Ho2]%Forall_cons]. rewrite Forall_app, Forall_cons.
      split; [apply Hkeep; tauto|split; [done|apply Hkeep; tauto]].
    + unfold view_ids. simpl. by rewrite Ei.
    + intros Hc. specialize (Hcu Hc). symmetry in Hcu. by apply app_cons_not_nil in Hcu.
  - exists [x.1.1]. split; [split; [done|split; [|done]]|].
    + intros q Hq. apply Hsame. intros ->. by apply Hq, list_elem_of_singleton.
    + intros q ->%list_elem_of_singleton. left. rewrite ids_middle. set_solver.
  - rewrite Ei. by left.
  - destruct Hok as [Hpos Hf]. split; [done|]. intros q Hq. destruct (Hf q Hq) as (Hm & Ha & Hn). simpl in *.
    destruct Hg' as (? & ? & ? & ? & _ & _). rewrite lookup_insert_ne; [done|]. intros <-.
    apply Forall_app in Hgo as [_ [(? & ? & ? & ? & E & _) _]%Forall_cons]. congruence.
Qed.

Lemma free_callback_ok p w :
  accounted lawful w -> gpu_listed (w_st w) p -> wp e (free_callback p) w (fun _ w' => accounted lawful w').
Proof.
  intros (V & devs & refs & HA) (i & l & d & pages & Hi & Hl & Hp & Hd & Hpg & Hne).
  pose proof (ac_inv _ _ _ _ _ _ HA) as HI.
  destruct (lookup_lt_is_Some_2 refs i) as [r Hr]; [by rewrite (di_nrefs _ _ _ _ HI)|].
  destruct (driver_view _ _ _ _ _ _ HI Hr) as [[ul gl] Hv]. pose proof (di_maps _ _ _ _ HI _ _ Hv) as Hm.
  rewrite (is_list_unique _ _ _ _ Hl (rm_gpu _ _ _ Hm)) in Hp. simpl in Hp. destruct (item_of _ _ Hp) as (i1 & x & i2 & -> & ->).
  pose proof (rm_gpu_own _ _ _ Hm) as Ho. simpl in Ho. apply Forall_app in Ho as [_ [Ho _]%Forall_cons].
  assert (gm_pages x.2 <> NULL) as Hgn.
  { destruct Ho as (? & ? & ? & ? & E & _). rewrite Hd in E. injection E as ->. simpl in Hpg. congruence. }
  eapply wp_mono; [by apply (free_callback_releases e _ x.2)|]. intros [] w' (Hg' & (d' & Hst) & Hmv).
  rewrite Hst in Hg'. pose proof (gpu_replaced_step _ _ _ _ _ _ _ _ (di_heap _ _ _ _ HI) Hm Hg') as Hstep.
  eexists _, devs, refs.
  eapply (accounts_view _ _ _ _ _ _ _ _ _ _ _ _ (ul, i1 ++ (x.1, GpuMapping (gm_pdev x.2) NULL NULL) :: i2)); [exact HA|exact Hv| |exact Hmv|].
  2:{ intros _ κ. rewrite !view_keys_gpu. simpl. lia. }
  rewrite Hst. eapply driver_maps_step; [done|done|done| |exact Hstep|done].
  intros Hn. pose proof (slot_empty _ _ _ (di_slots _ _ _ _ HI _ _ _ Hr Hv) Hn) as [= _ E]. symmetry in E.
  by apply app_cons_not_nil in E.
Qed.
End free.

(** ** The transition system *)

(** What happens to the module; each runs to its end before the next. *)
Inductive event :=
  | Load | Unload
  | Probe (pdev : Z) | Remove (pdev : Z)
  | Open (i_cdev : option nat) (pid : Z) | Release (i_cdev : option nat) (pid : Z)
  | Ioctl (i_cdev : option nat) (pid cmd arg : Z)
  | Mmap (i_cdev : option nat) (vma vm_start vm_end : Z)
  | Take_back (map : Z).

(** What else the kernel keeps to: only devices that were probed are removed, and
    all of them before the module is unloaded. *)
Definition lawful_event (ev : event) (s : kstate) : Prop :=
  match ev with
  | Remove pdev => pdev <> NULL -> probed pdev s
  | Unload => idle s
  | _ => True
  end.

Section system.
Context `{Kernel} (e : kenv) (sizeof_ctrl_dev sizeof_ctrl_ref : Z).

Definition handle (ev : event) : KM unit :=
  match ev with
  | Load => disnvme_entry sizeof_ctrl_dev sizeof_ctrl_ref;; mret tt
  | Unload => disnvme_exit
  | Probe pdev => add_pci_dev pdev;; mret tt
  | Remove pdev => remove_pci_dev pdev
  | Open i_cdev pid => ref_get i_cdev pid;; mret tt
  | Release i_cdev pid => ref_put i_cdev pid;; mret tt
  | Ioctl i_cdev pid cmd arg => ref_ioctl i_cdev pid cmd arg;; mret tt
  | Mmap i_cdev vma vm_start vm_end => ref_mmap i_cdev vma vm_start vm_end;; mret tt
  | Take_back map => free_callback map
  end.

(** When the kernel raises an event: the module is loaded once, devices that are
    probed exist, and the NVIDIA driver takes back pages it has lent. *)
Definition can_happen (ev : event) (s : kstate) : Prop :=
  match ev with
  | Load => k_refs s = None
  | Probe pdev => k_refs s <> None /\ pdev <> NULL
  | Take_back map => k_refs s <> None /\ gpu_listed s map
  | _ => k_refs s <> None
  end.

(** From a kernel without the module; between events the rest of the system runs. *)
Inductive reachable : kworld -> Prop :=
  | reach_boot w : unloaded (w_st w) -> reachable w
  | reach_event w ev w' : reachable w -> can_happen ev (w_st w) -> run (handle ev) e w = Ok tt w' -> reachable w'
  | reach_other w w' : reachable w -> w_st w' = w_st w -> reachable w'.

Context (Hpins : pins e) (Hp2p : p2p_ok e) (Hmax : 0 < max_pages_per_map < 2 ^ 48).

(** The module is not loaded, or it is in a well-formed and accounted state. *)
Definition good (lawful : Prop) (w : kworld) : Prop := gone lawful (fun _ => 0) w \/ accounted lawful w.

Lemma good_loaded lawful w : good lawful w -> k_refs (w_st w) <> None -> accounted lawful w.
Proof. by intros [[(Hn & _) _]|]. Qed.

Lemma good_unloaded lawful w : good lawful w -> k_refs (w_st w) = None -> gone lawful (fun _ => 0) w.
Proof. intros [|(V & devs & refs & [HI _])]; [done|]. pose proof (di_refs _ _ _ _ HI). congruence. Qed.

Lemma handle_good (lawful : Prop) ev w :
  (lawful -> min_addr e) -> (lawful -> lawful_event ev (w_st w)) ->
  good lawful w -> can_happen ev (w_st w) -> wp e (handle ev) w (fun _ w' => good lawful w').
Proof.
  intros Hmin Hlaw Hg He.
  assert (forall A (m : KM A), wp e m w (fun _ w' => accounted lawful w') ->
    wp e (m;; mret tt) w (fun _ w' => good lawful w')) as Hret.
  { intros A m Hm. wp_step. eapply wp_mono; [exact Hm|]. intros a w' Hw. wp_step. by right. }
  assert (forall m : KM unit, wp e m w (fun _ w' => accounted lawful w') -> wp e m w (fun _ w' => good lawful w')) as Hunit.
  { intros m Hm. eapply wp_mono; [exact Hm|]. intros a w' Hw. by right. }
  destruct ev; simpl in He, Hlaw |- *.
  - wp_step. eapply wp_mono; [apply disnvme_entry_loads, good_unloaded; done|].
    intros r w' [[_ Hw]|[_ Hw]]; wp_step; [by right|by left].
  - eapply wp_mono; [apply disnvme_exit_unloads; [exact Hlaw|by apply good_loaded]|]. intros [] w' Hw. by left.
  - destruct He as [He Hp]. apply Hret, add_pci_dev_ok; [done|done|by apply good_loaded].
  - apply Hunit, remove_pci_dev_ok; [exact Hlaw|by apply good_loaded].
  - apply Hret, ref_get_ok, good_loaded; done.
  - apply Hret, ref_put_ok, good_loaded; done.
  - apply Hret, ref_ioctl_ok; [done..|by apply good_loaded].
  - apply Hret, ref_mmap_ok, good_loaded; done.
  - destruct He as [He Hl]. apply Hunit, free_callback_ok; [by apply good_loaded|done].
Qed.

(** Without the law only the state matters. *)
Lemma good_state w : good False w <-> unloaded (w_st w) \/ driver_ok (w_st w).
Proof. unfold good, gone. rewrite accounted_false. tauto. Qed.

Lemma reachable_good w : reachable w -> good False w.
Proof.
  induction 1 as [w Hu|w ev w' _ IH He Hrun|w w' _ IH Hst].
  - apply good_state. by left.
  - pose proof (handle_good False ev w ltac:(done) ltac:(done) IH He) as Hwp.
    unfold wp in Hwp. unfold run in Hrun. by rewrite Hrun in Hwp.
  - rewrite good_state in *. by rewrite Hst.
Qed.

End system.

(** ** Property *)

(** C3: in every state the module can get into, by any sequence of loading,
    unloading, probing, removing, opening, closing, mapping, unmapping and pages
    taken back by the NVIDIA driver, the tables and lists are well-formed: a
    reference slot is taken exactly when it refers to a device that is present, a
    free one has no mappings, the two lists of every reference are proper sorted
    lists of live descriptors that no other list shares, and each descriptor says
    what it has pinned and mapped. And whatever happens next is handled without a
    bad access, and to the end, whatever the rest of the kernel answers. *)
Theorem driver_invariant `{Kernel} e sizeof_ctrl_dev sizeof_ctrl_ref w :
  pins e -> p2p_ok e -> 0 < max_pages_per_map < 2 ^ 48 ->
  reachable e sizeof_ctrl_dev sizeof_ctrl_ref w ->
  (unloaded (w_st w) \/ driver_ok (w_st w))
  /\ forall ev, can_happen ev (w_st w) -> exists w', run (handle sizeof_ctrl_dev sizeof_ctrl_ref ev) e w = Ok tt w'.
Proof.
  intros Hpins Hp2p Hmax Hr. pose proof (reachable_good e _ _ Hpins Hp2p Hmax w Hr) as Hg. split; [by apply good_state|].
  intros ev He. destruct (wp_run _ _ _ _ (handle_good e sizeof_ctrl_dev sizeof_ctrl_ref Hpins Hp2p Hmax False ev w
    ltac:(done) ltac:(done) Hg He)) as ([] & w' & ? & _). by exists w'.
Qed.

(** ** Witness *)

#[local] Instance module_kernel : Kernel := {|
  has_CUDA := true; PAGE_SHIFT := 12; dma_mapping_error _ _ := 0; MAJOR _ := 0; MINOR _ := 0;
  MKDEV _ n := n; IOW _ n _ := n; num_ctrl_devs := 2; num_ctrl_refs := 2; max_pages_per_map := 32768 |}.

(** Nothing fails; the driver maps what it has just pinned. *)
Definition module_kenv : kenv := Env (fun w c =>
  (match c with
   | Get_user_pages _ n => KResp (Z.min n 2) 0 0 (take (Z.to_nat n) [77; 78])
   | P2p_get_pages _ len _ => KResp 0 5 (len / GPU_PAGE_SIZE) []
   | P2p_dma_map_pages _ _ =>
       match w_log w with
       | (P2p_get_pages _ _ _, r) :: _ =>
           if k_num r <? 0 then KResp (- EIO) 0 0 [] else KResp 0 6 0 (replicate (Z.to_nat (k_num r)) 7)
       | _ => KResp (- EIO) 0 0 []
       end
   | Kmalloc _ | Kcalloc _ _ => KResp 1 0 0 []
   | _ => KResp 0 5 0 []
   end, w_mem w)) 10.

Lemma module_kenv_pins : pins module_kenv.
Proof. intros w v n r -> Hn. right. simpl. split; [lia|]. rewrite length_take. simpl. lia. Qed.

Lemma module_kenv_p2p : p2p_ok module_kenv.
Proof.
  split; [by intros w v len p r -> _|].
  intros w pdev pages r v len p r0 log -> Hv Hlog _. simpl in *. rewrite Hlog in *.
  destruct (Z.ltb_spec (k_num r0) 0); [done|]. simpl. split; [done|]. rewrite length_replicate. lia.
Qed.

Definition kboot : kworld := World empty (KState empty empty empty 1 None None 0 0) [].

(** The world after an event. *)
Definition play (ev : event) (w : kworld) : kworld :=
  match run (handle 200 80 ev) module_kenv w with Ok _ w' => w' | _ => w end.

(** Loaded, a device probed, and its file opened. *)
Definition loaded_world : kworld := play Load kboot.
Definition probed_world : kworld := play (Probe 9) loaded_world.
Definition opened_world : kworld := play (Open (Some 0%nat) 33) probed_world.

Lemma opened_reachable : reachable module_kenv 200 80 opened_world.
Proof.
  apply (reach_event _ _ _ probed_world (Open (Some 0%nat) 33)); [|by vm_compute|by vm_compute].
  apply (reach_event _ _ _ loaded_world (Probe 9)); [|by vm_compute|by vm_compute].
  apply (reach_event _ _ _ kboot Load); [|done|by vm_compute].
  apply reach_boot. split; [done|]. split; [done|]. split; [simpl; lia|done].
Qed.

Lemma driver_invariant_witness :
  (unloaded (w_st opened_world) \/ driver_ok (w_st opened_world))
  /\ exists w', run (handle 200 80 (Ioctl (Some 0%nat) 33 1 0x5000)) module_kenv opened_world = Ok tt w'.
Proof.
  assert (0 < max_pages_per_map < 2 ^ 48) as Hmax by by vm_compute.
  destruct (driver_invariant module_kenv 200 80 opened_world module_kenv_pins module_kenv_p2p
    Hmax opened_reachable) as [Hg Hh].
  split; [exact Hg|]. apply (Hh (Ioctl (Some 0%nat) 33 1 0x5000)). by vm_compute.
Defined.
