(* ===== verification/KLedger.v ===== *)
(** * The module's resources: a property of [src/module]

    Over the whole life of the module, and of everything its processes map through
    it, what has been acquired from the kernel and not given back is exactly what
    the driver's tables and lists say. *)
From S2P Require Import Prelude Memory Effects KTypes KList KMap KMapUser KRef KCdev KPci KDriver KAccount KOps KModule.

Section runs.
Context `{Kernel} (e : kenv) (sizeof_ctrl_dev sizeof_ctrl_ref : Z).

(** From boot on, in a kernel that keeps to its law; user memory changes in between. *)
Inductive lawful_run : kworld -> Prop :=
  | run_boot w : unloaded (w_st w) -> w_log w = [] -> lawful_run w
  | run_event w ev w' : lawful_run w -> can_happen ev (w_st w) -> lawful_event ev (w_st w) ->
      run (handle sizeof_ctrl_dev sizeof_ctrl_ref ev) e w = Ok tt w' -> lawful_run w'
  | run_memory w m : lawful_run w -> lawful_run (World m (w_st w) (w_log w)).

Lemma lawful_run_good w :
  pins e -> p2p_ok e -> min_addr e -> 0 < max_pages_per_map < 2 ^ 48 -> lawful_run w -> good True w.
Proof.
  intros Hpins Hp2p Hmin Hmax. induction 1 as [w Hu Hlog|w ev w' _ IH He Hlaw Hrun|w m _ IH].
  - left. split; [done|]. intros _ κ. unfold bal. by rewrite Hlog.
  - pose proof (handle_good e sizeof_ctrl_dev sizeof_ctrl_ref Hpins Hp2p Hmax True ev w (fun _ => Hmin) (fun _ => Hlaw) IH He) as Hwp.
    unfold wp in Hwp. unfold run in Hrun. by rewrite Hrun in Hwp.
  - destruct IH as [[Hu Hb]|(V & devs & refs & [HI Hb])]; [left|right; exists V, devs, refs]; by split.
Qed.
End runs.

(** ** Property *)

(** C2: whenever no handler runs, every resource the module has acquired is
    accounted for, exactly once. Without the module nothing is held: no page is
    pinned, nothing is mapped, and every region, device number, class and device is
    given back, on every error path as well. With it, the pages pinned, the DMA
    and GPU mappings are those of the entries in the lists of the references that
    are open; a region and an enabled device belong to each device slot taken; a
    character device to each slot that has one; and there is one class, one range
    of numbers and one registration. Assumed of the kernel: nothing is mapped at
    address 0, created devices are not NULL, only devices that were probed are
    removed, and all of them before the module is unloaded. *)
Theorem resources_accounted `{Kernel} e sizeof_ctrl_dev sizeof_ctrl_ref w :
  pins e -> p2p_ok e -> min_addr e -> 0 < max_pages_per_map < 2 ^ 48 ->
  lawful_run e sizeof_ctrl_dev sizeof_ctrl_ref w ->
  unloaded (w_st w) /\ (forall κ, bal w κ = 0)
  \/ exists V devs refs, driver_inv (w_st w) V devs refs /\ forall κ, bal w κ = units (held_keys V devs) κ.
Proof.
  intros Hpins Hp2p Hmin Hmax Hr.
  destruct (lawful_run_good e _ _ w Hpins Hp2p Hmin Hmax Hr) as [[Hu Hb]|(V & devs & refs & [HI Hb])].
  - left. split; [done|]. by apply Hb.
  - right. exists V, devs, refs. split; [done|]. intros κ. rewrite (Hb I κ). lia.
Qed.

(** ** Witness *)

#[local] Instance ledger_kernel : Kernel := {|
  has_CUDA := true; PAGE_SHIFT := 12; dma_mapping_error _ _ := 0; MAJOR _ := 0; MINOR _ := 0;
  MKDEV _ n := n; IOW _ n _ := n; num_ctrl_devs := 2; num_ctrl_refs := 2; max_pages_per_map := 32768 |}.

(** Two pages can be pinned anywhere but at 0; the NVIDIA driver lends none. *)
Definition ledger_kenv : kenv := Env (fun w c =>
  (match c with
   | Get_user_pages v n => if v =? 0 then KResp (-14) 0 0 [] else KResp (Z.min n 2) 0 0 (take (Z.to_nat n) [77; 78])
   | P2p_get_pages _ _ _ | P2p_dma_map_pages _ _ => KResp (-22) 0 0 []
   | Kmalloc _ | Kcalloc _ _ => KResp 1 0 0 []
   | _ => KResp 0 5 0 []
   end, w_mem w)) 10.

Lemma ledger_kenv_pins : pins ledger_kenv.
Proof.
  intros w v n r -> Hn. simpl. destruct (v =? 0); [by left|right]. simpl. split; [lia|]. rewrite length_take. simpl. lia.
Qed.

Lemma ledger_kenv_p2p : p2p_ok ledger_kenv.
Proof. split; [by intros w v len p r -> ?|by intros w pdev pages r v len p r0 log -> ?]. Qed.

Lemma ledger_kenv_min : min_addr ledger_kenv.
Proof.
  split; [by intros w n r ->|]. split; [by intros w len p r ->|by intros w cls rdev name r -> _].
Qed.

(** The world after an event. *)
Definition step_event (ev : event) (w : kworld) : kworld :=
  match run (handle 200 80 ev) ledger_kenv w with Ok _ w' => w' | _ => w end.

(** Loaded; a device probed; its file opened; two pages at 0x7000 mapped through it:
    the request is at 0x5000 and the addresses go to 0x9000. *)
Definition boot_world : kworld := World empty (KState empty empty empty 1 None None 0 0) [].
Definition request_mem : mem := st 8 (st 8 (st 8 empty 0x5000 0x7000) 0x5008 2) 0x5010 0x9000.
Definition open_world : kworld := step_event (Open (Some 0%nat) 33) (step_event (Probe 9) (step_event Load boot_world)).
Definition mapped_world : kworld :=
  step_event (Ioctl (Some 0%nat) 33 1 0x5000) (World request_mem (w_st open_world) (w_log open_world)).
(** The device removed and the module unloaded, with the file still open. *)
Definition unloaded_world : kworld := step_event Unload (step_event (Remove 9) mapped_world).

Lemma mapped_lawful : lawful_run ledger_kenv 200 80 mapped_world.
Proof.
  apply (run_event _ _ _ (World request_mem (w_st open_world) (w_log open_world)) (Ioctl (Some 0%nat) 33 1 0x5000));
    [apply run_memory|by vm_compute..].
  apply (run_event _ _ _ (step_event (Probe 9) (step_event Load boot_world)) (Open (Some 0%nat) 33)); [|by vm_compute..].
  apply (run_event _ _ _ (step_event Load boot_world) (Probe 9)); [|by vm_compute..].
  apply (run_event _ _ _ boot_world Load); [|by vm_compute..].
  apply run_boot; [|done]. split; [done|]. split; [done|]. split; [simpl; lia|done].
Qed.

Lemma unloaded_lawful : lawful_run ledger_kenv 200 80 unloaded_world.
Proof.
  apply (run_event _ _ _ (step_event (Remove 9) mapped_world) Unload); [|by vm_compute| |by vm_compute].
  - apply (run_event _ _ _ mapped_world (Remove 9)); [apply mapped_lawful|by vm_compute| |by vm_compute].
    intros _. eexists _, 0%nat, _. vm_compute. done.
  - eexists. split; [vm_compute; reflexivity|]. by repeat constructor.
Qed.

(** The two pages are pinned while the file is open. *)
Example mapped_pins : bal mapped_world (KPinned 77) = 1 /\ bal mapped_world (KPinned 78) = 1 /\ bal mapped_world (KDma 9 5) = 2.
Proof. by vm_compute. Qed.

Lemma resources_accounted_witness :
  (exists V devs refs, driver_inv (w_st mapped_world) V devs refs
     /\ forall κ, bal mapped_world κ = units (held_keys V devs) κ)
  /\ forall κ, bal unloaded_world κ = 0.
Proof.
  assert (0 < max_pages_per_map < 2 ^ 48) as Hmax by by vm_compute. split.
  - destruct (resources_accounted ledger_kenv 200 80 mapped_world ledger_kenv_pins ledger_kenv_p2p ledger_kenv_min Hmax
      mapped_lawful) as [[(Hn & _) _]|Hx]; [vm_compute in Hn; discriminate Hn|exact Hx].
  - destruct (resources_accounted ledger_kenv 200 80 unloaded_world ledger_kenv_pins ledger_kenv_p2p ledger_kenv_min Hmax
      unloaded_lawful) as [[_ Hb]|(V & devs & refs & HI & _)]; [exact Hb|].
    pose proof (di_refs _ _ _ _ HI) as Hn. vm_compute in Hn. discriminate Hn.
Defined.
