(* ===== verification/KRequest.v ===== *)
(** * Requests of a process, as a function of the kernel's state

    [ref_ioctl] as a process that has opened a device sees it: it stores a request
    in its memory, and reads a status and bus addresses back. [KLink] answers the
    library's [ioctl] calls with it. *)
From S2P Require Import Prelude Memory Effects KTypes KList KMap KMapUser KRef KCdev KPci KDriver KAccount KOps KIoctl.

Section request.
Context `{Kernel} (ke : kenv) (c : nat) (pid arg dst : Z).

(** [struct nvm_ioctl_map] at [arg], with its [ioaddrs] at [dst]; the array is zero. *)
Definition request (v n : Z) : mem := st 8 (st 8 (st 8 empty arg v) (arg + 8) n) (arg + 16) dst.

(** The [n] words at [dst]. *)
Definition words (m : mem) (n : Z) : list Z := (fun j => ld 8 m (dst + 8 * Z.of_nat j)) <$> seq 0 (Z.to_nat n).

(** The kernel's answer and its state afterwards. *)
Definition serve (cmd v n : Z) (kw : kworld) : option (Z * list Z * kworld) :=
  match run (ref_ioctl (Some c) pid cmd arg) ke (World (request v n) (w_st kw) (w_log kw)) with
  | Ok s kw' => Some (s, words (w_mem kw') n, kw')
  | _ => None
  end.

Lemma serve_run cmd v n kw s kw' :
  run (ref_ioctl (Some c) pid cmd arg) ke (World (request v n) (w_st kw) (w_log kw)) = Ok s kw' ->
  serve cmd v n kw = Some (s, words (w_mem kw') n, kw').
Proof. intros Hrun. unfold serve. by rewrite Hrun. Qed.

(** What a process is handed for a mapping of [n] pages: zeros from where the kernel stopped. *)
Definition handed (m : mapping) (n : Z) : list Z :=
  (u64 <$> mp_addrs m) ++ replicate (Z.to_nat n - length (mp_addrs m)) 0.

Lemma request_fields v n : v in_u 64 -> n in_u 64 -> dst in_u 64 ->
  ld 8 (request v n) arg = v /\ ld 8 (request v n) (arg + 8) = n /\ ld 8 (request v n) (arg + 16) = dst.
Proof.
  intros Hv Hn Hd. unfold request. rewrite !ld_st_same. rewrite (ld_st_disjoint 8 8 _ (arg + 16)) by lia.
  rewrite (ld_st_disjoint 8 8 _ (arg + 16) _ (arg + 8)), ld_st_same by lia. rewrite (ld_st_disjoint 8 8 _ (arg + 8)), ld_st_same by lia.
  change (2 ^ (8 * Z.of_nat 8)) with (2 ^ 64). by rewrite !Z.mod_small by lia.
Qed.

Lemma request_zero v n a k : arg + 24 <= a \/ a + Z.of_nat k <= arg -> ld k (request v n) a = 0.
Proof. intros Ha. unfold request. rewrite !ld_st_disjoint by lia. apply ld_zero. intros i Hi. done. Qed.

Lemma words_handed m v n (x : mem) : 0 <= n -> (length (mp_addrs m) <= Z.to_nat n)%nat ->
  arg + 24 <= dst \/ dst + 8 * n <= arg -> handed_out (mp_addrs m) dst (request v n) x -> words x n = handed m n.
Proof.
  intros Hn Hle Hap [Hin Hout]. apply list_eq. intros j. unfold words, handed. rewrite list_lookup_fmap.
  destruct (decide (j < Z.to_nat n)%nat) as [Hj|Hj].
  - rewrite lookup_seq_lt by done. cbn [fmap option_fmap option_map]. rewrite Nat.add_0_l.
    destruct (mp_addrs m !! j) as [a|] eqn:Ea.
    + rewrite (Hin _ _ Ea). rewrite lookup_app_l, list_lookup_fmap, Ea; [done|]. rewrite length_fmap. by eapply lookup_lt_Some.
    + apply lookup_ge_None in Ea. rewrite lookup_app_r by (rewrite length_fmap; lia). rewrite length_fmap.
      rewrite (proj2 (lookup_replicate _ _ _ _)) by (split; [done|lia]). f_equal.
      rewrite <- (request_zero v n (dst + 8 * Z.of_nat j) 8) by lia. apply ld_ext. intros i Hi. apply Hout. lia.
  - rewrite lookup_seq_ge by lia. rewrite lookup_ge_None_2; [done|]. rewrite length_app, length_fmap, length_replicate. lia.
Qed.

(** Process [pid] holds reference [i] to device [d] in slot [c], with the user mappings [l]. *)
Record opened (kw : kworld) (i : nat) (l : list (knode * Z)) (d : ctrl_dev) : Prop := {
  op_pins : pins ke;
  op_quiet : quiet ke;
  op_room : max_pages_per_map < 2 ^ 48;
  op_distinct : NVM_UNMAP_MEMORY <> NVM_MAP_HOST_MEMORY /\ NVM_UNMAP_MEMORY <> NVM_MAP_DEVICE_MEMORY;
  op_buffers : arg + 24 <= dst \/ dst + 8 * max_pages_per_map <= arg;
  op_dst : dst in_u 64;
  op_driver : exists V devs refs r ul gl, driver_inv (w_st kw) V devs refs /\ devs !! c = Some d
    /\ reference_of refs c pid i r /\ V !! i = Some (ul, gl) /\ l = as_nodes ul;
}.

(** The request for [n] pages at [v] was granted with the mapping [m]. *)
Definition granted (i : nat) (l : list (knode * Z)) (d : ctrl_dev) (v n : Z) (m : mapping) (kw kw' : kworld) : Prop :=
  mp_pdev m = cd_pdev d /\ 0 < Z.of_nat (length (mp_pages m)) <= n /\ (length (mp_addrs m) <= length (mp_pages m))%nat
  /\ added i (Z.land v PAGE_MASK) l (k_next (w_st kw)) m kw kw'.

Lemma serve_map kw i l d v n : opened kw i l d -> v in_u 64 -> 0 < n < max_pages_per_map ->
  exists s a kw', serve NVM_MAP_HOST_MEMORY v n kw = Some (s, a, kw')
  /\ (s = 0 -> exists m, granted i l d v n m kw kw' /\ a = handed m n).
Proof.
  intros [Hpin Hq Hmax _ Hap Hd (V & devs & refs & r & ul & gl & HI & Hc & Hr & HV & ->)] Hv Hn.
  pose proof (di_maps _ _ _ _ HI _ _ HV) as Hm. pose proof (rm_user_ok _ _ _ Hm) as [_ Hnn].
  pose proof Hr as (Hri & Hrc & _). destruct (slot_ref_of _ _ _ _ _ _ _ HI Hri Hrc) as (d' & Hc' & Href).
  assert (d' = d) as -> by congruence. set (kw1 := World (request v n) (w_st kw) (w_log kw)).
  destruct (request_fields v n) as (Ev & En & Ed); [done|lia|done|].
  destruct (wp_run ke (ref_ioctl (Some c) pid NVM_MAP_HOST_MEMORY arg) kw1
    (ioctl_mapped i (Z.land v PAGE_MASK) n dst (as_nodes ul) (cd_pdev d) kw1)) as (s & kw2 & Hrun & Hmap).
  { eapply wp_ref_ioctl; [done..|]. rewrite Z.eqb_refl.
    pose proof (ioctl_map_user ke Hq i (as_nodes ul) (cd_pdev d) arg kw1) as Hx. cbn [w_mem kw1] in Hx. rewrite Ev, En, Ed in Hx.
    apply Hx; [done|apply HI|apply (rm_user _ _ _ Hm)|done..]. }
  exists s, (words (w_mem kw2) n), kw2. split; [by apply serve_run|]. intros ->.
  destruct Hmap as [(? & _)|(m & _ & Hpd & Hpg & Hle & Hadd & Hout)]; [done|]. exists m. split; [done|].
  eapply words_handed; [lia|lia| |exact Hout]. lia.
Qed.

Lemma serve_unmap kw kw' i l d v n m : opened kw i l d -> v in_u 64 -> Z.land v PAGE_MASK <> 0 ->
  granted i l d v n m kw kw' ->
  exists kw2, serve NVM_UNMAP_MEMORY v 0 kw' = Some (0, [], kw2) /\ restored i l kw kw2.
Proof.
  intros [_ Hq _ [Hne Hne'] _ Hd (V & devs & refs & r & ul & gl & HI & Hc & Hr & HV & ->)] Hv Hz (_ & _ & _ & Hadd).
  pose proof (di_maps _ _ _ _ HI _ _ HV) as Hm. pose proof (rm_user_ok _ _ _ Hm) as [Hs _].
  destruct (request_fields v 0) as (Ev & _ & _); [done|done|done|]. set (kw1 := World (request v 0) (w_st kw') (w_log kw')).
  destruct (wp_run ke (ref_ioctl (Some c) pid NVM_UNMAP_MEMORY arg) kw1 (fun s kw2 => s = 0 /\ restored i (as_nodes ul) kw kw2))
    as (s & kw2 & Hrun & -> & Hres).
  { eapply (wp_ref_ioctl_again ke V devs refs c d pid i r _ _ kw); [done|apply Hadd|done..|].
    eapply ioctl_unmap_user; [done|apply HI|done|done|exact Hadd|exact Ev]. }
  exists kw2. split; [|done]. exact (serve_run _ _ _ _ _ _ Hrun).
Qed.
End request.
