(* ===== verification/KLink.v ===== *)
(** * The library on top of its kernel module

    [nvm_dma_map_host] of [src/dma.c] with its [ioctl] calls answered by [ref_ioctl]
    of [module/pci.c]: the kernel's state is a function of the calls the program has
    made. The program has one device open, whichever descriptor it uses. *)
From S2P Require Import Prelude Bits Memory Effects KTypes KList KMap KMapUser KRef KCdev KPci KDriver KAccount KOps KIoctl KRequest.
From S2P Require Import Types Runtime Queue DisDevice DisMap Ctrl Dma.

Section link.
Context `{Kernel} (ke : kenv) (c : nat) (pid arg dst : Z) (kw0 : kworld).

Definition ioctl_code (ty : nvm_ioctl_type) : Z :=
  match ty with
  | NVM_MAP_HOST_MEMORY => KPci.NVM_MAP_HOST_MEMORY
  | NVM_MAP_DEVICE_MEMORY => KPci.NVM_MAP_DEVICE_MEMORY
  | NVM_UNMAP_MEMORY => KPci.NVM_UNMAP_MEMORY
  end.

(** What a call of the program makes the kernel do. *)
Definition kernel_step (q : call) (kw : kworld) : kworld :=
  let serve cmd v n := match serve ke c pid arg dst cmd v n kw with Some (_, _, kw') => kw' | None => kw end in
  match q with
  | Ioctl_map _ ty v n => serve (ioctl_code ty) v n
  | Ioctl_unmap _ v => serve (ioctl_code NVM_UNMAP_MEMORY) v 0
  | _ => kw
  end.

(** The kernel after the calls of a log, the last of which comes first. *)
Fixpoint kernel_after (log : list (call * resp)) : kworld :=
  match log with [] => kw0 | (q, _) :: log => kernel_step q (kernel_after log) end.

Definition kernel (w : uworld) : kworld := kernel_after (w_log w).

(** Mapping requests are answered by the module: a negative result is the error number. *)
Definition served_by (e : uenv) : Prop := forall w fd ty v n r s a kw',
  answers e w (Ioctl_map fd ty v n) r -> serve ke c pid arg dst (ioctl_code ty) v n (kernel w) = Some (s, a, kw') ->
  if s <? 0 then r_val r = -1 /\ r_errno r = - s else r_val r = s /\ r_list r = a.

(** ** Computations without an [ioctl] *)

Definition silent {A} (m : UM A) : Prop := forall e w a w', m e w = Ok a w' -> kernel w' = kernel w.

Lemma wp_silent {A} e (m : UM A) w (Q : A -> uworld -> Prop) :
  silent m -> wp e m w (fun a w' => kernel w' = kernel w -> Q a w') -> wp e m w Q.
Proof. intros Hs. unfold wp. destruct (m e w) as [a w'| |] eqn:E; [|done..]. intros HQ. by eapply HQ, Hs. Qed.

Lemma silent_ret {A} (a : A) : silent (mret a).
Proof. by intros e w b w' [= _ <-]. Qed.
Lemma silent_fail {A} f : silent (fail (A:=A) f).
Proof. by intros e w a w' E. Qed.
Lemma silent_get_st : silent get_st.
Proof. by intros e w a w' [= _ <-]. Qed.
Lemma silent_put_st s : silent (put_st s).
Proof. by intros e w a w' [= _ <-]. Qed.
Lemma silent_ext q : (forall kw, kernel_step q kw = kw) -> silent (ext q).
Proof. intros Hq e w a w' [= _ <-]. apply Hq. Qed.
Lemma silent_bind {A B} (m : UM A) (f : A -> UM B) : silent m -> (forall a, silent (f a)) -> silent (m ≫= f).
Proof.
  intros Hm Hf e w b w' E. unfold mbind, M_bind in E. destruct (m e w) as [a w1| |] eqn:E1; [|done..].
  rewrite (Hf _ _ _ _ _ E). by eapply Hm.
Qed.

#[local] Hint Resolve silent_ret silent_fail silent_get_st silent_put_st : core.

Ltac solve_silent :=
  repeat (progress (intros; cbn beta iota zeta) || apply silent_bind || (apply silent_ext; reflexivity)
    || match goal with
       | |- silent (match ?x with _ => _ end) => destruct x
       | |- silent (let '(_, _) := ?x in _) => destruct x
       end);
  eauto.

Lemma silent_malloc {A} `{Struct A} t n (a : A) : silent (malloc t n a).
Proof. unfold malloc. solve_silent. Qed.
Lemma silent_load {A} `{Struct A} p : silent (load (A:=A) p).
Proof. unfold load. solve_silent. Qed.
Lemma silent_store {A} `{Struct A} p (a : A) : silent (store p a).
Proof. unfold store. solve_silent. Qed.
Lemma silent_free p : silent (free p).
Proof. unfold free. solve_silent. Qed.
Lemma silent_load_map p : silent (load_map p).
Proof. unfold load_map. solve_silent. Qed.
#[local] Hint Resolve silent_malloc silent_load silent_store silent_free silent_load_map : core.
Lemma silent_load_ctrl p : silent (load_ctrl p).
Proof. unfold load_ctrl. solve_silent. Qed.
#[local] Hint Resolve silent_load_ctrl : core.

Context `{Build} `{DmaRelease}.

Lemma silent_populate_loop n i h ps cps l : silent (populate_loop n i h ps cps l).
Proof. revert i. induction n as [|n IH]; intros i; simpl; solve_silent. Qed.
#[local] Hint Resolve silent_populate_loop : core.
Lemma silent_handle_populate h ctrl l : silent (_nvm_dma_handle_populate h ctrl l).
Proof. unfold _nvm_dma_handle_populate. solve_silent. Qed.
Lemma silent_dma_create ctrl md rel : silent (_nvm_dma_create ctrl md rel).
Proof. unfold _nvm_dma_create. solve_silent. Qed.
Lemma silent_page_size : silent _nvm_host_page_size.
Proof. unfold _nvm_host_page_size. solve_silent. Qed.
#[local] Hint Resolve silent_page_size : core.
Lemma silent_create_mapping ty fd v size : silent (create_mapping ty fd v size).
Proof. unfold create_mapping. solve_silent. Qed.
Lemma silent_fd_from_ctrl ctrl : silent (_nvm_fd_from_ctrl ctrl).
Proof. unfold _nvm_fd_from_ctrl. solve_silent. Qed.
#[local] Hint Resolve silent_handle_populate silent_dma_create silent_create_mapping silent_fd_from_ctrl : core.

(** ** Mapping and unmapping *)

Section mapping.
Context (e : uenv) (ctrl : Z) (ct : controller) (vaddr size : Z).
Hypothesis Hserved : served_by e.
Hypothesis Hcps : 0 < ctrl_page_size (ct_handle ct).
Hypothesis Hshift : 12 <= PAGE_SHIFT < 32.
Hypothesis Hpages : forall w r, answers e w Sysconf_pagesize r -> r_val r = PAGE_SIZE.
Hypothesis Hbuffer : forall w n r, answers e w (Malloc T_ioaddrs n) r -> r_val r <> 0.
#[local] Abbreviation n := (NVM_PAGE_ALIGN size PAGE_SIZE / PAGE_SIZE).
#[local] Abbreviation host_mapping fd mapped := (IoctlMapping (DmaMap vaddr PAGE_SIZE n) MAP_TYPE_HOST fd mapped).

Ltac quietly := apply wp_silent; [solve [eauto]|].

Lemma page_size_bounds : 0 < PAGE_SIZE < 2 ^ 32.
Proof.
  unfold PAGE_SIZE. rewrite Z.shiftl_1_l. split; [lia|]. apply Z.pow_lt_mono_r; lia.
Qed.

Lemma page_size_known w (Q : Z -> uworld -> Prop) : (forall w', w_st w' = w_st w -> Q PAGE_SIZE w') -> wp e _nvm_host_page_size w Q.
Proof.
  intros HQ. pose proof page_size_bounds. unfold _nvm_host_page_size. led_step. led_step. rewrite (Hpages _ _ Hans).
  rewrite (proj2 (Z.ltb_ge PAGE_SIZE 0)) by lia. rewrite andb_false_r. apply wp_ret. rewrite u64_small by lia. by apply HQ.
Qed.

Lemma create_host_mapping fd w (Q : Z * Z -> uworld -> Prop) : heap_ok w ->
  (forall err w', err <> 0 -> heap_ok w' -> objs w' = objs w -> Q (err, NULL) w') ->
  (forall p fd' w', heap_ok w' -> p <> NULL -> objs w !! p = None ->
     objs w' = <[p := OIoctl (host_mapping fd' false)]> (objs w) -> Q (0, p) w') ->
  wp e (create_mapping MAP_TYPE_HOST fd vaddr size) w Q.
Proof.
  intros Hok Herr HQ. pose proof page_size_bounds. unfold create_mapping.
  led_step. apply page_size_known. intros w1 Hst1. cbn beta.
  rewrite (proj2 (Z.eqb_neq PAGE_SIZE 0)) by lia. cbn zeta. repeat heap_step; path_simp.
  - apply Herr; [done|track; done|by heap_rewrite].
  - apply Herr; [done|track; done|norm_fresh; solve_objs].
  - eapply HQ; [track; done|done|norm_fresh; by heap_rewrite|heap_rewrite; by rewrite insert_insert_eq].
Qed.
(** The module grants the request: its state and the buffer afterwards. *)
Lemma map_memory_linked p b md old a kw w (Q : Z -> uworld -> Prop) :
  heap_ok w -> objs w !! p = Some (OIoctl md) -> objs w !! b = Some (OBuffer old) -> p <> b ->
  im_type md = MAP_TYPE_HOST ->
  serve ke c pid arg dst KPci.NVM_MAP_HOST_MEMORY (dm_vaddr (im_mapping md)) (dm_n_pages (im_mapping md)) (kernel w) = Some (0, a, kw) ->
  length a = length old ->
  (forall w', heap_ok w' -> objs w' = <[p := OIoctl (mapped md)]> (<[b := OBuffer a]> (objs w)) -> kernel w' = kw -> Q 0 w') ->
  wp e (map_memory p b) w Q.
Proof.
  intros Hok Hp Hb Hne Hty Hs Hlen HQ. unfold map_memory. do 2 heap_step. rewrite Hty. wp_step. apply wp_ext.
  pose proof (Hserved w (im_ioctl_fd md) NVM_MAP_HOST_MEMORY _ _ _ _ _ _ eq_refl Hs) as [Hv Hl]. rewrite Hv, Z.ltb_irrefl.
  set (w1 := after e w _). assert (heap_ok w1) as Hok1 by done. assert (w_st w1 = w_st w) as Hst1 by done.
  assert (kernel w1 = kw) as Hk1. { unfold kernel, w1, after. cbn [w_log kernel_after kernel_step ioctl_code]. change (kernel_after (w_log w)) with (kernel w). by rewrite Hs. }
  clearbody w1. wp_step. eapply wp_load; [done|rewrite Hst1; exact Hb|].
  rewrite Hl, <- Hlen, firstn_all, Hlen, skipn_all2, app_nil_r by lia.
  heap_step. quietly. eapply wp_store; [done|rewrite Hst1; exact (Hb : _ = Some (to_obj old))|]. intros w2 Ho2 _ _ _ Hok2 _ Hk2.
  heap_step. quietly. eapply wp_store; [done|rewrite Ho2, Hst1; by simplify_map_eq|]. intros w3 Ho3 _ _ _ Hok3 _ Hk3.
  wp_step. apply HQ; [done| |congruence]. rewrite Ho3, Ho2, Hst1. unfold mapped. by rewrite Hty.
Qed.

Lemma populate_handle_linked h cc md a kw w (Q : Z -> uworld -> Prop) :
  heap_ok w -> objs w !! h = Some (ODma cc) -> objs w !! d_map cc = Some (OIoctl md) -> h <> d_map cc ->
  objs w !! ctrl = Some (OController ct) -> im_type md = MAP_TYPE_HOST ->
  0 < dm_page_size (im_mapping md) -> 0 <= dm_n_pages (im_mapping md) ->
  length (dma_ioaddrs (d_handle cc)) = Z.to_nat (n_ctrl_pages (ct_handle ct) (dm_page_size (im_mapping md)) (dm_n_pages (im_mapping md))) ->
  serve ke c pid arg dst KPci.NVM_MAP_HOST_MEMORY (dm_vaddr (im_mapping md)) (dm_n_pages (im_mapping md)) (kernel w) = Some (0, a, kw) ->
  length a = Z.to_nat (dm_n_pages (im_mapping md)) ->
  (forall w', heap_ok w' ->
     objs w' = <[h := ODma (populated cc (im_mapping md) (ct_handle ct) a)]> (<[d_map cc := OIoctl (mapped md)]> (objs w)) ->
     kernel w' = kw -> Q 0 w') ->
  wp e (populate_handle h ctrl) w Q.
Proof.
  intros Hok Hh Hmd Hne Hct Hty Hps Hn Hlen Hs Ha HQ. unfold populate_handle. do 3 heap_step.
  eapply wp_load_map; [done|exact Hmd|reflexivity|]. heap_step. quietly.
  heap_step; [intros _; exfalso; by eapply Hbuffer|]. intros Hk1. heap_step.
  norm_fresh. heap_step. eapply map_memory_linked; [done|solve_lookup|solve_lookup|done|done|by rewrite Hk1| |].
  { by rewrite Ha, length_replicate. }
  intros w2 Hok2 Ho2 Hk2. cbn. heap_step. eapply wp_load; [done|solve_lookup|]. assert (ctrl <> d_map cc) by congruence.
  heap_step. quietly. eapply handle_populate_spec; [done|solve_lookup|solve_lookup|reflexivity|solve_lookup|exact Hcps|done|simpl; lia|exact Hlen|].
  intros w3 Hok3 Ho3 _ _ Hk3. heap_step. quietly. eapply wp_free; [done|solve_lookup|]. intros w4 Ho4 _ Hok4 _ Hk4. wp_step.
  apply HQ; [done| |congruence].
  heap_rewrite. rewrite delete_insert_ne, delete_insert_ne, insert_insert_eq, delete_insert_id by done. done.
Qed.

(** Releasing a mapping undoes it in the kernel if it was made. *)
Lemma remove_mapping_linked p md w (Q : unit -> uworld -> Prop) :
  heap_ok w -> objs w !! p = Some (OIoctl md) ->
  (forall w', heap_ok w' -> objs w' = delete p (objs w) ->
     kernel w' = (if im_mapped md then kernel_step (Ioctl_unmap (im_ioctl_fd md) (dm_vaddr (im_mapping md))) (kernel w) else kernel w) ->
     Q tt w') ->
  wp e (remove_mapping p) w Q.
Proof.
  intros Hok Hp HQ. unfold remove_mapping, unmap_memory.
  assert (forall w1, heap_ok w1 -> objs w1 = objs w ->
    kernel w1 = (if im_mapped md then kernel_step (Ioctl_unmap (im_ioctl_fd md) (dm_vaddr (im_mapping md))) (kernel w) else kernel w) ->
    wp e (ext (Close (im_ioctl_fd md));; free p) w1 Q) as Hrest.
  { intros w1 Hok1 Ho1 Hk1. wp_step. apply wp_silent; [by apply silent_ext|]. led_step. intros Hk2. quietly.
    eapply wp_free; [track; done|rewrite Hst, Ho1; exact Hp|]. intros w3 Ho3 _ Hok3 _ Hk3.
    apply HQ; [done|by rewrite Ho3, Hst, Ho1|congruence]. }
  do 2 heap_step. destruct (im_mapped md); [|heap_step; by apply Hrest].
  do 4 heap_step. wp_step. apply wp_ext. destruct (_ <? 0); wp_step; wp_step; by apply Hrest.
Qed.

Lemma dma_unmap_linked h cc md w (Q : unit -> uworld -> Prop) :
  heap_ok w -> objs w !! h = Some (ODma cc) -> d_release cc = Some REL_remove_mapping ->
  objs w !! d_map cc = Some (OIoctl md) -> h <> d_map cc -> im_mapped md = true ->
  (forall w', heap_ok w' -> objs w' = delete h (delete (d_map cc) (objs w)) ->
     kernel w' = kernel_step (Ioctl_unmap (im_ioctl_fd md) (dm_vaddr (im_mapping md))) (kernel w) -> Q tt w') ->
  wp e (nvm_dma_unmap h) w Q.
Proof.
  intros Hok Hh Hrel Hmd Hne Hm HQ. unfold nvm_dma_unmap, _nvm_dma_remove.
  rewrite (proj2 (Z.eqb_neq h NULL)) by (eapply heap_ok_nonnull; eauto). cbn. do 2 heap_step. rewrite Hrel, dma_release_mapping.
  heap_step. eapply remove_mapping_linked; [done|exact Hmd|]. rewrite Hm. intros w1 Hok1 Ho1 Hk1.
  quietly. eapply wp_free; [done|rewrite Ho1; by simplify_map_eq|]. intros w2 Ho2 _ Hok2 _ Hk2.
  apply HQ; [done|by rewrite Ho2, Ho1|congruence].
Qed.
Lemma fd_known w (Q : Z -> uworld -> Prop) : heap_ok w -> objs w !! ctrl = Some (OController ct) ->
  (forall fd, Q fd w) -> wp e (_nvm_fd_from_ctrl ctrl) w Q.
Proof. intros Hok Hct HQ. unfold _nvm_fd_from_ctrl. repeat heap_step; apply HQ. Qed.

(** The pages of a mapping. *)
Lemma pages_bound : 0 <= n /\ PAGE_SIZE * n < 2 ^ 64.
Proof.
  pose proof page_size_bounds. split; [apply align_pages_nonneg; lia|].
  assert (NVM_PAGE_ALIGN size PAGE_SIZE < 2 ^ 64).
  { unfold NVM_PAGE_ALIGN, u64 at 1. rewrite wrap_land, <- Z.land_assoc, (Z.land_comm (Z.ones 64)), Z.land_assoc, <- wrap_land by lia.
    apply wrap_bound. lia. }
  pose proof (Z.mul_div_le (NVM_PAGE_ALIGN size PAGE_SIZE) PAGE_SIZE). lia.
Qed.

Context (i : nat) (l : list (knode * Z)) (d : ctrl_dev) (w : uworld).
Hypothesis Hopen : opened ke c pid arg dst (kernel w) i l d.
Hypothesis Hok : heap_ok w.
Hypothesis Hct : objs w !! ctrl = Some (OController ct).
Hypothesis Hdiv : (ctrl_page_size (ct_handle ct) | PAGE_SIZE).
Hypothesis Hv : vaddr in_u 64 /\ Z.land vaddr PAGE_MASK <> 0.
Hypothesis Hn : n < max_pages_per_map.

(** What the program holds after the call, and the kernel for it. *)
Definition mapped_in_kernel (h : Z) (w1 : uworld) : Prop := exists m cc p fd,
  heap_ok w1 /\ granted i l d vaddr n m (kernel w) (kernel w1)
  /\ objs w1 = <[h := ODma cc]> (<[p := OIoctl (host_mapping fd true)]> (objs w))
  /\ objs w !! h = None /\ objs w !! p = None /\ h <> p
  /\ d_map cc = p /\ d_release cc = Some REL_remove_mapping
  /\ (Forall (fun a => 0 <= a /\ a + PAGE_SIZE <= 2 ^ 64) (mp_addrs m) ->
      translates (d_handle cc) vaddr PAGE_SIZE n (ctrl_page_size (ct_handle ct)) (handed m n)).

Lemma length_handed m (kw kw' : kworld) : granted i l d vaddr n m kw kw' -> length (handed m n) = Z.to_nat n.
Proof. intros (_ & Hp & Ha & _). unfold handed. rewrite length_app, length_fmap, length_replicate. lia. Qed.

Lemma handed_translates m cc (kw kw' : kworld) : granted i l d vaddr n m kw kw' ->
  Forall (fun a => 0 <= a /\ a + PAGE_SIZE <= 2 ^ 64) (mp_addrs m) ->
  translates (d_handle (populated cc (DmaMap vaddr PAGE_SIZE n) (ct_handle ct) (handed m n))) vaddr PAGE_SIZE n
    (ctrl_page_size (ct_handle ct)) (handed m n).
Proof.
  intros Hg Ha. pose proof page_size_bounds. pose proof pages_bound as [? ?]. pose proof (length_handed _ _ _ Hg).
  apply populated_translates; [done|lia|done|lia|lia|]. unfold handed. apply Forall_app. split; [|apply Forall_replicate; lia].
  apply Forall_fmap. eapply Forall_impl; [exact Ha|]. intros a Hb. simpl in *. rewrite u64_small by lia; lia.
Qed.

Lemma map_host_linked :
  (exists a kw, serve ke c pid arg dst KPci.NVM_MAP_HOST_MEMORY vaddr n (kernel w) = Some (0, a, kw)) ->
  wp e (nvm_dma_map_host ctrl vaddr size) w (fun '(err, h) w1 =>
    err <> 0 /\ heap_ok w1 /\ objs w1 = objs w /\ kernel w1 = kernel w \/ err = 0 /\ mapped_in_kernel h w1).
Proof.
  intros (a & kw & Hs). unfold nvm_dma_map_host, map_pages. pose proof page_size_bounds. pose proof pages_bound as [Hn0 ?].
  heap_step. apply fd_known; [done..|]. intros fd. destruct (_ <? 0); [wp_step; by left|].
  heap_step. quietly. apply create_host_mapping; [done|..].
  { intros err w1 Herr Hok1 Ho1 Hk1. rewrite (proj2 (Z.eqb_neq err 0)) by done. cbn [negb]. cbn iota. wp_step. by left. }
  intros p fd' w1 Hok1 Hp Hfp Ho1 Hk1. cbn [Z.eqb negb]. cbn iota.
  heap_step. quietly. assert (ctrl <> p) by congruence.
  eapply wp_mono; [eapply (dma_create_spec e ctrl ct p); [done|rewrite Ho1; by simplify_map_eq|reflexivity|rewrite Ho1; by simplify_map_eq|done]|].
  intros [err h] w2 [(Herr & Hok2 & Ho2 & _)|(-> & Hok2 & Hfh & Hh & _ & Hnz & _ & _ & Ho2)] Hk2; cbn beta iota.
  { rewrite (proj2 (Z.eqb_neq err 0)) by done. cbn [negb]. cbn iota. heap_step.
    eapply remove_mapping_linked; [done|rewrite Ho2, Ho1; by simplify_map_eq|]. intros w3 Hok3 Ho3 Hk3. wp_step. left.
    split; [done|]. split; [done|]. split; [|simpl in Hk3; congruence]. rewrite Ho3, Ho2, Ho1. by rewrite delete_insert_id. }
  cbn in Hnz. norm_fresh.
  destruct (serve_map ke c pid arg dst _ i l d vaddr n Hopen (proj1 Hv)) as (s & a' & kw' & Hs' & Hg); [lia|].
  rewrite Hs in Hs'. injection Hs' as <- <- <-. destruct (Hg eq_refl) as (m & Hgr & ->).
  cbn [Z.eqb negb]. cbn iota. heap_step. eapply (populate_handle_linked _ _ (host_mapping fd' false)); [done|rewrite Ho2; by simplify_map_eq| | | | | | | | | |].
  all: cbn.
  1: rewrite Ho2, Ho1; by simplify_map_eq. 1: done. 1: rewrite Ho2, Ho1; by simplify_map_eq. 1: done. 1: lia. 1: lia.
  1: by rewrite length_replicate. 1: by rewrite Hk2, Hk1. 1: by eapply length_handed.
  intros w3 Hok3 Ho3 Hk3. right. split; [done|]. eexists m, _, p, fd'. rewrite Hk3. split; [done|]. split; [done|].
  split; [rewrite Ho3, Ho2, Ho1; cbn; rewrite (insert_insert_ne _ p h), !insert_insert_eq by done; reflexivity|].
  do 5 (split; [done|]). intros Ha. by eapply handed_translates.
Qed.

Lemma unmap_linked h w1 : mapped_in_kernel h w1 ->
  wp e (nvm_dma_unmap h) w1 (fun _ w2 => objs w2 = objs w /\ restored i l (kernel w) (kernel w2)).
Proof.
  intros (m & cc & p & fd & Hok1 & Hg & Ho & Hfh & Hfp & Hne & Hm & Hrel & _).
  destruct (serve_unmap ke c pid arg dst _ _ i l d vaddr n m Hopen (proj1 Hv) (proj2 Hv) Hg) as (kw2 & Hs & Hr).
  eapply (dma_unmap_linked h cc (host_mapping fd true)); [done|rewrite Ho; by simplify_map_eq|done|rewrite Ho, Hm; by simplify_map_eq|congruence|done|].
  intros w2 _ Ho2 Hk2. split.
  - rewrite Ho2, Ho, Hm, delete_insert_ne by congruence. rewrite delete_insert_id by (by simplify_map_eq). by rewrite delete_insert_id.
  - rewrite Hk2. cbn. by rewrite Hs.
Qed.
End mapping.
End link.

(** ** Property *)


(** ** Witness *)

#[local] Instance link_build : Build := {| NDEBUG := false; CUDA := false |}.
#[local] Instance link_release : DmaRelease := {|
  dma_release f p := match f with REL_remove_mapping => remove_mapping p | _ => free p end;
  dma_release_free p := eq_refl; dma_release_mapping p := eq_refl |}.

(** The module of [KIoctl]'s witness answers; everything else succeeds. *)
Definition module_resp (w : uworld) (q : call) : resp :=
  match q with
  | Ioctl_map _ ty v n =>
      match serve (H:=ioctl_kernel) ioctl_kenv 0 33 0x5000 0x9000 (ioctl_code (H:=ioctl_kernel) ty) v n
              (kernel (H:=ioctl_kernel) ioctl_kenv 0 33 0x5000 0x9000 ioctl_world w) with
      | Some (s, a, _) => if s <? 0 then Resp (-1) 0 (- s) SCI_ERR_OK [] else Resp s 0 0 SCI_ERR_OK a
      | None => resp_ok 0
      end
  | Sysconf_pagesize => resp_ok 4096
  | _ => resp_ok 9
  end.
Definition module_env : uenv := Env (fun w q => (module_resp w q, w_mem w)) 1.

#[local] Existing Instance ioctl_kernel.

Lemma module_serves : served_by ioctl_kenv 0 33 0x5000 0x9000 ioctl_world module_env.
Proof.
  intros w fd ty v n r s a kw' Ha Hs. unfold answers in Ha. cbn [e_resp module_env fst module_resp] in Ha. rewrite Hs in Ha. rewrite Ha. by destruct (s <? 0).
Qed.

Lemma module_opened : opened ioctl_kenv 0 33 0x5000 0x9000 ioctl_world 0 [] (CtrlDev 2 9 "disnvme0" 0 0 0).
Proof.
  constructor; [exact ioctl_kenv_pins|exact ioctl_kenv_quiet|done|done|left; done|done|].
  exists [([], [])], [CtrlDev 2 9 "disnvme0" 0 0 0], [CtrlRef 2 (Some 0%nat) 33], (CtrlRef 2 (Some 0%nat) 33), [], [].
  split; [exact ioctl_kstate_inv|]. split; [done|]. split; [|done]. do 3 (split; [done|]). intros j r' Hj. lia.
Qed.


(** It does succeed there, and the pages it could not pin are translated to 0. *)
Lemma module_maps :
  match run (nvm_dma_map_host 1 0x7000 12288) module_env ctrl_world with
  | Ok (err, h) w1 => (err =? 0) && match objs w1 !! h with
      | Some (ODma cc) => bool_decide (dma_ioaddrs (d_handle cc) = [0x77000; 0x78000; 0]) | _ => false end
  | _ => false
  end = true.
Proof. by vm_compute. Qed.
