(* ===== verification/Lane.v ===== *)
(** * I/O commands in flight

    What the programs under [examples/] that read and write blocks share: the
    pointer macros of [include/nvm_util.h] they use, the I/O commands they build
    in queue memory, and one submission queue with the PRP list pages behind it
    (a lane), as the program, the consumer of completions and the controller
    change it. The programs themselves are in [ReadBlocks] and [Transfer]. *)
From S2P Require Import Prelude Bits Memory Effects Types Runtime Command Queue.

(** ** Memory that two states share *)

Definition agree (m m' : mem) (a n : Z) : Prop := forall b, a <= b < a + n -> ld8 m' b = ld8 m b.

Lemma agree_refl m a n : agree m m a n.
Proof. done. Qed.

Lemma agree_trans m1 m2 m3 a n : agree m1 m2 a n -> agree m2 m3 a n -> agree m1 m3 a n.
Proof. intros H1 H2 b Hb. by rewrite H2, H1. Qed.

Lemma agree_sub m m' a n b k : agree m m' a n -> a <= b -> b + k <= a + n -> agree m m' b k.
Proof. intros H ?? c Hc. apply H. lia. Qed.

Lemma ld_agree k m m' a : agree m m' a (Z.of_nat k) -> ld k m' a = ld k m a.
Proof. intros H. apply ld_ext. intros i Hi. apply H. lia. Qed.

Lemma dwords_agree m m' a : agree m m' a 64 -> dwords m' a = dwords m a.
Proof.
  intros H. rewrite !dwords_eq.
  repeat match goal with |- _ :: _ = _ :: _ => f_equal end;
    apply ld_agree; eapply agree_sub; try exact H; simpl Z.of_nat; lia.
Qed.

Lemma agree_st k m a v b n : b + n <= a \/ a + Z.of_nat k <= b -> agree m (st k m a v) b n.
Proof. intros Hd c Hc. rewrite ld8_st, decide_False by lia. done. Qed.

Lemma agree_ld m m' a n : (forall b, a <= b < a + n -> ld 1 m' b = ld 1 m b) -> agree m m' a n.
Proof.
  intros H b Hb. specialize (H b Hb). unfold ld in H. lia.
Qed.

(** ** Commands in queue memory *)

(** The sixteen dwords of an I/O command. *)
Definition io_dwords (c : nvm_io_command_set) (cid ns prp1 prp2 lba blks : Z) : list Z :=
  [io_opcode c + 65536 * cid; u32 ns; 0; 0; 0; 0; u32 prp1; u32 (Z.shiftr prp1 32);
   u32 prp2; u32 (Z.shiftr prp2 32); u32 lba; u32 (Z.shiftr lba 32); Z.land (blks - 1) 0xffff; 0; 0; 0].

(** The fields no setter writes are zero. *)
Record blank (m : mem) (a : Z) : Prop := {
  bl_2 : ld_dword m a 2 = 0; bl_3 : ld_dword m a 3 = 0; bl_4 : ld_dword m a 4 = 0;
  bl_5 : ld_dword m a 5 = 0; bl_12 : Z.land (ld_dword m a 12) 0xffff0000 = 0;
  bl_13 : ld_dword m a 13 = 0; bl_14 : ld_dword m a 14 = 0; bl_15 : ld_dword m a 15 = 0;
}.

(** [nvm_cmd_header] has run. *)
Record headed (m : mem) (a : Z) (c : nvm_io_command_set) (cid ns : Z) : Prop := {
  hd_blank : blank m a;
  hd_0 : ld_dword m a 0 = io_opcode c + 65536 * cid;
  hd_1 : ld_dword m a 1 = u32 ns;
}.

(** So has [nvm_cmd_rw_blks]. *)
Record blocked (m : mem) (a : Z) (c : nvm_io_command_set) (cid ns lba blks : Z) : Prop := {
  bk_headed : headed m a c cid ns;
  bk_10 : ld_dword m a 10 = u32 lba;
  bk_11 : ld_dword m a 11 = u32 (Z.shiftr lba 32);
  bk_12 : ld_dword m a 12 = Z.land (blks - 1) 0xffff;
}.

Lemma dword_agree m m' a i : agree m m' a 64 -> 0 <= i < 16 -> ld_dword m' a i = ld_dword m a i.
Proof. intros H Hi. apply ld_agree. eapply agree_sub; [exact H|lia|simpl Z.of_nat; lia]. Qed.

Lemma blank_agree m m' a : agree m m' a 64 -> blank m a -> blank m' a.
Proof. intros H []. by constructor; rewrite (dword_agree m m') by (done || lia). Qed.

Lemma headed_agree m m' a c cid ns : agree m m' a 64 -> headed m a c cid ns -> headed m' a c cid ns.
Proof.
  intros H []. constructor; [by eapply blank_agree|..]; by rewrite (dword_agree m m') by (done || lia).
Qed.

Lemma blocked_agree m m' a c cid ns lba blks :
  agree m m' a 64 -> blocked m a c cid ns lba blks -> blocked m' a c cid ns lba blks.
Proof.
  intros H []. constructor; [by eapply headed_agree|..]; by rewrite (dword_agree m m') by (done || lia).
Qed.

Lemma blank_zero m a : (forall b, a <= b < a + 64 -> ld8 m b = 0) -> blank m a.
Proof. intros H. constructor; rewrite ld_zero; try done; intros; apply H; simpl in *; lia. Qed.

(** Masking a dword half by half. *)
Lemma halves x : x = x mod 2 ^ 16 + 65536 * Z.shiftr x 16.
Proof. rewrite Z.shiftr_div_pow2 by lia. change (2 ^ 16) with 65536. pose proof (Z.div_mod x 65536). lia. Qed.

Lemma low_half a b : a in_u 16 -> (a + 65536 * b) mod 2 ^ 16 = a.
Proof. intros. change (2 ^ 16) with 65536 in *. by rewrite (Z.mul_comm 65536), Z.mod_add, Z.mod_small by lia. Qed.

Lemma high_half a b : a in_u 16 -> Z.shiftr (a + 65536 * b) 16 = b.
Proof.
  intros. rewrite Z.shiftr_div_pow2 by lia. change (2 ^ 16) with 65536 in *.
  by rewrite (Z.mul_comm 65536), Z.div_add, Z.div_small by lia.
Qed.

Lemma mod_land16 a b : Z.land a b mod 2 ^ 16 = Z.land (a mod 2 ^ 16) (b mod 2 ^ 16).
Proof.
  rewrite <- !Z.land_ones by lia. bit_ext i.
  destruct (Z.testbit a i), (Z.testbit b i), (Z.testbit (Z.ones 16) i); done.
Qed.

Lemma mod_lor16 a b : Z.lor a b mod 2 ^ 16 = Z.lor (a mod 2 ^ 16) (b mod 2 ^ 16).
Proof.
  rewrite <- !Z.land_ones by lia. bit_ext i.
  destruct (Z.testbit a i), (Z.testbit b i), (Z.testbit (Z.ones 16) i); done.
Qed.

Lemma land_halves a b c d : a in_u 16 -> c in_u 16 ->
  Z.land (a + 65536 * b) (c + 65536 * d) = Z.land a c + 65536 * Z.land b d.
Proof.
  intros Ha Hc. rewrite (halves (Z.land _ _)), Z.shiftr_land, !high_half by done. f_equal.
  by rewrite mod_land16, !low_half.
Qed.

Lemma lor_halves a b c d : a in_u 16 -> c in_u 16 ->
  Z.lor (a + 65536 * b) (c + 65536 * d) = Z.lor a c + 65536 * Z.lor b d.
Proof.
  intros Ha Hc. rewrite (halves (Z.lor _ _)), Z.shiftr_lor, !high_half by done. f_equal.
  by rewrite mod_lor16, !low_half.
Qed.

Lemma land_low16 x : x in_u 16 -> Z.land x 0xffff = x.
Proof. intros. change 0xffff with (Z.ones 16). rewrite Z.land_ones by lia. by apply Z.mod_small. Qed.

Lemma ld_dword0 m a : ld_dword m a 0 = ld 2 m a + 65536 * ld 2 m (a + 2).
Proof. rewrite Z.mul_0_r, Z.add_0_r. apply (ld_split 2 2). Qed.

Lemma io_opcode_bound c : 0 <= io_opcode c < 16.
Proof. destruct c; vm_compute; split; congruence. Qed.

(** What each setter establishes. *)
Lemma cmd_header_headed m a c cid ns : cid in_u 16 -> ld 2 m (a + 2) = cid -> blank m a ->
  headed (nvm_cmd_header m a (io_opcode c) ns) a c cid ns.
Proof.
  intros Hc Hcid []. unfold nvm_cmd_header.
  assert (Z.land (ld_dword m a 0) 0xffff0000 = 65536 * cid) as E.
  { rewrite ld_dword0, Hcid. change 0xffff0000 with (0 + 65536 * 0xffff).
    pose proof (ld_bound 2 m a) as Hb. simpl in Hb. rewrite land_halves by lia. rewrite Z.land_0_r, land_low16 by done. done. }
  assert (forall o, o in_u 16 -> Z.lor (65536 * cid) o = o + 65536 * cid) as El.
  { intros o Ho. pose proof (lor_halves 0 cid o 0 ltac:(lia) Ho) as Hl.
    rewrite Z.lor_0_r, Z.mul_0_r, Z.add_0_r in Hl. exact Hl. }
  constructor; [constructor|..]; mem_simp; try done.
  replace (Z.lor (Z.lor (Z.shiftl 0 14) (Z.shiftl 0 8)) (Z.land (u8 (io_opcode c)) 0x7f)) with (io_opcode c)
    by (destruct c; reflexivity).
  pose proof (io_opcode_bound c). rewrite !ld4_wrap, E, (u32_small (65536 * cid)), El by lia. apply u32_small. lia.
Qed.

Lemma cmd_rw_blks_blocked m a c cid ns lba blks : headed m a c cid ns ->
  blocked (nvm_cmd_rw_blks m a lba blks) a c cid ns lba blks.
Proof.
  intros [[] H0 H1]. unfold nvm_cmd_rw_blks.
  assert (forall x, u32 (Z.land x 0xffff) = Z.land x 0xffff) as E.
  { intros x. change 0xffff with (Z.ones 16). rewrite Z.land_ones by lia. apply u32_small.
    pose proof (Z.mod_pos_bound x (2 ^ 16)). lia. }
  constructor; [constructor; [constructor|..]|..]; mem_simp; rewrite ?ld4_wrap; try done.
  - rewrite bl_16, Z.lor_0_l, E. rewrite <- Z.land_assoc. change (Z.land 0xffff 0xffff0000) with 0.
    apply Z.land_0_r.
  - by rewrite bl_16, Z.lor_0_l, E.
Qed.

(** Clearing the transfer type of dword 0 leaves a header as it is. *)
Lemma psdt_clear c cid : cid in_u 16 ->
  u32 (Z.land (io_opcode c + 65536 * cid) (u32 (Z.lnot (Z.lor (Z.shiftl 0x03 14) (Z.shiftl 0x03 8)))))
  = io_opcode c + 65536 * cid.
Proof.
  intros Hc. change (u32 (Z.lnot _)) with (0x3cff + 65536 * 0xffff).
  pose proof (io_opcode_bound c). rewrite land_halves, land_low16 by lia.
  replace (Z.land (io_opcode c) 0x3cff) with (io_opcode c) by (destruct c; reflexivity). apply u32_small. lia.
Qed.

Lemma cmd_data_ptr_blocked m a c cid ns lba blks p1 p2 : cid in_u 16 ->
  blocked m a c cid ns lba blks ->
  dwords (nvm_cmd_data_ptr m a p1 p2) a = io_dwords c cid ns p1 p2 lba blks.
Proof.
  intros Hc [[[] H0 H1] H10 H11 H12]. rewrite dwords_eq. unfold nvm_cmd_data_ptr, io_dwords. mem_simp.
  rewrite ?ld4_wrap, ?u32_u32. rewrite H0, psdt_clear by done.
  congruence.
Qed.

Lemma cmd_data_ptr_headed m a c cid ns p1 p2 : cid in_u 16 -> headed m a c cid ns ->
  headed (nvm_cmd_data_ptr m a p1 p2) a c cid ns.
Proof.
  intros Hc [[] H0 H1]. unfold nvm_cmd_data_ptr. constructor; [constructor|..]; mem_simp; try done.
  rewrite ?ld4_wrap, H0. by apply psdt_clear.
Qed.

(** Both orders in which the programs finish a command. *)
Lemma headed_data_rw m a c cid ns lba blks p1 p2 : cid in_u 16 -> headed m a c cid ns ->
  dwords (nvm_cmd_rw_blks (nvm_cmd_data_ptr m a p1 p2) a lba blks) a
  = io_dwords c cid ns p1 p2 lba blks.
Proof.
  intros Hc Hh. apply (cmd_data_ptr_headed _ _ _ _ _ p1 p2 Hc) in Hh.
  assert (ld_dword (nvm_cmd_data_ptr m a p1 p2) a 6 = u32 p1
    /\ ld_dword (nvm_cmd_data_ptr m a p1 p2) a 7 = u32 (Z.shiftr p1 32)
    /\ ld_dword (nvm_cmd_data_ptr m a p1 p2) a 8 = u32 p2
    /\ ld_dword (nvm_cmd_data_ptr m a p1 p2) a 9 = u32 (Z.shiftr p2 32)) as (H6 & H7 & H8 & H9).
  { unfold nvm_cmd_data_ptr. mem_simp. by rewrite ?ld4_wrap, ?u32_u32. }
  pose proof (cmd_rw_blks_blocked _ _ _ _ _ lba blks Hh) as [[[] H0 H1] H10 H11 H12].
  set (m1 := nvm_cmd_data_ptr m a p1 p2) in *. rewrite dwords_eq. unfold io_dwords.
  assert (forall i, 6 <= i <= 9 -> ld_dword (nvm_cmd_rw_blks m1 a lba blks) a i = ld_dword m1 a i) as E
    by (intros; unfold nvm_cmd_rw_blks; by mem_simp).
  rewrite (E 6), (E 7), (E 8), (E 9) by lia. congruence.
Qed.

Lemma io_dwords_blank m a c cid ns p1 p2 lba blks :
  dwords m a = io_dwords c cid ns p1 p2 lba blks -> blank m a.
Proof.
  rewrite dwords_eq. unfold io_dwords. intros [=]. constructor; try done.
  replace (ld_dword m a 12) with (Z.land (blks - 1) 0xffff) by done. by rewrite <- Z.land_assoc, Z.land_0_r.
Qed.

(** ** Jobs

    What a program asks of the controller with one command: a transfer of [count]
    pages from page [page] of its buffer, or a flush. *)
Inductive job :=
  | Rw (write : bool) (page count lba blocks : Z)
  | Flush.

(** The pages of the buffer a job transfers, and the blocks it names. *)
Definition job_pages (j : job) : list Z := match j with Rw _ p n _ _ => seqZ p n | Flush => [] end.
Definition job_blocks (j : job) : list Z := match j with Rw _ _ _ lba blks => seqZ lba blks | Flush => [] end.

(** The jobs [mk page n] that cover the pages from [page] on, at most [np] at a time;
    the number of pages of a job never grows again. *)
Section chunked.
Context (mk : Z -> Z -> job).

Fixpoint chunked (fuel : nat) (total page np : Z) : list job :=
  match fuel with
  | O => []
  | S fuel' =>
      if total - page >? 0 then
        let n := if total - page <? np then total - page else np in
        mk page n :: chunked fuel' total (page + n) n
      else []
  end.

Lemma chunked_done fuel total page np : total - page <= 0 -> chunked fuel total page np = [].
Proof. intros. destruct fuel; [done|]. cbn [chunked]. by rewrite Z.gtb_ltb, (proj2 (Z.ltb_ge 0 (total - page))) by lia. Qed.

Lemma chunked_fuel fuel total page np : 0 < np -> total - page <= Z.of_nat fuel ->
  chunked (S fuel) total page np = chunked fuel total page np.
Proof.
  revert page np. induction fuel as [|fuel IH]; intros page np Hn Hf.
  - apply chunked_done. lia.
  - cbn [chunked]. rewrite Z.gtb_ltb. destruct (Z.ltb_spec 0 (total - page)); [|done]. f_equal.
    destruct (Z.ltb_spec (total - page) np); apply IH; lia.
Qed.

Lemma length_chunked fuel total page np : (length (chunked fuel total page np) <= fuel)%nat.
Proof.
  revert page np. induction fuel as [|fuel IH]; intros page np; [done|]. cbn [chunked].
  destruct (_ >? _); [|simpl; lia]. cbn [length]. specialize (IH (page + if total - page <? np then total - page else np)
    (if total - page <? np then total - page else np)). lia.
Qed.

(** One round of the loop. *)
Lemma chunked_round fuel total page np : 0 < np -> 0 < total - page <= Z.of_nat fuel ->
  let n := if total - page <? np then total - page else np in
  chunked fuel total page np = mk page n :: chunked fuel total (page + n) n.
Proof.
  intros Hn Hf n. destruct fuel as [|fuel]; [lia|]. rewrite (chunked_fuel fuel total (page + n) n).
  - cbn [chunked]. by rewrite Z.gtb_ltb, (proj2 (Z.ltb_lt 0 (total - page))) by lia.
  - subst n. destruct (Z.ltb_spec (total - page) np); lia.
  - subst n. destruct (Z.ltb_spec (total - page) np); lia.
Qed.

(** What the jobs list, piece by piece, they list together. *)
Lemma chunked_list (f : job -> list Z) cap total first r fuel page np :
  0 <= r -> (forall p n, 0 <= p -> 0 < n <= cap -> p + n <= total -> f (mk p n) = seqZ (first + r * p) (r * n)) ->
  0 <= page -> 0 < np <= cap -> 0 <= total - page <= Z.of_nat fuel ->
  chunked fuel total page np ≫= f = seqZ (first + r * page) (r * (total - page)).
Proof.
  intros Hr Hf. revert page np. induction fuel as [|fuel IH]; intros page np Hp Hn Hfu.
  - replace (total - page) with 0 by lia. by rewrite Z.mul_0_r.
  - cbn [chunked]. rewrite Z.gtb_ltb. destruct (Z.ltb_spec 0 (total - page)).
    + set (n := if _ <? _ then _ else _). assert (0 < n <= total - page /\ n <= np) as [Hb Hb']
        by (subst n; destruct (Z.ltb_spec (total - page) np); lia).
      cbn [mbind list_bind]. rewrite IH, Hf by lia.
      replace (first + r * (page + n)) with (first + r * page + r * n) by lia.
      rewrite <- seqZ_app by nia. f_equal. lia.
    + replace (total - page) with 0 by lia. by rewrite Z.mul_0_r.
Qed.
End chunked.

(** Blocks that divide pages. *)
Lemma page_to_block r ps bs x : 0 < bs -> ps = r * bs -> 0 <= ps * x < 2 ^ 64 -> NVM_PAGE_TO_BLOCK ps bs x = r * x.
Proof.
  intros Hb -> Hx. unfold NVM_PAGE_TO_BLOCK. rewrite u64_small by done.
  replace (r * bs * x) with (r * x * bs) by lia. apply Z.div_mul. lia.
Qed.

Lemma block_to_page r ps bs x : 0 < bs -> 0 < r -> ps = r * bs -> 0 <= ps * x < 2 ^ 64 -> NVM_BLOCK_TO_PAGE ps bs (r * x) = x.
Proof.
  intros Hb Hr -> Hx. unfold NVM_BLOCK_TO_PAGE. replace (bs * (r * x)) with (x * (r * bs)) by lia.
  rewrite u64_small by lia. apply Z.div_mul. nia.
Qed.

(** A submission queue of [2 ^ l_k] entries in page 0 of [l_dma], with a PRP list
    page per entry behind it; the bus addresses of the program's buffer are [l_bus],
    stored as an array at [l_tbl]. *)
Record lane := Lane {
  l_k : Z; l_dma : nvm_dma_t; l_ns : Z; l_bus : list Z; l_tbl : Z;
}.

Section lane.
Context (L : lane).

Definition lane_size : Z := 2 ^ l_k L.
Definition page_size : Z := dma_page_size (l_dma L).
Definition slot (i : Z) : Z := dma_vaddr (l_dma L) + 64 * (i mod lane_size).
Definition list_no (i : Z) : Z := (i + 1) mod lane_size + 1.
Definition list_page (i : Z) : Z := dma_vaddr (l_dma L) + page_size * list_no i.
Definition bus (p : Z) : Z := default 0 (l_bus L !! Z.to_nat p).
Definition list_io (i : Z) : Z := default 0 (dma_ioaddrs (l_dma L) !! Z.to_nat (list_no i)).

(** The command that carries job [j] as the [i]-th of the lane. *)
Definition job_dwords (i : Z) (j : job) : list Z :=
  let cid := (i + 1) mod (2 * lane_size) in
  match j with
  | Rw write p n lba blks =>
      io_dwords (if write then NVM_IO_WRITE else NVM_IO_READ) cid (l_ns L) (bus p)
        (if n <=? 1 then 0 else if n =? 2 then bus (p + 1) else list_io i) lba blks
  | Flush => io_dwords NVM_IO_FLUSH cid (l_ns L) 0 0 0 0
  end.

(** The entries of the PRP list page of job [j]. *)
Definition list_holds (m : mem) (i : Z) (j : job) : Prop :=
  match j with
  | Rw _ p n _ _ => 2 < n -> forall t, 0 <= t < n - 1 -> ld 8 m (list_page i + 8 * t) = bus (p + 1 + t)
  | Flush => True
  end.

Record lane_wf : Prop := {
  lw_k : 1 <= l_k L <= 15;
  lw_page : 64 * lane_size <= page_size;
  lw_vaddr : 0 < dma_vaddr (l_dma L);
  lw_end : dma_vaddr (l_dma L) + page_size * (lane_size + 1) < 2 ^ 64;
  lw_io : lane_size + 1 <= Z.of_nat (length (dma_ioaddrs (l_dma L)));
  lw_io_u64 : Forall (fun a => a in_u 64) (dma_ioaddrs (l_dma L));
  lw_bus_u64 : Forall (fun a => a in_u 64) (l_bus L);
  lw_apart : l_tbl L + 8 * Z.of_nat (length (l_bus L)) <= dma_vaddr (l_dma L)
             \/ dma_vaddr (l_dma L) + page_size * (lane_size + 1) <= l_tbl L;
}.

Definition job_wf (j : job) : Prop :=
  match j with
  | Rw _ p n lba _ =>
      0 <= p /\ 1 <= n <= page_size / 8 + 1 /\ p + n <= Z.of_nat (length (l_bus L)) /\ lba in_u 64
  | Flush => True
  end.

(** The program's table of bus addresses is in memory. *)
Definition table_at (m : mem) : Prop :=
  forall i a, l_bus L !! i = Some a -> ld 8 m (l_tbl L + 8 * Z.of_nat i) = a.

(** [jobs] have been built, [E] slots taken, [S] commands submitted, [F] fetched by
    the controller and [R] retired. *)
Record lane_ok (m : mem) (q : nvm_queue_t) (jobs : list job) (E S F R : Z) : Prop := {
  lk_ring : sq_state lane_size E R q;
  lk_vaddr : q_vaddr q = dma_vaddr (l_dma L);
  lk_entry : q_entry_size q = 64;
  lk_last : q_last q = S mod lane_size;
  lk_counts : R <= F /\ F <= S /\ S <= Z.of_nat (length jobs) <= E /\ E <= Z.of_nat (length jobs) + 1;
  lk_wf : Forall job_wf jobs;
  lk_blank : forall s, 0 <= s < lane_size -> blank m (dma_vaddr (l_dma L) + 64 * s);
  lk_slots : forall i j, F <= Z.of_nat i -> jobs !! i = Some j ->
    dwords m (slot (Z.of_nat i)) = job_dwords (Z.of_nat i) j;
  lk_lists : forall i j, R <= Z.of_nat i -> jobs !! i = Some j -> list_holds m (Z.of_nat i) j;
}.

(** All memory of the lane. *)
Definition lane_extent : Z := page_size * (lane_size + 1).

Hypothesis Hwf : lane_wf.

(** *** Where things are *)

Lemma lane_size_bounds : 2 <= lane_size <= 32768.
Proof.
  unfold lane_size. pose proof (lw_k Hwf). change 2 with (2 ^ 1) at 1. change 32768 with (2 ^ 15).
  split; apply Z.pow_le_mono_r; lia.
Qed.

Lemma slot_bounds i : dma_vaddr (l_dma L) <= slot i /\ slot i + 64 <= dma_vaddr (l_dma L) + page_size.
Proof.
  unfold slot. pose proof lane_size_bounds. pose proof (lw_page Hwf).
  pose proof (Z.mod_pos_bound i lane_size). lia.
Qed.

Lemma page_pos : 128 <= page_size.
Proof. pose proof lane_size_bounds. pose proof (lw_page Hwf). lia. Qed.

Lemma list_no_bounds i : 1 <= list_no i <= lane_size.
Proof. unfold list_no. pose proof lane_size_bounds. pose proof (Z.mod_pos_bound (i + 1) lane_size). lia. Qed.

Lemma list_page_bounds i : dma_vaddr (l_dma L) + page_size <= list_page i
  /\ list_page i + page_size <= dma_vaddr (l_dma L) + lane_extent.
Proof.
  unfold list_page, lane_extent. pose proof (list_no_bounds i). pose proof page_pos. nia.
Qed.

Lemma slots_apart i j : 0 <= i < j -> j < i + lane_size -> slot i + 64 <= slot j \/ slot j + 64 <= slot i.
Proof.
  intros. unfold slot. assert (i mod lane_size <> j mod lane_size); [|lia].
  intros E. apply mod_window in E; [lia|pose proof lane_size_bounds; lia|lia].
Qed.

Lemma lists_apart i j : 0 <= i < j -> j < i + lane_size ->
  list_page i + page_size <= list_page j \/ list_page j + page_size <= list_page i.
Proof.
  intros. pose proof page_pos. unfold list_page, list_no.
  assert ((i + 1) mod lane_size <> (j + 1) mod lane_size); [|nia].
  intros E. apply mod_window in E; [lia|pose proof lane_size_bounds; lia|lia].
Qed.

Lemma io_cid_small i : (i mod (2 * lane_size)) in_u 16.
Proof. pose proof lane_size_bounds. pose proof (Z.mod_pos_bound i (2 * lane_size)). lia. Qed.

(** *** Frames *)

Lemma list_holds_agree m m' i j : job_wf j ->
  agree m m' (list_page i) page_size -> list_holds m i j -> list_holds m' i j.
Proof.
  destruct j as [w p n lba blks|]; [|done]. intros (Hp & Hn & _) Ha H Hn2 t Ht. rewrite <- H by lia.
  pose proof (Z.mul_div_le page_size 8 ltac:(lia)).
  apply ld_agree. eapply agree_sub; [exact Ha|lia|simpl Z.of_nat; lia].
Qed.

Lemma lane_ok_agree m m' q jobs E S F R :
  agree m m' (dma_vaddr (l_dma L)) lane_extent -> lane_ok m q jobs E S F R -> lane_ok m' q jobs E S F R.
Proof.
  intros Ha [Hr Hv He Hl Hc Hw Hb Hs Hp]. pose proof (list_page_bounds 0) as Hx. pose proof page_pos.
  pose proof (lw_page Hwf) as Hsp. constructor; try done.
  - intros s Hs'. eapply blank_agree; [|by apply Hb]. eapply agree_sub; [exact Ha|lia|]. unfold lane_extent in *. nia.
  - intros i j Hi Hj. rewrite <- (Hs i j) by done. apply dwords_agree.
    pose proof (slot_bounds (Z.of_nat i)). eapply agree_sub; [exact Ha|lia|lia].
  - intros i j Hi Hj. eapply list_holds_agree; [by eapply Forall_lookup_1| |by apply Hp].
    pose proof (list_page_bounds (Z.of_nat i)). eapply agree_sub; [exact Ha|lia|lia].
Qed.

Lemma table_at_agree m m' :
  agree m m' (l_tbl L) (8 * Z.of_nat (length (l_bus L))) -> table_at m -> table_at m'.
Proof.
  intros Ha H i a Hi. rewrite <- (H i a Hi). apply lookup_lt_Some in Hi as Hlt.
  apply ld_agree. eapply agree_sub; [exact Ha|lia|simpl Z.of_nat; lia].
Qed.

(** *** What the threads and the controller do to a lane *)

Lemma lane_retire m q jobs E S F R : lane_ok m q jobs E S F R -> R < F ->
  lane_ok m (nvm_sq_update q) jobs E S F (R + 1).
Proof.
  intros [Hr Hv He Hl Hc Hw Hb Hs Hp] Hlt. constructor; try done; try lia.
  - apply sq_update_state; [done|lia].
  - unfold nvm_sq_update. simpl. by destruct (_ =? _).
  - unfold nvm_sq_update. simpl. by destruct (_ =? _).
  - unfold nvm_sq_update. simpl. by destruct (_ =? _).
  - intros i j Hi. apply Hp. lia.
Qed.

Lemma lane_fetch m q jobs E S F R : lane_ok m q jobs E S F R -> F < S ->
  (exists j, jobs !! Z.to_nat F = Some j /\ dwords m (slot F) = job_dwords F j)
  /\ lane_ok m q jobs E S (F + 1) R.
Proof.
  intros [Hr Hv He Hl Hc Hw Hb Hs Hp] Hlt. pose proof (sqs_window _ _ _ _ Hr). split.
  - destruct (lookup_lt_is_Some_2 jobs (Z.to_nat F)) as [j Hj]; [lia|]. exists j. split; [done|].
    specialize (Hs (Z.to_nat F) j). rewrite Z2Nat.id in Hs by lia. apply Hs; [lia|done].
  - constructor; try done; try lia. intros i j Hi. apply Hs. lia.
Qed.

Lemma lane_submit m q jobs E S F R : lane_ok m q jobs E S F R -> E = Z.of_nat (length jobs) ->
  lane_ok m (set_last (q_tail q) q) jobs E E F R.
Proof.
  intros [Hr Hv He Hl Hc Hw Hb Hs Hp] HE. constructor; try done; try lia.
  - by destruct Hr.
  - simpl. by destruct Hr.
Qed.

(** The doorbell is rung exactly when something was not submitted. *)
Lemma lane_unsubmitted m q jobs E S F R : lane_ok m q jobs E S F R ->
  (q_last q =? q_tail q) = bool_decide (S = E).
Proof.
  intros [Hr Hv He Hl Hc Hw Hb Hs Hp]. rewrite Hl, (sqs_tail _ _ _ _ Hr).
  pose proof (sqs_window _ _ _ _ Hr). pose proof lane_size_bounds.
  apply Bool.eq_iff_eq_true. rewrite Z.eqb_eq, bool_decide_eq_true. split; [|congruence].
  intros Em. eapply mod_window; [| |exact Em]; lia.
Qed.

(** As long as nothing is built, only the slots matter. *)
Lemma lane_ok_empty m m' q E S F R :
  agree m m' (dma_vaddr (l_dma L)) (64 * lane_size) -> lane_ok m q [] E S F R -> lane_ok m' q [] E S F R.
Proof.
  intros Ha [Hr Hv He Hl Hc Hw Hb Hs Hp]. constructor; try done.
  intros s Hs'. eapply blank_agree; [|by apply Hb]. eapply agree_sub; [exact Ha|lia|lia].
Qed.

(** Outside [slot i] and [list_page i] two memories agree. *)
Definition only_writes (i : Z) (m m' : mem) : Prop :=
  forall b, b < slot i \/ slot i + 64 <= b -> b < list_page i \/ list_page i + page_size <= b ->
  ld8 m' b = ld8 m b.

Lemma only_writes_agree i m m' a n : only_writes i m m' ->
  a + n <= dma_vaddr (l_dma L) \/ dma_vaddr (l_dma L) + lane_extent <= a -> agree m m' a n.
Proof.
  intros H Ha b Hb. pose proof (slot_bounds i). pose proof (list_page_bounds i). pose proof page_pos.
  apply H; lia.
Qed.

Lemma only_writes_refl i m : only_writes i m m.
Proof. done. Qed.

Lemma only_writes_trans i m1 m2 m3 : only_writes i m1 m2 -> only_writes i m2 m3 -> only_writes i m1 m3.
Proof. intros H1 H2 b Hs Hl. by rewrite H2, H1. Qed.

(** Writing to slot and list page [i] leaves the commands of the window alone. *)
Lemma only_writes_lane i m m' q jobs E S F R : only_writes i m m' ->
  lane_ok m q jobs E S F R -> Z.of_nat (length jobs) <= i -> i < R + lane_size ->
  blank m' (slot i) -> lane_ok m' q jobs E S F R.
Proof.
  intros Ho [Hr Hv He Hl Hc Hw Hb Hs Hp] Hi HiR Hbl. pose proof (sqs_window _ _ _ _ Hr).
  pose proof page_pos. pose proof (list_page_bounds i). pose proof (slot_bounds i).
  constructor; try done.
  - intros s Hs'. destruct (decide (s = i mod lane_size)) as [->|Hne]; [exact Hbl|].
    pose proof (lw_page Hwf). eapply blank_agree; [|by apply Hb]. intros b Hb'. apply Ho; unfold slot; [|lia].
    pose proof (Z.mod_pos_bound i lane_size). lia.
  - intros x j Hx Hj. apply lookup_lt_Some in Hj as Hlt. rewrite <- (Hs x j) by done. apply dwords_agree.
    intros b Hb'. pose proof (slot_bounds (Z.of_nat x)). apply Ho; [|lia].
    pose proof (slots_apart (Z.of_nat x) i ltac:(lia) ltac:(lia)). lia.
  - intros x j Hx Hj. apply lookup_lt_Some in Hj as Hlt.
    eapply list_holds_agree; [by eapply Forall_lookup_1| |by apply Hp].
    intros b Hb'. pose proof (list_page_bounds (Z.of_nat x)).
    pose proof (lists_apart (Z.of_nat x) i ltac:(lia) ltac:(lia)). apply Ho; lia.
Qed.

(** A slot is reserved but holds no command yet. *)
Record reserved (m : mem) (i : Z) : Prop := {
  rs_blank : blank m (slot i);
  rs_cid : ld 2 m (slot i + 2) = (i + 1) mod (2 * lane_size);
}.

Lemma reserved_agree m m' i : agree m m' (slot i) 64 -> reserved m i -> reserved m' i.
Proof.
  intros Ha [Hb Hc]. constructor; [by eapply blank_agree|]. rewrite <- Hc. apply ld_agree.
  eapply agree_sub; [exact Ha|lia|simpl Z.of_nat; lia].
Qed.

Lemma lane_enqueue m q jobs E S F R : lane_ok m q jobs E S F R -> E = Z.of_nat (length jobs) ->
  E - R < lane_size - 1 ->
  exists q' m', nvm_sq_enqueue m q = Some (slot E, q', m')
  /\ lane_ok m' q' jobs (E + 1) S F R /\ reserved m' E /\ only_writes E m m' /\ q_db q' = q_db q.
Proof.
  intros Hlk HE Hroom. pose proof Hlk as [Hr Hv He Hl Hc Hw Hb Hs Hp].
  destruct (sq_enqueue_room (l_k L) E R q m (lw_k Hwf) Hr Hroom) as (q' & Heq & Hr' & Hl' & Hd' & Hv' & He').
  pose proof (Z.mod_pos_bound E lane_size ltac:(pose proof lane_size_bounds; lia)) as Hm.
  assert (q_vaddr q + u32 (q_entry_size q * (E mod 2 ^ l_k L)) = slot E) as Hslot.
  { rewrite Hv, He. fold lane_size. pose proof lane_size_bounds. rewrite u32_small by lia. done. }
  rewrite Hslot in Heq. fold lane_size in Heq. do 2 eexists. split; [exact Heq|].
  set (m' := st 2 m (slot E + 2) ((E + 1) mod (2 * lane_size))).
  assert (only_writes E m m') as Ho.
  { intros b Hb1 Hb2. unfold m'. rewrite ld8_st, decide_False by lia. done. }
  assert (blank m' (slot E)) as Hbl.
  { pose proof (Hb (E mod lane_size) Hm) as []. unfold m', slot. by constructor; mem_simp. }
  split; [|split; [split; [done|]|done]].
  - destruct (only_writes_lane E m m' q jobs E S F R Ho Hlk ltac:(lia) ltac:(lia) Hbl).
    constructor; try done; try congruence; lia.
  - unfold m'. rewrite ld_st_same. apply Z.mod_small, io_cid_small.
Qed.

Lemma lane_full m q jobs E S F R : lane_ok m q jobs E S F R -> E - R = lane_size - 1 ->
  nvm_sq_enqueue m q = Some (NULL, q, m).
Proof. intros [Hr] Hfull. by eapply (sq_enqueue_full (l_k L)); [apply Hwf| |]. Qed.

(** The job that was reserved last is built. *)
Lemma lane_build m m' q jobs E S F R j : lane_ok m q jobs E S F R -> E = Z.of_nat (length jobs) + 1 ->
  only_writes (E - 1) m m' -> job_wf j ->
  dwords m' (slot (E - 1)) = job_dwords (E - 1) j -> list_holds m' (E - 1) j ->
  lane_ok m' q (jobs ++ [j]) E S F R.
Proof.
  intros Hlk HE Ho Hj Hd Hh. pose proof (sqs_window _ _ _ _ (lk_ring _ _ _ _ _ _ _ Hlk)) as Hwin.
  assert (blank m' (slot (E - 1))) as Hbl.
  { destruct j; simpl in Hd; by eapply io_dwords_blank. }
  destruct (only_writes_lane (E - 1) m m' q jobs E S F R Ho Hlk ltac:(lia) ltac:(lia) Hbl) as [Hr Hv He Hl Hc Hw Hb Hs Hp].
  constructor; try done; try rewrite length_app; simpl length; try lia.
  - apply Forall_app. by split; [|constructor].
  - intros i j' Hi Hl'. destruct (decide (i = length jobs)) as [->|Hne].
    + rewrite lookup_app_r, Nat.sub_diag in Hl' by lia. injection Hl' as <-.
      by replace (Z.of_nat (length jobs)) with (E - 1) by lia.
    + apply lookup_lt_Some in Hl' as Hlt. rewrite length_app in Hlt. simpl in Hlt.
      rewrite lookup_app_l in Hl' by lia. by apply Hs.
  - intros i j' Hi Hl'. destruct (decide (i = length jobs)) as [->|Hne].
    + rewrite lookup_app_r, Nat.sub_diag in Hl' by lia. injection Hl' as <-.
      by replace (Z.of_nat (length jobs)) with (E - 1) by lia.
    + apply lookup_lt_Some in Hl' as Hlt. rewrite length_app in Hlt. simpl in Hlt.
      rewrite lookup_app_l in Hl' by lia. by apply Hp.
Qed.

(** *** Building a command the way the programs do *)

Context `{Build}.

Lemma only_writes_slot i m m' :
  (forall b, b + 1 <= slot i \/ slot i + 64 <= b -> ld 1 m' b = ld 1 m b) -> only_writes i m m'.
Proof. intros H' b Hb _. specialize (H' b ltac:(lia)). unfold ld in H'. lia. Qed.

Lemma header_only_writes i m o ns : only_writes i m (nvm_cmd_header m (slot i) o ns).
Proof. apply only_writes_slot. intros. apply cmd_header_frame. simpl Z.of_nat. lia. Qed.

Lemma data_ptr_only_writes i m p1 p2 : only_writes i m (nvm_cmd_data_ptr m (slot i) p1 p2).
Proof. apply only_writes_slot. intros. apply cmd_data_ptr_frame. simpl Z.of_nat. lia. Qed.

Lemma rw_blks_only_writes i m lba blks : only_writes i m (nvm_cmd_rw_blks m (slot i) lba blks).
Proof.
  apply only_writes_slot. intros. unfold nvm_cmd_rw_blks.
  by rewrite !ld_st_disjoint by (simpl Z.of_nat; lia).
Qed.

Lemma prp_list_only_writes i m k data : 8 * Z.of_nat k <= page_size ->
  only_writes i m (prp_list_loop k 0 m (list_page i) data).
Proof.
  intros Hk b _ Hb. pose proof (prp_list_loop_frame k 0 m (list_page i) data 1 b ltac:(lia)) as Hf.
  unfold ld in Hf. lia.
Qed.

(** A list page written by another job's setters keeps its entries. *)
Lemma list_holds_setter i m m' j : job_wf j ->
  (forall b, b < slot i \/ slot i + 64 <= b -> ld8 m' b = ld8 m b) -> list_holds m i j -> list_holds m' i j.
Proof.
  intros Hj Ho. apply list_holds_agree; [done|]. intros b Hb. pose proof (list_page_bounds i).
  pose proof (slot_bounds i). apply Ho. lia.
Qed.

Lemma data_ptr_bytes m a p1 p2 b : b < a \/ a + 64 <= b -> ld8 (nvm_cmd_data_ptr m a p1 p2) b = ld8 m b.
Proof.
  intros Hb. pose proof (cmd_data_ptr_frame m a p1 p2 1 b ltac:(simpl Z.of_nat; lia)) as Hf. unfold ld in Hf. lia.
Qed.

Lemma rw_blks_bytes m a lba blks b : b < a \/ a + 64 <= b -> ld8 (nvm_cmd_rw_blks m a lba blks) b = ld8 m b.
Proof. intros Hb. unfold nvm_cmd_rw_blks. by rewrite !ld8_st, !decide_False by (simpl Z.of_nat; lia). Qed.

Lemma bus_at m p : table_at m -> 0 <= p < Z.of_nat (length (l_bus L)) ->
  ld 8 m (l_tbl L + 8 * p) = bus p /\ bus p in_u 64.
Proof.
  intros Ht Hp. destruct (lookup_lt_is_Some_2 (l_bus L) (Z.to_nat p)) as [a Ha]; [lia|].
  unfold bus. rewrite Ha. simpl. split; [|eapply Forall_lookup_1 in Ha; [exact Ha|apply Hwf]].
  rewrite <- (Ht _ _ Ha), Z2Nat.id by lia. done.
Qed.

(** The data pointer [nvm_cmd_data] stores, and what it does to the list page. *)
Lemma cmd_data_job m i w p n lba blks :
  job_wf (Rw w p n lba blks) -> table_at m ->
  exists m1, nvm_cmd_data m (slot i) page_size n (list_page i) (list_io i) (l_tbl L + 8 * p)
    = (n, nvm_cmd_data_ptr m1 (slot i) (bus p) (if n <=? 1 then 0 else if n =? 2 then bus (p + 1) else list_io i))
  /\ (forall b, b < list_page i \/ list_page i + page_size <= b -> ld8 m1 b = ld8 m b)
  /\ list_holds m1 i (Rw w p n lba blks).
Proof.
  intros (Hp & Hn & Hend & _) Ht. pose proof (list_page_bounds i) as Hlp. pose proof (lw_vaddr Hwf). pose proof page_pos.
  pose proof (Z.mul_div_le page_size 8 ltac:(lia)). unfold nvm_cmd_data.
  rewrite (proj2 (Z.eqb_neq n 0)) by lia. rewrite andb_false_r.
  rewrite (proj1 (bus_at m p Ht ltac:(lia))). rewrite (proj2 (Z.eqb_neq (list_page i) NULL)) by (unfold NULL; lia).
  rewrite andb_true_r, Z.gtb_ltb, Z.geb_leb. destruct (Z.ltb_spec 2 n).
  - unfold nvm_prp_list. rewrite (proj2 (Z.ltb_ge (page_size / 8) (n - 1))) by lia.
    rewrite (proj2 (Z.leb_gt n 1)), (proj2 (Z.eqb_neq n 2)) by lia.
    eexists. split; [f_equal; lia|]. split.
    + intros b Hb. pose proof (prp_list_loop_frame (Z.to_nat (n - 1)) 0 m (list_page i)
        (l_tbl L + 8 * p + 8 * 1) 1 b ltac:(lia)) as Hf. unfold ld in Hf. lia.
    + intros _ t Ht'. pose proof (lw_apart Hwf). unfold lane_extent in *.
      rewrite prp_list_loop_spec by lia. replace (l_tbl L + 8 * p + 8 * 1 + 8 * t) with (l_tbl L + 8 * (p + 1 + t)) by lia.
      apply (proj1 (bus_at m (p + 1 + t) Ht ltac:(lia))).
  - exists m. split; [|split; [done|simpl; lia]]. destruct (Z.leb_spec 2 n).
    + replace n with 2 by lia. cbn. do 2 f_equal. replace (l_tbl L + 8 * p + 8 * 1) with (l_tbl L + 8 * (p + 1)) by lia.
      apply (proj1 (bus_at m (p + 1) Ht ltac:(lia))).
    + by replace n with 1 by lia.
Qed.

Lemma reserved_headed i m c : reserved m i -> headed (nvm_cmd_header m (slot i) (io_opcode c) (l_ns L)) (slot i) c
  ((i + 1) mod (2 * lane_size)) (l_ns L).
Proof. intros []. by apply cmd_header_headed; [apply io_cid_small|..]. Qed.

Lemma list_apart_slot i m m' : (forall b, b < list_page i \/ list_page i + page_size <= b -> ld8 m' b = ld8 m b) ->
  agree m m' (slot i) 64 /\ only_writes i m m'.
Proof.
  intros Ho. pose proof (slot_bounds i). pose proof (list_page_bounds i). split.
  - intros b Hb. apply Ho. lia.
  - intros b _ Hb. by apply Ho.
Qed.

(** [nvm_cmd_header], [nvm_cmd_data], [nvm_cmd_rw_blks], in this order. *)
Lemma build_header_data_rw i m w p n lba blks : reserved m i -> job_wf (Rw w p n lba blks) -> table_at m ->
  exists m2, nvm_cmd_data (nvm_cmd_header m (slot i) (io_opcode (if w then NVM_IO_WRITE else NVM_IO_READ)) (l_ns L))
      (slot i) page_size n (list_page i) (list_io i) (l_tbl L + 8 * p) = (n, m2)
  /\ let m3 := nvm_cmd_rw_blks m2 (slot i) lba blks in
     only_writes i m m3 /\ dwords m3 (slot i) = job_dwords i (Rw w p n lba blks)
     /\ list_holds m3 i (Rw w p n lba blks).
Proof.
  intros Hr Hj Ht. set (c := if w then NVM_IO_WRITE else NVM_IO_READ).
  pose proof (reserved_headed i m c Hr) as Hh. set (m0 := nvm_cmd_header _ _ _ _) in *.
  pose proof (header_only_writes i m (io_opcode c) (l_ns L)) as Hw0. fold m0 in Hw0.
  assert (table_at m0) as Ht0.
  { eapply table_at_agree; [|exact Ht]. eapply only_writes_agree; [exact Hw0|]. pose proof (lw_apart Hwf).
    unfold lane_extent. lia. }
  destruct (cmd_data_job m0 i w p n lba blks Hj Ht0) as (m1 & -> & Ho1 & Hl1).
  destruct (list_apart_slot i m0 m1 Ho1) as [Ha1 Hw1]. eexists. split; [reflexivity|]. cbv zeta. split; [|split].
  - eapply only_writes_trans; [exact Hw0|]. eapply only_writes_trans; [exact Hw1|].
    eapply only_writes_trans; [apply data_ptr_only_writes|apply rw_blks_only_writes].
  - cbn [job_dwords]. fold c. apply headed_data_rw; [apply io_cid_small|]. by eapply headed_agree.
  - eapply list_holds_setter; [exact Hj|intros; by apply rw_blks_bytes|].
    eapply list_holds_setter; [exact Hj|intros; by apply data_ptr_bytes|exact Hl1].
Qed.

(** [nvm_cmd_header], [nvm_cmd_rw_blks], [nvm_cmd_data], in this order. *)
Lemma build_header_rw_data i m w p n lba blks : reserved m i -> job_wf (Rw w p n lba blks) -> table_at m ->
  exists m3, nvm_cmd_data (nvm_cmd_rw_blks
      (nvm_cmd_header m (slot i) (io_opcode (if w then NVM_IO_WRITE else NVM_IO_READ)) (l_ns L)) (slot i) lba blks)
      (slot i) page_size n (list_page i) (list_io i) (l_tbl L + 8 * p) = (n, m3)
  /\ only_writes i m m3 /\ dwords m3 (slot i) = job_dwords i (Rw w p n lba blks)
  /\ list_holds m3 i (Rw w p n lba blks).
Proof.
  intros Hr Hj Ht. set (c := if w then NVM_IO_WRITE else NVM_IO_READ).
  pose proof (cmd_rw_blks_blocked _ _ _ _ _ lba blks (reserved_headed i m c Hr)) as Hb. set (m0 := nvm_cmd_rw_blks _ _ _ _) in *.
  assert (only_writes i m m0) as Hw0 by (eapply only_writes_trans; [apply header_only_writes|apply rw_blks_only_writes]).
  assert (table_at m0) as Ht0.
  { eapply table_at_agree; [|exact Ht]. eapply only_writes_agree; [exact Hw0|]. pose proof (lw_apart Hwf).
    unfold lane_extent. lia. }
  destruct (cmd_data_job m0 i w p n lba blks Hj Ht0) as (m1 & -> & Ho1 & Hl1).
  destruct (list_apart_slot i m0 m1 Ho1) as [Ha1 Hw1]. eexists. split; [reflexivity|]. split; [|split].
  - eapply only_writes_trans; [exact Hw0|]. eapply only_writes_trans; [exact Hw1|apply data_ptr_only_writes].
  - cbn [job_dwords]. fold c. apply cmd_data_ptr_blocked; [apply io_cid_small|]. by eapply blocked_agree.
  - eapply list_holds_setter; [exact Hj|intros; by apply data_ptr_bytes|exact Hl1].
Qed.

(** A flush: header, empty data pointer, no blocks. *)
Lemma build_flush i m : reserved m i ->
  let m3 := nvm_cmd_rw_blks (nvm_cmd_data_ptr
    (nvm_cmd_header m (slot i) (io_opcode NVM_IO_FLUSH) (l_ns L)) (slot i) 0 0) (slot i) 0 0 in
  only_writes i m m3 /\ dwords m3 (slot i) = job_dwords i Flush.
Proof.
  intros Hr. cbv zeta. split.
  - eapply only_writes_trans; [apply header_only_writes|].
    eapply only_writes_trans; [apply data_ptr_only_writes|apply rw_blks_only_writes].
  - apply headed_data_rw; [apply io_cid_small|]. by apply reserved_headed.
Qed.

(** The pointer macros reach the list page of the command just enqueued. *)
Lemma list_page_of_cid m i : reserved m i ->
  u16 (ld 2 m (NVM_CMD_CID (slot i)) mod lane_size + 1) = list_no i
  /\ NVM_DMA_OFFSET (l_dma L) (list_no i) = list_page i
  /\ dma_ioaddrs (l_dma L) !! Z.to_nat (list_no i) = Some (list_io i).
Proof.
  intros [_ Hc]. pose proof (list_no_bounds i). pose proof lane_size_bounds. unfold NVM_CMD_CID. rewrite Hc.
  split; [|split].
  - rewrite Z.mod_mod_divide by (exists 2; lia). unfold list_no in *. by rewrite u16_small by lia.
  - unfold NVM_DMA_OFFSET, NVM_PTR_OFFSET, list_page, page_size. rewrite u64_small; [done|].
    pose proof (lw_end Hwf). pose proof (lw_vaddr Hwf). pose proof page_pos. unfold page_size in *. nia.
  - unfold list_io. destruct (lookup_lt_is_Some_2 (dma_ioaddrs (l_dma L)) (Z.to_nat (list_no i))) as [a Ha];
      [pose proof (lw_io Hwf); lia|]. by rewrite Ha.
Qed.
End lane.

(** A memory that holds nothing but an array of addresses. *)
Definition table_mem (a : Z) (xs : list Z) : mem := st_bytes empty a (concat (le_bytes 8 <$> xs)).

Lemma table_mem_else a xs b : b < a \/ a + 8 * Z.of_nat (length xs) <= b -> ld8 (table_mem a xs) b = 0.
Proof. intros Hb. unfold table_mem. rewrite ld8_st_bytes, length_u64s, decide_False by lia. done. Qed.
