(* ===== verification/Device.v ===== *)
(** * The controller's side of the queues

    What a controller that follows the NVMe specification does with a pair of
    queues, for the programs that keep several commands in flight: it learns the
    rings' tail and head from the doorbells, fetches commands in order, and posts
    a completion for any command it has fetched, with the identifiers of the
    queue and of the command. The doorbell registers are read off the call log. *)
From S2P Require Import Prelude Bits Memory Effects Types Runtime Command Queue Lane.

(** ** Doorbell registers *)

(** The value last written to the register at [db], 0 before any write. *)
Fixpoint reg (db : Z) (l : list (call * resp)) : Z :=
  match l with
  | [] => 0
  | (Mmio_write 32 a v, _) :: l' => if a =? db then v else reg db l'
  | _ :: l' => reg db l'
  end.

Lemma reg_write db a v r l : reg db ((Mmio_write 32 a v, r) :: l) = if a =? db then v else reg db l.
Proof. done. Qed.

Lemma reg_slept db l k : Forall is_sleep l -> reg db (l ++ k) = reg db k.
Proof. induction 1 as [|[c r] l [ns Hc] _ IH]; [done|]. simpl in *. subst c. exact IH. Qed.

(** ** Completions *)

(** The 14 bytes before the status: command specific, head pointer, queue and
    command identifiers. *)
Definition cpl_payload (specific sqhd sqid cid : Z) : Z :=
  u64 specific + 2 ^ 64 * (u16 sqhd + 2 ^ 16 * (u16 sqid + 2 ^ 16 * u16 cid)).

Lemma cpl_payload_bound sp sqhd sqid cid : cpl_payload sp sqhd sqid cid in_u 112.
Proof.
  unfold cpl_payload. pose proof (u64_bound sp). pose proof (u16_bound sqhd).
  pose proof (u16_bound sqid). pose proof (u16_bound cid). lia.
Qed.

(** [*NVM_CPL_SQID(cpl)] of a posted completion. *)
Lemma cpl_payload_sqid m a sp sqhd sqid cid : ld 14 m a = cpl_payload sp sqhd sqid cid ->
  ld 2 m (NVM_CPL_SQID a) = u16 sqid.
Proof.
  intros Hp. unfold NVM_CPL_SQID. change 14%nat with (8 + (2 + (2 + 2)))%nat in Hp.
  rewrite !ld_split in Hp. unfold cpl_payload in Hp. change (a + 10) with (a + Z.of_nat 10).
  replace (a + Z.of_nat 8 + Z.of_nat 2) with (a + Z.of_nat 10) in Hp by lia.
  change (256 ^ Z.of_nat 8) with (2 ^ 64) in Hp. change (256 ^ Z.of_nat 2) with (2 ^ 16) in Hp.
  pose proof (ld_bound 8 m a) as B8. pose proof (ld_bound 2 m (a + Z.of_nat 8)) as B2.
  pose proof (ld_bound 2 m (a + Z.of_nat 10)) as B3. pose proof (ld_bound 2 m (a + Z.of_nat 10 + Z.of_nat 2)) as B4.
  simpl Z.of_nat in *. pose proof (u64_bound sp). pose proof (u16_bound sqhd). pose proof (u16_bound sqid). pose proof (u16_bound cid).
  lia.
Qed.

(** ** Completion queue memory *)

Lemma cq_mem_agree n C hist q m m' : 0 < n ->
  agree m m' (q_vaddr q) (16 * n) -> cq_mem n C hist q m -> cq_mem n C hist q m'.
Proof.
  intros Hn Ha [Ht Hd]. constructor.
  - intros i Hi. rewrite <- Ht by done. f_equal. apply ld_agree. unfold cq_slot.
    eapply agree_sub; [exact Ha|lia|simpl Z.of_nat; lia].
  - intros i p s Hi Hl. destruct (Hd i p s Hi Hl) as [H1 H2].
    pose proof (Z.mod_pos_bound (Z.of_nat i) n Hn). unfold cq_slot in *.
    rewrite <- H1, <- H2. split; [|f_equal]; apply ld_agree; (eapply agree_sub; [exact Ha|lia|simpl Z.of_nat; lia]).
Qed.

Lemma post_cpl_agree n q m i p s a k : 0 < n ->
  a + k <= q_vaddr q \/ q_vaddr q + 16 * n <= a -> agree m (post_cpl n q m i p s) a k.
Proof.
  intros Hn Ha b Hb. unfold post_cpl, cq_slot. pose proof (Z.mod_pos_bound i n Hn).
  by rewrite !ld8_st, !decide_False by (simpl Z.of_nat; lia).
Qed.

(** ** Threads between two steps of the controller

    While a thread runs nothing else happens: the environment answers at once and
    leaves memory alone. *)
Definition quiet_env : uenv := const_env (fun _ => resp_ok 0) 0.

Lemma quiet_env_after w c : after quiet_env w c = World (w_mem w) (w_st w) ((c, resp_ok 0) :: w_log w).
Proof. done. Qed.

(** Blocking on the completion queue then is one poll, and sleeping. *)
Lemma quiet_loop_mem fuel cpl ns cq w :
  match dequeue_block_loop fuel cpl ns cq quiet_env w with Ok _ w' => w_mem w' = w_mem w | _ => True end.
Proof.
  revert cpl ns cq w. induction fuel as [|fuel IH]; intros cpl ns cq w; simpl; destruct (_ && _); try done.
  unfold mbind, M_bind, _nvm_delay_remain. destruct (ns =? 0); simpl;
    [specialize (IH (fst (nvm_cq_dequeue (w_mem w) cq)) 0 (snd (nvm_cq_dequeue (w_mem w) cq)) w)
    |specialize (IH (fst (nvm_cq_dequeue (w_mem w) cq)) (delay_rest ns) (snd (nvm_cq_dequeue (w_mem w) cq))
       (after quiet_env w (Clock_nanosleep (delay_slice ns))))];
    exact IH.
Qed.

Lemma quiet_dequeue w cq timeout (Q : Z * nvm_queue_t -> uworld -> Prop) :
  (forall w', w_mem w' = w_mem w -> w_st w' = w_st w -> (forall db, reg db (w_log w') = reg db (w_log w)) ->
     Q (nvm_cq_dequeue (w_mem w) cq) w') ->
  wp quiet_env (nvm_cq_dequeue_block cq timeout) w Q.
Proof.
  intros HQ. pose proof (dequeue_block_spec quiet_env w cq timeout) as Hs. unfold wp in *.
  assert (match nvm_cq_dequeue_block cq timeout quiet_env w with Ok _ w' => w_mem w' = w_mem w | _ => True end) as Hm
    by apply quiet_loop_mem.
  destruct (nvm_cq_dequeue_block cq timeout quiet_env w) as [r w'| |]; try done.
  destruct Hs as (-> & Hst & _ & _ & _ & _ & (l & El & Hl)). rewrite Hm. apply HQ; [done|done|].
  intros db. rewrite El. by apply reg_slept.
Qed.

Lemma quiet_cq_update w cq (Q : nvm_queue_t -> uworld -> Prop) :
  (forall w', w_mem w' = w_mem w -> w_st w' = w_st w ->
     (forall db, reg db (w_log w') = if negb (q_last cq =? q_head cq) && (q_db cq =? db) then q_head cq else reg db (w_log w)) ->
     Q (if negb (q_last cq =? q_head cq) then set_last (q_head cq) cq else cq) w') ->
  wp quiet_env (nvm_cq_update cq) w Q.
Proof. intros HQ. unfold nvm_cq_update. destruct (q_last cq =? q_head cq); repeat wp_step; by apply HQ. Qed.

Lemma quiet_sq_submit w sq (Q : nvm_queue_t -> uworld -> Prop) :
  (forall w', w_mem w' = w_mem w -> w_st w' = w_st w ->
     (forall db, reg db (w_log w') = if negb (q_last sq =? q_tail sq) && (q_db sq =? db) then q_tail sq else reg db (w_log w)) ->
     Q (if negb (q_last sq =? q_tail sq) then set_last (q_tail sq) sq else sq) w') ->
  wp quiet_env (nvm_sq_submit sq) w Q.
Proof. intros HQ. unfold nvm_sq_submit. destruct (q_last sq =? q_tail sq); repeat wp_step; by apply HQ. Qed.

(** ** The completion queue as its consumer and the controller share it

    [D] completions have been dequeued; the controller knows of [U] of them, and
    does not overwrite the others. *)
Record cq_ok (m : mem) (log : list (call * resp)) (n : Z) (cq : nvm_queue_t) (posted : list (Z * Z)) (D U : Z) : Prop := {
  co_state : cq_state n (Z.of_nat (length posted)) D cq;
  co_mem : cq_mem n U posted cq m;
  co_last : q_last cq = U mod n;
  co_reg : reg (q_db cq) log = U mod n;
  co_known : 0 <= U /\ U <= D <= U + 1;
  co_room : Z.of_nat (length posted) - U <= n - 1;
}.

Lemma cq_ok_frame m m' log log' n cq posted D U :
  agree m m' (q_vaddr cq) (16 * n) -> reg (q_db cq) log' = reg (q_db cq) log ->
  cq_ok m log n cq posted D U -> cq_ok m' log' n cq posted D U.
Proof.
  intros Ha Hl [Hs Hm ? ? ? ?]. pose proof (cqs_pos _ _ _ _ Hs). pose proof (cqs_window _ _ _ _ Hs).
  constructor; try done; [|congruence]. eapply cq_mem_agree; [lia|exact Ha|done].
Qed.

Lemma cq_ok_dequeue m log n cq posted D : cq_ok m log n cq posted D D ->
  (D < Z.of_nat (length posted) /\ exists cq', nvm_cq_dequeue m cq = (cq_slot cq (D mod n), cq')
    /\ cq_slot cq (D mod n) <> NULL /\ cq_ok m log n cq' posted (D + 1) D
    /\ q_db cq' = q_db cq /\ q_vaddr cq' = q_vaddr cq)
  \/ (D = Z.of_nat (length posted) /\ nvm_cq_dequeue m cq = (NULL, cq)).
Proof.
  intros [Hs Hm Hl Hr Hk Hroom]. pose proof (cqs_pos _ _ _ _ Hs). pose proof (cqs_window _ _ _ _ Hs).
  pose proof (cqs_vaddr _ _ _ _ Hs). pose proof (Z.mod_pos_bound D n ltac:(lia)).
  unfold nvm_cq_dequeue. rewrite (cq_poll_spec _ _ _ _ _ Hs Hm). case_decide as Hd; [left|right; split; [lia|done]].
  assert (cq_slot cq (D mod n) <> NULL) as Hn by (unfold cq_slot, NULL; lia).
  rewrite (proj2 (Z.eqb_neq _ _) Hn). simpl negb. cbn iota. split; [done|]. eexists. split; [reflexivity|].
  split; [done|]. pose proof (cq_dequeue_state _ _ _ _ Hs Hd) as Hs'. cbv zeta in Hs'.
  set (cq' := if q_head _ =? q_max_entries _ then _ else _) in *.
  assert (q_db cq' = q_db cq /\ q_vaddr cq' = q_vaddr cq /\ q_last cq' = q_last cq) as (E1 & E2 & E3)
    by (unfold cq'; by destruct (_ =? _)).
  split; [|done]. constructor; [done|eapply cq_mem_queue; [exact E2| |exact Hm]; lia|congruence|congruence|lia|done].
Qed.

Lemma cq_ok_update m log log' n cq posted D : cq_ok m log n cq posted (D + 1) D ->
  (forall db, reg db log' = if negb (q_last cq =? q_head cq) && (q_db cq =? db) then q_head cq else reg db log) ->
  cq_ok m log' n (if negb (q_last cq =? q_head cq) then set_last (q_head cq) cq else cq) posted (D + 1) (D + 1).
Proof.
  intros [Hs Hm Hl Hr Hk Hroom] Hlog. pose proof (cqs_pos _ _ _ _ Hs). pose proof (cqs_window _ _ _ _ Hs).
  rewrite Hl, (cqs_head _ _ _ _ Hs) in *.
  assert (D mod n <> (D + 1) mod n) as Hne by (intros E; apply mod_window in E; lia).
  rewrite (proj2 (Z.eqb_neq _ _) Hne) in *. simpl negb in *. cbn iota.
  constructor; simpl; [by destruct Hs|eapply cq_mem_queue; [| |exact Hm]; simpl; [done|lia]|done| |lia|lia].
  by rewrite Hlog, Z.eqb_refl.
Qed.

Lemma cq_ok_post m log n cq posted D U p s : cq_ok m log n cq posted D U ->
  (Z.of_nat (length posted) + 1) mod n <> reg (q_db cq) log -> p in_u 112 -> s in_u 15 ->
  cq_ok (post_cpl n cq m (Z.of_nat (length posted)) p s) log n cq (posted ++ [(p, s)]) D U.
Proof.
  intros [Hs Hm Hl Hr Hk Hroom] Hne Hp Hst. pose proof (cqs_pos _ _ _ _ Hs) as Hn.
  pose proof (cqs_window _ _ _ _ Hs) as Hw.
  assert (Z.of_nat (length posted) - U <> n - 1) as Hn1.
  { intros E. apply Hne. rewrite Hr. replace (Z.of_nat (length posted) + 1) with (U + 1 * n) by lia. apply Z.mod_add. lia. }
  constructor; try done.
  - rewrite length_app, Nat2Z.inj_add. simpl length. destruct Hs. constructor; try done; lia.
  - apply post_cpl_mem; try done; lia.
  - rewrite length_app, Nat2Z.inj_add. simpl length. lia.
Qed.

Lemma co_window m log n cq posted D U : cq_ok m log n cq posted D U -> 0 <= D <= Z.of_nat (length posted).
Proof. intros [Hs]. by destruct (cqs_window _ _ _ _ Hs). Qed.

(** Submitting everything that was built: the doorbell then holds the tail. *)
Lemma lane_submit_reg L m q jobs E S F R log log' : lane_wf L -> lane_ok L m q jobs E S F R ->
  E = Z.of_nat (length jobs) -> reg (q_db q) log = S mod lane_size L ->
  (forall db, reg db log' = if negb (q_last q =? q_tail q) && (q_db q =? db) then q_tail q else reg db log) ->
  let q' := if negb (q_last q =? q_tail q) then set_last (q_tail q) q else q in
  lane_ok L m q' jobs E E F R /\ q_db q' = q_db q /\ reg (q_db q) log' = E mod lane_size L
  /\ (forall db, db <> q_db q -> reg db log' = reg db log).
Proof.
  intros Hwf Hl HE Hr Hlog q'. subst q'. pose proof (lane_unsubmitted L Hwf _ _ _ _ _ _ _ Hl) as Eu.
  pose proof (sqs_tail _ _ _ _ (lk_ring _ _ _ _ _ _ _ _ Hl)) as Etail.
  rewrite Eu in *. case_bool_decide as Hs; simpl negb in *; cbn [andb] in Hlog.
  - subst S. split; [done|]. split; [done|]. split; [by rewrite Hlog|]. intros. apply Hlog.
  - split; [by eapply lane_submit|]. split; [done|]. split; [by rewrite Hlog, Z.eqb_refl|].
    intros db Hdb. by rewrite Hlog, (proj2 (Z.eqb_neq (q_db q) db)) by done.
Qed.

(** The completion that was dequeued last is still there until the controller is told. *)
Lemma cq_ok_last m log n cq posted D p s : cq_ok m log n cq posted (D + 1) D -> posted !! Z.to_nat D = Some (p, s) ->
  ld 14 m (cq_slot cq (D mod n)) = p.
Proof.
  intros [Hs Hm _ _ Hk _] Hp. pose proof (cqm_data _ _ _ _ _ Hm (Z.to_nat D) p s ltac:(lia) Hp) as [Hd _].
  by rewrite Z2Nat.id in Hd by lia.
Qed.
