(* ===== verification/ReadBlocks.v ===== *)
(** * Reading blocks

    [examples/read-blocks/read.c]: the thread that splits a read into commands and
    waits for them ([read_and_dump]), the thread that consumes completions
    ([consume_completions]), and the controller they share two queues with. A
    thread is a function from where it is to its next step; an execution
    interleaves steps of the threads and of the controller in any order. *)
From S2P Require Import Prelude Bits Memory Effects Types Runtime Command Error Queue.
From S2P Require Import DisDevice DisMap Ctrl Dma Rpc RpcHandles RpcCommand Admin Lane Device.

(** ** [read.h] *)

Record disk_info := DiskInfo {
  di_ns_id : Z; di_max_data_size : Z; di_page_size : Z; di_block_size : Z;
}.

(** The handles are only read once the queues exist. *)
Record queue_pair := QueuePair {
  qp_sq_mem : nvm_dma_t; qp_cq_mem : nvm_dma_t; qp_sq : nvm_queue_t; qp_cq : nvm_queue_t;
  qp_stop : bool; qp_num_cpls : Z;
}.

Definition qp_set_sq (sq : nvm_queue_t) (qp : queue_pair) : queue_pair :=
  QueuePair (qp_sq_mem qp) (qp_cq_mem qp) sq (qp_cq qp) (qp_stop qp) (qp_num_cpls qp).
Definition qp_set_cq (cq : nvm_queue_t) (qp : queue_pair) : queue_pair :=
  QueuePair (qp_sq_mem qp) (qp_cq_mem qp) (qp_sq qp) cq (qp_stop qp) (qp_num_cpls qp).
Definition qp_set_stop (qp : queue_pair) : queue_pair :=
  QueuePair (qp_sq_mem qp) (qp_cq_mem qp) (qp_sq qp) (qp_cq qp) true (qp_num_cpls qp).
Definition qp_count (qp : queue_pair) : queue_pair :=
  QueuePair (qp_sq_mem qp) (qp_cq_mem qp) (qp_sq qp) (qp_cq qp) (qp_stop qp) (u64 (qp_num_cpls qp + 1)).

(** ** [consume_completions] *)

Inductive consume_pc := C_while | C_dequeue | C_retire | C_update | C_count | C_return.
#[export] Instance consume_pc_eq : EqDecision consume_pc.
Proof. solve_decision. Defined.

(** Reporting the status of a completion has no other effect. *)
Definition consume_completions (pc : consume_pc) (qp : queue_pair) : UM (consume_pc * queue_pair) :=
  match pc with
  | C_while => mret (if negb (qp_stop qp) then C_dequeue else C_return, qp)
  | C_dequeue =>
      '(cpl, cq) ← nvm_cq_dequeue_block (qp_cq qp) 100;
      mret (if cpl =? NULL then C_while else C_retire, qp_set_cq cq qp)
  | C_retire => mret (C_update, qp_set_sq (nvm_sq_update (qp_sq qp)) qp)
  | C_update => cq ← nvm_cq_update (qp_cq qp); mret (C_count, qp_set_cq cq qp)
  | C_count => mret (C_while, qp_count qp)
  | C_return => mret (C_return, qp)
  end.

(** ** [read_and_dump] *)

Inductive read_pc :=
  | R_create
  | R_clear
  | R_while (page num_cmds num_pages : Z)
  | R_enqueue (page num_cmds num_pages : Z)
  | R_submit (page num_cmds num_pages : Z)
  | R_build (page num_cmds num_pages cmd : Z)
  | R_finish (num_cmds : Z)
  | R_wait (num_cmds : Z)
  | R_stop
  | R_join
  | R_return (status : Z).

Section read.
Context `{Build}.
Context (disk : disk_info) (buffer : nvm_dma_t) (ioaddrs : Z) (offset : Z).

(** The commands are built in queue memory from the bus addresses [buffer->ioaddrs],
    the array at [ioaddrs]; [offset] is [args->offset]. *)
Definition build_read (page num_pages cmd : Z) (qp : queue_pair) : UM Z :=
  cid ← ld_mem 2 (NVM_CMD_CID cmd);
  (if (q_max_entries (qp_sq qp) =? 0) || (di_block_size disk =? 0) then fail DivByZero else mret tt);;
  let prp_list := u16 (cid mod q_max_entries (qp_sq qp) + 1) in
  let num_blocks := NVM_PAGE_TO_BLOCK (di_page_size disk) (di_block_size disk) num_pages in
  let start_block := u64 (offset + NVM_PAGE_TO_BLOCK (di_page_size disk) (di_block_size disk) page) in
  upd_mem (fun m => nvm_cmd_header m cmd (io_opcode NVM_IO_READ) (di_ns_id disk));;
  list_ioaddr ← ioaddr_at (qp_sq_mem qp) (Z.to_nat prp_list);
  m ← get_mem;
  let '(n, m) := nvm_cmd_data m cmd (di_page_size disk) num_pages (NVM_DMA_OFFSET (qp_sq_mem qp) prp_list)
                   list_ioaddr (ioaddrs + 8 * page) in
  put_mem m;;
  upd_mem (fun m => nvm_cmd_rw_blks m cmd start_block (u16 num_blocks));;
  mret n.

(** [pthread_create] and [pthread_join] are steps of the system below; the bytes
    [dump_memory] prints are those of the buffer. *)
Definition read_and_dump (pc : read_pc) (qp : queue_pair) : UM (read_pc * queue_pair) :=
  match pc with
  | R_create => mret (R_create, qp)
  | R_clear =>
      upd_mem (fun m => memset m (NVM_DMA_OFFSET (qp_sq_mem qp) 1) 0
        (Z.to_nat (u64 (dma_page_size (qp_sq_mem qp) * (dma_n_ioaddrs (qp_sq_mem qp) - 1)))));;
      num_pages ← divide (di_max_data_size disk) (di_page_size disk);
      mret (R_while 0 0 num_pages, qp)
  | R_while page num_cmds num_pages =>
      let left := u64 (dma_n_ioaddrs buffer - page) in
      mret (if left >? 0 then R_enqueue page num_cmds (if left <? num_pages then left else num_pages)
            else R_finish num_cmds, qp)
  | R_enqueue page num_cmds num_pages =>
      m ← get_mem;
      match nvm_sq_enqueue m (qp_sq qp) with
      | None => fail DivByZero
      | Some (cmd, sq, m) =>
          put_mem m;;
          mret (if cmd =? NULL then R_submit page num_cmds num_pages else R_build page num_cmds num_pages cmd,
                qp_set_sq sq qp)
      end
  | R_submit page num_cmds num_pages =>
      sq ← nvm_sq_submit (qp_sq qp);
      mret (R_enqueue page num_cmds num_pages, qp_set_sq sq qp)
  | R_build page num_cmds num_pages cmd =>
      n ← build_read page num_pages cmd qp;
      mret (R_while (u64 (page + n)) (u64 (num_cmds + 1)) num_pages, qp)
  | R_finish num_cmds =>
      sq ← nvm_sq_submit (qp_sq qp);
      mret (R_wait num_cmds, qp_set_sq sq qp)
  | R_wait num_cmds => mret (if qp_num_cpls qp <? num_cmds then R_wait num_cmds else R_stop, qp)
  | R_stop => mret (R_join, qp_set_stop qp)
  | R_join => mret (R_return 0, qp)
  | R_return status => mret (R_return status, qp)
  end.

(** ** Threads and controller *)

(** [rs_fetched] are the commands the controller has taken, in order, [rs_running]
    those (by position) it has not completed, [rs_posted] all completions. *)
Record rsys := RSys {
  rs_w : uworld; rs_qp : queue_pair; rs_main : read_pc; rs_completer : option consume_pc;
  rs_fetched : list (list Z); rs_running : list nat; rs_posted : list (Z * Z);
}.

Inductive event :=
  | Ev_create (status : Z)
  | Ev_main
  | Ev_completer
  | Ev_fetch
  | Ev_complete (k : nat) (specific status : Z).

Definition step_main (s : rsys) : option rsys :=
  match run (read_and_dump (rs_main s) (rs_qp s)) quiet_env (rs_w s) with
  | Ok (pc, qp) w => Some (RSys w qp pc (rs_completer s) (rs_fetched s) (rs_running s) (rs_posted s))
  | _ => None
  end.

Definition step_completer (pc : consume_pc) (s : rsys) : option rsys :=
  match run (consume_completions pc (rs_qp s)) quiet_env (rs_w s) with
  | Ok (pc, qp) w => Some (RSys w qp (rs_main s) (Some pc) (rs_fetched s) (rs_running s) (rs_posted s))
  | _ => None
  end.

Definition step_fetch (s : rsys) : option rsys :=
  let sq := qp_sq (rs_qp s) in
  let at_ := Z.of_nat (length (rs_fetched s)) mod q_max_entries sq in
  if at_ =? reg (q_db sq) (w_log (rs_w s)) then None
  else Some (RSys (rs_w s) (rs_qp s) (rs_main s) (rs_completer s)
    (rs_fetched s ++ [dwords (w_mem (rs_w s)) (q_vaddr sq + 64 * at_)])
    (rs_running s ++ [length (rs_fetched s)]) (rs_posted s)).

(** The identifier of a command is in the upper half of its first dword. *)
Definition cid_of (cmd : list Z) : Z := Z.shiftr (default 0 (cmd !! 0%nat)) 16.

Definition step_complete (k : nat) (specific status : Z) (s : rsys) : option rsys :=
  let sq := qp_sq (rs_qp s) in let cq := qp_cq (rs_qp s) in let w := rs_w s in
  let n := q_max_entries cq in let next := Z.of_nat (length (rs_posted s)) in
  i ← rs_running s !! k;
  cmd ← rs_fetched s !! i;
  if (next + 1) mod n =? reg (q_db cq) (w_log w) then None
  else
    let payload := cpl_payload specific (Z.of_nat (length (rs_fetched s)) mod q_max_entries sq) (q_no sq) (cid_of cmd) in
    Some (RSys (World (post_cpl n cq (w_mem w) next payload (wrap 15 status)) (w_st w) (w_log w))
      (rs_qp s) (rs_main s) (rs_completer s) (rs_fetched s) (delete k (rs_running s))
      (rs_posted s ++ [(payload, wrap 15 status)])).

Definition sys_step (ev : event) (s : rsys) : option rsys :=
  match ev with
  | Ev_create status =>
      match rs_main s with
      | R_create =>
          if status =? 0 then
            Some (RSys (rs_w s) (rs_qp s) R_clear (Some C_while) (rs_fetched s) (rs_running s) (rs_posted s))
          else Some (RSys (rs_w s) (rs_qp s) (R_return status) None (rs_fetched s) (rs_running s) (rs_posted s))
      | _ => None
      end
  | Ev_main =>
      match rs_main s with
      | R_create => None
      | R_join => if bool_decide (rs_completer s = Some C_return) then step_main s else None
      | _ => step_main s
      end
  | Ev_completer => pc ← rs_completer s; step_completer pc s
  | Ev_fetch => step_fetch s
  | Ev_complete k specific status => step_complete k specific status s
  end.

(** [inorder]: commands complete in the order they were fetched. *)
Definition rstep (inorder : bool) (s s' : rsys) : Prop :=
  exists ev, sys_step ev s = Some s'
  /\ (inorder = true -> match ev with Ev_complete k _ _ => k = 0%nat | _ => True end).
End read.

(** ** What is to be read

    The transfers that cover the pages from [page] on, [num_pages] at a time. *)
Section spec.
Context (disk : disk_info) (offset : Z).

Definition read_job (page n : Z) : job :=
  Rw false page n (u64 (offset + NVM_PAGE_TO_BLOCK (di_page_size disk) (di_block_size disk) page))
    (u16 (NVM_PAGE_TO_BLOCK (di_page_size disk) (di_block_size disk) n)).

(** All of them; a job transfers at least one page. *)
Definition all_jobs (total num_pages : Z) : list job := chunked read_job (Z.to_nat total) total 0 num_pages.

(** Every page exactly once, in order. *)
Lemma read_jobs_pages fuel total page np : 0 <= page -> 0 < np -> 0 <= total - page <= Z.of_nat fuel ->
  chunked read_job fuel total page np ≫= job_pages = seqZ page (total - page).
Proof.
  intros. rewrite (chunked_list _ _ np _ 0 1); [|lia|intros; cbn [job_pages read_job]; f_equal; lia|lia..].
  f_equal; lia.
Qed.

(** Where blocks divide pages: the blocks of the pages, in order. *)
Lemma read_jobs_blocks fuel total page np r : 0 < di_block_size disk -> 0 < r -> 0 <= page ->
  di_page_size disk = r * di_block_size disk ->
  di_page_size disk * total < 2 ^ 64 -> 0 <= offset -> offset + r * total < 2 ^ 64 -> r * np < 2 ^ 16 ->
  0 < np -> 0 <= total - page <= Z.of_nat fuel ->
  chunked read_job fuel total page np ≫= job_blocks = seqZ (offset + r * page) (r * (total - page)).
Proof.
  intros Hbs Hr Hp Hps Hov Hoff Hov2 Hnp Hn Hf. apply (chunked_list _ _ np); try lia.
  intros p n Hp' Hn' He. cbn [job_blocks read_job]. rewrite !(page_to_block r) by nia.
  by rewrite u64_small, u16_small by nia.
Qed.
End spec.

(** ** The invariant *)

(** What the completer has dequeued but not yet retired, reported or counted. *)
Definition lag_retire (c : option consume_pc) : Z := if c is Some C_retire then 1 else 0.
Definition lag_update (c : option consume_pc) : Z :=
  match c with Some C_retire | Some C_update => 1 | _ => 0 end.
Definition lag_count (c : option consume_pc) : Z :=
  match c with Some C_retire | Some C_update | Some C_count => 1 | _ => 0 end.

Section invariant.
Context `{Build}.
Context (disk : disk_info) (buffer : nvm_dma_t) (ioaddrs : Z) (offset : Z).
Context (k : Z) (sq_mem : nvm_dma_t) (ncq cq_vaddr : Z).

Definition read_lane : lane := Lane k sq_mem (di_ns_id disk) (dma_ioaddrs buffer) ioaddrs.
Abbreviation L := read_lane.
Definition total : Z := dma_n_ioaddrs buffer.
Definition chunk : Z := di_max_data_size disk / di_page_size disk.
Definition jobs : list job := all_jobs disk offset total chunk.
Definition remaining (page np : Z) : list job := chunked (read_job disk offset) (Z.to_nat total) total page np.

(** The queues and the buffer are mapped, do not overlap, and one PRP list page is
    enough for a command of the maximum size. *)
Record read_setup : Prop := {
  su_lane : lane_wf L;
  su_page : dma_page_size sq_mem = di_page_size disk;
  su_block : 0 < di_block_size disk;
  su_total : total = Z.of_nat (length (dma_ioaddrs buffer)) /\ total < 2 ^ 63;
  su_chunk : 1 <= chunk <= di_page_size disk / 8 + 1;
  su_lists : lane_size L + 1 <= dma_n_ioaddrs sq_mem /\ di_page_size disk * dma_n_ioaddrs sq_mem < 2 ^ 64;
  su_table : ioaddrs + 8 * total <= dma_vaddr sq_mem
             \/ dma_vaddr sq_mem + di_page_size disk * dma_n_ioaddrs sq_mem <= ioaddrs;
  su_cq : cq_vaddr + 16 * ncq <= dma_vaddr sq_mem
          \/ dma_vaddr sq_mem + di_page_size disk * dma_n_ioaddrs sq_mem <= cq_vaddr;
  su_cq_table : cq_vaddr + 16 * ncq <= ioaddrs \/ ioaddrs + 8 * total <= cq_vaddr;
}.

(** Two queues that were just created, in cleared memory. *)
Record read_init (s : rsys) : Prop := {
  ri_main : rs_main s = R_create;
  ri_completer : rs_completer s = None;
  ri_ctrl : rs_fetched s = [] /\ rs_running s = [] /\ rs_posted s = [];
  ri_qp : qp_sq_mem (rs_qp s) = sq_mem /\ qp_stop (rs_qp s) = false /\ qp_num_cpls (rs_qp s) = 0;
  ri_sq : sq_state (lane_size L) 0 0 (qp_sq (rs_qp s)) /\ q_vaddr (qp_sq (rs_qp s)) = dma_vaddr sq_mem
          /\ q_entry_size (qp_sq (rs_qp s)) = 64 /\ q_last (qp_sq (rs_qp s)) = 0;
  ri_cq : cq_ok (w_mem (rs_w s)) (w_log (rs_w s)) ncq (qp_cq (rs_qp s)) [] 0 0
          /\ q_vaddr (qp_cq (rs_qp s)) = cq_vaddr;
  ri_db : reg (q_db (qp_sq (rs_qp s))) (w_log (rs_w s)) = 0 /\ q_db (qp_sq (rs_qp s)) <> q_db (qp_cq (rs_qp s));
  ri_zero : forall b, dma_vaddr sq_mem <= b < dma_vaddr sq_mem + 64 * lane_size L -> ld8 (w_mem (rs_w s)) b = 0;
  ri_table : table_at L (w_mem (rs_w s));
}.

Definition not_started (pc : read_pc) : bool :=
  match pc with R_create => true | R_return st => negb (st =? 0) | _ => false end.

(** Where the reading thread is: what it has built, and what is left. *)
Definition main_at (s : rsys) (built rest : list job) (E S : Z) : Prop :=
  let B := Z.of_nat (length built) in
  match rs_main s with
  | R_create | R_clear => built = [] /\ E = 0 /\ S = 0 /\ rest = jobs
  | R_while page nc np =>
      rest = remaining page np /\ nc = B /\ E = B /\ 0 <= page <= total /\ 1 <= np <= chunk
  | R_enqueue page nc np | R_submit page nc np =>
      rest = read_job disk offset page np :: remaining (page + np) np /\ nc = B /\ E = B
      /\ 0 <= page /\ page + np <= total /\ 1 <= np <= chunk
  | R_build page nc np cmd =>
      rest = read_job disk offset page np :: remaining (page + np) np /\ nc = B /\ E = B + 1
      /\ 0 <= page /\ page + np <= total /\ 1 <= np <= chunk
      /\ cmd = slot L (E - 1) /\ reserved L (w_mem (rs_w s)) (E - 1)
  | R_finish nc => rest = [] /\ nc = B /\ E = B
  | R_wait nc => rest = [] /\ nc = B /\ E = B /\ S = E
  | R_stop | R_join | R_return 0 => rest = [] /\ E = B /\ S = E /\ qp_num_cpls (rs_qp s) = E
  | R_return _ => built = [] /\ E = 0 /\ S = 0 /\ rest = jobs
  end.

(** [jobs] = built + rest; [E] slots taken, [S] submitted, [D] completions dequeued. *)
Record rinv (inorder : bool) (s : rsys) (built rest : list job) (E S D : Z) : Prop := {
  rv_jobs : jobs = built ++ rest;
  rv_lane : lane_ok L (w_mem (rs_w s)) (qp_sq (rs_qp s)) built E S (Z.of_nat (length (rs_fetched s)))
              (D - lag_retire (rs_completer s));
  rv_table : table_at L (w_mem (rs_w s));
  rv_fetched : forall i d, rs_fetched s !! i = Some d ->
    exists j, built !! i = Some j /\ d = job_dwords L (Z.of_nat i) j;
  rv_reg : reg (q_db (qp_sq (rs_qp s))) (w_log (rs_w s)) = S mod lane_size L;
  rv_cq : cq_ok (w_mem (rs_w s)) (w_log (rs_w s)) ncq (qp_cq (rs_qp s)) (rs_posted s) D
            (D - lag_update (rs_completer s));
  rv_cq_vaddr : q_vaddr (qp_cq (rs_qp s)) = cq_vaddr;
  rv_db : q_db (qp_sq (rs_qp s)) <> q_db (qp_cq (rs_qp s));
  rv_running : (length (rs_posted s) + length (rs_running s) = length (rs_fetched s))%nat
    /\ Forall (fun i => (i < length (rs_fetched s))%nat) (rs_running s);
  rv_inorder : inorder = true -> rs_running s = seq (length (rs_posted s)) (length (rs_running s));
  rv_num : qp_num_cpls (rs_qp s) = D - lag_count (rs_completer s);
  rv_sq_mem : qp_sq_mem (rs_qp s) = sq_mem;
  rv_main : main_at s built rest E S;
  rv_completer : rs_completer s = None <-> not_started (rs_main s) = true;
  rv_stop : qp_stop (rs_qp s) = match rs_main s with R_join | R_return 0 => true | _ => false end;
  rv_stopped : rs_completer s = Some C_return -> qp_stop (rs_qp s) = true;
}.

Hypothesis Hsu : read_setup.

Lemma extent_le : lane_extent L <= di_page_size disk * dma_n_ioaddrs sq_mem.
Proof.
  unfold lane_extent. pose proof (page_pos L (su_lane Hsu)) as Hp. pose proof (su_lists Hsu).
  unfold page_size in *. simpl in *. rewrite (su_page Hsu) in *. nia.
Qed.

Lemma cq_apart : cq_vaddr + 16 * ncq <= dma_vaddr (l_dma L) \/ dma_vaddr (l_dma L) + lane_extent L <= cq_vaddr.
Proof. pose proof extent_le. destruct (su_cq Hsu); simpl; lia. Qed.

Lemma table_apart : l_tbl L + 8 * Z.of_nat (length (l_bus L)) <= dma_vaddr (l_dma L)
  \/ dma_vaddr (l_dma L) + lane_extent L <= l_tbl L.
Proof. pose proof extent_le. pose proof (su_total Hsu). destruct (su_table Hsu); simpl; lia. Qed.

(** What a step of the reading thread writes to the lane leaves the rest alone. *)
Lemma only_writes_rest i m m' cq posted D U log : only_writes L i m m' ->
  q_vaddr cq = cq_vaddr -> table_at L m -> cq_ok m log ncq cq posted D U ->
  table_at L m' /\ cq_ok m' log ncq cq posted D U.
Proof.
  intros Hw Hv Ht Hc. split.
  - eapply table_at_agree; [|exact Ht]. eapply only_writes_agree; [apply Hsu|exact Hw|apply table_apart].
  - eapply cq_ok_frame; [|reflexivity|exact Hc]. rewrite Hv.
    eapply only_writes_agree; [apply Hsu|exact Hw|apply cq_apart].
Qed.

Lemma init_inv io s : read_init s -> rinv io s [] jobs 0 0 0.
Proof.
  intros [Hm Hc (Hf & Hr & Hp) (Hq1 & Hq2 & Hq3) (Hs1 & Hs2 & Hs3 & Hs4) (Hcq & Hcv) (Hd1 & Hd2) Hz Ht].
  constructor; rewrite ?Hm, ?Hc, ?Hf, ?Hr, ?Hp; simpl; try done.
  - constructor; try done; try (simpl; lia).
    intros s' Hs'. apply blank_zero. intros b Hb. apply Hz. simpl in *. lia.
  - unfold main_at. by rewrite Hm.
Qed.

Abbreviation Inv io s := (exists built rest E S D, rinv io s built rest E S D).

Lemma inv_create io s s' st : Inv io s -> sys_step disk buffer ioaddrs offset (Ev_create st) s = Some s' -> Inv io s'.
Proof.
  intros (built & rest & E & S & D & [Hj Hl Ht Hf Hrg Hcq Hcv Hdb Hru Hio Hn Hsm Hm Hc Hst Hsd]) Hs. simpl in Hs.
  unfold main_at in Hm. destruct (rs_main s) eqn:Em; try done.
  assert (rs_completer s = None) as Hnone by by apply Hc.
  rewrite Hnone in *. simpl in *. exists built, rest, E, S, D.
  destruct (Z.eqb_spec st 0) as [->|Hne]; injection Hs as <-; constructor; simpl; try done.
  - unfold main_at. simpl. by destruct st.
  - by rewrite (proj2 (Z.eqb_neq _ _) Hne).
  - by destruct st.
Qed.

(** *** The steps of the reading thread *)

(** The system after the reading thread went to [fst r]. *)
Definition main_next (s : rsys) (r : read_pc * queue_pair) (w : uworld) : rsys :=
  RSys w (snd r) (fst r) (rs_completer s) (rs_fetched s) (rs_running s) (rs_posted s).

Definition main_stepped (io : bool) (s : rsys) (pc : read_pc) (built rest : list job) (E S D : Z)
    (r : read_pc * queue_pair) (w : uworld) : Prop :=
  fst r = pc /\ rinv io (main_next s r w) built rest E S D.

Lemma chunk_min page np : 0 <= page <= total -> 1 <= np <= chunk ->
  let left := u64 (total - page) in
  left = total - page /\ (if left <? np then left else np) = (if total - page <? np then total - page else np).
Proof.
  intros Hp Hn left. pose proof (su_total Hsu) as [_ Ht]. assert (left = total - page) as E by (apply u64_small; lia).
  by rewrite E.
Qed.

Lemma step_R_while io s built rest E S D page nc np : rinv io s built rest E S D ->
  rs_main s = R_while page nc np ->
  wp quiet_env (read_and_dump disk buffer ioaddrs offset (R_while page nc np) (rs_qp s)) (rs_w s) (fun r w =>
    main_stepped io s (if total - page >? 0 then R_enqueue page nc (if total - page <? np then total - page else np)
      else R_finish nc) built rest E S D r w).
Proof.
  intros [Hj Hl Ht Hf Hrg Hcq Hcv Hdb Hru Hio Hn Hsm Hm Hc Hst Hsd] Em. unfold main_at in Hm. rewrite Em in *.
  destruct Hm as (-> & -> & -> & Hpage & Hnp). destruct (chunk_min page np Hpage Hnp) as [El Emin].
  cbn [read_and_dump]. fold total. wp_step. unfold main_stepped, main_next. simpl. rewrite El, Z.gtb_ltb. split; [done|].
  destruct (Z.ltb_spec 0 (total - page)) as [Hlt|Hge].
  - set (n := if total - page <? np then total - page else np) in *.
    assert (1 <= n <= np /\ n <= total - page) as [Hb Hb'] by (subst n; destruct (Z.ltb_spec (total - page) np); lia).
    constructor; simpl; rewrite ?Em in *; try done.
    unfold main_at. simpl. fold n. split; [|split; [done|split; [done|split; [lia|split; [lia|lia]]]]].
    unfold remaining. apply chunked_round; lia.
  - constructor; simpl; rewrite ?Em in *; try done.
    unfold main_at. simpl. split; [|done]. apply chunked_done. lia.
Qed.

Lemma step_R_enqueue io s built rest E S D page nc np : rinv io s built rest E S D ->
  rs_main s = R_enqueue page nc np ->
  wp quiet_env (read_and_dump disk buffer ioaddrs offset (R_enqueue page nc np) (rs_qp s)) (rs_w s) (fun r w =>
    if decide (E - (D - lag_retire (rs_completer s)) = lane_size L - 1)
    then main_stepped io s (R_submit page nc np) built rest E S D r w
    else main_stepped io s (R_build page nc np (slot L E)) built rest (E + 1) S D r w).
Proof.
  intros [Hj Hl Ht Hf Hrg Hcq Hcv Hdb Hru Hio Hn Hsm Hm Hc Hst Hsd] Em. unfold main_at in Hm. rewrite Em in *.
  destruct Hm as (-> & -> & -> & Hm).
  pose proof (sqs_window _ _ _ _ (lk_ring _ _ _ _ _ _ _ _ Hl)) as Hwin. cbn [read_and_dump]. repeat wp_step.
  - case_decide as Hfull.
    + rewrite (lane_full L (su_lane Hsu) _ _ _ _ _ _ _ Hl Hfull) in *. simplify_eq. split; [done|].
      unfold main_next. destruct (rs_qp s). constructor; simpl in *; rewrite ?Em in *; try done.
    + destruct (lane_enqueue L (su_lane Hsu) _ _ _ _ _ _ _ Hl eq_refl ltac:(lia))
        as (q' & m' & Heq & Hl' & Hres & Hw & Hd). simplify_eq.
      assert (slot L (Z.of_nat (length built)) <> NULL) as Hnn.
      { pose proof (slot_bounds L (su_lane Hsu) (Z.of_nat (length built))). pose proof (lw_vaddr _ (su_lane Hsu)). unfold NULL. lia. }
      rewrite (proj2 (Z.eqb_neq _ _) Hnn). split; [done|].
      destruct (only_writes_rest _ _ _ _ _ _ _ _ Hw Hcv Ht Hcq) as [Ht' Hcq'].
      constructor; simpl in *; rewrite ?Em, ?Hd in *; try done.
      unfold main_at. simpl. rewrite Z.add_simpl_r. tauto.
  - destruct (decide (Z.of_nat (length built) - (D - lag_retire (rs_completer s)) = lane_size L - 1)) as [Hfull|Hroom].
    + pose proof (lane_full L (su_lane Hsu) _ _ _ _ _ _ _ Hl Hfull). congruence.
    + destruct (lane_enqueue L (su_lane Hsu) _ _ _ _ _ _ _ Hl eq_refl ltac:(lia)) as (q' & m' & Heq & _).
      congruence.
Qed.

(** Submitting, whatever comes next. *)
Lemma submitted io s built rest E S D pc' (Q : read_pc * queue_pair -> uworld -> Prop) :
  rinv io s built rest E S D -> E = Z.of_nat (length built) ->
  (forall w' sq', w_st w' = w_st (rs_w s) ->
     lane_ok L (w_mem w') sq' built E E (Z.of_nat (length (rs_fetched s))) (D - lag_retire (rs_completer s)) ->
     table_at L (w_mem w') -> reg (q_db sq') (w_log w') = E mod lane_size L ->
     cq_ok (w_mem w') (w_log w') ncq (qp_cq (rs_qp s)) (rs_posted s) D (D - lag_update (rs_completer s)) ->
     q_db sq' <> q_db (qp_cq (rs_qp s)) -> Q (pc', qp_set_sq sq' (rs_qp s)) w') ->
  wp quiet_env (sq ← nvm_sq_submit (qp_sq (rs_qp s)); mret (pc', qp_set_sq sq (rs_qp s))) (rs_w s) Q.
Proof.
  intros [Hj Hl Ht Hf Hrg Hcq Hcv Hdb Hru Hio Hn Hsm Hm Hc Hst Hsd] HE HQ. wp_step. apply quiet_sq_submit.
  intros w' Hmem Hst' Hlog. wp_step.
  destruct (lane_submit_reg L _ _ _ _ _ _ _ _ (w_log w') (su_lane Hsu) Hl HE Hrg Hlog) as (Hl' & Hd & Hr' & Hother).
  apply HQ; rewrite ?Hmem, ?Hd; try done. eapply cq_ok_frame; [apply agree_refl| |exact Hcq]. by apply Hother.
Qed.

Lemma step_R_submit io s built rest E S D page nc np : rinv io s built rest E S D ->
  rs_main s = R_submit page nc np ->
  wp quiet_env (read_and_dump disk buffer ioaddrs offset (R_submit page nc np) (rs_qp s)) (rs_w s) (main_stepped io s (R_enqueue page nc np) built rest E E D).
Proof.
  intros Hinv Em. pose proof Hinv as [Hj Hl Ht Hf Hrg Hcq Hcv Hdb Hru Hio Hn Hsm Hm Hc Hst Hsd].
  unfold main_at in Hm. rewrite Em in *. eapply submitted; [exact Hinv|tauto|].
  intros w' sq' Hst' Hl' Ht' Hr' Hcq' Hdb'. split; [done|]. constructor; simpl; rewrite ?Em in *; done.
Qed.

Lemma step_R_finish io s built rest E S D nc : rinv io s built rest E S D ->
  rs_main s = R_finish nc ->
  wp quiet_env (read_and_dump disk buffer ioaddrs offset (R_finish nc) (rs_qp s)) (rs_w s) (main_stepped io s (R_wait nc) built rest E E D).
Proof.
  intros Hinv Em. pose proof Hinv as [Hj Hl Ht Hf Hrg Hcq Hcv Hdb Hru Hio Hn Hsm Hm Hc Hst Hsd].
  unfold main_at in Hm. rewrite Em in *. eapply submitted; [exact Hinv|tauto|].
  intros w' sq' Hst' Hl' Ht' Hr' Hcq' Hdb'. split; [done|]. constructor; simpl; rewrite ?Em in *; try done. unfold main_at. simpl. tauto.
Qed.

Lemma step_R_clear io s built rest E S D : rinv io s built rest E S D -> rs_main s = R_clear ->
  wp quiet_env (read_and_dump disk buffer ioaddrs offset R_clear (rs_qp s)) (rs_w s) (main_stepped io s (R_while 0 0 chunk) built rest E S D).
Proof.
  intros [Hj Hl Ht Hf Hrg Hcq Hcv Hdb Hru Hio Hn Hsm Hm Hc Hst Hsd] Em. unfold main_at in Hm. rewrite Em in *.
  destruct Hm as (-> & -> & -> & ->). pose proof (page_pos L (su_lane Hsu)) as Hps. unfold page_size in Hps. simpl in Hps.
  pose proof (su_page Hsu) as Hpp. rewrite Hpp in Hps. pose proof (lane_size_bounds L (su_lane Hsu)). pose proof (su_lists Hsu) as [Hli Hli'].
  assert (64 * lane_size L <= di_page_size disk) as Hslots.
  { pose proof (lw_page _ (su_lane Hsu)) as Hx. unfold page_size in Hx. simpl in Hx. by rewrite Hpp in Hx. }
  cbn [read_and_dump]. unfold upd_mem, divide. rewrite (proj2 (Z.eqb_neq (di_page_size disk) 0)) by lia. repeat wp_step.
  rewrite Hsm. unfold NVM_DMA_OFFSET, NVM_PTR_OFFSET. rewrite Hpp, Z.mul_1_r, u64_small, u64_small by nia.
  set (m' := memset _ _ _ _).
  assert (forall a n, a + n <= dma_vaddr sq_mem + di_page_size disk
    \/ dma_vaddr sq_mem + di_page_size disk * dma_n_ioaddrs sq_mem <= a -> agree (w_mem (rs_w s)) m' a n) as Ha.
  { intros a n Hd b Hb. unfold m'. rewrite ld8_memset, decide_False; [done|]. rewrite Z2Nat.id by nia. lia. }
  split; [done|]. constructor; simpl; try done.
  - eapply lane_ok_empty; [|exact Hl]. apply Ha. simpl. lia.
  - eapply table_at_agree; [|exact Ht]. apply Ha. simpl. pose proof (su_total Hsu). destruct (su_table Hsu); lia.
  - eapply cq_ok_frame; [|reflexivity|exact Hcq]. rewrite Hcv. apply Ha. destruct (su_cq Hsu); lia.
  - unfold main_at. simpl. pose proof (su_chunk Hsu). pose proof (su_total Hsu). fold chunk. repeat split; lia.
Qed.

Lemma step_R_wait io s built rest E S D nc : rinv io s built rest E S D -> rs_main s = R_wait nc ->
  wp quiet_env (read_and_dump disk buffer ioaddrs offset (R_wait nc) (rs_qp s)) (rs_w s) (main_stepped io s (if qp_num_cpls (rs_qp s) <? nc then R_wait nc else R_stop) built rest E S D).
Proof.
  intros [Hj Hl Ht Hf Hrg Hcq Hcv Hdb Hru Hio Hn Hsm Hm Hc Hst Hsd] Em. unfold main_at in Hm. rewrite Em in *.
  cbn [read_and_dump]. wp_step. split; [done|]. unfold main_next. cbn [fst snd].
  destruct (Z.ltb_spec (qp_num_cpls (rs_qp s)) nc); constructor; simpl; rewrite ?Em in *; try done.
  unfold main_at. simpl. destruct Hm as (? & ? & ? & ?). repeat split; try done.
  pose proof (lk_counts _ _ _ _ _ _ _ _ Hl). pose proof (co_window _ _ _ _ _ _ _ Hcq). destruct Hru as [Hru _].
  destruct (rs_completer s) as [[]|]; simpl in *; lia.
Qed.

Lemma step_R_stop io s built rest E S D : rinv io s built rest E S D -> rs_main s = R_stop ->
  wp quiet_env (read_and_dump disk buffer ioaddrs offset R_stop (rs_qp s)) (rs_w s) (main_stepped io s R_join built rest E S D).
Proof.
  intros [Hj Hl Ht Hf Hrg Hcq Hcv Hdb Hru Hio Hn Hsm Hm Hc Hst Hsd] Em. unfold main_at in Hm. rewrite Em in *.
  cbn [read_and_dump]. wp_step. split; [done|]. by constructor; simpl; rewrite ?Em in *.
Qed.

Lemma step_R_join io s built rest E S D : rinv io s built rest E S D -> rs_main s = R_join ->
  rs_completer s = Some C_return ->
  wp quiet_env (read_and_dump disk buffer ioaddrs offset R_join (rs_qp s)) (rs_w s) (main_stepped io s (R_return 0) built rest E S D).
Proof.
  intros [Hj Hl Ht Hf Hrg Hcq Hcv Hdb Hru Hio Hn Hsm Hm Hc Hst Hsd] Em Ec. unfold main_at in Hm. rewrite Em in *.
  cbn [read_and_dump]. wp_step. split; [done|]. constructor; simpl; rewrite ?Em, ?Ec in *; done.
Qed.

Lemma step_R_return io s built rest E S D st : rinv io s built rest E S D -> rs_main s = R_return st ->
  wp quiet_env (read_and_dump disk buffer ioaddrs offset (R_return st) (rs_qp s)) (rs_w s) (main_stepped io s (R_return st) built rest E S D).
Proof.
  intros Hinv Em. cbn [read_and_dump]. wp_step. split; [done|]. destruct s. simpl in *. by subst.
Qed.

Lemma read_job_wf page np : 0 <= page -> page + np <= total -> 1 <= np <= chunk ->
  job_wf L (read_job disk offset page np).
Proof.
  intros. pose proof (su_chunk Hsu). pose proof (su_total Hsu). cbn [job_wf read_job]. unfold page_size. simpl.
  rewrite (su_page Hsu). split; [done|]. split; [lia|]. split; [lia|]. apply (u64_bound (_ + _)).
Qed.

(** The command is built, and the whole of [num_pages] is used. *)
Lemma build_read_spec w qp page np i (Q : Z -> uworld -> Prop) :
  0 <= page -> page + np <= total -> 1 <= np <= chunk ->
  reserved L (w_mem w) i -> table_at L (w_mem w) -> q_max_entries (qp_sq qp) = lane_size L -> qp_sq_mem qp = sq_mem ->
  (forall m', only_writes L i (w_mem w) m' -> dwords m' (slot L i) = job_dwords L i (read_job disk offset page np) ->
     list_holds L m' i (read_job disk offset page np) -> Q np (World m' (w_st w) (w_log w))) ->
  wp quiet_env (build_read disk ioaddrs offset page np (slot L i) qp) w Q.
Proof.
  intros Hp Hend Hnp Hres Ht Hn Hsm HQ. pose proof (su_lane Hsu) as Hwf. pose proof (lane_size_bounds L Hwf) as Hls.
  destruct (list_page_of_cid L Hwf _ _ Hres) as (Hno & Hlp & Hio).
  pose proof (read_job_wf page np Hp Hend Hnp) as Hj.
  destruct (build_header_data_rw L Hwf i (w_mem w) false page np _ _ Hres Hj Ht) as (m2 & Hcd & Hw & Hd & Hh).
  unfold build_read, ld_mem, upd_mem, ioaddr_at. rewrite Hn, Hsm.
  rewrite (proj2 (Z.eqb_neq (lane_size L) 0)), (proj2 (Z.eqb_neq (di_block_size disk) 0)) by (pose proof (su_block Hsu); lia).
  cbn [orb]. do 6 wp_step. cbn beta. rewrite Hno. cbn [l_dma read_lane] in Hio, Hlp. rewrite Hio, Hlp.
  do 7 wp_step. simpl w_mem. cbn [l_ns l_tbl read_lane] in Hcd. unfold page_size in Hcd. cbn [l_dma read_lane] in Hcd.
  rewrite (su_page Hsu) in Hcd. wp_step. cbn beta. cbn [w_mem]. rewrite Hcd. repeat wp_step. simpl. by apply HQ.
Qed.

Lemma jobs_length built rest : jobs = built ++ rest -> Z.of_nat (length built) <= total.
Proof.
  intros E. pose proof (length_chunked (read_job disk offset) (Z.to_nat total) total 0 chunk) as Hlen.
  fold (all_jobs disk offset total chunk) in Hlen. fold jobs in Hlen. rewrite E, length_app in Hlen.
  pose proof (su_total Hsu). lia.
Qed.

Lemma step_R_build io s built rest E S D page nc np cmd : rinv io s built rest E S D ->
  rs_main s = R_build page nc np cmd ->
  wp quiet_env (read_and_dump disk buffer ioaddrs offset (R_build page nc np cmd) (rs_qp s)) (rs_w s) (fun r w =>
    exists rest', rest = read_job disk offset page np :: rest'
    /\ main_stepped io s (R_while (page + np) (nc + 1) np) (built ++ [read_job disk offset page np]) rest' E S D r w).
Proof.
  intros [Hj Hl Ht Hf Hrg Hcq Hcv Hdb Hru Hio Hn Hsm Hm Hc Hst Hsd] Em. unfold main_at in Hm. rewrite Em in *.
  destruct Hm as (-> & -> & -> & Hp & Hend & Hnp & -> & Hres). cbn [read_and_dump]. wp_step.
  pose proof (su_lane Hsu) as Hwf. pose proof (su_total Hsu) as [_ Htot].
  apply (build_read_spec _ _ _ _ _ _ Hp Hend Hnp Hres Ht); [by destruct (lk_ring _ _ _ _ _ _ _ _ Hl)|done|].
  intros m' Hw Hd Hh. wp_step.
  destruct (only_writes_rest _ _ _ _ _ _ _ _ Hw Hcv Ht Hcq) as [Ht' Hcq'].
  set (j := read_job disk offset page np) in *.
  rewrite !u64_small by (pose proof (jobs_length _ _ Hj); lia).
  eexists. split; [done|]. split; [done|]. constructor; simpl; rewrite ?Em in *; try done.
  - by rewrite <- app_assoc.
  - eapply lane_build; [done|exact Hl|lia|exact Hw|by apply read_job_wf|exact Hd|exact Hh].
  - intros i d Hi. destruct (Hf i d Hi) as (j' & Hj' & Hd'). exists j'. split; [|done].
    by apply lookup_app_l_Some.
  - unfold main_at. simpl. rewrite length_app. simpl length. repeat split; try done; lia.
Qed.

(** *** The steps of the completer *)

(** The system after the completer went to [fst r]; [D] may have grown. *)
Definition completer_next (s : rsys) (r : consume_pc * queue_pair) (w : uworld) : rsys :=
  RSys w (snd r) (rs_main s) (Some (fst r)) (rs_fetched s) (rs_running s) (rs_posted s).

Definition consume_next (stop : bool) (P D : Z) (pc : consume_pc) : consume_pc * Z :=
  match pc with
  | C_while => (if stop then C_return else C_dequeue, D)
  | C_dequeue => if D <? P then (C_retire, D + 1) else (C_while, D)
  | C_retire => (C_update, D)
  | C_update => (C_count, D)
  | C_count => (C_while, D)
  | C_return => (C_return, D)
  end.

(** The reading thread does not see the fields the completer changes, other than
    the count. *)
Lemma main_at_frame s s' built rest E S : rs_main s' = rs_main s ->
  w_mem (rs_w s') = w_mem (rs_w s) ->
  (qp_num_cpls (rs_qp s') = qp_num_cpls (rs_qp s) \/ qp_num_cpls (rs_qp s) < Z.of_nat (length built)) ->
  main_at s built rest E S -> main_at s' built rest E S.
Proof.
  unfold main_at. intros -> -> Hq. destruct (rs_main s) as [| | | | | |nc|nc| | |[| |]]; try done;
    intros (-> & -> & -> & Hc); (destruct Hq as [->|]; [done|lia]).
Qed.

Lemma consume_inv io s built rest E S D pc : rinv io s built rest E S D -> rs_completer s = Some pc ->
  wp quiet_env (consume_completions pc (rs_qp s)) (rs_w s) (fun r w =>
    let nx := consume_next (qp_stop (rs_qp s)) (Z.of_nat (length (rs_posted s))) D pc in
    fst r = fst nx /\ rinv io (completer_next s r w) built rest E S (snd nx)).
Proof.
  intros [Hj Hl Ht Hf Hrg Hcq Hcv Hdb Hru Hio Hn Hsm Hm Hc Hst Hsd] Ec. rewrite Ec in *.
  assert (not_started (rs_main s) = false) as Hns by (destruct (not_started (rs_main s)); [discriminate (proj2 Hc eq_refl)|done]).
  destruct pc; cbn [consume_completions consume_next]; simpl in Hl, Hcq, Hn; rewrite ?Z.sub_0_r in *.
  - wp_step. split; [by destruct (qp_stop (rs_qp s))|]. constructor; simpl; rewrite ?Z.sub_0_r; try done;
      destruct (qp_stop (rs_qp s)) eqn:Es; simpl; rewrite ?Z.sub_0_r; try done; by rewrite Hns.
  - wp_step. apply quiet_dequeue. intros w' Hmem Hst' Hlog.
    destruct (cq_ok_dequeue _ _ _ _ _ _ Hcq) as [(Hlt & cq' & -> & Hnn & Hcq' & Hd & Hv)|(Heq & ->)]; wp_step.
    + rewrite (proj2 (Z.eqb_neq _ _) Hnn). rewrite (proj2 (Z.ltb_lt _ _) Hlt). split; [done|].
      constructor; simpl; rewrite ?Hlog, ?Hmem, ?Hd, ?Hv; try done; try lia.
      * by replace (D + 1 - 1) with D by lia.
      * replace (D + 1 - 1) with D by lia. eapply cq_ok_frame; [apply agree_refl| |exact Hcq']. by rewrite Hd.
      * by eapply main_at_frame; [..|exact Hm]; simpl; auto.
      * by rewrite Hns.
    + rewrite (proj2 (Z.ltb_ge D _)) by lia. split; [done|].
      constructor; simpl; rewrite ?Hlog, ?Hmem, ?Z.sub_0_r; try done; try lia.
      * eapply cq_ok_frame; [apply agree_refl| |exact Hcq]. by rewrite Hlog.
      * by eapply main_at_frame; [..|exact Hm]; simpl; auto.
      * by rewrite Hns.
  - wp_step. split; [done|]. pose proof (lk_counts _ _ _ _ _ _ _ _ Hl).
    constructor; simpl; rewrite ?Z.sub_0_r; try done.
    + replace D with (D - 1 + 1) by lia. apply lane_retire; [exact Hl|]. pose proof (co_window _ _ _ _ _ _ _ Hcq). lia.
    + unfold nvm_sq_update. simpl. by destruct (_ =? _).
    + unfold nvm_sq_update. simpl. by destruct (_ =? _).
    + by rewrite Hns.
  - wp_step. apply quiet_cq_update. intros w' Hmem Hst' Hlog. wp_step. split; [done|].
    replace D with (D - 1 + 1) in Hcq at 1 by lia. pose proof (cq_ok_update _ _ (w_log w') _ _ _ _ Hcq Hlog) as Hcq'.
    replace (D - 1 + 1) with D in Hcq' by lia.
    set (cq' := if negb _ then _ else _) in *. assert (q_db cq' = q_db (qp_cq (rs_qp s)) /\ q_vaddr cq' = q_vaddr (qp_cq (rs_qp s)))
      as [Ed Ev] by (unfold cq'; by destruct (negb _)).
    constructor; simpl; rewrite ?Hmem, ?Z.sub_0_r, ?Ed, ?Ev; try done.
    + rewrite Hlog, (proj2 (Z.eqb_neq _ _) (not_eq_sym Hdb)). by rewrite andb_false_r.
    + by eapply main_at_frame; [..|exact Hm]; simpl; auto.
    + by rewrite Hns.
  - wp_step. split; [done|]. pose proof (lk_counts _ _ _ _ _ _ _ _ Hl) as Hcn.
    pose proof (co_window _ _ _ _ _ _ _ Hcq). pose proof (jobs_length _ _ Hj). pose proof (su_total Hsu).
    destruct Hru as [Hru Hru'].
    assert (u64 (qp_num_cpls (rs_qp s) + 1) = D) as Eu by (rewrite Hn, u64_small; lia).
    constructor; simpl; rewrite ?Z.sub_0_r, ?Eu; try done.
    + eapply main_at_frame; [..|exact Hm]; simpl; auto. right. lia.
    + by rewrite Hns.
  - wp_step. split; [done|]. constructor; simpl; by rewrite ?Z.sub_0_r.
Qed.

(** *** The steps of the controller *)

Lemma fetch_inv io s s' built rest E S D : rinv io s built rest E S D -> step_fetch s = Some s' -> rinv io s' built rest E S D.
Proof.
  intros [Hj Hl Ht Hf Hrg Hcq Hcv Hdb Hru Hio Hn Hsm Hm Hc Hst Hsd] Hs.
  unfold step_fetch in Hs. pose proof (lk_ring _ _ _ _ _ _ _ _ Hl) as Hring. rewrite Hrg, (sqs_size _ _ _ _ Hring) in Hs.
  destruct (Z.eqb_spec (Z.of_nat (length (rs_fetched s)) mod lane_size L) (S mod lane_size L)) as [|Hne]; [done|].
  injection Hs as <-. pose proof (lk_counts _ _ _ _ _ _ _ _ Hl).
  assert (Z.of_nat (length (rs_fetched s)) < S) as Hlt by (destruct (decide (Z.of_nat (length (rs_fetched s)) = S)); [congruence|lia]).
  destruct (lane_fetch L _ _ _ _ _ _ _ Hl Hlt) as [(j & Hjl & Hjd) Hl'].
  constructor; simpl; try done.
  - by rewrite length_app, Nat2Z.inj_add.
  - intros i d Hi. apply lookup_app_Some in Hi as [Hi|[Hge Hi]]; [by apply Hf|].
    apply list_lookup_singleton_Some in Hi as [Hi <-]. assert (i = length (rs_fetched s)) as -> by lia.
    exists j. rewrite Nat2Z.id in Hjl. split; [done|]. rewrite <- Hjd. unfold slot. by rewrite (lk_vaddr _ _ _ _ _ _ _ _ Hl).
  - rewrite !length_app. simpl. destruct Hru as [Hru Hall]. split; [lia|]. apply Forall_app. split.
    + eapply Forall_impl; [|exact Hall]. simpl. lia.
    + constructor; [lia|done].
  - intros Hi. rewrite length_app. simpl. rewrite seq_app, <- Hio by done. f_equal. simpl. f_equal. destruct Hru. lia.
Qed.

Lemma complete_inv io s s' i sp st built rest E S D : rinv io s built rest E S D -> step_complete i sp st s = Some s' ->
  (io = true -> i = 0%nat) -> rinv io s' built rest E S D.
Proof.
  intros [Hj Hl Ht Hf Hrg Hcq Hcv Hdb Hru Hio Hn Hsm Hm Hc Hst Hsd] Hs Hi0.
  unfold step_complete in Hs. destruct (rs_running s !! i) as [c|] eqn:Ei; [|done]. simpl in Hs.
  destruct (rs_fetched s !! c) as [cmd|]; [|done]. simpl in Hs.
  pose proof (cqs_size _ _ _ _ (co_state _ _ _ _ _ _ _ Hcq)) as Hsz. pose proof (cqs_pos _ _ _ _ (co_state _ _ _ _ _ _ _ Hcq)).
  rewrite Hsz in Hs. destruct (Z.eqb_spec ((Z.of_nat (length (rs_posted s)) + 1) mod ncq)
    (reg (q_db (qp_cq (rs_qp s))) (w_log (rs_w s)))) as [|Hroom]; [done|]. injection Hs as <-.
  set (p := cpl_payload _ _ _ _). set (m' := post_cpl _ _ _ _ _ _).
  assert (forall a n, a + n <= cq_vaddr \/ cq_vaddr + 16 * ncq <= a -> agree (w_mem (rs_w s)) m' a n) as Ha
    by (intros; apply post_cpl_agree; [lia|by rewrite Hcv]).
  constructor; simpl; try done.
  - eapply lane_ok_agree; [apply Hsu| |exact Hl]. apply Ha. destruct cq_apart; lia.
  - eapply table_at_agree; [|exact Ht]. apply Ha. pose proof (su_total Hsu). simpl. destruct (su_cq_table Hsu); lia.
  - apply cq_ok_post; [done|done|apply cpl_payload_bound|apply wrap_bound; lia].
  - destruct Hru as [Hru Hall]. pose proof (lookup_lt_Some _ _ _ Ei). rewrite length_app, length_delete by done. simpl.
    split; [lia|]. by apply Forall_delete.
  - intros Hi. specialize (Hio Hi). rewrite (Hi0 Hi) in *. destruct (rs_running s) as [|x l]; [done|].
    simpl in *. rewrite length_app. simpl. injection Hio as _ ->. rewrite length_seq. f_equal. lia.
  - unfold main_at in *. simpl. destruct (rs_main s) as [| | | | |page nc np cmd'| | | | |[]]; try done.
    destruct Hm as (? & ? & ? & ? & ? & ? & ? & Hres). do 7 (split; [done|]).
    eapply reserved_agree; [|exact Hres]. apply Ha. pose proof (slot_bounds L (su_lane Hsu) (E - 1)).
    pose proof (list_page_bounds L (su_lane Hsu) 0). pose proof (page_pos L (su_lane Hsu)). destruct cq_apart; lia.
Qed.

(** *** All of them *)

Lemma completer_inv io s s' built rest E S D : rinv io s built rest E S D ->
  sys_step disk buffer ioaddrs offset Ev_completer s = Some s' -> exists D', rinv io s' built rest E S D'.
Proof.
  intros Hinv Hs. simpl in Hs. destruct (rs_completer s) as [pc|] eqn:Ec; [|done].
  simpl in Hs. unfold step_completer in Hs. pose proof (consume_inv _ _ _ _ _ _ _ _ Hinv Ec) as Hw.
  unfold wp in Hw. unfold run in Hs. destruct (consume_completions pc (rs_qp s) quiet_env (rs_w s)) as [[pc' qp'] w'| |]; try done.
  injection Hs as <-. destruct Hw as [_ Hw]. eauto.
Qed.

Lemma weaken_main e (m : UM (read_pc * queue_pair)) w io s (P : read_pc * queue_pair -> uworld -> Prop) :
  wp e m w P -> (forall r w, P r w -> Inv io (main_next s r w)) -> wp e m w (fun r w => Inv io (main_next s r w)).
Proof. intros Hw HP. by eapply wp_mono. Qed.

(** Every step of the reading thread is defined, and keeps the invariant. *)
Lemma main_runs io s : Inv io s -> (rs_main s = R_join -> rs_completer s = Some C_return) ->
  wp quiet_env (read_and_dump disk buffer ioaddrs offset (rs_main s) (rs_qp s)) (rs_w s)
    (fun r w => Inv io (main_next s r w)).
Proof.
  intros (built & rest & E & S & D & Hinv) Hjoin. destruct (rs_main s) eqn:Em.
  - cbn [read_and_dump]. wp_step. exists built, rest, E, S, D. unfold main_next. destruct s. simpl in *. by subst.
  - eapply weaken_main; [by eapply step_R_clear|]. intros r w [_ ?]. eauto 10.
  - eapply weaken_main; [by eapply step_R_while|]. intros r w [_ ?]. eauto 10.
  - eapply weaken_main; [by eapply step_R_enqueue|]. intros r w Hr. simpl in Hr. case_decide; destruct Hr as [_ ?]; eauto 10.
  - eapply weaken_main; [by eapply step_R_submit|]. intros r w [_ ?]. eauto 10.
  - eapply weaken_main; [by eapply step_R_build|]. intros r w (rest' & _ & _ & ?). eauto 10.
  - eapply weaken_main; [by eapply step_R_finish|]. intros r w [_ ?]. eauto 10.
  - eapply weaken_main; [by eapply step_R_wait|]. intros r w [_ ?]. eauto 10.
  - eapply weaken_main; [by eapply step_R_stop|]. intros r w [_ ?]. eauto 10.
  - eapply weaken_main; [by eapply step_R_join; [..|apply Hjoin]|]. intros r w [_ ?]. eauto 10.
  - eapply weaken_main; [by eapply step_R_return|]. intros r w [_ ?]. eauto 10.
Qed.

Lemma step_main_inv io s s' : Inv io s -> (rs_main s = R_join -> rs_completer s = Some C_return) ->
  step_main disk buffer ioaddrs offset s = Some s' -> Inv io s'.
Proof.
  intros Hinv Hjoin Hs. unfold step_main in Hs.
  pose proof (main_runs _ _ Hinv Hjoin) as Hw. unfold wp in Hw. unfold run in Hs.
  destruct (read_and_dump _ _ _ _ _ _ quiet_env (rs_w s)) as [[pc' qp'] w'| |]; try done. by injection Hs as <-.
Qed.

Lemma rstep_inv io s s' : Inv io s -> rstep disk buffer ioaddrs offset io s s' -> Inv io s'.
Proof.
  intros Hinv (ev & Hs & Hio). pose proof Hinv as (built & rest & E & S & D & Hv). destruct ev as [st| | | |i sp st].
  - by eapply inv_create.
  - simpl in Hs. destruct (rs_main s) eqn:Em; try done;
      try (eapply step_main_inv; [exact Hinv|intros ?; congruence|exact Hs]).
    case_bool_decide as Hd; [|done]. by eapply step_main_inv.
  - destruct (completer_inv _ _ _ _ _ _ _ _ Hv Hs) as [D' ?]. eauto 10.
  - pose proof (fetch_inv _ _ _ _ _ _ _ _ Hv Hs). eauto 10.
  - pose proof (complete_inv _ _ _ _ _ _ _ _ _ _ _ Hv Hs Hio). eauto 10.
Qed.

Lemma reachable_inv io s0 s : read_init s0 -> rtc (rstep disk buffer ioaddrs offset io) s0 s -> Inv io s.
Proof.
  intros Hi Hr. assert (Inv io s0) as H0 by (exists [], jobs, 0, 0, 0; by apply init_inv).
  clear Hi. induction Hr; eauto using rstep_inv.
Qed.

(** ** No deadlock

    The work the controller and the completer still have with what was submitted. *)
Abbreviation reaches := (rtc (rstep disk buffer ioaddrs offset true)).

Definition consume_work (c : option consume_pc) : nat :=
  match c with
  | Some C_retire => 6 | Some C_update => 5 | Some C_count => 4 | Some C_while => 3 | Some C_dequeue => 2 | _ => 0
  end.

Definition service_work (S D : Z) (s : rsys) : nat :=
  Z.to_nat (20 * (S - Z.of_nat (length (rs_fetched s)))
            + 15 * (Z.of_nat (length (rs_fetched s)) - Z.of_nat (length (rs_posted s)))
            + 10 * (Z.of_nat (length (rs_posted s)) - D)) + consume_work (rs_completer s).

Lemma completer_moves io s built rest E S D pc : rinv io s built rest E S D -> rs_completer s = Some pc ->
  let nx := consume_next (qp_stop (rs_qp s)) (Z.of_nat (length (rs_posted s))) D pc in
  exists s', rstep disk buffer ioaddrs offset io s s'
  /\ rs_main s' = rs_main s /\ rs_fetched s' = rs_fetched s /\ rs_posted s' = rs_posted s
  /\ rs_completer s' = Some (fst nx) /\ rinv io s' built rest E S (snd nx).
Proof.
  intros Hinv Ec nx. pose proof (consume_inv _ _ _ _ _ _ _ _ Hinv Ec) as Hw. apply wp_run in Hw as (r & w & Hr & Hpc & Hv).
  exists (completer_next s r w). split.
  - exists Ev_completer. split; [|done]. simpl. rewrite Ec. simpl. unfold step_completer. rewrite Hr. by destruct r.
  - subst nx. simpl. by rewrite Hpc.
Qed.

Lemma fetch_moves io s built rest E S D : rinv io s built rest E S D -> Z.of_nat (length (rs_fetched s)) < S ->
  exists s', rstep disk buffer ioaddrs offset io s s' /\ rinv io s' built rest E S D
  /\ rs_main s' = rs_main s /\ length (rs_fetched s') = (length (rs_fetched s) + 1)%nat
  /\ rs_posted s' = rs_posted s /\ rs_completer s' = rs_completer s.
Proof.
  intros Hinv Hlt. pose proof (rv_lane _ _ _ _ _ _ _ Hinv) as Hl. pose proof (lk_ring _ _ _ _ _ _ _ _ Hl) as Hring.
  pose proof (lk_counts _ _ _ _ _ _ _ _ Hl). pose proof (sqs_window _ _ _ _ Hring). pose proof (lane_size_bounds L (su_lane Hsu)).
  assert (exists s', step_fetch s = Some s') as [s' Hs].
  { unfold step_fetch. rewrite (rv_reg _ _ _ _ _ _ _ Hinv), (sqs_size _ _ _ _ Hring).
    rewrite (proj2 (Z.eqb_neq _ _)); [eauto|]. intros Em. apply mod_window in Em; lia. }
  exists s'. split; [by exists Ev_fetch|]. split; [by eapply fetch_inv|].
  unfold step_fetch in Hs. destruct (_ =? _); [done|]. injection Hs as <-. simpl. by rewrite length_app.
Qed.

Lemma complete_moves io s built rest E S D : rinv io s built rest E S D -> 
  (length (rs_posted s) < length (rs_fetched s))%nat -> D = Z.of_nat (length (rs_posted s)) -> lag_update (rs_completer s) = 0 ->
  exists s', rstep disk buffer ioaddrs offset io s s' /\ rinv io s' built rest E S D
  /\ rs_main s' = rs_main s /\ rs_fetched s' = rs_fetched s
  /\ length (rs_posted s') = (length (rs_posted s) + 1)%nat /\ rs_completer s' = rs_completer s.
Proof.
  intros Hinv Hlt HD Hlag. pose proof (rv_running _ _ _ _ _ _ _ Hinv) as [Hlen Hall]. pose proof (rv_cq _ _ _ _ _ _ _ Hinv) as Hcq.
  destruct (rs_running s) as [|c l] eqn:Er; [simpl in Hlen; lia|].
  apply Forall_cons_1 in Hall as [Hc _]. destruct (lookup_lt_is_Some_2 _ _ Hc) as [cmd Hcmd].
  assert (exists s', step_complete 0 0 0 s = Some s') as [s' Hs].
  { unfold step_complete. rewrite Er. simpl. rewrite Hcmd. simpl.
    rewrite (co_reg _ _ _ _ _ _ _ Hcq), (cqs_size _ _ _ _ (co_state _ _ _ _ _ _ _ Hcq)).
    pose proof (cqs_pos _ _ _ _ (co_state _ _ _ _ _ _ _ Hcq)).
    rewrite (proj2 (Z.eqb_neq _ _)); [eauto|]. intros Em. symmetry in Em. apply mod_window in Em; lia. }
  exists s'. split; [by exists (Ev_complete 0 0 0)|]. split; [by eapply complete_inv|].
  unfold step_complete in Hs. rewrite Er in Hs. simpl in Hs. rewrite Hcmd in Hs. simpl in Hs.
  destruct (_ =? _); [done|]. injection Hs as <-. simpl. by rewrite length_app.
Qed.

Lemma rinv_order io s built rest E S D : rinv io s built rest E S D ->
  0 <= D <= Z.of_nat (length (rs_posted s)) /\ (length (rs_posted s) <= length (rs_fetched s))%nat
  /\ Z.of_nat (length (rs_fetched s)) <= S.
Proof.
  intros Hv. pose proof (rv_running _ _ _ _ _ _ _ Hv) as [Hlen _]. pose proof (lk_counts _ _ _ _ _ _ _ _ (rv_lane _ _ _ _ _ _ _ Hv)).
  pose proof (co_window _ _ _ _ _ _ _ (rv_cq _ _ _ _ _ _ _ Hv)). lia.
Qed.

Lemma service io s built rest E S D : rinv io s built rest E S D -> not_started (rs_main s) = false ->
  qp_stop (rs_qp s) = false -> qp_num_cpls (rs_qp s) < S ->
  exists s' D', rstep disk buffer ioaddrs offset io s s' /\ rs_main s' = rs_main s
  /\ rinv io s' built rest E S D' /\ (service_work S D' s' < service_work S D s)%nat.
Proof.
  intros Hv Hns Hstop Hnum. pose proof (rinv_order _ _ _ _ _ _ _ Hv) as (HD & HP & HF).
  pose proof (rv_num _ _ _ _ _ _ _ Hv) as Hn.
  destruct (rs_completer s) as [pc|] eqn:Ec; [|by rewrite (proj1 (rv_completer _ _ _ _ _ _ _ Hv) Ec) in Hns].
  pose proof (completer_moves _ _ _ _ _ _ _ _ Hv Ec) as (s1 & Hs1 & Em1 & Ef1 & Ep1 & Ec1 & Hv1). rewrite Hstop in *.
  assert (pc = C_return -> False) as Hnr.
  { intros ->. pose proof (rv_stopped _ _ _ _ _ _ _ Hv Ec). congruence. }
  assert (forall D', fst (consume_next false (Z.of_nat (length (rs_posted s))) D pc) <> C_return ->
    snd (consume_next false (Z.of_nat (length (rs_posted s))) D pc) = D' ->
    (service_work S D' s1 < service_work S D s)%nat ->
    exists s' D', rstep disk buffer ioaddrs offset io s s' /\ rs_main s' = rs_main s
    /\ rinv io s' built rest E S D' /\ (service_work S D' s' < service_work S D s)%nat) as Hgo.
  { intros D' _ <- Hlt. eauto 10. }
  unfold service_work in *. rewrite Ec, Ec1, Ef1, Ep1 in *.
  destruct pc; cbn [consume_next fst snd lag_count consume_work] in *; try (eapply Hgo; [done|reflexivity|lia]); [|by destruct Hnr].
  - destruct (Z.ltb_spec D (Z.of_nat (length (rs_posted s)))); cbn [fst snd consume_work] in *; [eapply Hgo; [done|reflexivity|lia]|].
    destruct (decide (length (rs_posted s) < length (rs_fetched s))%nat).
    + destruct (complete_moves _ _ _ _ _ _ _ Hv) as (s2 & Hs2 & Hv2 & Em2 & Ef2 & Ep2 & Ec2); [done|lia|by rewrite Ec|].
      exists s2, D. rewrite Ec2, Ef2, Ep2, Ec. split; [done|]. split; [done|]. split; [done|]. cbn [consume_work]. lia.
    + destruct (fetch_moves _ _ _ _ _ _ _ Hv) as (s2 & Hs2 & Hv2 & Em2 & Ef2 & Ep2 & Ec2); [lia|].
      exists s2, D. rewrite Ec2, Ef2, Ep2, Ec. split; [done|]. split; [done|]. split; [done|]. cbn [consume_work]. lia.
Qed.

(** Everything submitted can be completed and counted. *)
Lemma drain io s built rest E S D : rinv io s built rest E S D -> not_started (rs_main s) = false ->
  qp_stop (rs_qp s) = false ->
  exists s', rtc (rstep disk buffer ioaddrs offset io) s s' /\ rs_main s' = rs_main s
  /\ rinv io s' built rest E S S /\ qp_num_cpls (rs_qp s') = S
  /\ (rs_completer s' = Some C_while \/ rs_completer s' = Some C_dequeue).
Proof.
  remember (service_work S D s) as n eqn:En. revert s D En. induction (lt_wf n) as [n _ IH].
  intros s D -> Hv Hns Hstop. destruct (decide (qp_num_cpls (rs_qp s) < S)) as [Hlt|Hge].
  - destruct (service _ _ _ _ _ _ _ Hv Hns Hstop Hlt) as (s1 & D1 & Hs1 & Em1 & Hv1 & Hw).
    destruct (IH _ Hw s1 D1 eq_refl Hv1) as (s2 & Hs2 & Em2 & Hv2 & Hn2 & Hc2).
    + by rewrite Em1.
    + rewrite (rv_stop _ _ _ _ _ _ _ Hv1), Em1. by rewrite <- (rv_stop _ _ _ _ _ _ _ Hv).
    + exists s2. split; [by eapply rtc_l|]. by rewrite Em2.
  - pose proof (rinv_order _ _ _ _ _ _ _ Hv) as (HD & HP & HF). pose proof (rv_num _ _ _ _ _ _ _ Hv) as Hn.
    destruct (rs_completer s) as [pc|] eqn:Ec; [|by rewrite (proj1 (rv_completer _ _ _ _ _ _ _ Hv) Ec) in Hns].
    assert (D = S /\ (pc = C_while \/ pc = C_dequeue)) as [-> Hpc].
    { destruct pc; cbn [lag_count] in Hn; try (split; [lia|tauto]); try lia.
      pose proof (rv_stopped _ _ _ _ _ _ _ Hv Ec). congruence. }
    exists s. split; [done|]. split; [done|]. split; [done|]. split; [destruct Hpc as [Hpc|Hpc]; rewrite Hpc in Hn; cbn [lag_count] in Hn; lia|].
    destruct Hpc as [-> | ->]; auto.
Qed.

(** The reading thread can return from [s]. *)
Definition returns (io : bool) (s : rsys) : Prop :=
  exists s' status, rtc (rstep disk buffer ioaddrs offset io) s s' /\ rs_main s' = R_return status.

Lemma returns_step io s s' : rstep disk buffer ioaddrs offset io s s' -> returns io s' -> returns io s.
Proof. intros Hs (s2 & st & Hr & Hm). exists s2, st. split; [by eapply rtc_l|done]. Qed.

Lemma returns_steps io s s' : rtc (rstep disk buffer ioaddrs offset io) s s' -> returns io s' -> returns io s.
Proof. intros Hs (s2 & st & Hr & Hm). exists s2, st. split; [by etransitivity|done]. Qed.

Lemma main_moves io s (R : read_pc * queue_pair -> uworld -> Prop) : rs_main s <> R_create ->
  (rs_main s = R_join -> rs_completer s = Some C_return) ->
  wp quiet_env (read_and_dump disk buffer ioaddrs offset (rs_main s) (rs_qp s)) (rs_w s) R ->
  exists r w, rstep disk buffer ioaddrs offset io s (main_next s r w) /\ R r w.
Proof.
  intros Hc Hj Hw. apply wp_run in Hw as (r & w & Hr & HR). exists r, w. split; [|done]. exists Ev_main. split; [|done].
  assert (step_main disk buffer ioaddrs offset s = Some (main_next s r w)) as Hs.
  { unfold step_main. rewrite Hr. by destruct r. }
  simpl. destruct (rs_main s) eqn:Em; try done. by rewrite bool_decide_eq_true_2 by by apply Hj.
Qed.

(** One step of the reading thread from a known place. *)
Ltac main_step Em lem :=
  match goal with
  | Hv : rinv ?io ?s _ _ _ _ _ |- returns ?io ?s =>
      let r := fresh "r" in let w := fresh "w" in let Hs := fresh "Hs" in let HR := fresh "HR" in
      destruct (main_moves io s _ ltac:(rewrite Em; done) ltac:(rewrite Em; done)
        ltac:(rewrite Em; eapply lem; [exact Hv|exact Em])) as (r & w & Hs & HR);
      eapply returns_step; [exact Hs|]
  end.

Lemma from_join io s built rest E S D : rinv io s built rest E S D -> rs_main s = R_join -> returns io s.
Proof.
  intros Hv Em. pose proof (rinv_order _ _ _ _ _ _ _ Hv) as (HD & HP & HF). pose proof (rv_num _ _ _ _ _ _ _ Hv) as Hn.
  pose proof (rv_main _ _ _ _ _ _ _ Hv) as Hm. unfold main_at in Hm. rewrite Em in Hm. destruct Hm as (_ & _ & -> & HnE).
  destruct (rs_completer s) as [pc|] eqn:Ec; [|pose proof (proj1 (rv_completer _ _ _ _ _ _ _ Hv) Ec) as Hx; by rewrite Em in Hx].
  pose proof (rv_stop _ _ _ _ _ _ _ Hv) as Hstop. rewrite Em in Hstop.
  assert (forall s1 D1, rinv io s1 built rest E E D1 -> rs_main s1 = R_join -> rs_completer s1 = Some C_return -> returns io s1) as Hret.
  { intros s1 D1 Hv1 Em1 Ec1. destruct (main_moves io s1 _ ltac:(rewrite Em1; done) ltac:(intros; done)
      ltac:(rewrite Em1; eapply step_R_join; [exact Hv1|exact Em1|exact Ec1])) as (r & w & Hs & [Hr _]).
    eapply returns_step; [exact Hs|]. exists (main_next s1 r w), 0. by split. }
  assert (forall s1 D1, rinv io s1 built rest E E D1 -> rs_main s1 = R_join -> rs_completer s1 = Some C_while -> returns io s1) as Hwhile.
  { intros s1 D1 Hv1 Em1 Ec1. destruct (completer_moves _ _ _ _ _ _ _ _ Hv1 Ec1) as (s2 & Hs & Em2 & _ & _ & Ec2 & Hv2).
    pose proof (rv_stop _ _ _ _ _ _ _ Hv1) as Hstop1. rewrite Em1 in Hstop1. rewrite Hstop1 in *. cbn [consume_next fst snd] in *.
    eapply returns_step; [exact Hs|]. eapply Hret; [exact Hv2|congruence|done]. }
  destruct pc; cbn [lag_count] in Hn; try lia; [by eapply Hwhile| |by eapply Hret].
  destruct (completer_moves _ _ _ _ _ _ _ _ Hv Ec) as (s2 & Hs & Em2 & _ & _ & Ec2 & Hv2).
  cbn [consume_next] in *. rewrite (proj2 (Z.ltb_ge D _)) in * by lia. cbn [fst snd] in *.
  eapply returns_step; [exact Hs|]. eapply Hwhile; [exact Hv2|congruence|done].
Qed.

Lemma from_stop io s built rest E S D : rinv io s built rest E S D -> rs_main s = R_stop -> returns io s.
Proof. intros Hv Em. main_step Em step_R_stop. destruct HR as [Hr Hv']. by eapply from_join. Qed.

Lemma from_wait io s built rest E S D nc : rinv io s built rest E S D -> rs_main s = R_wait nc -> returns io s.
Proof.
  intros Hv Em. pose proof (rv_stop _ _ _ _ _ _ _ Hv) as Hstop. rewrite Em in Hstop.
  destruct (drain _ _ _ _ _ _ _ Hv) as (s1 & Hs1 & Em1 & Hv1 & Hn1 & _); [by rewrite Em|done|].
  eapply returns_steps; [exact Hs1|]. rewrite Em in Em1. main_step Em1 step_R_wait. destruct HR as [Hr Hv'].
  pose proof (rv_main _ _ _ _ _ _ _ Hv1) as Hm. unfold main_at in Hm. rewrite Em1 in Hm. destruct Hm as (_ & -> & -> & ->).
  rewrite (proj2 (Z.ltb_ge _ _)) in Hr by lia. by eapply from_stop.
Qed.

Lemma from_finish io s built rest E S D nc : rinv io s built rest E S D -> rs_main s = R_finish nc -> returns io s.
Proof. intros Hv Em. main_step Em step_R_finish. destruct HR as [Hr Hv']. by eapply from_wait. Qed.

(** A slot can be had for the next command: everything before it can be retired. *)
Lemma from_enqueue io s built rest E S D page nc np : rinv io s built rest E S D -> rs_main s = R_enqueue page nc np ->
  (forall s' built' rest' E' S' D' page' nc' np', rinv io s' built' rest' E' S' D' -> rs_main s' = R_while page' nc' np' ->
     (length rest' < length rest)%nat -> returns io s') ->
  returns io s.
Proof.
  intros Hv Em Hnext.
  assert (forall s1 S1 D1, rinv io s1 built rest E S1 D1 -> rs_main s1 = R_enqueue page nc np ->
    E - (D1 - lag_retire (rs_completer s1)) <> lane_size L - 1 -> returns io s1) as Hroom.
  { intros s1 S1 D1 Hv1 Em1 Hne. main_step Em1 step_R_enqueue. cbv beta in HR. case_decide; [done|]. destruct HR as [Hr Hv'].
    change (fst r) with (rs_main (main_next s1 r w)) in Hr.
    main_step Hr step_R_build. destruct HR as (rest' & -> & Hr' & Hv''). eapply Hnext; [done..|simpl; lia]. }
  pose proof (rv_stop _ _ _ _ _ _ _ Hv) as Hstop. rewrite Em in Hstop.
  destruct (drain _ _ _ _ _ _ _ Hv) as (s1 & Hs1 & Em1 & Hv1 & _ & Hc1); [by rewrite Em|done|].
  eapply returns_steps; [exact Hs1|]. rewrite Em in Em1.
  destruct (decide (E - (S - lag_retire (rs_completer s1)) = lane_size L - 1)) as [Hfull|]; [|by eapply Hroom].
  main_step Em1 step_R_enqueue. cbv beta in HR. case_decide; [|done]. destruct HR as [Hr Hv2].
  change (fst r) with (rs_main (main_next s1 r w)) in Hr.
  main_step Hr step_R_submit. destruct HR as [Hr' Hv3].
  pose proof (rv_stop _ _ _ _ _ _ _ Hv3) as Hstop3. unfold main_next in Hstop3. cbn [rs_main] in Hstop3. rewrite Hr' in Hstop3.
  destruct (drain _ _ _ _ _ _ _ Hv3) as (s4 & Hs4 & Em4 & Hv4 & _ & Hc4); [simpl; by rewrite Hr'|done|].
  eapply returns_steps; [exact Hs4|]. eapply Hroom; [exact Hv4|simpl in Em4; congruence|].
  pose proof (lane_size_bounds L (su_lane Hsu)). destruct Hc4 as [-> | ->]; cbn [lag_retire]; lia.
Qed.

Lemma from_while io s built rest E S D page nc np : rinv io s built rest E S D -> rs_main s = R_while page nc np -> returns io s.
Proof.
  remember (length rest) as n eqn:En. revert s built rest E S D page nc np En. induction (lt_wf n) as [n _ IH].
  intros s built rest E S D page nc np -> Hv Em. main_step Em step_R_while. destruct HR as [Hr Hv'].
  destruct (total - page >? 0); [|by eapply from_finish].
  eapply from_enqueue; [exact Hv'|exact Hr|]. intros. by eapply IH.
Qed.

Lemma from_anywhere io s : Inv io s -> returns io s.
Proof.
  intros (built & rest & E & S & D & Hv). destruct (rs_main s) as [| |page nc np|page nc np|page nc np|page nc np cmd|nc|nc| | |st] eqn:Em.
  - assert (exists s', rstep disk buffer ioaddrs offset io s s' /\ rs_main s' = R_clear) as (s' & Hs & Em').
    { eexists. split; [exists (Ev_create 0)|]; [split; [simpl; by rewrite Em|done]|done]. }
    eapply returns_step; [exact Hs|]. destruct (rstep_inv io s s') as (b' & r' & E' & S' & D' & Hv'); [eauto 10|done|].
    main_step Em' step_R_clear. destruct HR as [Hr Hv2]. by eapply from_while.
  - main_step Em step_R_clear. destruct HR as [Hr Hv2]. by eapply from_while.
  - by eapply from_while.
  - eapply from_enqueue; [done..|]. intros. by eapply from_while.
  - main_step Em step_R_submit. destruct HR as [Hr Hv2]. eapply from_enqueue; [done..|]. intros. by eapply from_while.
  - main_step Em step_R_build. destruct HR as (rest' & -> & Hr & Hv2). by eapply from_while.
  - by eapply from_finish.
  - by eapply from_wait.
  - by eapply from_stop.
  - by eapply from_join.
  - by exists s, st.
Qed.
End invariant.

(** Running a schedule. *)
Fixpoint exec `{Build} disk buffer ioaddrs offset (evs : list event) (s : rsys) : option rsys :=
  match evs with
  | [] => Some s
  | ev :: evs => s' ← sys_step disk buffer ioaddrs offset ev s; exec disk buffer ioaddrs offset evs s'
  end.

Definition oldest_first (ev : event) : bool := match ev with Ev_complete k _ _ => Nat.eqb k 0 | _ => true end.

Lemma exec_steps `{Build} disk buffer ioaddrs offset io evs s s' :
  exec disk buffer ioaddrs offset evs s = Some s' -> implb io (forallb oldest_first evs) = true ->
  rtc (rstep disk buffer ioaddrs offset io) s s'.
Proof.
  revert s. induction evs as [|ev evs IH]; intros s Hs Hio; simpl in Hs; [by injection Hs as ->|].
  destruct (sys_step _ _ _ _ ev s) as [s1|] eqn:E; [|done]. simpl in Hs. eapply rtc_l; [|apply IH; [exact Hs|]].
  - exists ev. split; [done|]. intros ->. simpl in Hio. apply andb_true_iff in Hio as [Hev _].
    destruct ev; try done. by apply Nat.eqb_eq.
  - destruct io; [|done]. simpl in *. by apply andb_true_iff in Hio as [_ ?].
Qed.

(** ** Properties *)

(** C7: however the two threads and a controller interleave, every command the
    controller takes from the submission queue is, whole, the next transfer of the
    list that covers the pages of the buffer once and in order, whatever order
    commands complete in. If they complete in order, the PRP list of every command
    being executed is intact for as long as it is executed; and when the function
    returns 0, every transfer has been executed and completed. *)
Theorem read_commands_delivered `{Build} disk buffer ioaddrs offset k sq_mem ncq cq_vaddr inorder s0 s :
  read_setup disk buffer ioaddrs k sq_mem ncq cq_vaddr ->
  read_init disk buffer ioaddrs k sq_mem ncq cq_vaddr s0 ->
  rtc (rstep disk buffer ioaddrs offset inorder) s0 s ->
  let L := read_lane disk buffer ioaddrs k sq_mem in
  let todo := jobs disk buffer offset in
  (forall i d, rs_fetched s !! i = Some d -> exists j, todo !! i = Some j /\ d = job_dwords L (Z.of_nat i) j)
  /\ (inorder = true -> forall i, i ∈ rs_running s ->
       exists j, todo !! i = Some j /\ list_holds L (w_mem (rs_w s)) (Z.of_nat i) j)
  /\ (rs_main s = R_return 0 -> length (rs_fetched s) = length todo /\ rs_running s = []
       /\ length (rs_posted s) = length todo)
  /\ todo ≫= job_pages = seqZ 0 (dma_n_ioaddrs buffer).
Proof.
  intros Hsu Hi Hr L todo. destruct (reachable_inv _ _ _ _ _ _ _ _ Hsu _ _ _ Hi Hr) as (built & rest & E & S & D & Hv).
  pose proof (rinv_order _ _ _ _ _ _ _ _ _ _ _ _ _ _ _ Hv) as (HD & HP & HF).
  pose proof (rv_jobs _ _ _ _ _ _ _ _ _ _ _ _ _ _ _ Hv) as Hj. pose proof (rv_lane _ _ _ _ _ _ _ _ _ _ _ _ _ _ _ Hv) as Hl.
  pose proof (lk_counts _ _ _ _ _ _ _ _ Hl) as Hc. subst todo. split; [|split; [|split]].
  - intros i d Hd. destruct (rv_fetched _ _ _ _ _ _ _ _ _ _ _ _ _ _ _ Hv i d Hd) as (j & Hjl & ->). exists j.
    split; [|done]. rewrite Hj. by apply lookup_app_l_Some.
  - intros -> i Hin. pose proof (rv_inorder _ _ _ _ _ _ _ _ _ _ _ _ _ _ _ Hv eq_refl) as Hseq.
    rewrite Hseq in Hin. apply elem_of_seq in Hin. destruct (rv_running _ _ _ _ _ _ _ _ _ _ _ _ _ _ _ Hv) as [Hlen _].
    destruct (lookup_lt_is_Some_2 built i) as [j Hjl]; [lia|]. exists j. split; [rewrite Hj; by apply lookup_app_l_Some|].
    apply (lk_lists _ _ _ _ _ _ _ _ Hl); [|done]. destruct (rs_completer s) as [[]|]; simpl; lia.
  - intros Em. pose proof (rv_main _ _ _ _ _ _ _ _ _ _ _ _ _ _ _ Hv) as Hm. unfold main_at in Hm. rewrite Em in Hm.
    destruct Hm as (-> & -> & -> & Hn). rewrite app_nil_r in Hj. rewrite Hj.
    pose proof (rv_num _ _ _ _ _ _ _ _ _ _ _ _ _ _ _ Hv). destruct (rv_running _ _ _ _ _ _ _ _ _ _ _ _ _ _ _ Hv) as [Hlen _].
    assert (0 <= lag_count (rs_completer s)) by (by destruct (rs_completer s) as [[]|]).
    split; [lia|]. split; [apply nil_length_inv; lia|lia].
  - pose proof (su_total _ _ _ _ _ _ _ Hsu). pose proof (su_chunk _ _ _ _ _ _ _ Hsu).
    unfold jobs, all_jobs, chunk, total in *. rewrite read_jobs_pages by lia. f_equal. lia.
Qed.

(** C23: the read never gets stuck: wherever the threads and the controller are, with
    completions in any order, neither thread is at a fault, and there is a
    continuation in which the reading thread returns. *)
Theorem read_always_finishes `{Build} disk buffer ioaddrs offset k sq_mem ncq cq_vaddr inorder s0 s :
  read_setup disk buffer ioaddrs k sq_mem ncq cq_vaddr ->
  read_init disk buffer ioaddrs k sq_mem ncq cq_vaddr s0 ->
  rtc (rstep disk buffer ioaddrs offset inorder) s0 s ->
  (rs_main s <> R_create -> rs_main s <> R_join -> is_Some (sys_step disk buffer ioaddrs offset Ev_main s))
  /\ (rs_completer s <> None -> is_Some (sys_step disk buffer ioaddrs offset Ev_completer s))
  /\ exists s' status, rtc (rstep disk buffer ioaddrs offset inorder) s s' /\ rs_main s' = R_return status.
Proof.
  intros Hsu Hi Hr. pose proof (reachable_inv _ _ _ _ _ _ _ _ Hsu _ _ _ Hi Hr) as Hinv. split; [|split].
  - intros Hc Hj. pose proof (main_runs _ _ _ offset _ _ _ _ Hsu _ _ Hinv ltac:(done)) as Hw.
    apply wp_run in Hw as ([pc qp] & w & Hrun & _). unfold sys_step, step_main. rewrite Hrun. destruct (rs_main s); done.
  - intros Hc. destruct (rs_completer s) as [pc|] eqn:Ec; [|done]. destruct Hinv as (built & rest & E & S & D & Hv).
    pose proof (consume_inv _ _ _ _ _ _ _ _ Hsu _ _ _ _ _ _ _ _ Hv Ec) as Hw. apply wp_run in Hw as ([pc' qp] & w & Hrun & _).
    unfold sys_step. rewrite Ec. simpl. unfold step_completer. by rewrite Hrun.
  - by eapply from_anywhere.
Qed.

(** ** A small instance

    Pages of 256 bytes, four of the five queue slots' list pages, blocks of 64 bytes,
    three pages per command, a buffer of fifteen pages. *)
Module Sample.
#[export] Instance build : Build := {| NDEBUG := false; CUDA := false |}.
Definition disk : disk_info := DiskInfo 1 768 256 64.
Definition buffer : nvm_dma_t := Dma 0x20000 256 15 ((fun i => 0x90000 + 256 * Z.of_nat i) <$> seq 0 15).
Definition table : Z := 0x4000.
Definition sq_mem : nvm_dma_t := Dma 0x10000 256 5 [0x50000; 0x50100; 0x50200; 0x50300; 0x50400].
Definition cq_mem : nvm_dma_t := Dma 0x8000 256 1 [0x60000].
Definition init : rsys :=
  RSys (World (table_mem table (dma_ioaddrs buffer)) (Heap empty 1) [])
    (QueuePair sq_mem cq_mem (Queue 2 4 64 0 0 1 0 0x3008 0x10000 0x50000) (Queue 2 16 16 0 0 1 0 0x300c 0x8000 0x60000) false 0)
    R_create None [] [] [].

Lemma setup : read_setup disk buffer table 2 sq_mem 16 0x8000.
Proof.
  assert (Forall (fun a => a in_u 64) (dma_ioaddrs sq_mem) /\ Forall (fun a => a in_u 64) (dma_ioaddrs buffer)) as [Hs Hb]
    by (split; apply Forall_forall; apply Forall_forall; repeat constructor; vm_compute; congruence).
  constructor; [constructor; try done; vm_compute; intuition congruence|..]; vm_compute; intuition congruence.
Qed.

Lemma initial : read_init disk buffer table 2 sq_mem 16 0x8000 init.
Proof.
  constructor.
  - done.
  - done.
  - done.
  - done.
  - split; [|done]. constructor; done || (simpl; lia).
  - split; [|done]. constructor; [constructor; done || (simpl; lia)|..|simpl; lia|simpl; lia]; try done.
    constructor; [|done]. intros i Hi. change (ld 2 (table_mem table (dma_ioaddrs buffer)) (0x8000 + 16 * i + 14) mod 2 = writes 16 0 i mod 2).
    rewrite ld_zero; [unfold writes; by rewrite Z.div_small by lia|]. intros b Hb. apply table_mem_else.
    change (Z.of_nat (length (dma_ioaddrs buffer))) with 15. unfold table. simpl Z.of_nat in Hb. lia.
  - by split.
  - intros b Hb. change (ld8 (table_mem table (dma_ioaddrs buffer)) b = 0). apply table_mem_else.
    change (Z.of_nat (length (dma_ioaddrs buffer))) with 15. unfold table. simpl dma_vaddr in Hb.
    change (lane_size _) with 4 in Hb. lia.
  - intros i a Hi. change (ld 8 (table_mem table (dma_ioaddrs buffer)) (table + 8 * Z.of_nat i) = a).
    change (dma_ioaddrs buffer !! i = Some a) in Hi. unfold table_mem. rewrite (ld_st_u64s _ _ _ _ _ Hi). apply u64_small.
    apply list_lookup_fmap_Some in Hi as (x & -> & Hx). apply lookup_seq in Hx. lia.
Qed.

Abbreviation run_sample evs := (exec disk buffer table 0 evs init).

(** Building a command: test of the loop, enqueueing, filling in. *)
Definition build_one : list event := [Ev_main; Ev_main; Ev_main].
(** One completion consumed, up to retiring its slot; and the rest of it. *)
Definition retire_one : list event := [Ev_completer; Ev_completer; Ev_completer].
Definition count_one : list event := [Ev_completer; Ev_completer].

(** Three commands are built and submitted because the queue is full; commands 1 and
    2 complete before command 0, and the next two commands are built. *)
Definition overtaking : list event :=
  [Ev_create 0; Ev_main] ++ build_one ++ build_one ++ build_one
  ++ [Ev_main; Ev_main; Ev_main] ++ [Ev_fetch; Ev_fetch; Ev_fetch; Ev_complete 1 0 0; Ev_complete 1 0 0]
  ++ retire_one ++ [Ev_main; Ev_main] ++ count_one ++ retire_one ++ build_one.

(** The same without overtaking, to the end of the third command. *)
Definition in_turn : list event :=
  [Ev_create 0; Ev_main] ++ build_one ++ build_one ++ build_one
  ++ [Ev_main; Ev_main; Ev_main] ++ [Ev_fetch; Ev_fetch; Ev_fetch; Ev_complete 0 0 0] ++ retire_one ++ [Ev_main].
End Sample.

#[local] Existing Instance Sample.build.

(** What the two schedules lead to, checked by running them. *)
Lemma run_check (evs : list event) (P : rsys -> bool) :
  match exec Sample.disk Sample.buffer Sample.table 0 evs Sample.init with Some s => P s | None => false end = true ->
  exists s, exec Sample.disk Sample.buffer Sample.table 0 evs Sample.init = Some s /\ P s = true.
Proof. destruct (exec _ _ _ _ evs _) as [s|]; [|done]. intros HP. by exists s. Qed.

Abbreviation sample_lane := (read_lane Sample.disk Sample.buffer Sample.table 2 Sample.sq_mem).

Definition overtaken (s : rsys) : bool :=
  bool_decide (rs_running s = [0%nat])
  && bool_decide (rs_fetched s !! 0%nat = Some (job_dwords sample_lane 0 (read_job Sample.disk 0 0 3)))
  && bool_decide (ld 8 (w_mem (rs_w s)) (list_page sample_lane 0 + 8 * 0) = bus sample_lane 13)
  && bool_decide (ld 8 (w_mem (rs_w s)) (list_page sample_lane 0 + 8 * 1) = bus sample_lane 14).

(** C24: with commands completing out of order, which the specification allows, the
    PRP list of a command that is still being executed is overwritten: completions
    are counted, not matched with their commands, so the list page of the oldest
    command, still running, is given to a new one, and its pages 1 and 2 become
    pages 13 and 14. *)
Theorem out_of_order_overwrites_prp_list :
  let L := read_lane Sample.disk Sample.buffer Sample.table 2 Sample.sq_mem in
  exists s, rtc (rstep Sample.disk Sample.buffer Sample.table 0 false) Sample.init s
  /\ rs_running s = [0%nat]
  /\ rs_fetched s !! 0%nat = Some (job_dwords L 0 (read_job Sample.disk 0 0 3))
  /\ (forall t, 0 <= t < 2 -> ld 8 (w_mem (rs_w s)) (list_page L 0 + 8 * t) = bus L (13 + t)).
Proof.
  destruct (run_check Sample.overtaking overtaken) as (s & E & H); [vm_compute; reflexivity|].
  exists s. split; [by eapply exec_steps|]. unfold overtaken in H. repeat (apply andb_true_iff in H as [H ?]).
  repeat match goal with H : bool_decide _ = true |- _ => apply bool_decide_eq_true in H end.
  split; [done|]. split; [done|]. intros t Ht. assert (t = 0 \/ t = 1) as [-> | ->] by lia; assumption.
Qed.

(** ** Witnesses *)

Lemma read_commands_delivered_witness :
  exists s, rtc (rstep Sample.disk Sample.buffer Sample.table 0 true) Sample.init s
  /\ exists j, jobs Sample.disk Sample.buffer 0 !! 1%nat = Some j
     /\ list_holds (read_lane Sample.disk Sample.buffer Sample.table 2 Sample.sq_mem) (w_mem (rs_w s)) 1 j.
Proof.
  destruct (run_check Sample.in_turn (fun s => bool_decide (rs_running s = [1%nat; 2%nat]))) as (s & E & H); [vm_compute; reflexivity|].
  assert (rtc (rstep Sample.disk Sample.buffer Sample.table 0 true) Sample.init s) as Hr by (eapply exec_steps; [exact E|reflexivity]).
  apply bool_decide_eq_true in H. exists s. split; [exact Hr|].
  apply (read_commands_delivered Sample.disk Sample.buffer Sample.table 0 2 Sample.sq_mem 16 0x8000 true Sample.init s
    Sample.setup Sample.initial Hr); [reflexivity|]. rewrite H. apply list_elem_of_here.
Defined.

Lemma read_always_finishes_witness :
  exists s s' status, rtc (rstep Sample.disk Sample.buffer Sample.table 0 false) Sample.init s /\ rs_running s = [0%nat]
  /\ rtc (rstep Sample.disk Sample.buffer Sample.table 0 false) s s' /\ rs_main s' = R_return status.
Proof.
  destruct (run_check Sample.overtaking (fun s => bool_decide (rs_running s = [0%nat]))) as (s & E & H); [vm_compute; reflexivity|].
  assert (rtc (rstep Sample.disk Sample.buffer Sample.table 0 false) Sample.init s) as Hr by (eapply exec_steps; [exact E|reflexivity]).
  apply bool_decide_eq_true in H.
  destruct (read_always_finishes Sample.disk Sample.buffer Sample.table 0 2 Sample.sq_mem 16 0x8000 false Sample.init s
    Sample.setup Sample.initial Hr) as (_ & _ & s' & status & Hr' & Hm).
  exists s, s', status. split; [exact Hr|]. split; [exact H|]. by split.
Defined.
