(* ===== verification/Transfer.v ===== *)
(** * Transfers over several queues

    [examples/integrity/transfer.c]: a transfer is split over several submission
    queues, each driven by a thread of its own ([produce_commands]); one thread
    ([consume_completions]) consumes the completions of all of them from a single
    completion queue, and [transfer] starts the threads and waits for them. As in
    [ReadBlocks], a thread is a function from where it is to its next step. *)
From S2P Require Import Prelude Bits Memory Effects Types Runtime Command Error Queue.
From S2P Require Import DisDevice DisMap Ctrl Dma Rpc RpcHandles RpcCommand Admin Lane Device.

(** ** [integrity.h] *)

Record buffer := Buffer { b_id : Z; b_adapter : Z; b_dma : nvm_dma_t }.
Record queue := SQueue { tq_qmem : nvm_dma_t; tq_queue : nvm_queue_t; tq_counter : Z }.
Record disk := Disk { dk_page_size : Z; dk_max_data_size : Z; dk_ns_id : Z; dk_block_size : Z }.

Definition tq_set (q : nvm_queue_t) (x : queue) : queue := SQueue (tq_qmem x) q (tq_counter x).
Definition tq_count (x : queue) : queue := SQueue (tq_qmem x) (tq_queue x) (u64 (tq_counter x + 1)).

Record producer := Producer {
  p_write : bool; p_queue_no : Z; p_start_block : Z; p_n_blocks : Z;
}.

(** ** [consume_completions] *)

Inductive consumer_pc :=
  | K_while | K_dequeue | K_retire (cpl : Z) | K_update | K_count | K_return.
#[export] Instance consumer_pc_eq : EqDecision consumer_pc.
Proof. solve_decision. Defined.

Definition queue_at (queues : list queue) (i : Z) : UM queue :=
  match queues !! Z.to_nat i with Some q => mret q | None => fail BadPointer end.

Definition set_queue (i : Z) (q : queue) (queues : list queue) : list queue := <[Z.to_nat i := q]> queues.

Definition consume_completions (cancel : bool) (pc : consumer_pc) (queues : list queue)
    : UM (consumer_pc * list queue) :=
  match pc with
  | K_while => mret (if negb cancel then K_dequeue else K_return, queues)
  | K_dequeue =>
      q ← queue_at queues 0;
      '(cpl, cq) ← nvm_cq_dequeue_block (tq_queue q) 10;
      mret (if cpl =? NULL then K_while else K_retire cpl, set_queue 0 (tq_set cq q) queues)
  | K_retire cpl =>
      no ← ld_mem 2 (NVM_CPL_SQID cpl);
      q ← queue_at queues no;
      mret (K_update, set_queue no (tq_set (nvm_sq_update (tq_queue q)) q) queues)
  | K_update =>
      q ← queue_at queues 0;
      cq ← nvm_cq_update (tq_queue q);
      mret (K_count, set_queue 0 (tq_set cq q) queues)
  | K_count => q ← queue_at queues 0; mret (K_while, set_queue 0 (tq_count q) queues)
  | K_return => mret (K_return, queues)
  end.

(** ** [produce_commands] *)

Inductive producer_pc :=
  | T_start
  | T_while (page_offset transfer_pages : Z)
  | T_enqueue (page_offset transfer_pages : Z)
  | T_submit (page_offset transfer_pages : Z)
  | T_build (page_offset transfer_pages cmd : Z)
  | T_flush
  | T_flush_build (cmd : Z)
  | T_finish
  | T_return.
#[export] Instance producer_pc_eq : EqDecision producer_pc.
Proof. solve_decision. Defined.

Section produce.
Context `{Build}.
Context (d : disk) (buf : buffer) (ioaddrs : Z).

(** The pages of a producer's share of the transfer, and the first of them. *)
Definition producer_pages (p : producer) : Z :=
  NVM_PAGE_ALIGN (p_n_blocks p * dk_block_size d) (dma_page_size (b_dma buf)) / dma_page_size (b_dma buf).
Definition page_base (p : producer) : Z :=
  NVM_BLOCK_TO_PAGE (dma_page_size (b_dma buf)) (dk_block_size d) (p_start_block p).

Definition enqueue (no : Z) (queues : list queue) : UM (Z * list queue) :=
  q ← queue_at queues no;
  m ← get_mem;
  match nvm_sq_enqueue m (tq_queue q) with
  | None => fail DivByZero
  | Some (cmd, sq, m) => put_mem m;; mret (cmd, set_queue no (tq_set sq q) queues)
  end.

Definition submit (no : Z) (queues : list queue) : UM (list queue) :=
  q ← queue_at queues no;
  sq ← nvm_sq_submit (tq_queue q);
  mret (set_queue no (tq_set sq q) queues).

(** One transfer: the result of [nvm_cmd_data] is not used. *)
Definition build_transfer (p : producer) (page_offset transfer_pages cmd : Z) (q : queue) : UM unit :=
  let page_size := dma_page_size (b_dma buf) in
  (if (q_max_entries (tq_queue q) =? 0) || (dk_block_size d =? 0) then fail DivByZero else mret tt);;
  upd_mem (fun m => nvm_cmd_header m cmd (io_opcode (if p_write p then NVM_IO_WRITE else NVM_IO_READ)) (dk_ns_id d));;
  let n_blocks := NVM_PAGE_TO_BLOCK page_size (dk_block_size d) transfer_pages in
  let start_block := u64 (p_start_block p + NVM_PAGE_TO_BLOCK page_size (dk_block_size d) page_offset) in
  upd_mem (fun m => nvm_cmd_rw_blks m cmd start_block (u16 n_blocks));;
  cid ← ld_mem 2 (NVM_CMD_CID cmd);
  let prp_no := u16 (cid mod q_max_entries (tq_queue q) + 1) in
  list_ioaddr ← ioaddr_at (tq_qmem q) (Z.to_nat prp_no);
  upd_mem (fun m => snd (nvm_cmd_data m cmd page_size transfer_pages (NVM_DMA_OFFSET (tq_qmem q) prp_no)
                           list_ioaddr (ioaddrs + 8 * (page_base p + page_offset)))).

(** [pthread_yield] lets another thread run, which may happen between any two steps. *)
Definition produce_commands (p : producer) (pc : producer_pc) (queues : list queue)
    : UM (producer_pc * list queue) :=
  match pc with
  | T_start =>
      transfer_pages ← divide (dk_max_data_size d) (dma_page_size (b_dma buf));
      mret (T_while 0 transfer_pages, queues)
  | T_while off n =>
      let left := u64 (producer_pages p - off) in
      mret (if off <? producer_pages p then T_enqueue off (if left <? n then left else n)
            else if p_write p then T_flush else T_finish, queues)
  | T_enqueue off n =>
      '(cmd, queues) ← enqueue (p_queue_no p) queues;
      mret (if cmd =? NULL then T_submit off n else T_build off n cmd, queues)
  | T_submit off n => queues ← submit (p_queue_no p) queues; mret (T_enqueue off n, queues)
  | T_build off n cmd =>
      q ← queue_at queues (p_queue_no p);
      build_transfer p off n cmd q;;
      mret (T_while (u64 (off + n)) n, set_queue (p_queue_no p) (tq_count q) queues)
  | T_flush =>
      '(cmd, queues) ← enqueue (p_queue_no p) queues;
      mret (if cmd =? NULL then T_flush else T_flush_build cmd, queues)
  | T_flush_build cmd =>
      q ← queue_at queues (p_queue_no p);
      upd_mem (fun m => nvm_cmd_rw_blks (nvm_cmd_data_ptr (nvm_cmd_header m cmd (io_opcode NVM_IO_FLUSH) (dk_ns_id d))
                 cmd 0 0) cmd 0 0);;
      mret (T_finish, set_queue (p_queue_no p) (tq_count q) queues)
  | T_finish => queues ← submit (p_queue_no p) queues; mret (T_return, queues)
  | T_return => mret (T_return, queues)
  end.

(** ** [transfer] *)

Context (write : bool) (n_queues size : Z).

Definition total_blocks : Z := NVM_PAGE_ALIGN size (dk_block_size d) / dk_block_size d.
Definition total_pages : Z := NVM_PAGE_ALIGN size (dk_page_size d) / dk_page_size d.
Definition pages_per_queue : Z := total_pages / n_queues.

(** [producers[i]]. *)
Definition share (i : Z) : producer :=
  let start := NVM_PAGE_TO_BLOCK (dk_page_size d) (dk_block_size d) (u64 (pages_per_queue * i)) in
  let n := NVM_PAGE_TO_BLOCK (dk_page_size d) (dk_block_size d) pages_per_queue in
  Producer write (u16 (i + 1)) start (if i =? n_queues - 1 then u64 (total_blocks - start) else n).

Inductive transfer_pc :=
  | X_alloc
  | X_create (i : Z)
  | X_join (i commands : Z)
  | X_wait (commands : Z)
  | X_cancel
  | X_reap
  | X_return (status : Z).

(** The threads, as [transfer] starts them; [tc_fetched] are the commands the
    controller took from a submission queue, [tc_running] those it has not completed. *)
Record sq_ctl := SqCtl { tc_fetched : list (list Z); tc_running : list nat }.

Record tsys := TSys {
  ts_w : uworld; ts_queues : list queue; ts_main : transfer_pc; ts_cancel : bool;
  ts_consumer : option consumer_pc; ts_producers : list producer_pc;
  ts_ctls : list sq_ctl; ts_posted : list (Z * Z);
}.

Inductive tevent :=
  | Tv_alloc (ok : bool)
  | Tv_main
  | Tv_consumer
  | Tv_producer (i : nat)
  | Tv_fetch (i : nat)
  | Tv_complete (i k : nat) (specific status : Z).

Definition ts_set_main (pc : transfer_pc) (s : tsys) : tsys :=
  TSys (ts_w s) (ts_queues s) pc (ts_cancel s) (ts_consumer s) (ts_producers s) (ts_ctls s) (ts_posted s).

Definition step_transfer (s : tsys) : option tsys :=
  match ts_main s with
  | X_alloc | X_return _ => None
  | X_create i =>
      if i <? n_queues then
        Some (TSys (ts_w s) (ts_queues s) (X_create (u16 (i + 1))) (ts_cancel s) (ts_consumer s)
                (ts_producers s ++ [T_start]) (ts_ctls s) (ts_posted s))
      else Some (ts_set_main (X_join 0 0) s)
  | X_join i commands =>
      if i <? n_queues then
        if bool_decide (ts_producers s !! Z.to_nat i = Some T_return) then
          q ← ts_queues s !! Z.to_nat (p_queue_no (share i));
          Some (ts_set_main (X_join (u16 (i + 1)) (u64 (commands + tq_counter q))) s)
        else None
      else Some (ts_set_main (X_wait commands) s)
  | X_wait commands =>
      q ← ts_queues s !! 0%nat;
      Some (ts_set_main (if tq_counter q <? commands then X_wait commands else X_cancel) s)
  | X_cancel =>
      Some (TSys (ts_w s) (ts_queues s) X_reap true (ts_consumer s) (ts_producers s) (ts_ctls s) (ts_posted s))
  | X_reap => if bool_decide (ts_consumer s = Some K_return) then Some (ts_set_main (X_return 0) s) else None
  end.

Definition step_producer (i : nat) (s : tsys) : option tsys :=
  pc ← ts_producers s !! i;
  match run (produce_commands (share (Z.of_nat i)) pc (ts_queues s)) quiet_env (ts_w s) with
  | Ok (pc', queues) w =>
      Some (TSys w queues (ts_main s) (ts_cancel s) (ts_consumer s) (<[i := pc']> (ts_producers s)) (ts_ctls s) (ts_posted s))
  | _ => None
  end.

Definition step_consumer (s : tsys) : option tsys :=
  pc ← ts_consumer s;
  match run (consume_completions (ts_cancel s) pc (ts_queues s)) quiet_env (ts_w s) with
  | Ok (pc', queues) w =>
      Some (TSys w queues (ts_main s) (ts_cancel s) (Some pc') (ts_producers s) (ts_ctls s) (ts_posted s))
  | _ => None
  end.

(** The controller takes the next command of submission queue [i + 1]. *)
Definition step_fetch (i : nat) (s : tsys) : option tsys :=
  q ← ts_queues s !! S i;
  c ← ts_ctls s !! i;
  let sq := tq_queue q in
  let at_ := Z.of_nat (length (tc_fetched c)) mod q_max_entries sq in
  if at_ =? reg (q_db sq) (w_log (ts_w s)) then None
  else Some (TSys (ts_w s) (ts_queues s) (ts_main s) (ts_cancel s) (ts_consumer s) (ts_producers s)
    (<[i := SqCtl (tc_fetched c ++ [dwords (w_mem (ts_w s)) (q_vaddr sq + 64 * at_)])
                  (tc_running c ++ [length (tc_fetched c)])]> (ts_ctls s)) (ts_posted s)).

(** The identifier of a command is in the upper half of its first dword. *)
Definition cmd_id (cmd : list Z) : Z := Z.shiftr (default 0 (cmd !! 0%nat)) 16.

Definition step_complete (i k : nat) (specific status : Z) (s : tsys) : option tsys :=
  q0 ← ts_queues s !! 0%nat;
  q ← ts_queues s !! S i;
  c ← ts_ctls s !! i;
  j ← tc_running c !! k;
  cmd ← tc_fetched c !! j;
  let cq := tq_queue q0 in let sq := tq_queue q in let w := ts_w s in
  let n := q_max_entries cq in let next := Z.of_nat (length (ts_posted s)) in
  if (next + 1) mod n =? reg (q_db cq) (w_log w) then None
  else
    let payload := cpl_payload specific (Z.of_nat (length (tc_fetched c)) mod q_max_entries sq) (q_no sq) (cmd_id cmd) in
    Some (TSys (World (post_cpl n cq (w_mem w) next payload (wrap 15 status)) (w_st w) (w_log w))
      (ts_queues s) (ts_main s) (ts_cancel s) (ts_consumer s) (ts_producers s)
      (<[i := SqCtl (tc_fetched c) (delete k (tc_running c))]> (ts_ctls s))
      (ts_posted s ++ [(payload, wrap 15 status)])).

Definition tsys_step (ev : tevent) (s : tsys) : option tsys :=
  match ev with
  | Tv_alloc ok =>
      match ts_main s with
      | X_alloc =>
          if ok then Some (TSys (ts_w s) (ts_queues s) (X_create 0) false (Some K_while) [] (ts_ctls s) (ts_posted s))
          else Some (ts_set_main (X_return (-1)) s)
      | _ => None
      end
  | Tv_main => step_transfer s
  | Tv_consumer => step_consumer s
  | Tv_producer i => step_producer i s
  | Tv_fetch i => step_fetch i s
  | Tv_complete i k specific status => step_complete i k specific status s
  end.

(** [inorder]: the commands of a queue complete in the order they were fetched. *)
Definition tstep (inorder : bool) (s s' : tsys) : Prop :=
  exists ev, tsys_step ev s = Some s'
  /\ (inorder = true -> match ev with Tv_complete _ k _ _ => k = 0%nat | _ => True end).
End produce.
(** ** What is to be transferred *)

Lemma bind_bind {A B C} (f : A -> list B) (g : B -> list C) xs : (xs ≫= f) ≫= g = xs ≫= (fun x => f x ≫= g).
Proof. induction xs as [|x xs IH]; [done|]. cbn. by rewrite <- IH, <- bind_app. Qed.

Section spec.
Context (d : disk) (buf : buffer) (write : bool) (n_queues size : Z).

Abbreviation P := (dma_page_size (b_dma buf)).

Definition chunk_pages : Z := dk_max_data_size d / P.

Definition move_job (p : producer) (off n : Z) : job :=
  Rw (p_write p) (page_base d buf p + off) n
    (u64 (p_start_block p + NVM_PAGE_TO_BLOCK P (dk_block_size d) off)) (u16 (NVM_PAGE_TO_BLOCK P (dk_block_size d) n)).

(** The commands of a producer from page [off] of its share on. *)
Definition moves (p : producer) (off np : Z) : list job :=
  chunked (move_job p) (Z.to_nat (producer_pages d buf p)) (producer_pages d buf p) off np.
Definition flushes (p : producer) : list job := if p_write p then [Flush] else [].
Definition producer_jobs (p : producer) : list job := moves p 0 chunk_pages ++ flushes p.

Abbreviation share := (share d write n_queues size).

(** Sizes are powers of two and nothing overflows; [2 ^ kb] bytes are a block. *)
Record sizes_ok (kb kp : Z) : Prop := {
  sz_block : dk_block_size d = 2 ^ kb;
  sz_page : dk_page_size d = 2 ^ kp /\ P = 2 ^ kp;
  sz_exp : 0 <= kb <= kp;
  sz_queues : 1 <= n_queues < 65535;
  sz_size : 0 <= size /\ size + 2 ^ kp < 2 ^ 62;
  sz_chunk : 1 <= chunk_pages /\ 2 ^ (kp - kb) * chunk_pages < 2 ^ 16;
}.

Context (kb kp : Z) (Hsz : sizes_ok kb kp).
Abbreviation r := (2 ^ (kp - kb)).
Abbreviation N := (total_pages d size).
Abbreviation Q := (pages_per_queue d n_queues size).

(** Where the share of queue [i] begins. *)
Definition share_page (i : Z) : Z := if i <? n_queues then Q * i else N.

Lemma blocks_per_page : 0 < r /\ 2 ^ kp = r * 2 ^ kb /\ 0 < 2 ^ kb.
Proof.
  pose proof (sz_exp _ _ Hsz). split; [apply Z.pow_pos_nonneg; lia|]. split; [|apply Z.pow_pos_nonneg; lia].
  rewrite <- Z.pow_add_r by lia. f_equal. lia.
Qed.

Lemma kp_small : kp < 62.
Proof.
  destruct (sz_size _ _ Hsz). pose proof (sz_exp _ _ Hsz). destruct (decide (kp < 62)); [done|].
  pose proof (Z.pow_le_mono_r 2 62 kp). lia.
Qed.

Lemma aligned_div x k : 0 <= k < 62 -> 0 <= x -> x + 2 ^ k <= 2 ^ 64 -> NVM_PAGE_ALIGN x (2 ^ k) / 2 ^ k = (x + 2 ^ k - 1) / 2 ^ k.
Proof. intros. rewrite page_align_spec by lia. apply Z.div_mul. pose proof (Z.pow_pos_nonneg 2 k). lia. Qed.

(** The pages hold the data, and the last one some of it. *)
Lemma total_pages_spec : 2 ^ kp * N - 2 ^ kp < size <= 2 ^ kp * N.
Proof.
  unfold total_pages. destruct (sz_page _ _ Hsz) as [-> _]. pose proof kp_small. pose proof (sz_exp _ _ Hsz).
  pose proof (sz_size _ _ Hsz). rewrite aligned_div by lia. pose proof (Z.pow_pos_nonneg 2 kp).
  pose proof (Z.div_mod (size + 2 ^ kp - 1) (2 ^ kp) ltac:(lia)). pose proof (Z.mod_pos_bound (size + 2 ^ kp - 1) (2 ^ kp) ltac:(lia)). lia.
Qed.

Lemma total_blocks_spec : 2 ^ kb * total_blocks d size - 2 ^ kb < size <= 2 ^ kb * total_blocks d size.
Proof.
  unfold total_blocks. rewrite (sz_block _ _ Hsz). pose proof kp_small. pose proof (sz_exp _ _ Hsz).
  pose proof (sz_size _ _ Hsz). pose proof (Z.pow_le_mono_r 2 kb kp). rewrite aligned_div by lia. pose proof (Z.pow_pos_nonneg 2 kb).
  pose proof (Z.div_mod (size + 2 ^ kb - 1) (2 ^ kb) ltac:(lia)). pose proof (Z.mod_pos_bound (size + 2 ^ kb - 1) (2 ^ kb) ltac:(lia)). lia.
Qed.

Lemma blocks_pages : r * N - r < total_blocks d size <= r * N.
Proof.
  pose proof total_pages_spec. pose proof total_blocks_spec. destruct blocks_per_page as (Hr & E & Hb). rewrite E in *.
  split.
  - apply (Z.mul_lt_mono_pos_l (2 ^ kb)); [done|]. lia.
  - assert (2 ^ kb * total_blocks d size < 2 ^ kb * (r * N + 1)); [|nia]. lia.
Qed.

Lemma pages_small : 0 <= N /\ r * N < 2 ^ 62 /\ 2 ^ kp * N < 2 ^ 62 /\ 0 <= Q /\ Q * n_queues <= N.
Proof.
  pose proof total_pages_spec. destruct blocks_per_page as (Hr & E & Hb). pose proof (sz_size _ _ Hsz).
  pose proof (sz_queues _ _ Hsz). assert (0 <= N) by nia.
  unfold pages_per_queue. pose proof (Z.mul_div_le N n_queues ltac:(lia)). pose proof (Z.div_pos N n_queues ltac:(lia)).
  split; [done|]. split; [nia|]. split; [lia|]. split; lia.
Qed.

Lemma share_page_mono i : 0 <= i < n_queues -> 0 <= share_page i <= share_page (i + 1) /\ share_page (i + 1) <= N.
Proof.
  intros Hi. destruct pages_small as (HN & _ & _ & HQ & HQn). unfold share_page.
  destruct (Z.ltb_spec i n_queues), (Z.ltb_spec (i + 1) n_queues); nia.
Qed.

(** What [transfer] hands to producer [i]. *)
Lemma share_spec i : 0 <= i < n_queues ->
  p_write (share i) = write /\ p_queue_no (share i) = i + 1 /\ p_start_block (share i) = r * share_page i
  /\ page_base d buf (share i) = share_page i
  /\ producer_pages d buf (share i) = share_page (i + 1) - share_page i.
Proof.
  intros Hi. pose proof (share_page_mono i Hi) as Hm. destruct pages_small as (HN & HrN & HkN & HQ & HQn).
  destruct blocks_per_page as (Hr & E & Hb). pose proof kp_small. pose proof (sz_exp _ _ Hsz). pose proof (sz_queues _ _ Hsz).
  destruct (sz_page _ _ Hsz) as [Ep1 Ep2]. pose proof (sz_block _ _ Hsz) as Eb. pose proof (sz_size _ _ Hsz).
  assert (share_page i = Q * i) as Es by (unfold share_page; by rewrite (proj2 (Z.ltb_lt _ _)) by lia).
  assert (p_start_block (share i) = r * share_page i) as Est.
  { cbn. rewrite Ep1, Eb, Es. rewrite u64_small by nia. apply page_to_block; [done..|nia]. }
  split; [done|]. split; [apply u16_small; lia|]. split; [done|]. split.
  { unfold page_base. rewrite Ep2, Eb, Est. apply block_to_page; [done..|nia]. }
  pose proof blocks_pages as Hbp. unfold producer_pages. rewrite Ep2, Eb.
  assert (exists n, p_n_blocks (share i) = n /\ r * (share_page (i + 1) - share_page i) - r < n <= r * (share_page (i + 1) - share_page i)
    /\ 0 <= n) as (n & -> & Hn & Hn0).
  { cbn in Est |- *. rewrite Est. destruct (Z.eqb_spec i (n_queues - 1)) as [->|Hne].
    - assert (share_page (n_queues - 1 + 1) = N) as -> by (unfold share_page; by rewrite (proj2 (Z.ltb_ge _ _)) by lia).
      assert (0 <= total_blocks d size - r * share_page (n_queues - 1)).
      { rewrite Es. destruct (decide (Q = 0)) as [->|]; [pose proof total_blocks_spec; nia|]. nia. }
      rewrite u64_small by nia. eexists. split; [done|]. nia.
    - rewrite Ep1, Eb, (page_to_block r) by (done || nia).
      assert (share_page (i + 1) = Q * (i + 1)) as -> by (unfold share_page; by rewrite (proj2 (Z.ltb_lt _ _)) by lia).
      rewrite Es. eexists. split; [done|]. nia. }
  rewrite aligned_div by nia. symmetry. apply (Z.div_unique _ _ _ (n * 2 ^ kb + 2 ^ kp - 1 - 2 ^ kp * (share_page (i + 1) - share_page i))); [|lia].
  left. rewrite E. nia.
Qed.

Lemma producer_jobs_list (f : job -> list Z) a i :
  0 <= a -> (forall b, f Flush = b -> b = []) ->
  (forall off n, 0 <= off -> 0 < n <= chunk_pages -> off + n <= producer_pages d buf (share i) ->
     f (move_job (share i) off n) = seqZ (a * share_page i + a * off) (a * n)) ->
  0 <= i < n_queues ->
  producer_jobs (share i) ≫= f = seqZ (a * share_page i) (a * (share_page (i + 1) - share_page i)).
Proof.
  intros Ha Hfl Hf Hi. destruct (share_spec i Hi) as (_ & _ & _ & _ & Hp). pose proof (share_page_mono i Hi).
  pose proof (sz_chunk _ _ Hsz). unfold producer_jobs, moves. rewrite bind_app.
  rewrite (chunked_list _ f chunk_pages _ (a * share_page i) a) by (done || lia).
  rewrite Z.mul_0_r, Z.add_0_r, Hp, Z.sub_0_r.
  assert (flushes (share i) ≫= f = []) as ->; [|by rewrite app_nil_r].
  unfold flushes. destruct (p_write _); [|done]. cbn. by rewrite (Hfl _ eq_refl).
Qed.

Lemma move_job_blocks i off n : 0 <= i < n_queues -> 0 <= off -> 0 < n <= chunk_pages ->
  off + n <= producer_pages d buf (share i) ->
  move_job (share i) off n = Rw write (share_page i + off) n (r * share_page i + r * off) (r * n).
Proof.
  intros Hi Ho Hn He. destruct (share_spec i Hi) as (Ew & _ & Es & Eb & Ep). pose proof (share_page_mono i Hi).
  destruct blocks_per_page as (Hr & E & Hb). destruct pages_small as (HN & HrN & HkN & _).
  destruct (sz_page _ _ Hsz) as [_ Ep2]. pose proof (sz_block _ _ Hsz) as Ebs. pose proof (sz_chunk _ _ Hsz).
  unfold move_job. rewrite Ew, Eb, Es, Ep2, Ebs, !(page_to_block r) by (done || nia). rewrite Ep in He.
  rewrite u64_small, u16_small by nia. done.
Qed.

(** Ranges that follow one another. *)
Lemma ranges_bind (f : Z -> list Z) (b : Z -> Z) a k n : 0 <= a -> 0 <= n ->
  (forall i, k <= i < k + n -> f i = seqZ (a * b i) (a * (b (i + 1) - b i)) /\ b i <= b (i + 1)) ->
  seqZ k n ≫= f = seqZ (a * b k) (a * (b (k + n) - b k)) /\ b k <= b (k + n).
Proof.
  intros Ha Hn. pattern n. apply natlike_ind; [| |exact Hn]; clear n Hn.
  - intros _. rewrite Z.add_0_r, Z.sub_diag, Z.mul_0_r. split; [done|lia].
  - intros n Hn IH Hf. destruct IH as [IH Hle]; [intros; apply Hf; lia|]. destruct (Hf (k + n)) as [Hl Hm]; [lia|].
    replace (Z.succ n) with (n + 1) by lia. rewrite seqZ_app by lia. rewrite bind_app, IH.
    replace (seqZ (k + n) 1) with [k + n] by (unfold seqZ; simpl; f_equal; lia). cbn. rewrite app_nil_r, Hl.
    replace (k + (n + 1)) with (k + n + 1) by lia. split; [|lia].
    replace (a * b (k + n)) with (a * b k + a * (b (k + n) - b k)) at 1 by lia.
    rewrite <- seqZ_app by nia. f_equal. lia.
Qed.
End spec.
