(* ===== verification/TransferRun.v ===== *)
(** * Transfers over several queues: executions

    What [Transfer] describes, run: the invariant that its threads and a controller
    keep however they interleave, one lane ([Lane]) per submission queue and one
    completion queue ([Device]) for all of them, and what follows for the commands
    that reach the controller, for the threads, and for the end of the transfer. *)
From S2P Require Import Prelude Bits Memory Effects Types Runtime Command Error Queue.
From S2P Require Import DisDevice DisMap Ctrl Dma Rpc RpcHandles RpcCommand Admin Lane Device Transfer.

(** ** The invariant *)

(** The submission queue a completion names, and the completions of queue [i + 1]. *)
Definition sqid_of (e : Z * Z) : Z := fst e / 2 ^ 80 mod 2 ^ 16.
Definition cpls_of (i : nat) (l : list (Z * Z)) : nat := length (filter (fun e => sqid_of e = Z.of_nat i + 1) l).

(** What the consumer has dequeued but not yet retired, reported or counted. *)
Definition lag_retire (c : option consumer_pc) : Z := if c is Some (K_retire _) then 1 else 0.
Definition lag_update (c : option consumer_pc) : Z :=
  match c with Some (K_retire _) | Some K_update => 1 | _ => 0 end.
Definition lag_count (c : option consumer_pc) : Z :=
  match c with Some (K_retire _) | Some K_update | Some K_count => 1 | _ => 0 end.

Definition not_started (pc : transfer_pc) : bool :=
  match pc with X_alloc => true | X_return st => negb (st =? 0) | _ => false end.

(** [*NVM_CPL_SQID(cpl)] of the bytes before the status. *)
Lemma cpl_sqid m a : ld 2 m (NVM_CPL_SQID a) = ld 14 m a / 2 ^ 80 mod 2 ^ 16.
Proof.
  unfold NVM_CPL_SQID. change 14%nat with (10 + (2 + 2))%nat. rewrite !ld_split. change (Z.of_nat 10) with 10.
  pose proof (ld_bound 10 m a) as B1. pose proof (ld_bound 2 m (a + 10)) as B2.
  change (256 ^ Z.of_nat 10) with (2 ^ 80) in *. change (256 ^ 10) with (2 ^ 80). change (256 ^ Z.of_nat 2) with (2 ^ 16) in *.
  rewrite (Z.mul_comm (2 ^ 80)), Z.div_add, (Z.div_small (ld 10 m a)), Z.add_0_l by lia.
  rewrite (Z.mul_comm (2 ^ 16)), Z.mod_add, Z.mod_small by lia. done.
Qed.

(** Counting. *)
Lemma sum_le {A} (f g : A -> nat) xs : (forall x, x ∈ xs -> (f x <= g x)%nat) -> (sum_list_with f xs <= sum_list_with g xs)%nat.
Proof.
  induction xs as [|x xs IH]; intros Hle; [done|]. simpl. pose proof (Hle x ltac:(left)).
  specialize (IH (fun y Hy => Hle y (list_elem_of_further _ _ _ Hy))). lia.
Qed.

Lemma sum_eq {A} (f g : A -> nat) xs : (forall x, x ∈ xs -> (f x <= g x)%nat) ->
  (sum_list_with g xs <= sum_list_with f xs)%nat -> forall x, x ∈ xs -> f x = g x.
Proof.
  induction xs as [|y xs IH]; intros Hle Hs x Hx; [by apply not_elem_of_nil in Hx|]. simpl in Hs.
  assert (forall z, z ∈ xs -> (f z <= g z)%nat) as Hle' by (intros z Hz; apply Hle; by right).
  pose proof (Hle y ltac:(left)). pose proof (sum_le f g xs Hle').
  apply elem_of_cons in Hx as [->|Hx]; [lia|]. apply IH; [done|lia|done].
Qed.

Lemma cpls_cons i e l : cpls_of i (e :: l) = ((if decide (sqid_of e = Z.of_nat i + 1)%Z then 1 else 0) + cpls_of i l)%nat.
Proof. unfold cpls_of. rewrite filter_cons. by case_decide. Qed.

Lemma cpls_app i l k : cpls_of i (l ++ k) = (cpls_of i l + cpls_of i k)%nat.
Proof. unfold cpls_of. by rewrite list.filter_app, length_app. Qed.

Lemma sum_one (i n : nat) (a : Z) : (i < n)%nat -> a = Z.of_nat i + 1 ->
  sum_list_with (fun j => if decide (a = Z.of_nat j + 1) then 1%nat else 0%nat) (seq 0 n) = 1%nat.
Proof.
  intros Hi ->. induction n as [|n IH]; [lia|]. rewrite seq_S, sum_list_with_app. simpl.
  destruct (decide (i = n)) as [->|Hne].
  - rewrite decide_True by done. replace (sum_list_with _ _) with 0%nat; [done|]. symmetry. clear.
    assert (forall k m, (k + m <= n)%nat -> sum_list_with (fun j => if decide (Z.of_nat n + 1 = Z.of_nat j + 1) then 1%nat else 0%nat) (seq k m) = 0%nat) as Hz.
    { intros k m. revert k. induction m as [|m IH]; intros k Hk; [done|]. simpl. rewrite decide_False, IH by lia. done. }
    apply Hz. lia.
  - rewrite IH, decide_False by lia. done.
Qed.

Lemma sum_ext {A} (f g : A -> nat) xs : (forall x, f x = g x) -> sum_list_with f xs = sum_list_with g xs.
Proof. intros E. induction xs as [|x xs IH]; simpl; [done|]. by rewrite E, IH. Qed.

Lemma sum_add {A} (f g : A -> nat) xs : sum_list_with (fun x => (f x + g x)%nat) xs = (sum_list_with f xs + sum_list_with g xs)%nat.
Proof. induction xs; simpl; lia. Qed.

Lemma sum_cpls n l : Forall (fun e => exists i, (i < n)%nat /\ sqid_of e = Z.of_nat i + 1) l ->
  length l = sum_list_with (fun i => cpls_of i l) (seq 0 n).
Proof.
  induction 1 as [|e l (i & Hi & He) _ IH].
  - symmetry. induction (seq 0 n) as [|x xs IH]; [done|exact IH].
  - simpl. rewrite IH. rewrite (sum_ext _ _ _ (fun j => cpls_cons j e l)), sum_add.
    by rewrite (sum_one i n _ Hi He).
Qed.

Section invariant.
Context `{Build}.
Context (d : disk) (buf : buffer) (ioaddrs : Z) (write : bool) (n_queues size kb kp : Z).
Context (ks : nat -> Z) (mems : nat -> nvm_dma_t) (ncq cq_vaddr : Z).

(** Queue [i + 1] and the PRP list pages behind it. *)
Definition lane_of (i : nat) : lane := Lane (ks i) (mems i) (dk_ns_id d) (dma_ioaddrs (b_dma buf)) ioaddrs.
Abbreviation nq := (Z.to_nat n_queues).
Abbreviation prod i := (share d write n_queues size (Z.of_nat i)).
Definition todo (i : nat) : list job := producer_jobs d buf (prod i).
Definition todo_upto (k : nat) : nat := sum_list_with (fun i => length (todo i)) (seq 0 k).

Definition apart (a n b k : Z) : Prop := a + n <= b \/ b + k <= a.

(** The queues and the table of bus addresses do not overlap, and one PRP list page
    is enough for a command of the maximum size. *)
Record transfer_setup : Prop := {
  su_sizes : sizes_ok d buf n_queues size kb kp;
  su_lane : forall i, (i < nq)%nat -> lane_wf (lane_of i) /\ dma_page_size (mems i) = 2 ^ kp;
  su_table : total_pages d size <= Z.of_nat (length (dma_ioaddrs (b_dma buf)));
  su_prp : chunk_pages d buf <= 2 ^ kp / 8 + 1;
  su_apart : forall i j, (i < nq)%nat -> (j < nq)%nat -> i <> j ->
    apart (dma_vaddr (mems i)) (lane_extent (lane_of i)) (dma_vaddr (mems j)) (lane_extent (lane_of j));
  su_cq : forall i, (i < nq)%nat -> apart cq_vaddr (16 * ncq) (dma_vaddr (mems i)) (lane_extent (lane_of i));
  su_cq_table : apart cq_vaddr (16 * ncq) ioaddrs (8 * Z.of_nat (length (dma_ioaddrs (b_dma buf))));
}.

(** Where a producer is: what it has built, and what is left. *)
Definition producer_at (i : nat) (m : mem) (pc : option producer_pc) (built rest : list job) (E S : Z) : Prop :=
  let p := prod i in let B := Z.of_nat (length built) in
  match pc with
  | None | Some T_start => built = [] /\ E = 0 /\ S = 0
  | Some (T_while off np) =>
      rest = moves d buf p off np ++ flushes p /\ E = B /\ 0 <= off <= producer_pages d buf p /\ 1 <= np <= chunk_pages d buf
  | Some (T_enqueue off n) | Some (T_submit off n) =>
      rest = move_job d buf p off n :: moves d buf p (off + n) n ++ flushes p /\ E = B
      /\ 0 <= off /\ off + n <= producer_pages d buf p /\ 1 <= n <= chunk_pages d buf
  | Some (T_build off n cmd) =>
      rest = move_job d buf p off n :: moves d buf p (off + n) n ++ flushes p /\ E = B + 1
      /\ 0 <= off /\ off + n <= producer_pages d buf p /\ 1 <= n <= chunk_pages d buf
      /\ cmd = slot (lane_of i) (E - 1) /\ reserved (lane_of i) m (E - 1)
  | Some T_flush => rest = [Flush] /\ E = B
  | Some (T_flush_build cmd) =>
      rest = [Flush] /\ E = B + 1 /\ cmd = slot (lane_of i) (E - 1) /\ reserved (lane_of i) m (E - 1)
  | Some T_finish => rest = [] /\ E = B
  | Some T_return => rest = [] /\ E = B /\ S = E
  end.

(** A queue whose commands before the flush fill the ring exactly. *)
Definition brimful (i : nat) : Prop :=
  write = true /\ Z.of_nat (length (todo i)) = lane_size (lane_of i).

Definition unsubmitted (pc : option producer_pc) : bool :=
  match pc with
  | Some (T_submit _ _) | Some (T_flush_build _) | Some T_finish | Some T_return => false
  | _ => true
  end.

(** Queue [i + 1]: of its jobs [built] are built; [E] slots are taken, [S] commands
    submitted, [R] retired and [P] completed. *)
Record linv (io : bool) (i : nat) (m : mem) (log : list (call * resp)) (q : queue) (pc : option producer_pc)
    (c : sq_ctl) (R P : Z) (built rest : list job) (E S : Z) : Prop := {
  li_jobs : todo i = built ++ rest;
  li_lane : lane_ok (lane_of i) m (tq_queue q) built E S (Z.of_nat (length (tc_fetched c))) R;
  li_fetched : forall x cmd, tc_fetched c !! x = Some cmd ->
    exists j, built !! x = Some j /\ cmd = job_dwords (lane_of i) (Z.of_nat x) j;
  li_reg : reg (q_db (tq_queue q)) log = S mod lane_size (lane_of i);
  li_no : q_no (tq_queue q) = Z.of_nat i + 1;
  li_qmem : tq_qmem q = mems i;
  li_running : P + Z.of_nat (length (tc_running c)) = Z.of_nat (length (tc_fetched c))
    /\ Forall (fun x => (x < length (tc_fetched c))%nat) (tc_running c);
  li_inorder : io = true -> tc_running c = seq (Z.to_nat P) (length (tc_running c));
  li_counter : tq_counter q = Z.of_nat (length built);
  li_pc : producer_at i m pc built rest E S;
  li_brimful : brimful i -> S = 0 /\ unsubmitted pc = true;
}.

(** The completions that were retired. *)
Definition retired (s : tsys) (D : Z) : list (Z * Z) := take (Z.to_nat (D - lag_retire (ts_consumer s))) (ts_posted s).

Definition main_at (s : tsys) (counter : Z) : Prop :=
  let ps := ts_producers s in
  match ts_main s with
  | X_alloc => ps = []
  | X_create i => i = Z.of_nat (length ps)
  | X_join i commands =>
      length ps = nq /\ 0 <= i <= n_queues /\ commands = Z.of_nat (todo_upto (Z.to_nat i))
      /\ forall j, (j < Z.to_nat i)%nat -> ps !! j = Some T_return
  | X_wait commands =>
      commands = Z.of_nat (todo_upto nq) /\ forall j, (j < nq)%nat -> ps !! j = Some T_return
  | X_cancel | X_reap | X_return 0 =>
      Z.of_nat (todo_upto nq) <= counter /\ forall j, (j < nq)%nat -> ps !! j = Some T_return
  | X_return _ => ps = []
  end.

Definition doorbell (q : queue) : Z := q_db (tq_queue q).

(** [D] completions have been dequeued. *)
Record tinv (io : bool) (s : tsys) (q0 : queue) (D : Z) : Prop := {
  ti_q0 : ts_queues s !! 0%nat = Some q0;
  ti_lens : length (ts_queues s) = Datatypes.S nq /\ length (ts_ctls s) = nq /\ (length (ts_producers s) <= nq)%nat;
  ti_lane : forall i q c, ts_queues s !! Datatypes.S i = Some q -> ts_ctls s !! i = Some c ->
    exists built rest E S, linv io i (w_mem (ts_w s)) (w_log (ts_w s)) q (ts_producers s !! i) c
      (Z.of_nat (cpls_of i (retired s D))) (Z.of_nat (cpls_of i (ts_posted s))) built rest E S;
  ti_table : table_at (lane_of 0) (w_mem (ts_w s));
  ti_cq : cq_ok (w_mem (ts_w s)) (w_log (ts_w s)) ncq (tq_queue q0) (ts_posted s) D (D - lag_update (ts_consumer s));
  ti_cq_vaddr : q_vaddr (tq_queue q0) = cq_vaddr;
  ti_counter : tq_counter q0 = D - lag_count (ts_consumer s);
  ti_db : NoDup (doorbell <$> ts_queues s);
  ti_posted : Forall (fun e => exists i, (i < nq)%nat /\ sqid_of e = Z.of_nat i + 1) (ts_posted s);
  ti_retire : forall cpl, ts_consumer s = Some (K_retire cpl) -> cpl = cq_slot (tq_queue q0) ((D - 1) mod ncq);
  ti_consumer : ts_consumer s = None <-> not_started (ts_main s) = true;
  ti_main : main_at s (tq_counter q0);
}.

Context (Hsu : transfer_setup).
Abbreviation Hsz := (su_sizes Hsu).

(** *** One lane *)

Lemma enqueue_no m q a q' m' : nvm_sq_enqueue m q = Some (a, q', m') -> q_no q' = q_no q.
Proof.
  unfold nvm_sq_enqueue. repeat case_match; intros; simplify_eq; done.
Qed.

Lemma lane_frame io i m m' log log' q pc c R P built rest E S : (i < nq)%nat ->
  agree m m' (dma_vaddr (mems i)) (lane_extent (lane_of i)) -> reg (doorbell q) log' = reg (doorbell q) log ->
  linv io i m log q pc c R P built rest E S -> linv io i m' log' q pc c R P built rest E S.
Proof.
  intros Hi Ha Hl [Hj Hlane Hf Hr Hno Hqm Hru Hio Hcn Hpc Hb]. destruct (su_lane Hsu i Hi) as [Hwf _].
  constructor; try done.
  - by eapply lane_ok_agree.
  - unfold doorbell in Hl. by rewrite Hl.
  - assert (forall x, reserved (lane_of i) m x -> reserved (lane_of i) m' x) as Hres.
    { intros x. apply reserved_agree. pose proof (slot_bounds _ Hwf x). pose proof (list_page_bounds _ Hwf 0). pose proof (page_pos _ Hwf).
      eapply agree_sub; [exact Ha|simpl in *; lia|simpl in *; lia]. }
    destruct pc as [[]|]; simpl in *; intuition.
Qed.

(** What a step of producer [i] leaves alone. *)
Definition only_lane (i : nat) (m m' : mem) : Prop :=
  forall a n, apart a n (dma_vaddr (mems i)) (lane_extent (lane_of i)) -> agree m m' a n.

Lemma only_writes_only_lane i x m m' : (i < nq)%nat -> only_writes (lane_of i) x m m' -> only_lane i m m'.
Proof. intros Hi Hw a n Ha. destruct (su_lane Hsu i Hi) as [Hwf _]. by eapply only_writes_agree. Qed.

Definition lane_stepped (io : bool) (i : nat) (w : uworld) (q : queue) (queues : list queue) (c : sq_ctl) (R P : Z)
    (r : producer_pc * list queue) (w' : uworld) : Prop :=
  exists q' built rest E S, snd r = <[Datatypes.S i := q']> queues
  /\ linv io i (w_mem w') (w_log w') q' (Some (fst r)) c R P built rest E S
  /\ only_lane i (w_mem w) (w_mem w') /\ doorbell q' = doorbell q
  /\ forall db, db <> doorbell q -> reg db (w_log w') = reg db (w_log w).

Lemma wp_queue_at i q queues w (Q : queue -> uworld -> Prop) :
  queues !! Z.to_nat i = Some q -> Q q w -> wp quiet_env (queue_at queues i) w Q.
Proof. intros Hq HQ. unfold queue_at. by rewrite Hq. Qed.

Lemma prod_no i : (i < nq)%nat -> Z.to_nat (p_queue_no (prod i)) = Datatypes.S i.
Proof. intros Hi. destruct (share_spec _ _ write _ _ _ _ Hsz (Z.of_nat i)) as (_ & -> & _); lia. Qed.


(** There are not more commands than the counters can hold. *)
Lemma todo_length i : (i < nq)%nat -> Z.of_nat (length (todo i)) <= share_page d n_queues size (Z.of_nat i + 1) - share_page d n_queues size (Z.of_nat i) + 1.
Proof.
  intros Hi. destruct (share_spec _ _ write _ _ _ _ Hsz (Z.of_nat i) ltac:(lia)) as (_ & _ & _ & _ & Hp).
  pose proof (share_page_mono _ _ _ _ _ _ Hsz (Z.of_nat i) ltac:(lia)) as Hm.
  unfold todo, producer_jobs, moves, flushes. rewrite length_app, Hp. set (n := share_page _ _ _ _ - _) in *.
  pose proof (length_chunked (move_job d buf (prod i)) (Z.to_nat n) n 0 (chunk_pages d buf)).
  destruct (p_write _); simpl; lia.
Qed.

Lemma pages_62 : total_pages d size < 2 ^ 62.
Proof.
  destruct (pages_small _ _ _ _ _ _ Hsz) as (HN & _ & HkN & _). destruct (blocks_per_page _ _ _ _ _ _ Hsz) as (Hr0 & Ekp & Hb0). nia.
Qed.

Lemma blocked_reserved L m x c ns lba blks : lane_wf L ->
  blocked m (slot L x) c ((x + 1) mod (2 * lane_size L)) ns lba blks -> reserved L m x.
Proof.
  intros Hwf [[Hb H0 _] _ _ _]. split; [done|]. pose proof (ld_dword0 m (slot L x)) as E. rewrite H0 in E.
  pose proof (ld_bound 2 m (slot L x)) as B1. pose proof (io_opcode_bound c). pose proof (io_cid_small L Hwf (x + 1)).
  change (256 ^ Z.of_nat 2) with 65536 in B1. lia.
Qed.

Section steps.
Context (io : bool) (i : nat) (w : uworld) (q : queue) (queues : list queue) (c : sq_ctl) (R P : Z).
Context (Hi : (i < nq)%nat) (Hq : queues !! Datatypes.S i = Some q) (Ht : table_at (lane_of 0) (w_mem w)).
Abbreviation stepped := (lane_stepped io i w q queues c R P).
Abbreviation at_pc pc built rest E S := (linv io i (w_mem w) (w_log w) q (Some pc) c R P built rest E S).

Lemma queue_no (A : Type) (k : queue -> UM A) (Q : A -> uworld -> Prop) w' :
  wp quiet_env (k q) w' Q -> wp quiet_env (queue_at queues (p_queue_no (prod i)) ≫= k) w' Q.
Proof. intros Hw. wp_step. eapply wp_queue_at; [rewrite prod_no by done; exact Hq|exact Hw]. Qed.

Lemma goto pc pc' built rest E S : at_pc pc built rest E S ->
  (producer_at i (w_mem w) (Some pc) built rest E S -> producer_at i (w_mem w) (Some pc') built rest E S) ->
  (brimful i -> unsubmitted (Some pc') = true) -> at_pc pc' built rest E S.
Proof. intros [] Hp Hb. constructor; try done; [by apply Hp|]. intros Hbr. split; [by apply li_brimful0|by apply Hb]. Qed.

Lemma stay pc' built rest E S : at_pc pc' built rest E S -> stepped (pc', queues) w.
Proof.
  intros Hl. exists q, built, rest, E, S. split; [by rewrite list_insert_id|].
  split; [done|]. split; [intros ???; apply agree_refl|done].
Qed.

(** The same, when the queue was written back as it was read. *)
Lemma stayed pc' built rest E S w' : w_mem w' = w_mem w -> w_log w' = w_log w -> at_pc pc' built rest E S ->
  stepped (pc', set_queue (p_queue_no (prod i)) (tq_set (tq_queue q) q) queues) w'.
Proof.
  intros Hm Hlog Hl. exists q, built, rest, E, S. rewrite Hm, Hlog. split; [|split; [done|split; [intros ???; apply agree_refl|done]]].
  unfold set_queue. rewrite prod_no by done. by destruct q.
Qed.

Lemma step_T_start built rest E S : at_pc T_start built rest E S ->
  wp quiet_env (produce_commands d buf ioaddrs (prod i) T_start queues) w stepped.
Proof.
  intros Hl. destruct (share_spec _ _ write _ _ _ _ Hsz (Z.of_nat i) ltac:(lia)) as (_ & _ & _ & _ & Hp).
  pose proof (share_page_mono _ _ _ _ _ _ Hsz (Z.of_nat i) ltac:(lia)). pose proof (sz_chunk _ _ _ _ _ _ Hsz).
  cbn [produce_commands]. unfold divide. destruct (sz_page _ _ _ _ _ _ Hsz) as [_ Hpg].
  rewrite (proj2 (Z.eqb_neq (dma_page_size _) 0)) by (rewrite Hpg; pose proof (sz_exp _ _ _ _ _ _ Hsz); pose proof (Z.pow_pos_nonneg 2 kp); lia).
  do 2 wp_step. apply (stay _ built rest E S). eapply goto; [exact Hl| |done]. intros (-> & -> & ->).
  pose proof (li_jobs _ _ _ _ _ _ _ _ _ _ _ _ _ Hl) as Hj. simpl in Hj. rewrite <- Hj. simpl. split; [done|]. split; [done|].
  unfold chunk_pages in *. rewrite Hp. lia.
Qed.

Lemma brimful_built pc built rest E S : at_pc pc built rest E S -> brimful i ->
  Z.of_nat (length built) + Z.of_nat (length rest) = lane_size (lane_of i) /\ R = 0.
Proof.
  intros [Hj Hl _ _ _ _ _ _ _ _ Hb] Hbr. destruct (Hb Hbr) as [-> _]. destruct Hbr as [_ Hbr]. rewrite Hj, length_app in Hbr.
  pose proof (lk_counts _ _ _ _ _ _ _ _ Hl). destruct (sqs_window _ _ _ _ (lk_ring _ _ _ _ _ _ _ _ Hl)). split; lia.
Qed.

Lemma flushes_write : flushes (prod i) = if write then [Flush] else [].
Proof. done. Qed.

Lemma step_T_while off np built rest E S : at_pc (T_while off np) built rest E S ->
  wp quiet_env (produce_commands d buf ioaddrs (prod i) (T_while off np) queues) w stepped.
Proof.
  intros Hl. pose proof (li_pc _ _ _ _ _ _ _ _ _ _ _ _ _ Hl) as (Hr & HE & Ho & Hn).
  destruct (share_spec _ _ write _ _ _ _ Hsz (Z.of_nat i) ltac:(lia)) as (Ew & _ & _ & _ & Hp).
  pose proof (share_page_mono _ _ _ _ _ _ Hsz (Z.of_nat i) ltac:(lia)).
  pose proof pages_62.
  cbn [produce_commands]. wp_step. rewrite u64_small by lia. set (N := producer_pages d buf (prod i)) in *.
  apply (stay _ built rest E S). destruct (Z.ltb_spec off N).
  - set (n := if N - off <? np then _ else _) in *. assert (1 <= n <= np /\ n <= N - off) as [Hb Hb'] by (subst n; destruct (Z.ltb_spec (N - off) np); lia).
    eapply goto; [exact Hl| |done]. intros _. simpl. split; [|by repeat split; try done; lia].
    rewrite Hr. unfold moves. fold N. rewrite (chunked_round _ _ N off np) by lia. done.
  - eapply goto; [exact Hl| |].
    + intros _. unfold moves in Hr. rewrite chunked_done in Hr by (fold N; lia). rewrite Hr.
      rewrite flushes_write, Ew. destruct write; by split.
    + intros [Hw _]. by rewrite Ew, Hw.
Qed.

Lemma step_enqueue pc built rest E S (k : Z -> producer_pc) (again : producer_pc) :
  at_pc pc built rest E S -> E = Z.of_nat (length built) ->
  (E - R = lane_size (lane_of i) - 1 -> at_pc again built rest E S) ->
  (E - R < lane_size (lane_of i) - 1 -> forall m', reserved (lane_of i) m' E -> producer_at i m' (Some (k (slot (lane_of i) E))) built rest (E + 1) S) ->
  (brimful i -> E - R < lane_size (lane_of i) - 1 -> unsubmitted (Some (k (slot (lane_of i) E))) = true) ->
  wp quiet_env ('(cmd, queues) ← enqueue (p_queue_no (prod i)) queues; mret (if cmd =? NULL then again else k cmd, queues)) w stepped.
Proof.
  intros Hl HE Hfull Hroom Hbr. destruct (su_lane Hsu i Hi) as [Hwf _].
  pose proof (li_lane _ _ _ _ _ _ _ _ _ _ _ _ _ Hl) as Hlane.
  destruct (sqs_window _ _ _ _ (lk_ring _ _ _ _ _ _ _ _ Hlane)) as [Hw1 Hw2]. unfold enqueue. wp_step. apply queue_no. do 2 wp_step.
  destruct (decide (E - R = lane_size (lane_of i) - 1)) as [Hf|Hf].
  - rewrite (lane_full _ Hwf _ _ _ _ _ _ _ Hlane Hf). repeat wp_step. simpl.
    by eapply stayed, Hfull.
  - destruct (lane_enqueue _ Hwf _ _ _ _ _ _ _ Hlane HE ltac:(lia)) as (q' & m' & Heq & Hl' & Hres & Hw & Hd).
    pose proof (enqueue_no _ _ _ _ _ Heq) as Hno. rewrite Heq.
    repeat wp_step. pose proof (slot_bounds _ Hwf E). pose proof (lw_vaddr _ Hwf).
    rewrite (proj2 (Z.eqb_neq (slot (lane_of i) E) NULL)) by (unfold NULL; simpl in *; lia).
    exists (tq_set q' q), built, rest, (E + 1), S. split; [unfold set_queue; by rewrite prod_no|].
    split; [|split; [by eapply only_writes_only_lane|by split]].
    destruct Hl. constructor; try done.
    + simpl. by rewrite Hd.
    + simpl. by rewrite Hno.
    + apply Hroom; [lia|done].
    + intros Hbb. split; [by apply li_brimful0|]. apply Hbr; [done|lia].
Qed.

Lemma step_T_enqueue off n built rest E S : at_pc (T_enqueue off n) built rest E S ->
  wp quiet_env (produce_commands d buf ioaddrs (prod i) (T_enqueue off n) queues) w stepped.
Proof.
  intros Hl. pose proof (li_pc _ _ _ _ _ _ _ _ _ _ _ _ _ Hl) as (Hr & HE & Hpc). cbn [produce_commands].
  apply (step_enqueue (T_enqueue off n) built rest E S (fun cmd => T_build off n cmd)); [exact Hl|done|..].
  - intros Hf. eapply goto; [exact Hl|done|]. intros Hb. destruct (brimful_built _ _ _ _ _ Hl Hb) as [Hlen ->].
    exfalso. rewrite Hr in Hlen. cbn [length] in Hlen. rewrite length_app, flushes_write in Hlen. destruct Hb as [-> _].
    cbn [length] in Hlen. lia.
  - intros _ m' Hres. simpl. rewrite Z.add_simpl_r. split; [exact Hr|]. split; [lia|]. by repeat (split; [apply Hpc|]).
  - done.
Qed.

Lemma step_T_flush built rest E S : at_pc T_flush built rest E S ->
  wp quiet_env (produce_commands d buf ioaddrs (prod i) T_flush queues) w stepped.
Proof.
  intros Hl. pose proof (li_pc _ _ _ _ _ _ _ _ _ _ _ _ _ Hl) as (Hr & HE). cbn [produce_commands].
  apply (step_enqueue T_flush built rest E S T_flush_build); [exact Hl|done|..].
  - intros Hf. eapply goto; [exact Hl|done|done].
  - intros _ m' Hres. simpl. rewrite Z.add_simpl_r. split; [exact Hr|]. split; [lia|]. by split.
  - intros Hb Hroom. destruct (brimful_built _ _ _ _ _ Hl Hb) as [Hlen ->]. exfalso. rewrite Hr in Hlen. simpl in Hlen. lia.
Qed.

Lemma step_submit pc pc' built rest E S : at_pc pc built rest E S -> E = Z.of_nat (length built) ->
  (brimful i -> False) -> (producer_at i (w_mem w) (Some pc') built rest E E) ->
  wp quiet_env (queues ← submit (p_queue_no (prod i)) queues; mret (pc', queues)) w stepped.
Proof.
  intros Hl HE Hb Hpc. destruct (su_lane Hsu i Hi) as [Hwf _].
  pose proof (li_lane _ _ _ _ _ _ _ _ _ _ _ _ _ Hl) as Hlane. unfold submit. wp_step. apply queue_no. wp_step.
  apply quiet_sq_submit. intros w' Hmem _ Hlog. do 2 wp_step.
  destruct (lane_submit_reg _ _ _ _ _ _ _ _ _ (w_log w') Hwf Hlane HE (li_reg _ _ _ _ _ _ _ _ _ _ _ _ _ Hl) Hlog) as (Hl' & Hd & Hr' & Ho).
  set (q' := if negb _ then _ else _) in *. exists (tq_set q' q), built, rest, E, E. rewrite Hmem.
  split; [unfold set_queue; by rewrite prod_no|]. split; [|split; [intros ???; apply agree_refl|by split]].
  assert (q_no q' = q_no (tq_queue q)) as Hno by (unfold q'; by destruct (negb _)).
  destruct Hl. constructor; try done; simpl; [by rewrite Hd|by rewrite Hno].
Qed.

Lemma step_T_submit off n built rest E S : at_pc (T_submit off n) built rest E S ->
  wp quiet_env (produce_commands d buf ioaddrs (prod i) (T_submit off n) queues) w stepped.
Proof.
  intros Hl. pose proof (li_pc _ _ _ _ _ _ _ _ _ _ _ _ _ Hl) as (Hr & HE & Hpc). cbn [produce_commands].
  eapply step_submit; [exact Hl|done| |done]. intros Hb. by apply (li_brimful _ _ _ _ _ _ _ _ _ _ _ _ _ Hl) in Hb as [_ ?].
Qed.

Lemma step_T_finish built rest E S : at_pc T_finish built rest E S ->
  wp quiet_env (produce_commands d buf ioaddrs (prod i) T_finish queues) w stepped.
Proof.
  intros Hl. pose proof (li_pc _ _ _ _ _ _ _ _ _ _ _ _ _ Hl) as (Hr & HE). cbn [produce_commands].
  eapply step_submit; [exact Hl|done| |done]. intros Hb. by apply (li_brimful _ _ _ _ _ _ _ _ _ _ _ _ _ Hl) in Hb as [_ ?].
Qed.

Lemma step_T_return built rest E S : at_pc T_return built rest E S ->
  wp quiet_env (produce_commands d buf ioaddrs (prod i) T_return queues) w stepped.
Proof. intros Hl. cbn [produce_commands]. wp_step. by eapply stay. Qed.

(** A command is built in the slot reserved for it. *)
Lemma built_one pc pc' j rest m' built E S : at_pc pc built (j :: rest) E S -> E = Z.of_nat (length built) + 1 ->
  only_writes (lane_of i) (E - 1) (w_mem w) m' -> job_wf (lane_of i) j ->
  dwords m' (slot (lane_of i) (E - 1)) = job_dwords (lane_of i) (E - 1) j -> list_holds (lane_of i) m' (E - 1) j ->
  producer_at i m' (Some pc') (built ++ [j]) rest E S -> (brimful i -> unsubmitted (Some pc') = true) ->
  stepped (pc', set_queue (p_queue_no (prod i)) (tq_count q) queues) (World m' (w_st w) (w_log w)).
Proof.
  intros Hl HE Hw Hj Hd Hh Hpc Hb. destruct (su_lane Hsu i Hi) as [Hwf _].
  exists (tq_count q), (built ++ [j]), rest, E, S. split; [cbn [snd]; unfold set_queue; by rewrite prod_no|].
  split; [|split; [by eapply only_writes_only_lane|by split]].
  pose proof (li_lane _ _ _ _ _ _ _ _ _ _ _ _ _ Hl) as Hlane. pose proof (sqs_window _ _ _ _ (lk_ring _ _ _ _ _ _ _ _ Hlane)).
  destruct Hl. constructor; try done.
  - by rewrite <- app_assoc.
  - cbn [w_mem tq_count tq_queue]. by eapply lane_build.
  - intros x cmd Hx. destruct (li_fetched0 x cmd Hx) as (j' & Hj' & Hd'). exists j'. split; [|done]. by apply lookup_app_l_Some.
  - cbn [tq_count tq_counter]. rewrite li_counter0, length_app, Nat2Z.inj_add. simpl Z.of_nat. apply u64_small.
    pose proof (todo_length i Hi) as Hlen. pose proof (share_page_mono _ _ _ _ _ _ Hsz (Z.of_nat i) ltac:(lia)). pose proof pages_62.
    rewrite li_jobs0, length_app in Hlen. cbn [length] in Hlen. lia.
  - intros Hbb. split; [by apply li_brimful0|by apply Hb].
Qed.

Lemma step_T_flush_build cmd built rest E S : at_pc (T_flush_build cmd) built rest E S ->
  wp quiet_env (produce_commands d buf ioaddrs (prod i) (T_flush_build cmd) queues) w stepped.
Proof.
  intros Hl. pose proof (li_pc _ _ _ _ _ _ _ _ _ _ _ _ _ Hl) as (-> & HE & -> & Hres). destruct (su_lane Hsu i Hi) as [Hwf _].
  cbn [produce_commands]. apply queue_no. unfold upd_mem. repeat wp_step.
  destruct (build_flush _ Hwf (E - 1) (w_mem w) Hres) as [Hw Hd].
  eapply built_one; [exact Hl|done|exact Hw|done|exact Hd|done| |].
  - simpl. rewrite length_app. simpl. split; [done|lia].
  - intros Hb. by apply (li_brimful _ _ _ _ _ _ _ _ _ _ _ _ _ Hl) in Hb as [_ ?].
Qed.

Lemma move_job_wf off n : 0 <= off -> off + n <= producer_pages d buf (prod i) -> 1 <= n <= chunk_pages d buf ->
  job_wf (lane_of i) (move_job d buf (prod i) off n).
Proof.
  intros Ho He Hn. destruct (su_lane Hsu i Hi) as [Hwf Hpg]. pose proof (su_prp Hsu). pose proof (su_table Hsu).
  destruct (share_spec _ _ write _ _ _ _ Hsz (Z.of_nat i) ltac:(lia)) as (_ & _ & _ & Eb & Ep).
  pose proof (share_page_mono _ _ _ _ _ _ Hsz (Z.of_nat i) ltac:(lia)). cbn [job_wf move_job]. unfold page_size. cbn [lane_of l_dma l_bus].
  rewrite Hpg, Eb. rewrite Ep in He. repeat split; try lia; apply (u64_bound (_ + _)).
Qed.

Lemma build_transfer_spec off n x (Q : unit -> uworld -> Prop) :
  0 <= off -> off + n <= producer_pages d buf (prod i) -> 1 <= n <= chunk_pages d buf ->
  reserved (lane_of i) (w_mem w) x -> q_max_entries (tq_queue q) = lane_size (lane_of i) -> tq_qmem q = mems i ->
  (forall m', only_writes (lane_of i) x (w_mem w) m' ->
     dwords m' (slot (lane_of i) x) = job_dwords (lane_of i) x (move_job d buf (prod i) off n) ->
     list_holds (lane_of i) m' x (move_job d buf (prod i) off n) -> Q tt (World m' (w_st w) (w_log w))) ->
  wp quiet_env (build_transfer d buf ioaddrs (prod i) off n (slot (lane_of i) x) q) w Q.
Proof.
  intros Ho He Hn Hres Hme Hqm HQ. destruct (su_lane Hsu i Hi) as [Hwf Hpg]. pose proof (lane_size_bounds _ Hwf).
  assert (reserved (lane_of i) (nvm_cmd_rw_blks (nvm_cmd_header (w_mem w) (slot (lane_of i) x)
    (io_opcode (if write then NVM_IO_WRITE else NVM_IO_READ)) (dk_ns_id d)) (slot (lane_of i) x)
    (u64 (p_start_block (prod i) + NVM_PAGE_TO_BLOCK (dma_page_size (b_dma buf)) (dk_block_size d) off))
    (u16 (NVM_PAGE_TO_BLOCK (dma_page_size (b_dma buf)) (dk_block_size d) n))) x) as Hres'
    by (eapply blocked_reserved, cmd_rw_blks_blocked, reserved_headed; done).
  destruct (list_page_of_cid _ Hwf _ _ Hres') as (Hno & Hlp & Hio). destruct (sz_page _ _ _ _ _ _ Hsz) as [_ Hpb].
  pose proof (move_job_wf off n Ho He Hn) as Hj. unfold move_job in Hj.
  destruct (build_header_rw_data _ Hwf x (w_mem w) write _ n _ _ Hres Hj Ht) as (m3 & Hcd & Hw & Hd & Hh).
  unfold build_transfer, ld_mem, upd_mem, ioaddr_at. rewrite Hme, Hqm.
  assert (dk_block_size d <> 0) by (rewrite (sz_block _ _ _ _ _ _ Hsz); pose proof (blocks_per_page _ _ _ _ _ _ Hsz); lia).
  rewrite (proj2 (Z.eqb_neq (lane_size _) 0)), (proj2 (Z.eqb_neq (dk_block_size d) 0)) by lia. cbn [orb].
  cbn [lane_of l_dma l_ns l_tbl] in Hno, Hlp, Hio, Hcd. unfold page_size in Hcd. cbn [lane_of l_dma] in Hcd. rewrite Hpg, <- Hpb in Hcd.
  do 14 wp_step. cbn beta. cbn [w_mem w_st w_log]. change (p_write (prod i)) with write. rewrite Hno, Hio, Hlp.
  do 4 wp_step. cbn beta. cbn [w_mem w_st w_log]. rewrite Hcd. by apply HQ.
Qed.

Lemma step_T_build off n cmd built rest E S : at_pc (T_build off n cmd) built rest E S ->
  wp quiet_env (produce_commands d buf ioaddrs (prod i) (T_build off n cmd) queues) w stepped.
Proof.
  intros Hl. pose proof (li_pc _ _ _ _ _ _ _ _ _ _ _ _ _ Hl) as (-> & HE & Ho & He & Hn & -> & Hres).
  pose proof (share_page_mono _ _ _ _ _ _ Hsz (Z.of_nat i) ltac:(lia)). pose proof pages_62.
  destruct (share_spec _ _ write _ _ _ _ Hsz (Z.of_nat i) ltac:(lia)) as (_ & _ & _ & _ & Hp).
  cbn [produce_commands]. apply queue_no. wp_step.
  apply (build_transfer_spec off n _ _ Ho He Hn Hres);
    [by destruct (lk_ring _ _ _ _ _ _ _ _ (li_lane _ _ _ _ _ _ _ _ _ _ _ _ _ Hl))|by destruct Hl|].
  intros m' Hw Hd Hh. wp_step. rewrite u64_small by lia.
  eapply built_one; [exact Hl|done|exact Hw|by apply move_job_wf|exact Hd|exact Hh| |done].
  simpl. rewrite length_app. simpl. repeat split; try done; lia.
Qed.

Lemma producer_runs pc built rest E S : at_pc pc built rest E S ->
  wp quiet_env (produce_commands d buf ioaddrs (prod i) pc queues) w stepped.
Proof.
  destruct pc; [apply step_T_start|apply step_T_while|apply step_T_enqueue|apply step_T_submit|apply step_T_build
    |apply step_T_flush|apply step_T_flush_build|apply step_T_finish|apply step_T_return].
Qed.
End steps.

(** *** All lanes *)

Abbreviation Inv io s := (exists q0 D, tinv io s q0 D).

Lemma lane_in io s q0 D i q : tinv io s q0 D -> ts_queues s !! Datatypes.S i = Some q -> (i < nq)%nat.
Proof. intros Hv Hq. apply lookup_lt_Some in Hq. destruct (ti_lens _ _ _ _ Hv) as [E _]. lia. Qed.

Lemma lane_some io s q0 D i : tinv io s q0 D -> (i < nq)%nat ->
  exists q c, ts_queues s !! Datatypes.S i = Some q /\ ts_ctls s !! i = Some c.
Proof.
  intros Hv Hi. destruct (ti_lens _ _ _ _ Hv) as (Hl1 & Hl2 & _).
  destruct (lookup_lt_is_Some_2 (ts_queues s) (Datatypes.S i)) as [q Hq]; [lia|].
  destruct (lookup_lt_is_Some_2 (ts_ctls s) i) as [c Hc]; [lia|]. eauto.
Qed.

Lemma doorbells_differ io s q0 D i j q q' : tinv io s q0 D -> ts_queues s !! i = Some q -> ts_queues s !! j = Some q' ->
  i <> j -> doorbell q' <> doorbell q.
Proof.
  intros Hv Hi Hj Hne Heq. apply Hne. eapply NoDup_lookup; [apply (ti_db _ _ _ _ Hv)|..]; rewrite list_lookup_fmap.
  - by rewrite Hi.
  - rewrite Hj. cbn. by rewrite Heq.
Qed.

Lemma doorbells_kept i q q' (queues : list queue) : queues !! i = Some q -> doorbell q' = doorbell q ->
  NoDup (doorbell <$> queues) -> NoDup (doorbell <$> <[i := q']> queues).
Proof. intros Hi Hd Hn. rewrite list_fmap_insert, Hd, list_insert_id; [done|]. by rewrite list_lookup_fmap, Hi. Qed.

Lemma returned_kept (ps : list producer_pc) (n i : nat) pc : (ps !! i = Some T_return -> pc = T_return) ->
  (forall j, (j < n)%nat -> ps !! j = Some T_return) -> forall j, (j < n)%nat -> <[i := pc]> ps !! j = Some T_return.
Proof.
  intros Hpc Hall j Hj. specialize (Hall j Hj). destruct (decide (i = j)) as [->|].
  - rewrite list_lookup_insert_eq by (by eapply lookup_lt_Some). by rewrite Hpc.
  - by rewrite list_lookup_insert_ne.
Qed.

(** Only queue [i + 1] and its lane change. *)
Lemma lane_replaced io s q0 D i q q' c pc' w' built rest E S : tinv io s q0 D ->
  ts_queues s !! Datatypes.S i = Some q -> ts_ctls s !! i = Some c -> is_Some (ts_producers s !! i) ->
  linv io i (w_mem w') (w_log w') q' (Some pc') c (Z.of_nat (cpls_of i (retired s D))) (Z.of_nat (cpls_of i (ts_posted s))) built rest E S ->
  only_lane i (w_mem (ts_w s)) (w_mem w') -> doorbell q' = doorbell q ->
  (forall db, db <> doorbell q -> reg db (w_log w') = reg db (w_log (ts_w s))) ->
  (ts_producers s !! i = Some T_return -> pc' = T_return) ->
  tinv io (TSys w' (<[Datatypes.S i := q']> (ts_queues s)) (ts_main s) (ts_cancel s) (ts_consumer s)
    (<[i := pc']> (ts_producers s)) (ts_ctls s) (ts_posted s)) q0 D.
Proof.
  intros Hv Hq Hc Hp Hl Hm Hd Hr Hpc. pose proof Hv as [H0 (Hn1 & Hn2 & Hn3) Hlane Htb Hcq Hcv Hct Hdb Hpo Hre Hco Hma].
  pose proof (lane_in _ _ _ _ _ _ Hv Hq) as Hi. constructor; simpl; try done.
  - by rewrite list_lookup_insert_ne.
  - by rewrite !length_insert.
  - intros j qj cj Hqj Hcj. destruct (decide (i = j)) as [<-|Hne].
    + rewrite list_lookup_insert_eq in Hqj by (by eapply lookup_lt_Some). rewrite list_lookup_insert_eq by (by apply lookup_lt_is_Some_1).
      simplify_eq. by exists built, rest, E, S.
    + rewrite list_lookup_insert_ne in Hqj by congruence. rewrite list_lookup_insert_ne by done.
      destruct (Hlane j qj cj Hqj Hcj) as (b & r & E' & S' & Hlj). exists b, r, E', S'.
      pose proof (lane_in _ _ _ _ _ _ Hv Hqj) as Hj. eapply lane_frame; [done| | |exact Hlj].
      * apply Hm. by apply Hsu.
      * apply Hr. eapply doorbells_differ; [done..|]. congruence.
  - eapply table_at_agree; [|exact Htb]. apply Hm. destruct (su_lane Hsu i Hi) as [Hwf _]. pose proof (lw_apart _ Hwf). 
    unfold apart, lane_extent. simpl in *. lia.
  - eapply cq_ok_frame; [| |exact Hcq].
    + rewrite Hcv. apply Hm. by apply Hsu.
    + apply Hr. by eapply (doorbells_differ _ _ _ _ (Datatypes.S i) 0%nat).
  - by eapply doorbells_kept.
  - unfold main_at in *. simpl. destruct (ts_main s) as [| | | | | |st]; try (by rewrite length_insert).
    + apply nil_length_inv. by rewrite length_insert, Hma.
    + rewrite length_insert. destruct Hma as (? & ? & ? & ?). repeat (split; [done|]). by apply returned_kept.
    + destruct Hma as (? & ?). split; [done|]. by apply returned_kept.
    + destruct Hma as (? & ?). split; [done|]. by apply returned_kept.
    + destruct Hma as (? & ?). split; [done|]. by apply returned_kept.
    + destruct st; [destruct Hma as (? & ?); split; [done|]; by apply returned_kept|..]; apply nil_length_inv; by rewrite length_insert, Hma.
Qed.

(** A step of a producer is defined, and keeps the invariant. *)
Lemma producer_step io s i : Inv io s -> is_Some (ts_producers s !! i) ->
  exists s', step_producer d buf ioaddrs write n_queues size i s = Some s' /\ Inv io s'.
Proof.
  intros (q0 & D & Hv) Hp. pose proof (ti_lens _ _ _ _ Hv) as (Hn1 & Hn2 & Hn3).
  assert (i < nq)%nat as Hi by (apply lookup_lt_is_Some_1 in Hp; lia).
  destruct (lane_some _ _ _ _ _ Hv Hi) as (q & c & Hq & Hc). destruct (ti_lane _ _ _ _ Hv _ _ _ Hq Hc) as (b & r & E & S & Hl).
  destruct Hp as [pc Epc]. rewrite Epc in Hl. pose proof (producer_runs io i _ _ _ _ _ _ Hi Hq (ti_table _ _ _ _ Hv) _ _ _ _ _ Hl) as Hw.
  assert (pc = T_return -> forall r w, run (produce_commands d buf ioaddrs (prod i) pc (ts_queues s)) quiet_env (ts_w s) = Ok r w -> fst r = T_return) as Hret.
  { intros -> r' w'. cbn. intros [= <- <-]. done. }
  apply wp_run in Hw as ([pc' queues'] & w' & Hrun & q' & b' & r' & E' & S' & Hqs & Hl' & Hm & Hd & Hr).
  cbn [fst snd] in Hqs, Hl'. subst queues'.
  eexists. split; [unfold step_producer; rewrite Epc; cbn [mbind option_bind]; by rewrite Hrun|].
  exists q0, D. eapply lane_replaced; try done.
  rewrite Epc. intros [= ->]. exact (Hret eq_refl _ _ Hrun).
Qed.
(** *** The steps of the consumer *)

(** Only the completion queue changes. *)
Lemma cq_replaced io s q0 D q0' D' pc' w' : tinv io s q0 D -> ts_consumer s <> None ->
  w_mem w' = w_mem (ts_w s) -> (forall db, db <> doorbell q0 -> reg db (w_log w') = reg db (w_log (ts_w s))) ->
  doorbell q0' = doorbell q0 -> q_vaddr (tq_queue q0') = q_vaddr (tq_queue q0) ->
  cq_ok (w_mem (ts_w s)) (w_log w') ncq (tq_queue q0') (ts_posted s) D' (D' - lag_update (Some pc')) ->
  tq_counter q0' = D' - lag_count (Some pc') -> D' - lag_retire (Some pc') = D - lag_retire (ts_consumer s) ->
  (forall cpl, pc' = K_retire cpl -> cpl = cq_slot (tq_queue q0') ((D' - 1) mod ncq)) ->
  tq_counter q0 <= tq_counter q0' ->
  tinv io (TSys w' (<[0%nat := q0']> (ts_queues s)) (ts_main s) (ts_cancel s) (Some pc') (ts_producers s) (ts_ctls s) (ts_posted s)) q0' D'.
Proof.
  intros Hv Hco0 Hm Hr Hd Hva Hcq' Hct' HD Hre' Hle.
  pose proof Hv as [H0 (Hn1 & Hn2 & Hn3) Hlane Htb Hcq Hcv Hct Hdb Hpo Hre Hco Hma].
  constructor; simpl; rewrite ?Hm; try done.
  - by rewrite list_lookup_insert_eq by (by eapply lookup_lt_Some).
  - by rewrite length_insert.
  - intros i q c Hq Hc. rewrite list_lookup_insert_ne in Hq by done. destruct (Hlane i q c Hq Hc) as (b & r & E & S & Hl).
    exists b, r, E, S. unfold retired. cbn [ts_consumer ts_posted]. rewrite HD.
    eapply lane_frame; [by eapply lane_in|apply agree_refl| |exact Hl].
    apply Hr. by eapply (doorbells_differ _ _ _ _ 0%nat (Datatypes.S i)).
  - congruence.
  - by eapply doorbells_kept.
  - intros cpl [= ->]. by apply Hre'.
  - by rewrite <- Hco.
  - unfold main_at in *. simpl. destruct (ts_main s) as [| | | | | |[]]; try done; (split; [lia|apply Hma]).
Qed.

(** The queues and the completions count the same commands. *)
Lemma counted io s q0 D : tinv io s q0 D ->
  (forall i, (i < nq)%nat -> (cpls_of i (ts_posted s) <= length (todo i))%nat)
  /\ length (ts_posted s) = sum_list_with (fun i => cpls_of i (ts_posted s)) (seq 0 nq)
  /\ (length (ts_posted s) <= todo_upto nq)%nat.
Proof.
  intros Hv. assert (forall i, (i < nq)%nat -> (cpls_of i (ts_posted s) <= length (todo i))%nat) as Hle.
  { intros i Hi. destruct (lane_some _ _ _ _ _ Hv Hi) as (q & c & Hq & Hc). destruct (ti_lane _ _ _ _ Hv _ _ _ Hq Hc) as (b & r & E & S & Hl).
    rewrite (li_jobs _ _ _ _ _ _ _ _ _ _ _ _ _ Hl), length_app. pose proof (lk_counts _ _ _ _ _ _ _ _ (li_lane _ _ _ _ _ _ _ _ _ _ _ _ _ Hl)).
    destruct (li_running _ _ _ _ _ _ _ _ _ _ _ _ _ Hl). lia. }
  pose proof (sum_cpls nq _ (ti_posted _ _ _ _ Hv)) as Es. split; [done|]. split; [done|]. rewrite Es. apply sum_le.
  intros i Hi%elem_of_seq. apply Hle. lia.
Qed.

Lemma todo_upto_bound k : (k <= nq)%nat -> Z.of_nat (todo_upto k) <= share_page d n_queues size (Z.of_nat k) + Z.of_nat k.
Proof.
  intros Hk. induction k as [|k IH]; [pose proof (sz_queues _ _ _ _ _ _ Hsz); unfold share_page; rewrite (proj2 (Z.ltb_lt _ _)) by lia; change (Z.of_nat (todo_upto 0)) with 0; lia|].
  unfold todo_upto. rewrite seq_S, sum_list_with_app. fold (todo_upto k). cbn [sum_list_with Nat.add]. pose proof (todo_length k ltac:(lia)).
  specialize (IH ltac:(lia)). replace (Z.of_nat (Datatypes.S k)) with (Z.of_nat k + 1) by lia. lia.
Qed.

Lemma todo_upto_63 : Z.of_nat (todo_upto nq) < 2 ^ 63.
Proof.
  pose proof (todo_upto_bound nq ltac:(lia)) as Hb. pose proof (sz_queues _ _ _ _ _ _ Hsz). rewrite Z2Nat.id in Hb by lia.
  unfold share_page in Hb. rewrite Z.ltb_irrefl in Hb. pose proof pages_62. lia.
Qed.

Definition consumer_next (s : tsys) (r : consumer_pc * list queue) (w' : uworld) : tsys :=
  TSys w' (snd r) (ts_main s) (ts_cancel s) (Some (fst r)) (ts_producers s) (ts_ctls s) (ts_posted s).

Lemma wp_queue0 s io q0 D (Q : queue -> uworld -> Prop) w : tinv io s q0 D -> Q q0 w -> wp quiet_env (queue_at (ts_queues s) 0) w Q.
Proof. intros Hv HQ. eapply wp_queue_at; [apply (ti_q0 _ _ _ _ Hv)|done]. Qed.

(** The consumer goes on to [pc'] without changing anything. *)
Lemma consumer_goto io s q0 D pc' : tinv io s q0 D -> ts_consumer s <> None ->
  lag_retire (Some pc') = lag_retire (ts_consumer s) -> lag_update (Some pc') = lag_update (ts_consumer s) ->
  lag_count (Some pc') = lag_count (ts_consumer s) -> (forall cpl, pc' <> K_retire cpl) ->
  Inv io (consumer_next s (pc', ts_queues s) (ts_w s)).
Proof.
  intros Hv Hco H1 H2 H3 H4. exists q0, D. unfold consumer_next. cbn [fst snd].
  rewrite <- (list_insert_id (ts_queues s) 0 q0) by apply (ti_q0 _ _ _ _ Hv).
  eapply cq_replaced; try done; rewrite ?H1, ?H2, ?H3; try apply Hv; try done. intros cpl ->. by destruct (H4 cpl).
Qed.

Lemma consumer_dequeues io s q0 D : tinv io s q0 D -> ts_consumer s = Some K_dequeue ->
  wp quiet_env (consume_completions (ts_cancel s) K_dequeue (ts_queues s)) (ts_w s) (fun r w' => Inv io (consumer_next s r w')).
Proof.
  intros Hv Hc. cbn [consume_completions]. wp_step. eapply wp_queue0; [done|]. wp_step. apply quiet_dequeue.
  intros w' Hmem Hst Hlog. pose proof (ti_cq _ _ _ _ Hv) as Hcq. pose proof (ti_counter _ _ _ _ Hv) as Hct.
  rewrite Hc in Hcq, Hct. cbn [lag_update lag_count] in Hcq, Hct. rewrite Z.sub_0_r in Hcq, Hct.
  destruct (cq_ok_dequeue _ _ _ _ _ _ Hcq) as [(Hlt & cq' & -> & Hnn & Hcq' & Hd & Hva)|(Heq & ->)]; wp_step.
  - rewrite (proj2 (Z.eqb_neq _ _) Hnn). exists (tq_set cq' q0), (D + 1). unfold consumer_next. cbn [fst snd].
    eapply cq_replaced; try done; cbn [lag_update lag_count lag_retire]; rewrite ?Hc; cbn [lag_retire tq_set tq_counter]; try lia.
    + congruence.
    + replace (D + 1 - 1) with D by lia. eapply cq_ok_frame; [apply agree_refl|apply Hlog|done].
    + intros cpl [= <-]. unfold cq_slot. simpl. by rewrite Hva, Z.add_simpl_r.
  - exists q0, D. unfold consumer_next. cbn [fst snd]. replace (tq_set (tq_queue q0) q0) with q0 by by destruct q0.
    eapply cq_replaced; try done; cbn [lag_update lag_count lag_retire]; rewrite ?Hc, ?Z.sub_0_r; cbn [lag_retire]; try lia.
    + congruence.
    + eapply cq_ok_frame; [apply agree_refl|apply Hlog|done].
Qed.

Lemma consumer_updates io s q0 D : tinv io s q0 D -> ts_consumer s = Some K_update ->
  wp quiet_env (consume_completions (ts_cancel s) K_update (ts_queues s)) (ts_w s) (fun r w' => Inv io (consumer_next s r w')).
Proof.
  intros Hv Hc. cbn [consume_completions]. wp_step. eapply wp_queue0; [done|]. wp_step. apply quiet_cq_update.
  intros w' Hmem Hst Hlog. pose proof (ti_cq _ _ _ _ Hv) as Hcq. pose proof (ti_counter _ _ _ _ Hv) as Hct.
  rewrite Hc in Hcq, Hct. cbn [lag_update lag_count] in Hcq, Hct. wp_step.
  replace D with (D - 1 + 1) in Hcq at 1 by lia. pose proof (cq_ok_update _ _ (w_log w') _ _ _ _ Hcq Hlog) as Hcq'.
  replace (D - 1 + 1) with D in Hcq' by lia. set (cq' := if negb _ then _ else _) in *.
  assert (q_db cq' = q_db (tq_queue q0) /\ q_vaddr cq' = q_vaddr (tq_queue q0)) as [Ed Ev] by (unfold cq'; by destruct (negb _)).
  exists (tq_set cq' q0), D. unfold consumer_next. cbn [fst snd].
  eapply cq_replaced; try done; cbn [lag_update lag_count lag_retire]; rewrite ?Hc, ?Z.sub_0_r; cbn [lag_retire tq_set tq_counter]; try done; try lia.
  intros db Hdb. rewrite Hlog, (proj2 (Z.eqb_neq (q_db (tq_queue q0)) db)); [by rewrite andb_false_r|]. unfold doorbell in Hdb. congruence.
Qed.

Lemma consumer_counts io s q0 D : tinv io s q0 D -> ts_consumer s = Some K_count ->
  wp quiet_env (consume_completions (ts_cancel s) K_count (ts_queues s)) (ts_w s) (fun r w' => Inv io (consumer_next s r w')).
Proof.
  intros Hv Hc. cbn [consume_completions]. wp_step. eapply wp_queue0; [done|]. wp_step.
  pose proof (ti_cq _ _ _ _ Hv) as Hcq. pose proof (ti_counter _ _ _ _ Hv) as Hct. pose proof (co_window _ _ _ _ _ _ _ Hcq).
  destruct (counted _ _ _ _ Hv) as (_ & _ & Hn). pose proof todo_upto_63.
  rewrite Hc in Hcq, Hct. cbn [lag_update lag_count] in Hcq, Hct.
  assert (u64 (tq_counter q0 + 1) = D) as Eu by (rewrite Hct, u64_small; [lia|]; pose proof (co_known _ _ _ _ _ _ _ Hcq); lia).
  exists (tq_count q0), D. unfold consumer_next. cbn [fst snd]. 
  eapply cq_replaced; try done; cbn [lag_update lag_count lag_retire]; rewrite ?Hc; cbn [lag_retire tq_count tq_counter]; rewrite ?Eu; try done; try lia.
Qed.

Lemma consumer_retires io s q0 D cpl : tinv io s q0 D -> ts_consumer s = Some (K_retire cpl) ->
  wp quiet_env (consume_completions (ts_cancel s) (K_retire cpl) (ts_queues s)) (ts_w s) (fun r w' => Inv io (consumer_next s r w')).
Proof.
  intros Hv Hc. pose proof Hv as [H0 (Hn1 & Hn2 & Hn3) Hlane Htb Hcq Hcv Hct Hdb Hpo Hre Hco Hma].
  rewrite Hc in Hcq, Hct. cbn [lag_update lag_count] in Hcq, Hct. specialize (Hre _ Hc).
  pose proof (co_known _ _ _ _ _ _ _ Hcq) as Hk. pose proof (co_window _ _ _ _ _ _ _ Hcq).
  destruct (lookup_lt_is_Some_2 (ts_posted s) (Z.to_nat (D - 1))) as [e He]; [lia|].
  assert (ld 2 (w_mem (ts_w s)) (NVM_CPL_SQID cpl) = sqid_of e) as Hsq.
  { rewrite cpl_sqid, Hre. unfold sqid_of. destruct e as [p st]. simpl. f_equal. f_equal.
    eapply cq_ok_last; [|exact He]. by replace (D - 1 + 1) with D by lia. }
  pose proof (Forall_lookup_1 _ _ _ _ Hpo He) as (i & Hi & Ei). rewrite Ei in Hsq.
  destruct (lane_some _ _ _ _ _ Hv Hi) as (q & c & Hq & Hcc).
  assert (forall j, Z.of_nat (cpls_of j (take (Z.to_nat D) (ts_posted s)))
    = Z.of_nat (cpls_of j (retired s D)) + (if decide (j = i) then 1 else 0)) as Hcount.
  { intros j. unfold retired. rewrite Hc. cbn [lag_retire]. replace (Z.to_nat D) with (Datatypes.S (Z.to_nat (D - 1))) by lia.
    rewrite (take_S_r _ _ _ He), cpls_app, cpls_cons, Ei. change (cpls_of j []) with 0%nat.
    destruct (decide (j = i)) as [->|]; [rewrite decide_True by done; lia|rewrite decide_False by lia; lia]. }
  assert (forall j, (cpls_of j (take (Z.to_nat D) (ts_posted s)) <= cpls_of j (ts_posted s))%nat) as Hle.
  { intros j. rewrite <- (take_drop (Z.to_nat D) (ts_posted s)) at 2. rewrite cpls_app. lia. }
  cbn [consume_completions]. unfold ld_mem. do 3 wp_step. wp_step. rewrite Hsq.
  assert (Z.to_nat (Z.of_nat i + 1) = Datatypes.S i) as Eno by lia.
  wp_step. eapply wp_queue_at; [by rewrite Eno|]. wp_step. exists q0, D. unfold consumer_next, set_queue. cbn [fst snd]. rewrite Eno.
  set (q' := tq_set (nvm_sq_update (tq_queue q)) q).
  assert (doorbell q' = doorbell q /\ q_no (tq_queue q') = q_no (tq_queue q)) as [Edb Eqn]
    by (unfold q', nvm_sq_update, doorbell; simpl; by destruct (_ =? _)).
  constructor; simpl; rewrite ?Z.sub_0_r; try done.
  - by rewrite list_lookup_insert_ne.
  - by rewrite length_insert.
  - intros j qj cj Hqj Hcj. unfold retired. cbn [ts_consumer ts_posted lag_retire]. rewrite Z.sub_0_r, Hcount. specialize (Hle j). specialize (Hcount j).
    destruct (decide (j = i)) as [->|Hne].
    + rewrite list_lookup_insert_eq in Hqj by (by eapply lookup_lt_Some). simplify_eq.
      destruct (Hlane i q c Hq Hcc) as (b & r & E & S & [Hj Hl Hf Hr Hno Hqm Hru Hio Hcn Hpc Hb]). exists b, r, E, S.
      constructor; try done.
      * apply lane_retire; [done|]. destruct Hru. lia.
      * unfold doorbell in Edb. by rewrite Edb.
      * by rewrite Eqn.
    + rewrite list_lookup_insert_ne in Hqj by congruence. rewrite Z.add_0_r. by apply Hlane.
  - by eapply doorbells_kept.
  - by rewrite <- Hco, Hc.
Qed.

Lemma consumer_runs io s pc : Inv io s -> ts_consumer s = Some pc ->
  wp quiet_env (consume_completions (ts_cancel s) pc (ts_queues s)) (ts_w s) (fun r w' => Inv io (consumer_next s r w')).
Proof.
  intros (q0 & D & Hv) Hc. destruct pc.
  - cbn [consume_completions]. wp_step. eapply consumer_goto; rewrite ?Hc; try done; by destruct (ts_cancel s).
  - by eapply consumer_dequeues.
  - by eapply consumer_retires.
  - by eapply consumer_updates.
  - by eapply consumer_counts.
  - cbn [consume_completions]. wp_step. eapply consumer_goto; rewrite ?Hc; try done.
Qed.

(** *** The steps of the controller *)

Lemma transfer_fetch_inv io s i s' : Inv io s -> step_fetch i s = Some s' -> Inv io s'.
Proof.
  intros (q0 & D & Hv) Hs. unfold step_fetch in Hs. destruct (ts_queues s !! Datatypes.S i) as [q|] eqn:Hq; [|done].
  destruct (ts_ctls s !! i) as [c|] eqn:Hc; [|done]. cbn [mbind option_bind] in Hs.
  pose proof (lane_in _ _ _ _ _ _ Hv Hq) as Hi. pose proof Hv as [H0 (Hn1 & Hn2 & Hn3) Hlane Htb Hcq Hcv Hct Hdb Hpo Hre Hco Hma].
  destruct (Hlane i q c Hq Hc) as (b & r & E & S & [Hj Hl Hf Hr Hno Hqm Hru Hio Hcn Hpc Hb]).
  rewrite Hr, (sqs_size _ _ _ _ (lk_ring _ _ _ _ _ _ _ _ Hl)) in Hs.
  destruct (Z.eqb_spec (Z.of_nat (length (tc_fetched c)) mod lane_size (lane_of i)) (S mod lane_size (lane_of i))) as [|Hne]; [done|].
  injection Hs as <-. pose proof (lk_counts _ _ _ _ _ _ _ _ Hl).
  assert (Z.of_nat (length (tc_fetched c)) < S) as Hlt by (destruct (decide (Z.of_nat (length (tc_fetched c)) = S)); [congruence|lia]).
  destruct (lane_fetch _ _ _ _ _ _ _ _ Hl Hlt) as [(j & Hjl & Hjd) Hl'].
  exists q0, D. constructor; simpl; try done; [by rewrite length_insert|].
  intros k qk ck Hqk Hck. destruct (decide (i = k)) as [<-|Hik].
  2:{ rewrite list_lookup_insert_ne in Hck by done. by apply Hlane. }
  rewrite list_lookup_insert_eq in Hck by (by eapply lookup_lt_Some). simplify_eq. exists b, r, E, S.
  constructor; simpl; try done.
  - by rewrite length_app, Nat2Z.inj_add.
  - intros x cmd Hx. apply lookup_app_Some in Hx as [Hx|[Hge Hx]]; [by apply Hf|].
    apply list_lookup_singleton_Some in Hx as [Hx <-]. assert (x = length (tc_fetched c)) as -> by lia.
    exists j. rewrite Nat2Z.id in Hjl. split; [done|]. rewrite <- Hjd. unfold slot. by rewrite (lk_vaddr _ _ _ _ _ _ _ _ Hl).
  - rewrite !length_app. simpl. destruct Hru as [Hru Hall]. split; [lia|]. apply Forall_app. split.
    + eapply Forall_impl; [|exact Hall]. simpl. lia.
    + constructor; [lia|done].
  - intros Hin. rewrite length_app. simpl. rewrite seq_app, <- Hio by done. f_equal. simpl. f_equal. destruct Hru. unfold retired in *. simpl in *. lia.
Qed.

Lemma payload_sqid sp sqhd sqid cid st : sqid_of (cpl_payload sp sqhd sqid cid, st) = u16 sqid.
Proof.
  unfold sqid_of, cpl_payload. simpl fst. pose proof (u64_bound sp). pose proof (u16_bound sqhd). pose proof (u16_bound sqid).
  replace (u64 sp + 2 ^ 64 * (u16 sqhd + 2 ^ 16 * (u16 sqid + 2 ^ 16 * u16 cid)))
    with (u64 sp + 2 ^ 64 * u16 sqhd + (u16 sqid + u16 cid * 2 ^ 16) * 2 ^ 80) by lia.
  rewrite Z.div_add, (Z.div_small (u64 sp + _)), Z.add_0_l, Z.mod_add, Z.mod_small by lia. done.
Qed.

Lemma transfer_complete_inv io s i k sp st s' : Inv io s -> step_complete i k sp st s = Some s' -> (io = true -> k = 0%nat) -> Inv io s'.
Proof.
  intros (q0 & D & Hv) Hs Hk. pose proof Hv as [H0 (Hn1 & Hn2 & Hn3) Hlane Htb Hcq Hcv Hct Hdb Hpo Hre Hco Hma].
  unfold step_complete in Hs. rewrite H0 in Hs. cbn [mbind option_bind] in Hs.
  destruct (ts_queues s !! Datatypes.S i) as [q|] eqn:Hq; [|done]. destruct (ts_ctls s !! i) as [c|] eqn:Hc; [|done]. cbn in Hs.
  destruct (tc_running c !! k) as [x|] eqn:Hx; [|done]. cbn in Hs. destruct (tc_fetched c !! x) as [cmd|]; [|done]. cbn -[Z.pow cpl_payload] in Hs.
  pose proof (lane_in _ _ _ _ _ _ Hv Hq) as Hi. pose proof (cqs_size _ _ _ _ (co_state _ _ _ _ _ _ _ Hcq)) as Hsz'.
  pose proof (cqs_pos _ _ _ _ (co_state _ _ _ _ _ _ _ Hcq)). rewrite Hsz' in Hs.
  destruct (Z.eqb_spec ((Z.of_nat (length (ts_posted s)) + 1) mod ncq) (reg (q_db (tq_queue q0)) (w_log (ts_w s)))) as [|Hroom]; [done|].
  injection Hs as <-. set (p := cpl_payload _ _ _ _). set (m' := post_cpl _ _ _ _ _ _).
  assert (forall a n, apart cq_vaddr (16 * ncq) a n -> agree (w_mem (ts_w s)) m' a n) as Ha.
  { intros a n Hap. apply post_cpl_agree; [lia|]. rewrite Hcv. unfold apart in Hap. lia. }
  destruct (Hlane i q c Hq Hc) as (b & r & E & S & Hl). pose proof (li_no _ _ _ _ _ _ _ _ _ _ _ _ _ Hl) as Hno.
  assert (sqid_of (p, wrap 15 st) = Z.of_nat i + 1) as Hsq.
  { unfold p. rewrite payload_sqid, Hno. apply u16_small. pose proof (sz_queues _ _ _ _ _ _ Hsz). lia. }
  exists q0, D. pose proof (co_window _ _ _ _ _ _ _ Hcq) as Hwin. constructor; simpl; try done.
  - by rewrite length_insert.
  - intros j qj cj Hqj Hcj. pose proof (lane_in _ _ _ _ _ _ Hv Hqj) as Hj. unfold retired. cbn [ts_consumer ts_posted].
    rewrite take_app_le by (destruct (ts_consumer s) as [[]|]; simpl; lia). rewrite cpls_app, cpls_cons, Hsq. change (cpls_of j []) with 0%nat.
    destruct (decide (i = j)) as [<-|Hne].
    + rewrite list_lookup_insert_eq in Hcj by (by eapply lookup_lt_Some). simplify_eq. rewrite decide_True by done.
      exists b, r, E, S. eapply lane_frame in Hl; [|done|apply Ha; by apply Hsu|reflexivity].
      destruct Hl as [Hj' Hl Hf Hr _ Hqm Hru Hio Hcn Hpc Hb]. constructor; try done; cbn [tc_fetched tc_running].
      * destruct Hru as [Hru Hall]. pose proof (lookup_lt_Some _ _ _ Hx). rewrite length_delete by done.
        split; [lia|]. by apply Forall_delete.
      * intros Hin. specialize (Hio Hin). rewrite (Hk Hin) in *. destruct (tc_running c) as [|y l]; [done|]. simpl in *.
        injection Hio as _ Hio. rewrite Nat2Z.id in *. rewrite Hio at 1. f_equal. lia.
    + rewrite list_lookup_insert_ne in Hcj by done. rewrite decide_False by lia. rewrite Nat.add_0_r.
      destruct (Hlane j qj cj Hqj Hcj) as (b' & r' & E' & S' & Hlj). exists b', r', E', S'.
      eapply lane_frame; [done|apply Ha; by apply Hsu|reflexivity|exact Hlj].
  - eapply table_at_agree; [|exact Htb]. apply Ha. apply Hsu.
  - apply cq_ok_post; [done|done|apply cpl_payload_bound|apply wrap_bound; lia].
  - apply Forall_app. split; [done|]. constructor; [by exists i|done].
Qed.

(** *** The steps of [transfer] *)

Lemma main_goto io s q0 D pc : tinv io s q0 D -> not_started pc = not_started (ts_main s) ->
  main_at (ts_set_main pc s) (tq_counter q0) -> tinv io (ts_set_main pc s) q0 D.
Proof. intros [] Hn Hm. constructor; try done. simpl. by rewrite Hn. Qed.

Lemma todo_upto_S k : todo_upto (Datatypes.S k) = (todo_upto k + length (todo k))%nat.
Proof. unfold todo_upto. rewrite seq_S, sum_list_with_app. simpl. lia. Qed.

Lemma todo_upto_mono k n : (k <= n)%nat -> (todo_upto k <= todo_upto n)%nat.
Proof. induction 1; [done|]. rewrite todo_upto_S. lia. Qed.

(** A producer that has returned has built all its commands. *)
Lemma returned_counter io s q0 D i q : tinv io s q0 D -> ts_queues s !! Datatypes.S i = Some q ->
  ts_producers s !! i = Some T_return -> tq_counter q = Z.of_nat (length (todo i)).
Proof.
  intros Hv Hq Hp. pose proof (lane_in _ _ _ _ _ _ Hv Hq) as Hi. destruct (lane_some _ _ _ _ _ Hv Hi) as (q' & c & Hq' & Hc).
  destruct (ti_lane _ _ _ _ Hv _ _ _ Hq Hc) as (b & r & E & S & Hl). rewrite Hp in Hl.
  rewrite (li_counter _ _ _ _ _ _ _ _ _ _ _ _ _ Hl), (li_jobs _ _ _ _ _ _ _ _ _ _ _ _ _ Hl).
  destruct (li_pc _ _ _ _ _ _ _ _ _ _ _ _ _ Hl) as (-> & _). by rewrite app_nil_r.
Qed.

Lemma transfer_inv io s s' : Inv io s -> step_transfer d write n_queues size s = Some s' -> Inv io s'.
Proof.
  intros (q0 & D & Hv) Hs. pose proof (sz_queues _ _ _ _ _ _ Hsz) as Hnq. pose proof (ti_lens _ _ _ _ Hv) as (Hn1 & Hn2 & Hn3).
  pose proof (ti_main _ _ _ _ Hv) as Hm. exists q0. unfold step_transfer in Hs. unfold main_at in Hm. destruct (ts_main s) as [|i|i cm|cm| | |] eqn:Em; try done.
  - subst i. destruct (Z.ltb_spec (Z.of_nat (length (ts_producers s))) n_queues) as [Hlt|Hge]; injection Hs as <-; exists D.
    + destruct Hv as [H0 _ Hlane Htb Hcq Hcv Hct Hdb Hpo Hre Hco Hma]. constructor; simpl; try done.
      * rewrite length_app. simpl. lia.
      * intros j q c Hq Hc. destruct (Hlane j q c Hq Hc) as (b & r & E & S & [? ? ? ? ? ? ? ? ? Hpc Hb]). exists b, r, E, S.
        constructor; try done; (destruct (decide (j < length (ts_producers s))%nat); [by rewrite lookup_app_l by lia|]);
          rewrite (lookup_ge_None_2 (ts_producers s) j) in * by lia; rewrite lookup_app_r by lia;
          (destruct (j - length (ts_producers s))%nat; [|done]); done.
      * rewrite Em in Hco. done.
      * unfold main_at. simpl. rewrite length_app. simpl. rewrite u16_small by lia. lia.
    + eapply main_goto; [done|by rewrite Em|]. unfold main_at. simpl. repeat split; try done; try lia. all: intros; lia.
  - destruct Hm as (Hlen & Hi & -> & Hret). destruct (Z.ltb_spec i n_queues) as [Hlt|Hge].
    + case_bool_decide as Hp; [|done]. destruct (share_spec _ _ write _ _ _ _ Hsz i ltac:(lia)) as (_ & Eno & _). rewrite Eno in Hs.
      replace (Z.to_nat (i + 1)) with (Datatypes.S (Z.to_nat i)) in Hs by lia.
      destruct (ts_queues s !! Datatypes.S (Z.to_nat i)) as [q|] eqn:Hq; [|done]. cbn in Hs. injection Hs as <-. exists D.
      rewrite (returned_counter _ _ _ _ _ _ Hv Hq Hp). eapply main_goto; [done|by rewrite Em|]. unfold main_at. simpl.
      rewrite u16_small by lia. split; [done|]. split; [lia|]. replace (Z.to_nat (i + 1)) with (Datatypes.S (Z.to_nat i)) by lia.
      rewrite todo_upto_S. split.
      * pose proof todo_upto_63. pose proof (todo_upto_mono (Datatypes.S (Z.to_nat i)) nq ltac:(lia)) as Hmo. rewrite todo_upto_S in Hmo.
        rewrite u64_small; lia.
      * intros j Hj. destruct (decide (j = Z.to_nat i)) as [->|]; [done|]. apply Hret. lia.
    + injection Hs as <-. exists D. eapply main_goto; [done|by rewrite Em|]. unfold main_at. simpl.
      assert (i = n_queues) as -> by lia. done.
  - destruct Hm as [-> Hret]. rewrite (ti_q0 _ _ _ _ Hv) in Hs. cbn in Hs. injection Hs as <-. exists D.
    destruct (Z.ltb_spec (tq_counter q0) (Z.of_nat (todo_upto nq))); (eapply main_goto; [done|by rewrite Em|]); unfold main_at; by simpl.
  - injection Hs as <-. exists D. destruct Hv. constructor; try done. simpl. by rewrite Em in ti_consumer0.
  - case_bool_decide; [|done]. injection Hs as <-. exists D. eapply main_goto; [done|by rewrite Em|]. unfold main_at. by simpl.
Qed.

Lemma alloc_inv io s ok s' : Inv io s -> tsys_step d buf ioaddrs write n_queues size (Tv_alloc ok) s = Some s' -> Inv io s'.
Proof.
  intros (q0 & D & Hv) Hs. exists q0, D. simpl in Hs. destruct (ts_main s) eqn:Em; try done.
  pose proof (ti_consumer _ _ _ _ Hv) as Hco. rewrite Em in Hco. pose proof (ti_main _ _ _ _ Hv) as Hm. unfold main_at in Hm. rewrite Em in Hm.
  assert (ts_consumer s = None) as Hc by by apply Hco. destruct ok; injection Hs as <-.
  - destruct Hv. rewrite Hc in *. simpl in *. constructor; simpl; try done; [split; [apply ti_lens0|split; [apply ti_lens0|lia]]|].
    intros i q c Hq Hcc. specialize (ti_lane0 i q c Hq Hcc). rewrite Hm in *. unfold retired in *. by rewrite Hc in *.
  - eapply main_goto; [done|by rewrite Em|]. unfold main_at. by simpl.
Qed.

Lemma tstep_inv io s s' : Inv io s -> tstep d buf ioaddrs write n_queues size io s s' -> Inv io s'.
Proof.
  intros Hv ([ok| | |i|i|i k sp st] & Hs & Hio).
  - by eapply alloc_inv.
  - by eapply transfer_inv.
  - simpl in Hs. unfold step_consumer in Hs. destruct (ts_consumer s) as [pc|] eqn:Ec; [|done]. cbn in Hs.
    pose proof (consumer_runs _ _ _ Hv Ec) as Hw. apply wp_run in Hw as ([pc' qs] & w' & Hrun & Hw). rewrite Hrun in Hs.
    injection Hs as <-. exact Hw.
  - simpl in Hs. assert (is_Some (ts_producers s !! i)) as Hp.
    { unfold step_producer in Hs. destruct (ts_producers s !! i); [by eexists|done]. }
    destruct (producer_step _ _ _ Hv Hp) as (s1 & E & Hv'). rewrite E in Hs. by injection Hs as <-.
  - by eapply transfer_fetch_inv.
  - eapply transfer_complete_inv; [done|exact Hs|exact Hio].
Qed.

(** *** Before the transfer *)

(** The queues were just created, in cleared memory. *)
Record transfer_init (s : tsys) : Prop := {
  in_main : ts_main s = X_alloc /\ ts_consumer s = None /\ ts_producers s = [];
  in_ctl : ts_ctls s = replicate nq (SqCtl [] []) /\ ts_posted s = [] /\ length (ts_queues s) = Datatypes.S nq;
  in_cq : exists q0, ts_queues s !! 0%nat = Some q0 /\ cq_ok (w_mem (ts_w s)) (w_log (ts_w s)) ncq (tq_queue q0) [] 0 0
    /\ q_vaddr (tq_queue q0) = cq_vaddr /\ tq_counter q0 = 0;
  in_sq : forall i q, ts_queues s !! Datatypes.S i = Some q ->
    sq_state (lane_size (lane_of i)) 0 0 (tq_queue q) /\ q_vaddr (tq_queue q) = dma_vaddr (mems i)
    /\ q_entry_size (tq_queue q) = 64 /\ q_last (tq_queue q) = 0 /\ q_no (tq_queue q) = Z.of_nat i + 1
    /\ tq_qmem q = mems i /\ tq_counter q = 0 /\ reg (doorbell q) (w_log (ts_w s)) = 0;
  in_db : NoDup (doorbell <$> ts_queues s);
  in_zero : forall i b, (i < nq)%nat -> dma_vaddr (mems i) <= b < dma_vaddr (mems i) + 64 * lane_size (lane_of i) ->
    ld8 (w_mem (ts_w s)) b = 0;
  in_table : table_at (lane_of 0) (w_mem (ts_w s));
}.

Lemma transfer_init_inv io s : transfer_init s -> Inv io s.
Proof.
  intros [(Hm & Hc & Hp) (Hct & Hpo & Hlen) (q0 & H0 & Hcq & Hcv & Hcn) Hsq Hdb Hz Ht]. exists q0, 0.
  constructor; rewrite ?Hm, ?Hc, ?Hp, ?Hpo; simpl; try done.
  - rewrite Hct, length_replicate. split; [done|]. split; [done|lia].
  - intros i q c Hq Hcc. rewrite Hct in Hcc. apply lookup_replicate in Hcc as [-> Hi].
    destruct (Hsq i q Hq) as (Hs1 & Hs2 & Hs3 & Hs4 & Hs5 & Hs6 & Hs7 & Hs8). exists [], (todo i), 0, 0.
    unfold retired. rewrite Hc, Hpo. simpl. constructor; simpl; try done.
    constructor; try done; try (simpl; lia).
    intros x Hx. apply blank_zero. intros b Hb. apply (Hz i b Hi). simpl in *. lia.
  - unfold main_at. by rewrite Hm.
Qed.

Lemma transfer_reachable io s0 s : transfer_init s0 -> rtc (tstep d buf ioaddrs write n_queues size io) s0 s -> Inv io s.
Proof. intros Hi Hr. apply (transfer_init_inv io) in Hi. induction Hr as [|s1 s2 s3 Hs _ IH]; [done|]. by eapply IH, tstep_inv. Qed.

(** When [transfer] returns 0 the commands of every queue have completed. *)
Lemma all_completed io s q0 D : tinv io s q0 D -> ts_main s = X_return 0 ->
  forall i, (i < nq)%nat -> cpls_of i (ts_posted s) = length (todo i) /\ ts_producers s !! i = Some T_return.
Proof.
  intros Hv Em. pose proof (ti_main _ _ _ _ Hv) as Hm. unfold main_at in Hm. rewrite Em in Hm. destruct Hm as [Hc Hret].
  destruct (counted _ _ _ _ Hv) as (Hle & Hsum & Hn). pose proof (ti_counter _ _ _ _ Hv) as Hct.
  pose proof (co_window _ _ _ _ _ _ _ (ti_cq _ _ _ _ Hv)). assert (0 <= lag_count (ts_consumer s)) by (by destruct (ts_consumer s) as [[]|]).
  intros i Hi. split; [|by apply Hret].
  apply (sum_eq (fun i => cpls_of i (ts_posted s)) (fun i => length (todo i)) (seq 0 nq)).
  - intros j Hj%elem_of_seq. apply Hle. lia.
  - fold (todo_upto nq). lia.
  - apply elem_of_seq. lia.
Qed.
End invariant.

(** ** Properties *)

(** C21: the commands that [transfer] has its producers build cover the pages of the
    data, and the blocks of those pages, once and in order, queue after queue,
    however the pages divide among the queues (fewer pages than queues included);
    the pages are as few as hold the data. *)
Theorem transfer_covers d buf write n_queues size kb kp : sizes_ok d buf n_queues size kb kp ->
  let jobs := seqZ 0 n_queues ≫= (fun i => producer_jobs d buf (share d write n_queues size i)) in
  jobs ≫= job_pages = seqZ 0 (total_pages d size)
  /\ jobs ≫= job_blocks = seqZ 0 (dk_page_size d / dk_block_size d * total_pages d size)
  /\ dk_page_size d * (total_pages d size - 1) < size <= dk_page_size d * total_pages d size.
Proof.
  intros Hsz jobs. subst jobs. destruct (blocks_per_page _ _ _ _ _ _ Hsz) as (Hr & E & Hb).
  pose proof (sz_queues _ _ _ _ _ _ Hsz). pose proof (share_page_mono _ _ _ _ _ _ Hsz) as Hm.
  destruct (sz_page _ _ _ _ _ _ Hsz) as [Ep1 Ep2].
  assert (share_page d n_queues size 0 = 0 /\ share_page d n_queues size n_queues = total_pages d size) as [E0 E1].
  { unfold share_page. rewrite Z.ltb_irrefl, (proj2 (Z.ltb_lt _ _)) by lia. split; [lia|done]. }
  split; [|split].
  - rewrite bind_bind. destruct (ranges_bind (fun i => producer_jobs d buf (share d write n_queues size i) ≫= job_pages)
      (share_page d n_queues size) 1 0 n_queues) as [-> _]; [lia..| |rewrite E0, Z.add_0_l, E1; f_equal; lia].
    intros i Hi. split; [|by apply Hm]. eapply producer_jobs_list; [exact Hsz|lia|by intros ? <-| |lia].
    intros off n Ho Hn He. erewrite move_job_blocks by done. cbn [job_pages]. f_equal; lia.
  - rewrite bind_bind. destruct (ranges_bind (fun i => producer_jobs d buf (share d write n_queues size i) ≫= job_blocks)
      (share_page d n_queues size) (2 ^ (kp - kb)) 0 n_queues) as [-> _]; [lia..| |rewrite E0, Z.add_0_l, E1].
    + intros i Hi. split; [|by apply Hm]. eapply producer_jobs_list; [exact Hsz|lia|by intros ? <-| |lia].
      intros off n Ho Hn He. by erewrite move_job_blocks by done.
    + rewrite (sz_block _ _ _ _ _ _ Hsz), Ep1, E, Z.div_mul by lia. f_equal; lia.
  - rewrite Ep1. pose proof (total_pages_spec _ _ _ _ _ _ Hsz). lia.
Qed.

(** C6: however the producers, the consumer and the controller interleave, every
    command the controller takes from a submission queue is, whole, the next of the
    commands its producer was to build, whatever order commands complete in; if
    those of a queue complete in order, the PRP list of every command being executed
    is intact for as long as it is executed; and when [transfer] returns 0 every
    command of every queue has been executed and completed. *)
Theorem transfer_commands_delivered `{Build} d buf ioaddrs write n_queues size kb kp ks mems ncq cq_vaddr inorder s0 s :
  transfer_setup d buf ioaddrs n_queues size kb kp ks mems ncq cq_vaddr ->
  transfer_init d buf ioaddrs n_queues ks mems ncq cq_vaddr s0 ->
  rtc (tstep d buf ioaddrs write n_queues size inorder) s0 s ->
  forall i c, ts_ctls s !! i = Some c ->
  let L := lane_of d buf ioaddrs ks mems i in
  let jobs := producer_jobs d buf (share d write n_queues size (Z.of_nat i)) in
  (forall x cmd, tc_fetched c !! x = Some cmd -> exists j, jobs !! x = Some j /\ cmd = job_dwords L (Z.of_nat x) j)
  /\ (inorder = true -> forall x, x ∈ tc_running c -> exists j, jobs !! x = Some j /\ list_holds L (w_mem (ts_w s)) (Z.of_nat x) j)
  /\ (ts_main s = X_return 0 -> length (tc_fetched c) = length jobs /\ tc_running c = []).
Proof.
  intros Hsu Hi Hr i c Hc L jobs. edestruct transfer_reachable as (q0 & D & Hv); [exact Hsu|exact Hi|exact Hr|].
  pose proof Hv as Hx. apply ti_lens in Hx as (Hn1 & Hn2 & _). pose proof (lookup_lt_Some _ _ _ Hc) as Hi'. rewrite Hn2 in Hi'.
  edestruct lane_some as (q & c' & Hq & Hc'); [exact Hv|exact Hi'|]. simplify_eq.
  pose proof Hv as Hx. eapply ti_lane in Hx as (b & r & E & S & [Hj Hl Hf _ _ _ [Hru _] Hio _ _ _]); [|exact Hq|exact Hc].
  pose proof (lk_counts _ _ _ _ _ _ _ _ Hl) as Hcn. unfold todo in Hj. fold jobs in Hj. split; [|split].
  - intros x cmd Hx. destruct (Hf x cmd Hx) as (j & Hjl & ->). exists j. split; [|done]. rewrite Hj. by apply lookup_app_l_Some.
  - intros -> x Hx. rewrite (Hio eq_refl) in Hx. apply elem_of_seq in Hx. rewrite Nat2Z.id in Hx.
    destruct (lookup_lt_is_Some_2 b x) as [j Hjl]; [lia|]. exists j. split; [rewrite Hj; by apply lookup_app_l_Some|].
    apply (lk_lists _ _ _ _ _ _ _ _ Hl); [|done]. unfold retired. set (n := Z.to_nat _).
    pose proof (cpls_app i (take n (ts_posted s)) (drop n (ts_posted s))) as Ha. rewrite take_drop in Ha. lia.
  - intros Em. edestruct all_completed as [Hcp _]; [exact Hv|exact Em|exact Hi'|].
    unfold todo in Hcp. fold jobs in Hcp. rewrite Hcp in Hru. rewrite Hj, length_app in *. split; [lia|]. apply nil_length_inv. lia.
Qed.


(** C22: a write never finishes when the commands of one of its queues before the
    flush fill the ring to the last slot: [produce_commands] submits only when a
    command does not fit, or after the flush, and the loop that waits for a slot for
    the flush does not submit, so that the controller is never told of any of the
    queue's commands and no slot is ever freed. *)
Theorem transfer_flush_deadlock `{Build} d buf ioaddrs write n_queues size kb kp ks mems ncq cq_vaddr inorder s0 s i :
  transfer_setup d buf ioaddrs n_queues size kb kp ks mems ncq cq_vaddr ->
  transfer_init d buf ioaddrs n_queues ks mems ncq cq_vaddr s0 ->
  (i < Z.to_nat n_queues)%nat -> write = true ->
  Z.of_nat (length (producer_jobs d buf (share d write n_queues size (Z.of_nat i)))) = 2 ^ ks i ->
  rtc (tstep d buf ioaddrs write n_queues size inorder) s0 s ->
  ts_main s <> X_return 0 /\ ts_producers s !! i <> Some T_return
  /\ (forall c, ts_ctls s !! i = Some c -> tc_fetched c = []).
Proof.
  intros Hsu Hi0 Hi Hw Hlen Hr. edestruct transfer_reachable as (q0 & D & Hv); [exact Hsu|exact Hi0|exact Hr|].
  edestruct lane_some as (q & c & Hq & Hc); [exact Hv|exact Hi|].
  pose proof Hv as Hx. eapply ti_lane in Hx as (b & r & E & S & [Hj Hl _ _ _ _ _ _ _ _ Hb]); [|exact Hq|exact Hc].
  destruct Hb as [-> Hpc]; [by split|]. pose proof (lk_counts _ _ _ _ _ _ _ _ Hl) as Hcn. split; [|split].
  - intros Em. edestruct all_completed as [_ Hp]; [exact Hv|exact Em|exact Hi|]. by rewrite Hp in Hpc.
  - intros Hp. by rewrite Hp in Hpc.
  - intros c' Hc'. simplify_eq. apply nil_length_inv. lia.
Qed.

(** ** A small instance

    Pages of 256 bytes, blocks of 64, three pages per command, two submission queues
    of four entries, eighteen pages of data: three commands for each queue. *)
Module Small.
#[export] Instance build : Build := {| NDEBUG := false; CUDA := false |}.
Definition the_disk : disk := Disk 256 768 1 64.
Definition data : nvm_dma_t := Dma 0x40000 256 18 ((fun i => 0x90000 + 256 * Z.of_nat i) <$> seq 0 18).
Definition buf : buffer := Buffer 1 0 data.
Definition table : Z := 0x4000.
Definition mems (i : nat) : nvm_dma_t :=
  if decide (i = 0%nat) then Dma 0x10000 256 5 [0x50000; 0x50100; 0x50200; 0x50300; 0x50400]
  else Dma 0x20000 256 5 [0x58000; 0x58100; 0x58200; 0x58300; 0x58400].
Definition ks (_ : nat) : Z := 2.
Definition size : Z := 4600.
Definition queues : list queue :=
  [SQueue (Dma 0x8000 256 1 [0x60000]) (Queue 1 16 16 0 0 1 0 0x300c 0x8000 0x60000) 0;
   SQueue (mems 0) (Queue 1 4 64 0 0 1 0 0x3008 0x10000 0x50000) 0;
   SQueue (mems 1) (Queue 2 4 64 0 0 1 0 0x3010 0x20000 0x58000) 0].
Definition init : tsys :=
  TSys (World (table_mem table (dma_ioaddrs data)) (Heap empty 1) []) queues X_alloc false None []
    [SqCtl [] []; SqCtl [] []] [].

(** Threads are started; a producer builds its three commands. *)
Definition started : list tevent := [Tv_alloc true; Tv_main; Tv_main; Tv_main].
Definition build_three (i : nat) : list tevent :=
  [Tv_producer i] ++ concat (replicate 3 [Tv_producer i; Tv_producer i; Tv_producer i]) ++ [Tv_producer i].
(** It submits them, the controller fetches them and completes the first, and the
    consumer retires it. *)
Definition run_one (i : nat) : list tevent :=
  [Tv_producer i; Tv_fetch i; Tv_fetch i; Tv_fetch i; Tv_complete i 0 0 0; Tv_consumer; Tv_consumer; Tv_consumer].
End Small.

#[local] Existing Instance Small.build.

Lemma small_setup : transfer_setup Small.the_disk Small.buf Small.table 2 Small.size 6 8 Small.ks Small.mems 16 0x8000.
Proof.
  assert (Forall (fun a => a in_u 64) (dma_ioaddrs (Small.mems 0)) /\ Forall (fun a => a in_u 64) (dma_ioaddrs (Small.mems 1))
    /\ Forall (fun a => a in_u 64) (dma_ioaddrs Small.data)) as (H0 & H1 & Hb)
    by (split; [|split]; apply Forall_forall; apply Forall_forall; repeat constructor; vm_compute; congruence).
  constructor.
  - constructor; vm_compute; intuition congruence.
  - intros [|[|i]] Hi; [| |simpl in Hi; lia]; (split; [constructor; try done; vm_compute; intuition congruence|done]).
  - vm_compute; congruence.
  - vm_compute; congruence.
  - intros [|[|i]] [|[|j]] Hi Hj Hij; try done; try (simpl in Hi, Hj; lia); vm_compute; intuition congruence.
  - intros [|[|i]] Hi; [| |simpl in Hi; lia]; vm_compute; intuition congruence.
  - vm_compute; intuition congruence.
Qed.

Lemma small_init : transfer_init Small.the_disk Small.buf Small.table 2 Small.ks Small.mems 16 0x8000 Small.init.
Proof.
  assert (forall b, b < 0x4000 \/ 0x4000 + 8 * 18 <= b -> ld8 (table_mem Small.table (dma_ioaddrs Small.data)) b = 0) as Hz
    by (intros b Hb; apply table_mem_else; change (Z.of_nat (length (dma_ioaddrs Small.data))) with 18; exact Hb).
  constructor.
  - done.
  - done.
  - eexists. split; [reflexivity|]. split; [|done]. constructor; [constructor; done || (simpl; lia)|..|simpl; lia|simpl; lia]; try done.
    constructor; [|done]. intros i Hi. change (ld 2 (table_mem Small.table (dma_ioaddrs Small.data)) (0x8000 + 16 * i + 14) mod 2 = writes 16 0 i mod 2).
    rewrite ld_zero; [unfold writes; by rewrite Z.div_small by lia|]. intros b Hb. apply Hz. simpl Z.of_nat in Hb. lia.
  - intros [|[|[|]]] q Hq; try done; injection Hq as <-; (split; [constructor; done || (simpl; lia)|done]).
  - repeat constructor; rewrite ?list_elem_of_In; vm_compute; intuition congruence.
  - intros [|[|i]] b Hi Hb; [| |simpl in Hi; lia]; apply Hz; simpl dma_vaddr in Hb; change (lane_size _) with 4 in Hb; lia.
  - intros i a Hi. change (ld 8 (table_mem Small.table (dma_ioaddrs Small.data)) (Small.table + 8 * Z.of_nat i) = a).
    change (dma_ioaddrs Small.data !! i = Some a) in Hi. unfold table_mem. rewrite (ld_st_u64s _ _ _ _ _ Hi). apply u64_small.
    apply list_lookup_fmap_Some in Hi as (x & -> & Hx). apply lookup_seq in Hx. lia.
Qed.

(** Running a schedule. *)
Fixpoint run_all `{Build} d buf ioaddrs write n_queues size (evs : list tevent) (s : tsys) : option tsys :=
  match evs with
  | [] => Some s
  | ev :: evs => s' ← tsys_step d buf ioaddrs write n_queues size ev s; run_all d buf ioaddrs write n_queues size evs s'
  end.

Definition in_turn (ev : tevent) : bool := match ev with Tv_complete _ k _ _ => Nat.eqb k 0 | _ => true end.

Lemma run_all_steps `{Build} d buf ioaddrs write n_queues size evs s s' :
  run_all d buf ioaddrs write n_queues size evs s = Some s' -> forallb in_turn evs = true ->
  rtc (tstep d buf ioaddrs write n_queues size true) s s'.
Proof.
  revert s. induction evs as [|ev evs IH]; intros s Hs Hio; simpl in Hs; [by injection Hs as ->|].
  destruct (tsys_step _ _ _ _ _ _ ev s) as [s1|] eqn:E; [|done]. simpl in Hs, Hio. apply andb_true_iff in Hio as [Hev Hio].
  eapply rtc_l; [|by apply IH]. exists ev. split; [done|]. intros _. destruct ev; try done. by apply Nat.eqb_eq.
Qed.

(** What a schedule leads to, checked by running it. *)
Lemma small_run (write : bool) (evs : list tevent) (P : tsys -> bool) : forallb in_turn evs = true ->
  match run_all Small.the_disk Small.buf Small.table write 2 Small.size evs Small.init with Some s => P s | None => false end = true ->
  exists s, rtc (tstep Small.the_disk Small.buf Small.table write 2 Small.size true) Small.init s /\ P s = true.
Proof.
  intros He. destruct (run_all _ _ _ _ _ _ evs _) as [s|] eqn:E; [|done]. intros HP. exists s.
  split; [by eapply run_all_steps|done].
Qed.

(** ** Witnesses *)

Lemma transfer_covers_witness :
  (seqZ 0 2 ≫= (fun i => producer_jobs Small.the_disk Small.buf (share Small.the_disk false 2 Small.size i))) ≫= job_pages = seqZ 0 18.
Proof. apply (transfer_covers Small.the_disk Small.buf false 2 Small.size 6 8 (su_sizes _ _ _ _ _ _ _ _ _ _ _ small_setup)). Defined.

Lemma transfer_commands_delivered_witness :
  exists s, rtc (tstep Small.the_disk Small.buf Small.table false 2 Small.size true) Small.init s
  /\ exists j, producer_jobs Small.the_disk Small.buf (share Small.the_disk false 2 Small.size 1) !! 2%nat = Some j
     /\ list_holds (lane_of Small.the_disk Small.buf Small.table Small.ks Small.mems 1) (w_mem (ts_w s)) 2 j.
Proof.
  destruct (small_run false (Small.started ++ Small.build_three 0 ++ Small.build_three 1 ++ Small.run_one 1)
    (fun s => match ts_ctls s !! 1%nat with Some c => bool_decide (tc_running c = [1%nat; 2%nat]) | None => false end))
    as (s & Hr & HP); [reflexivity|vm_compute; reflexivity|].
  destruct (ts_ctls s !! 1%nat) as [c|] eqn:Hc; [|done]. apply bool_decide_eq_true in HP.
  exists s. split; [exact Hr|].
  apply (transfer_commands_delivered Small.the_disk Small.buf Small.table false 2 Small.size 6 8 Small.ks Small.mems 16 0x8000 true
    Small.init s small_setup small_init Hr 1%nat c Hc); [reflexivity|]. rewrite HP. right. left.
Defined.


(** The first producer waits for the slot that never comes. *)
Lemma transfer_flush_deadlock_witness :
  exists s, rtc (tstep Small.the_disk Small.buf Small.table true 2 Small.size true) Small.init s
  /\ ts_producers s !! 0%nat = Some T_flush
  /\ forall s', rtc (tstep Small.the_disk Small.buf Small.table true 2 Small.size true) s s' -> ts_main s' <> X_return 0.
Proof.
  destruct (small_run true (Small.started ++ Small.build_three 0 ++ [Tv_producer 0; Tv_producer 0])
    (fun s => bool_decide (ts_producers s !! 0%nat = Some T_flush))) as (s & Hr & HP); [reflexivity|vm_compute; reflexivity|].
  apply bool_decide_eq_true in HP. exists s. split; [exact Hr|]. split; [exact HP|]. intros s' Hr'.
  apply (transfer_flush_deadlock Small.the_disk Small.buf Small.table true 2 Small.size 6 8 Small.ks Small.mems 16 0x8000 true
    Small.init s' 0%nat small_setup small_init); [simpl; lia|reflexivity|vm_compute; reflexivity|].
  by etrans.
Defined.
