(* ===== verification/CArgs.v ===== *)
(** * Numbers and names on the command line

    What the example programs use of the C library to read their arguments:
    [strtoul] on NUL-terminated strings, the printing of unsigned numbers by
    [sprintf], and [getopt_long], of which only the sequence of options it returns
    is seen. On top of them the helpers of [examples/rpc/util.c]. *)
From Stdlib Require Import Ascii String.
From S2P Require Import Prelude.

(** ** Strings

    A C string is the list of its characters, without the terminator; [*endptr] is
    the terminator exactly when nothing is left. *)
Abbreviation cstring := (list ascii).

Definition lit (s : string) : cstring := list_ascii_of_string s.
Definition code (c : ascii) : Z := Z.of_nat (nat_of_ascii c).

Definition isspace (c : ascii) : bool := (code c =? 32) || (9 <=? code c) && (code c <=? 13).

(** The value of a digit in a base up to 36. *)
Definition digit (c : ascii) : Z :=
  if (48 <=? code c) && (code c <=? 57) then code c - 48
  else if (97 <=? code c) && (code c <=? 122) then code c - 87
  else if (65 <=? code c) && (code c <=? 90) then code c - 55
  else 36.

(** ** [strtoul] *)

Definition ULONG_MAX : Z := 2 ^ 64 - 1.

Fixpoint skip_spaces (s : cstring) : cstring :=
  match s with c :: s' => if isspace c then skip_spaces s' else s | [] => [] end.

(** The digits at the beginning of [s], added to [acc]; and what follows. *)
Fixpoint digits (base acc : Z) (s : cstring) : Z * cstring :=
  match s with
  | c :: s' => if digit c <? base then digits base (base * acc + digit c) s' else (acc, s)
  | [] => (acc, [])
  end.

Definition sign (s : cstring) : bool * cstring :=
  match s with
  | c :: s' => if code c =? 45 then (true, s') else if code c =? 43 then (false, s') else (false, s)
  | [] => (false, [])
  end.

(** A [0x] that a hexadecimal digit follows. *)
Definition hex_prefix (s : cstring) : option cstring :=
  match s with
  | z :: x :: d :: s' => if (code z =? 48) && ((code x =? 120) || (code x =? 88)) && (digit d <? 16) then Some (d :: s') else None
  | _ => None
  end.

Definition radix (base : Z) (s : cstring) : Z * cstring :=
  match hex_prefix s with
  | Some s' => if (base =? 0) || (base =? 16) then (16, s') else (base, s)
  | None =>
      (if base =? 0 then match s with z :: _ => if code z =? 48 then 8 else 10 | [] => 10 end else base, s)
  end.

(** The value, and what [endptr] points to. Too large values give [ULONG_MAX];
    a minus sign negates in the unsigned type; without digits nothing is consumed. *)
Definition strtoul (str : cstring) (base : Z) : Z * cstring :=
  let (negative, s) := sign (skip_spaces str) in
  let (b, s) := radix base s in
  match s with
  | c :: _ =>
      if digit c <? b then
        let (v, rest) := digits b 0 s in
        (if ULONG_MAX <? v then ULONG_MAX else if negative then wrap 64 (- v) else v, rest)
      else (0, str)
  | [] => (0, str)
  end.

(** ** Printing numbers *)

Definition digit_char (d : Z) : ascii := ascii_of_nat (Z.to_nat (if d <? 10 then d + 48 else d + 87)).

Fixpoint print_digits (fuel : nat) (base n : Z) : cstring :=
  match fuel with
  | O => []
  | S fuel' => if n <? base then [digit_char n] else print_digits fuel' base (n / base) ++ [digit_char (n mod base)]
  end.

(** [%lu] and [%lx]: 64 rounds are enough for 64-bit numbers in any base from 2. *)
Definition print_num (base n : Z) : cstring := print_digits 64 base n.

(** [%0kx]. *)
Definition print_pad (k : nat) (base n : Z) : cstring :=
  let s := print_num base n in replicate (k - length s) (digit_char 0) ++ s.

#[global] Arguments print_num : simpl never.
#[global] Arguments print_pad : simpl never.
#[global] Arguments strtoul : simpl never.

(** ** [examples/rpc/util.c] *)

Definition EINVAL : Z := 22.
Definition UINT_MAX : Z := 2 ^ 32 - 1.

(** A status and the number, which is only stored on success. *)
Definition parse_u64 (str : cstring) (base : Z) : Z * option Z :=
  let (ul, endptr) := strtoul str base in
  if negb (bool_decide (endptr = [])) then (EINVAL, None) else (0, Some ul).

Definition parse_u32 (str : cstring) (base : Z) : Z * option Z :=
  match parse_u64 str base with
  | (status, Some ul) => if negb (status =? 0) || (ul >? UINT_MAX) then (EINVAL, None) else (status, Some (u32 ul))
  | (_, None) => (EINVAL, None)
  end.

Definition parse_u16 (str : cstring) (base : Z) : Z * option Z :=
  match parse_u64 str base with
  | (status, Some ul) => if negb (status =? 0) || (ul >? 0xffff) then (EINVAL, None) else (status, Some (u16 ul))
  | (_, None) => (EINVAL, None)
  end.

(** ** [getopt_long]

    The options in the order they are returned: the value of the option, its
    argument ([optarg]), and [argv[optind - 1]]. A program either exits with a code or
    goes on. *)
Record opt := Opt { o_val : Z; o_arg : cstring }.

Inductive outcome (A : Type) := Exit (status : Z) | Parsed (a : A).
#[global] Arguments Exit {A}.
#[global] Arguments Parsed {A}.

Fixpoint getopt_loop {A} (step : A -> opt -> outcome A) (args : A) (opts : list opt) : outcome A :=
  match opts with
  | [] => Parsed args
  | o :: opts => match step args o with Exit c => Exit c | Parsed args => getopt_loop step args opts end
  end.

(** The code of a character. *)
Definition chr (s : string) : Z := match s with String c _ => code c | EmptyString => 0 end.

#[global] Arguments lit _%_string_scope.
#[global] Arguments chr _%_string_scope.

(** ** Lemmas *)

(** What every option keeps, all of them keep. *)
Lemma getopt_loop_inv {A} (I : A -> Prop) step args opts args' :
  (forall args o args', I args -> step args o = Parsed args' -> I args') ->
  I args -> getopt_loop step args opts = Parsed args' -> I args'.
Proof.
  intros Hstep. revert args. induction opts as [|o opts IH]; intros args HI; simpl; [by intros [= <-]|].
  destruct (step args o) eqn:E; [done|]. apply IH. by eapply Hstep.
Qed.

Lemma digits_app base acc s t : Forall (fun c => digit c < base) s ->
  digits base acc (s ++ t) = digits base (fst (digits base acc s)) t.
Proof.
  intros Hs. revert acc. induction Hs as [|c s Hc _ IH]; intros acc; [done|].
  simpl. rewrite (proj2 (Z.ltb_lt _ _) Hc). apply IH.
Qed.

Lemma digits_all base acc s : Forall (fun c => digit c < base) s -> snd (digits base acc s) = [].
Proof.
  intros Hs. revert acc. induction Hs as [|c s Hc _ IH]; intros acc; [done|].
  simpl. rewrite (proj2 (Z.ltb_lt _ _) Hc). apply IH.
Qed.

Lemma digits_snoc base acc s c : Forall (fun c => digit c < base) s -> digit c < base ->
  fst (digits base acc (s ++ [c])) = base * fst (digits base acc s) + digit c.
Proof. intros Hs Hc. rewrite digits_app by done. simpl. by rewrite (proj2 (Z.ltb_lt _ _) Hc). Qed.

Lemma digit_of_char d : 0 <= d < 36 -> digit (digit_char d) = d /\ isspace (digit_char d) = false
  /\ code (digit_char d) <> 45 /\ code (digit_char d) <> 43 /\ (code (digit_char d) = 48 -> d = 0)
  /\ code (digit_char d) <> 58 /\ code (digit_char d) <> 46 /\ (d < 16 -> code (digit_char d) <> 120 /\ code (digit_char d) <> 88).
Proof.
  intros Hd. assert (Forall (fun d => digit (digit_char d) = d /\ isspace (digit_char d) = false
    /\ code (digit_char d) <> 45 /\ code (digit_char d) <> 43 /\ (code (digit_char d) = 48 -> d = 0)
    /\ code (digit_char d) <> 58 /\ code (digit_char d) <> 46 /\ (d < 16 -> code (digit_char d) <> 120 /\ code (digit_char d) <> 88)) (seqZ 0 36)) as Hall.
  { repeat (constructor; [vm_compute; intuition congruence|]). constructor. }
  eapply Forall_forall in Hall; [exact Hall|]. apply list_elem_of_In, elem_of_seqZ. lia.
Qed.

Lemma print_digits_spec fuel base n : 2 <= base <= 36 -> 0 <= n < base ^ Z.of_nat fuel ->
  Forall (fun c => exists d, 0 <= d < base /\ c = digit_char d) (print_digits fuel base n)
  /\ fst (digits base 0 (print_digits fuel base n)) = n
  /\ (0 < Z.of_nat fuel -> print_digits fuel base n <> []).
Proof.
  intros Hb. revert n. induction fuel as [|fuel IH]; intros n Hn.
  - simpl in Hn. split; [constructor|]. split; [simpl; lia|simpl; lia].
  - cbn [print_digits]. destruct (Z.ltb_spec n base).
    + split; [constructor; [by exists n; split; [lia|]|constructor]|]. split; [|done].
      destruct (digit_of_char n ltac:(lia)) as [E _]. simpl. rewrite E, (proj2 (Z.ltb_lt n base)) by lia. simpl. lia.
    + assert (0 <= n / base < base ^ Z.of_nat fuel) as Hn'.
      { split; [apply Z.div_pos; lia|]. apply Z.div_lt_upper_bound; [lia|].
        rewrite Nat2Z.inj_succ, Z.pow_succ_r in Hn by lia. lia. }
      destruct (IH _ Hn') as (Hall & Hv & _). pose proof (Z.mod_pos_bound n base ltac:(lia)) as Hm.
      split; [apply Forall_app; split; [done|]; constructor; [by exists (n mod base)|constructor]|].
      split; [|intros _ E; by apply app_nil in E as [_ ?]].
      destruct (digit_of_char (n mod base) ltac:(lia)) as [E _].
      rewrite digits_snoc, Hv, E; [pose proof (Z.div_mod n base); lia| |lia].
      eapply Forall_impl; [|exact Hall]. intros c (d & Hd & ->). destruct (digit_of_char d ltac:(lia)) as [-> _]. lia.
Qed.

Lemma pow_64 base n : 2 <= base -> n < 2 ^ 64 -> n < base ^ Z.of_nat 64.
Proof. intros. pose proof (Z.pow_le_mono_l 2 base 64 ltac:(lia)). change (Z.of_nat 64) with 64. lia. Qed.

(** A string of digits, the first of which is not taken for a prefix. *)
Lemma strtoul_digits base b s : s <> [] -> radix base s = (b, s) ->
  Forall (fun c => exists d, 0 <= d < b /\ c = digit_char d) s -> 2 <= b <= 36 ->
  fst (digits b 0 s) <= ULONG_MAX -> strtoul s base = (fst (digits b 0 s), []).
Proof.
  intros Hne Hr Hall Hb Hle. assert (Forall (fun c => digit c < b) s) as Hd.
  { eapply Forall_impl; [|exact Hall]. intros c (d & Hd & ->). destruct (digit_of_char d ltac:(lia)) as [-> _]. lia. }
  unfold strtoul. destruct s as [|c s]; [done|]. pose proof (Forall_inv Hall) as (d & Hdc & ->).
  destruct (digit_of_char d ltac:(lia)) as (Edig & Esp & Em & Ep & _).
  cbn [skip_spaces]. rewrite Esp. cbn [sign]. rewrite (proj2 (Z.eqb_neq _ _) Em), (proj2 (Z.eqb_neq _ _) Ep), Hr.
  rewrite Edig, (proj2 (Z.ltb_lt d b)) by lia. pose proof (digits_all b 0 _ Hd) as Hrest.
  destruct (digits b 0 (digit_char d :: s)) as [v rest]. simpl in Hrest, Hle |- *. subst rest.
  by rewrite (proj2 (Z.ltb_ge ULONG_MAX v)).
Qed.

(** Printed numbers have no prefix, and [0] only in front of nothing. *)
Lemma digits_no_prefix b s : b <= 16 -> Forall (fun c => exists d, 0 <= d < b /\ c = digit_char d) s -> hex_prefix s = None.
Proof.
  intros Hb Hall. destruct s as [|z [|x [|d s]]]; try done. pose proof (Forall_inv (Forall_inv_tail Hall)) as (v & Hv & ->).
  destruct (digit_of_char v ltac:(lia)) as (_ & _ & _ & _ & _ & _ & _ & Hx). destruct (Hx ltac:(lia)) as [H1 H2].
  cbn [hex_prefix]. by rewrite (proj2 (Z.eqb_neq _ _) H1), (proj2 (Z.eqb_neq _ _) H2), andb_false_r.
Qed.

Lemma print_head fuel base n : 2 <= base <= 36 -> 1 <= n < base ^ Z.of_nat fuel ->
  exists d s, print_digits fuel base n = digit_char d :: s /\ 1 <= d < base.
Proof.
  intros Hb. revert n. induction fuel as [|fuel IH]; intros n Hn; [simpl in Hn; lia|]. cbn [print_digits].
  destruct (Z.ltb_spec n base); [exists n, []; split; [done|lia]|].
  destruct (IH (n / base)) as (d & s & -> & Hd); [|by exists d, (s ++ [digit_char (n mod base)])].
  split; [apply Z.div_le_lower_bound; lia|]. apply Z.div_lt_upper_bound; [lia|].
  rewrite Nat2Z.inj_succ, Z.pow_succ_r in Hn by lia. lia.
Qed.

Lemma digits_zeros base k s : 0 < base -> digits base 0 (replicate k (digit_char 0) ++ s) = digits base 0 s.
Proof. intros Hb. induction k as [|k IH]; [done|]. cbn [replicate app digits].
  change (digit (digit_char 0)) with 0. rewrite (proj2 (Z.ltb_lt 0 base)) by lia. by rewrite Z.mul_0_r. Qed.

(** Reading a printed number, padded or not, in the base it was printed in. *)
Lemma strtoul_pad k base n : 2 <= base <= 16 -> n in_u 64 -> strtoul (print_pad k base n) base = (n, []).
Proof.
  intros Hb Hn. destruct (print_digits_spec 64 base n ltac:(lia)) as (Hall & Hv & Hne); [split; [lia|]; apply pow_64; lia|].
  assert (Forall (fun c => exists d, 0 <= d < base /\ c = digit_char d) (print_pad k base n)) as Hall'.
  { unfold print_pad. apply Forall_app. split; [|exact Hall]. apply Forall_replicate. exists 0. split; [lia|done]. }
  assert (fst (digits base 0 (print_pad k base n)) = n) as Hv' by (unfold print_pad; by rewrite digits_zeros by lia).
  rewrite (strtoul_digits base base).
  - by rewrite Hv'.
  - unfold print_pad. intros E. apply app_nil in E as [_ E]. revert E. apply Hne. lia.
  - unfold radix. rewrite (digits_no_prefix base) by (done || lia). by rewrite (proj2 (Z.eqb_neq base 0)) by lia.
  - done.
  - lia.
  - rewrite Hv'. unfold ULONG_MAX. lia.
Qed.

Lemma strtoul_print base n : 2 <= base <= 16 -> n in_u 64 -> strtoul (print_num base n) base = (n, []).
Proof. intros. by apply (strtoul_pad 0). Qed.

(** With base 0 a decimal number is read as such. *)
Lemma strtoul_print_0 n : n in_u 64 -> strtoul (print_num 10 n) 0 = (n, []).
Proof.
  intros Hn. destruct (decide (n = 0)) as [->|Hnz]; [done|].
  destruct (print_digits_spec 64 10 n ltac:(lia)) as (Hall & Hv & Hne); [split; [lia|]; apply pow_64; lia|].
  destruct (print_head 64 10 n ltac:(lia)) as (d & s & E & Hd); [split; [lia|]; apply pow_64; lia|].
  unfold print_num. rewrite (strtoul_digits 0 10).
  - by rewrite Hv.
  - apply Hne. lia.
  - unfold radix. rewrite (digits_no_prefix 10) by (done || lia). rewrite E.
    destruct (digit_of_char d ltac:(lia)) as (_ & _ & _ & _ & Hz & _). 
    simpl. destruct (Z.eqb_spec (code (digit_char d)) 48); [lia|done].
  - done.
  - lia.
  - rewrite Hv. unfold ULONG_MAX. lia.
Qed.

(** What [strtoul] returns fits its type. *)
Lemma digits_nonneg base acc s : 0 < base -> 0 <= acc -> 0 <= fst (digits base acc s).
Proof.
  intros Hb. revert acc. induction s as [|c s IH]; intros acc Ha; [done|]. simpl. destruct (_ <? _); [|done].
  apply IH. unfold digit. repeat case_match; zbool; nia.
Qed.

Lemma strtoul_bound str base : 0 <= base -> fst (strtoul str base) in_u 64.
Proof.
  intros Hb. unfold strtoul. destruct (sign _) as [neg s]. destruct (radix base s) as [b s'] eqn:Hr.
  assert (0 <= b) as Hb' by (unfold radix in Hr; repeat case_match; simplify_eq; lia).
  destruct s' as [|c s']; [simpl; lia|]. destruct (Z.ltb_spec (digit c) b); [|simpl; lia].
  pose proof (digits_nonneg b 0 (c :: s')). assert (0 <= digit c) by (unfold digit; repeat case_match; zbool; lia).
  destruct (digits b 0 (c :: s')) as [v rest]. simpl in *. unfold ULONG_MAX.
  destruct (Z.ltb_spec (2 ^ 64 - 1) v); [lia|]. destruct neg; [apply (wrap_bound 64); lia|lia].
Qed.

Lemma parse_u64_spec str base : parse_u64 str base =
  if bool_decide (snd (strtoul str base) = []) then (0, Some (fst (strtoul str base))) else (EINVAL, None).
Proof. unfold parse_u64. destruct (strtoul str base) as [v e]. simpl. by case_bool_decide. Qed.

Lemma parse_u32_sound str base s n : 0 <= base -> parse_u32 str base = (s, Some n) -> s = 0 /\ n in_u 32 /\ strtoul str base = (n, []).
Proof.
  intros Hb. unfold parse_u32. rewrite parse_u64_spec. pose proof (strtoul_bound str base Hb) as Hv.
  destruct (strtoul str base) as [v e]. simpl in *. case_bool_decide as He; [|done]. simpl.
  rewrite Z.gtb_ltb. unfold UINT_MAX. destruct (Z.ltb_spec (2 ^ 32 - 1) v); [done|]. intros [= <- <-].
  rewrite u32_small by lia. split; [done|]. split; [lia|]. by subst e.
Qed.
