(* ===== verification/Options.v ===== *)
(** * The programs' command lines

    How the programs under [examples/] turn their options into arguments, from the
    sequence of options [getopt_long] returns ([CArgs]). Usage texts and messages are
    left out; [exit] ends the program with its code. *)
From Stdlib Require Import Ascii String.
From S2P Require Import Prelude CArgs.

(** Outcomes that all of them share: an unknown option, a missing argument. *)
Definition bad_option (o : opt) : option Z :=
  if o_val o =? chr "?" then Some (chr "?") else if o_val o =? chr ":" then Some (chr ":") else None.

(** ** [examples/identify/module.c] *)

Definition module_parse_u64 (str : cstring) (base : Z) : Z * option Z := parse_u64 str base.

Definition module_parse_args (opts : list opt) : outcome Z :=
  let step '(dev_set, dev) o :=
    match bad_option o with
    | Some c => Exit c
    | None =>
        if o_val o =? chr "c" then
          match module_parse_u64 (o_arg o) 10 with
          | (0, Some ul) => Parsed (true, ul)
          | _ => Exit (chr "c")
          end
        else if o_val o =? chr "h" then Exit 0
        else Parsed (dev_set, dev)
    end in
  match getopt_loop step (false, 0) opts with
  | Exit c => Exit c
  | Parsed (dev_set, dev) => if negb dev_set then Exit (chr "c") else Parsed dev
  end.

(** ** [examples/identify/smartio.c] *)

Definition smartio_parse_u64 (str : cstring) (base : Z) : Z * option Z := parse_u64 str base.
Definition smartio_parse_u32 (str : cstring) (base : Z) : Z * option Z := parse_u32 str base.

Record smartio_args := SmartioArgs { sa_dev_id : Z; sa_dis_adapter : Z; sa_segment_id : Z }.

Definition smartio_parse_args (opts : list opt) : outcome smartio_args :=
  let step '(dev_set, a) o :=
    match bad_option o with
    | Some c => Exit c
    | None =>
        if o_val o =? chr "c" then
          match smartio_parse_u64 (o_arg o) 0 with
          | (0, Some ul) => Parsed (true, SmartioArgs ul (sa_dis_adapter a) (sa_segment_id a))
          | _ => Exit (chr "c")
          end
        else if o_val o =? chr "a" then
          match smartio_parse_u32 (o_arg o) 10 with
          | (0, Some ul) => Parsed (dev_set, SmartioArgs (sa_dev_id a) ul (sa_segment_id a))
          | _ => Exit (chr "a")
          end
        else if o_val o =? chr "i" then
          match smartio_parse_u32 (o_arg o) 0 with
          | (0, Some ul) => Parsed (dev_set, SmartioArgs (sa_dev_id a) (sa_dis_adapter a) ul)
          | _ => Exit (chr "i")
          end
        else if o_val o =? chr "h" then Exit 0
        else Parsed (dev_set, a)
    end in
  match getopt_loop step (false, SmartioArgs 0 0 0) opts with
  | Exit c => Exit c
  | Parsed (dev_set, a) => if negb dev_set then Exit (chr "c") else Parsed a
  end.

(** ** [examples/rpc/rpc_client.c] *)

Record client_args := ClientArgs { ca_smartio_dev_id : Z; ca_adapter : Z }.

Definition client_parse_opts (opts : list opt) : outcome client_args :=
  let step a o :=
    match bad_option o with
    | Some c => Exit c
    | None =>
        if o_val o =? chr "h" then Exit 0
        else if o_val o =? chr "c" then
          match parse_u64 (o_arg o) 0 with
          | (0, Some ul) => Parsed (ClientArgs ul (ca_adapter a))
          | _ => Exit (chr "c")
          end
        else if o_val o =? chr "a" then
          match parse_u32 (o_arg o) 10 with
          | (0, Some ul) => Parsed (ClientArgs (ca_smartio_dev_id a) ul)
          | _ => Exit (chr "a")
          end
        else Parsed a
    end in
  match getopt_loop step (ClientArgs 0 0) opts with
  | Exit c => Exit c
  | Parsed a => if ca_smartio_dev_id a =? 0 then Exit (chr "c") else Parsed a
  end.

(** ** [examples/rpc/rpc_server.c] *)

Definition MAX_ADAPTS : Z := 4.

Record server_args := ServerArgs {
  va_identify_ctrl : bool; va_smartio_dev_id : Z; va_ctrl_adapter : Z;
  va_n_dis_adapters : Z; va_dis_adapters : list Z; va_verbose : bool;
}.

(** [verbose] is a variable of the program, not of its arguments. *)
Definition server_parse_opts (opts : list opt) : outcome server_args :=
  let step a o :=
    match bad_option o with
    | Some c => Exit c
    | None =>
        if o_val o =? chr "h" then Exit 0
        else if o_val o =? chr "v" then
          Parsed (ServerArgs (va_identify_ctrl a) (va_smartio_dev_id a) (va_ctrl_adapter a) (va_n_dis_adapters a) (va_dis_adapters a) true)
        else if o_val o =? 1 then
          Parsed (ServerArgs true (va_smartio_dev_id a) (va_ctrl_adapter a) (va_n_dis_adapters a) (va_dis_adapters a) (va_verbose a))
        else if o_val o =? chr "c" then
          match parse_u64 (o_arg o) 0 with
          | (0, Some ul) => Parsed (ServerArgs (va_identify_ctrl a) ul (va_ctrl_adapter a) (va_n_dis_adapters a) (va_dis_adapters a) (va_verbose a))
          | _ => Exit (chr "c")
          end
        else if o_val o =? chr "a" then
          match parse_u32 (o_arg o) 10 with
          | (0, Some ul) => Parsed (ServerArgs (va_identify_ctrl a) (va_smartio_dev_id a) ul (va_n_dis_adapters a) (va_dis_adapters a) (va_verbose a))
          | _ => Exit (chr "a")
          end
        else if o_val o =? chr "r" then
          if va_n_dis_adapters a =? MAX_ADAPTS then Parsed a
          else
            match parse_u32 (o_arg o) 0 with
            | (0, Some ul) =>
                Parsed (ServerArgs (va_identify_ctrl a) (va_smartio_dev_id a) (va_ctrl_adapter a) (u64 (va_n_dis_adapters a + 1))
                  (<[Z.to_nat (va_n_dis_adapters a) := ul]> (va_dis_adapters a)) (va_verbose a))
            | _ => Exit (chr "r")
            end
        else Parsed a
    end in
  match getopt_loop step (ServerArgs false 0 0 0 (replicate 4 0) false) opts with
  | Exit c => Exit c
  | Parsed a =>
      if va_smartio_dev_id a =? 0 then Exit (chr "c")
      else if va_n_dis_adapters a =? 0 then
        Parsed (ServerArgs (va_identify_ctrl a) (va_smartio_dev_id a) (va_ctrl_adapter a) (u64 (va_n_dis_adapters a + 1))
          (<[Z.to_nat (va_n_dis_adapters a) := va_ctrl_adapter a]> (va_dis_adapters a)) (va_verbose a))
      else Parsed a
  end.

(** ** [examples/integrity/integrity.c] *)

Definition MAX_ADAPTERS : Z := 4.

Record arguments := Arguments_ {
  ia_device_id : Z; ia_adapter : Z; ia_segment_id : Z; ia_ns_id : Z; ia_n_queues : Z;
  ia_read_bytes : Z; ia_filename : cstring;
}.

(** The number, if it is one and in the range (when there is a range). *)
Definition parse_number (str : cstring) (base lo hi : Z) : option Z :=
  let (ul, endptr) := strtoul str base in
  if negb (bool_decide (endptr = [])) then None
  else if (lo <? hi) && ((ul <? lo) || (ul >=? hi)) then None
  else Some ul.

(** [files] are the arguments after the options. *)
Definition parse_arguments (opts : list opt) (files : list cstring) : outcome arguments :=
  let step a o :=
    let '(Arguments_ dev ad seg ns nq rb fn) := a in
    if (o_val o =? chr "?") || (o_val o =? chr ":") || (o_val o =? chr "h") then Exit 4
    else if o_val o =? chr "r" then
      match parse_number (o_arg o) 0 0 0 with
      | Some num => if num =? 0 then Exit 1 else Parsed (Arguments_ dev ad seg ns nq num fn)
      | None => Exit 1
      end
    else if o_val o =? chr "c" then
      match parse_number (o_arg o) 0 0 0 with Some num => Parsed (Arguments_ num ad seg ns nq rb fn) | None => Exit 1 end
    else if o_val o =? chr "n" then
      match parse_number (o_arg o) 0 0 0 with Some num => Parsed (Arguments_ dev ad seg (u32 num) nq rb fn) | None => Exit 3 end
    else if o_val o =? 1 then
      match parse_number (o_arg o) 0 0 0 with Some num => Parsed (Arguments_ dev ad (u32 num) ns nq rb fn) | None => Exit 1 end
    else if o_val o =? chr "a" then
      match parse_number (o_arg o) 10 0 MAX_ADAPTERS with Some num => Parsed (Arguments_ dev (u32 num) seg ns nq rb fn) | None => Exit 1 end
    else if o_val o =? chr "q" then
      match parse_number (o_arg o) 0 1 0xffff with Some num => Parsed (Arguments_ dev ad seg ns (u16 num) rb fn) | None => Exit 3 end
    else Parsed a in
  match getopt_loop step (Arguments_ 0 0 5 1 1 0 []) opts with
  | Exit c => Exit c
  | Parsed (Arguments_ dev ad seg ns nq rb fn) =>
      if dev =? 0 then Exit 1
      else match files with [f] => Parsed (Arguments_ dev ad seg ns nq rb f) | _ => Exit 2 end
  end.

(** ** [examples/read-blocks/args.c] *)

Record options := Options {
  oa_controller_id : Z; oa_adapter : Z; oa_segment_id : Z; oa_controller_path : option cstring;
  oa_namespace_id : Z; oa_num_blocks : Z; oa_offset : Z; oa_output : option cstring; oa_ascii : bool;
}.

(** With SISCI ([cluster]) a controller is given by its identifier, otherwise by a
    path; the fields of the other build are not used. *)
Definition parse_options (cluster : bool) (opts : list opt) : outcome options :=
  let num str base := let (v, endptr) := strtoul str base in if bool_decide (endptr = []) then Some v else None in
  let step a o :=
    let '(Options id ad seg path ns nb off out asc) := a in
    if (o_val o =? chr "?") || (o_val o =? chr ":") || (o_val o =? chr "h") then Exit (chr "?")
    else if o_val o =? 0 then Parsed (Options id ad seg path ns nb off (Some (o_arg o)) (if asc then false else asc))
    else if o_val o =? chr "c" then
      if cluster then
        match num (o_arg o) 0 with
        | Some v => if v =? 0 then Exit 1 else Parsed (Options v ad seg path ns nb off out asc)
        | None => Exit 1
        end
      else Parsed (Options id ad seg (Some (o_arg o)) ns nb off out asc)
    else if cluster && (o_val o =? chr "a") then
      match num (o_arg o) 10 with
      | Some v => if u32 v >=? 4 then Exit 1 else Parsed (Options id (u32 v) seg path ns nb off out asc)
      | None => Exit 1
      end
    else if cluster && (o_val o =? 1) then
      match num (o_arg o) 0 with Some v => Parsed (Options id ad (u32 v) path ns nb off out asc) | None => Exit 1 end
    else if o_val o =? chr "n" then
      match num (o_arg o) 0 with
      | Some v => if u32 v =? 0xffffffff then Exit 2 else Parsed (Options id ad seg path (u32 v) nb off out asc)
      | None => Exit 2
      end
    else if o_val o =? 2 then
      Parsed (Options id ad seg path ns nb off out (match out with None => true | Some _ => asc end))
    else if o_val o =? chr "o" then
      match num (o_arg o) 0 with Some v => Parsed (Options id ad seg path ns nb v out asc) | None => Exit 2 end
    else if o_val o =? chr "b" then
      match num (o_arg o) 0 with
      | Some v => if v =? 0 then Exit 2 else Parsed (Options id ad seg path ns v off out asc)
      | None => Exit 2
      end
    else Parsed a in
  match getopt_loop step (Options 0 0 (if cluster then 0xdeadbeef else 0) None 1 0 0 None false) opts with
  | Exit c => Exit c
  | Parsed a =>
      if (if cluster then oa_controller_id a =? 0 else match oa_controller_path a with None => true | Some _ => false end) then Exit 1
      else if oa_num_blocks a =? 0 then Exit 2
      else Parsed a
  end.

(** ** [examples/identify/userspace.c] *)

(** Bus-device-function; the fields are [int]s. *)
Record bdf := Bdf { bd_domain : Z; bd_bus : Z; bd_device : Z; bd_function : Z }.

(** Conversion to [int]. *)
Definition s32 (x : Z) : Z := let u := u32 x in if u <? 2 ^ 31 then u else u - 2 ^ 32.

(** What is before and after the first, and the last, occurrence of a character; the
    code writes a NUL over it. *)
Fixpoint strchr (c : Z) (s : cstring) : option (cstring * cstring) :=
  match s with
  | [] => None
  | x :: s' =>
      if code x =? c then Some ([], s')
      else match strchr c s' with Some (b, a) => Some (x :: b, a) | None => None end
  end.

Fixpoint strrchr (c : Z) (s : cstring) : option (cstring * cstring) :=
  match s with
  | [] => None
  | x :: s' =>
      match strrchr c s' with
      | Some (b, a) => Some (x :: b, a)
      | None => if code x =? c then Some ([], s') else None
      end
  end.

Definition parse_bdf (str : cstring) : option bdf :=
  let '(before, slot) := match strrchr (chr ":") str with Some (b, a) => (Some b, a) | None => (None, str) end in
  let '(slot, function) := match strchr (chr ".") slot with Some (s, f) => (s, f) | None => (slot, lit "0") end in
  let '(domain, bus) :=
    match before with
    | None => (lit "0", lit "0")
    | Some b => match strchr (chr ":") b with Some (d, b') => (d, b') | None => (lit "0", b) end
    end in
  let (domain, endptr) := strtoul domain 16 in
  if negb (bool_decide (endptr = [])) || (s32 domain >? 0xffff) then None else
  let (bus, endptr) := strtoul bus 16 in
  if negb (bool_decide (endptr = [])) || (s32 bus >? 0xff) then None else
  let (device, endptr) := strtoul slot 16 in
  if negb (bool_decide (endptr = [])) || (s32 device >? 0xff) then None else
  let (function, endptr) := strtoul function 0 in
  if negb (bool_decide (endptr = [])) then None
  else Some (Bdf (s32 domain) (s32 bus) (s32 device) (s32 function)).

(** [%04x:%02x:%02x.%x]; [%x] prints an [int] as unsigned. *)
Definition bdf_name (dev : bdf) : cstring :=
  print_pad 4 16 (u32 (bd_domain dev)) ++ lit ":" ++ print_pad 2 16 (u32 (bd_bus dev)) ++ lit ":"
  ++ print_pad 2 16 (u32 (bd_device dev)) ++ lit "." ++ print_num 16 (u32 (bd_function dev)).

Definition device_path (dev : bdf) (file : cstring) : cstring := lit "/sys/bus/pci/devices/" ++ bdf_name dev ++ file.

(** [is_dir] is what [stat] says of the device's directory. *)
Definition userspace_parse_args (is_dir : cstring -> bool) (opts : list opt) : outcome bdf :=
  let step dev o :=
    match bad_option o with
    | Some c => Exit c
    | None =>
        if o_val o =? chr "c" then match parse_bdf (o_arg o) with Some dev => Parsed dev | None => Exit (chr "c") end
        else if o_val o =? chr "h" then Exit 0
        else Parsed dev
    end in
  match getopt_loop step (Bdf 0 0 0 0) opts with
  | Exit c => Exit c
  | Parsed dev => if negb (is_dir (device_path dev [])) then Exit (chr "c") else Parsed dev
  end.

(** ** What the parsers accept *)

Lemma parse_number_sound str base lo hi n : 0 <= base -> parse_number str base lo hi = Some n ->
  n in_u 64 /\ (lo < hi -> lo <= n < hi) /\ strtoul str base = (n, []).
Proof.
  intros Hb. unfold parse_number. pose proof (strtoul_bound str base Hb) as Hv. destruct (strtoul str base) as [v e]. simpl in Hv.
  case_bool_decide as He; [|done]. simpl. destruct (Z.ltb_spec lo hi), (Z.ltb_spec v lo), (Z.geb_spec v hi); simpl; try done;
    intros [= <-]; subst e; (split; [done|]); (split; [lia|done]).
Qed.

Lemma parse_number_print base n lo hi : 2 <= base <= 16 \/ base = 0 -> n in_u 64 -> lo <= n < hi \/ hi <= lo ->
  parse_number (print_num (if base =? 0 then 10 else base) n) base lo hi = Some n.
Proof.
  intros Hb Hn Hr. unfold parse_number.
  assert (strtoul (print_num (if base =? 0 then 10 else base) n) base = (n, [])) as ->.
  { destruct (Z.eqb_spec base 0) as [->|]; [by apply strtoul_print_0|apply strtoul_print; [lia|done]]. }
  simpl. destruct (Z.ltb_spec lo hi), (Z.ltb_spec n lo), (Z.geb_spec n hi); simpl; try done; lia.
Qed.

(** Everything [parse_arguments] ever holds is in range. *)
Definition args_ok (a : arguments) : Prop :=
  ia_device_id a in_u 64 /\ 0 <= ia_adapter a < MAX_ADAPTERS /\ ia_segment_id a in_u 32 /\ ia_ns_id a in_u 32
  /\ 1 <= ia_n_queues a < 65535 /\ ia_read_bytes a in_u 64.

(** Decide the next test of a parser. *)
Ltac parse_step :=
  match goal with
  | H : context [if ?b then _ else _] |- _ => let E := fresh "E" in destruct b eqn:E; try done
  | H : context [match parse_number ?s ?b ?lo ?hi with _ => _ end] |- _ =>
      let E := fresh "E" in destruct (parse_number s b lo hi) eqn:E; [apply parse_number_sound in E as (? & ? & ?); [|lia]|done]
  end.

(** Whatever the options, if [parse_arguments] of the integrity program goes on,
    then exactly one file was given, a controller was, the adapter is below the
    number of adapters, the number of queues is between 1 and 65534, and every field
    fits its type. *)
Theorem parse_arguments_sound opts files a : parse_arguments opts files = Parsed a ->
  args_ok a /\ ia_device_id a <> 0 /\ files = [ia_filename a].
Proof.
  unfold parse_arguments. destruct (getopt_loop _ _ opts) as [|[dev ad seg ns nq rb fn]] eqn:E; [done|].
  assert (args_ok (Arguments_ dev ad seg ns nq rb fn)) as Hok.
  { revert E. apply getopt_loop_inv; [|unfold args_ok, MAX_ADAPTERS; simpl; lia].
    intros [dev' ad' seg' ns' nq' rb' fn'] o a' Hok Hs. unfold args_ok in Hok. cbn in Hok. unfold MAX_ADAPTERS in *.
    repeat parse_step; injection Hs as <-; unfold args_ok, MAX_ADAPTERS; cbn;
      try match goal with |- context [u32 ?x] => pose proof (u32_bound x) end;
      rewrite ?(u16_small _), ?(u32_small _) by lia; intuition lia. }
  destruct (Z.eqb_spec dev 0); [done|]. destruct files as [|f [|]]; try done. intros [= <-]. done.
Qed.

Lemma parse_arguments_sound_witness :
  let opts := [Opt (chr "c") (lit "0x10"); Opt (chr "a") (lit "3"); Opt (chr "q") (lit "65534"); Opt (chr "n") (lit "-1")] in
  let a := Arguments_ 16 3 5 (2 ^ 32 - 1) 65534 0 (lit "data") in
  parse_arguments opts [lit "data"] = Parsed a /\ (args_ok a /\ ia_device_id a <> 0 /\ [lit "data"] = [ia_filename a]).
Proof. split; [vm_compute; reflexivity|]. apply (parse_arguments_sound
  [Opt (chr "c") (lit "0x10"); Opt (chr "a") (lit "3"); Opt (chr "q") (lit "65534"); Opt (chr "n") (lit "-1")] [lit "data"]).
  vm_compute. reflexivity. Defined.

(** C39: arguments survive being printed: given the printed identifier, adapter,
    namespace, segment, number of queues and number of bytes in any of these
    options, [parse_arguments] returns exactly those. *)
Theorem parse_arguments_roundtrip a : args_ok a -> ia_device_id a <> 0 -> ia_read_bytes a <> 0 ->
  parse_arguments
    [Opt (chr "c") (print_num 10 (ia_device_id a)); Opt (chr "a") (print_num 10 (ia_adapter a));
     Opt 1 (print_num 10 (ia_segment_id a)); Opt (chr "n") (print_num 10 (ia_ns_id a));
     Opt (chr "q") (print_num 10 (ia_n_queues a)); Opt (chr "r") (print_num 10 (ia_read_bytes a))]
    [ia_filename a] = Parsed a.
Proof.
  destruct a as [dev ad seg ns nq rb fn]. unfold args_ok, MAX_ADAPTERS. cbn. intros (H1 & H2 & H3 & H4 & H5 & H6) Hd Hrb.
  pose proof (parse_number_print 0 dev 0 0 ltac:(lia) ltac:(lia) ltac:(lia)) as E1.
  pose proof (parse_number_print 10 ad 0 MAX_ADAPTERS ltac:(lia) ltac:(lia) ltac:(unfold MAX_ADAPTERS; lia)) as E2.
  pose proof (parse_number_print 0 seg 0 0 ltac:(lia) ltac:(lia) ltac:(lia)) as E3.
  pose proof (parse_number_print 0 ns 0 0 ltac:(lia) ltac:(lia) ltac:(lia)) as E4.
  pose proof (parse_number_print 0 nq 1 0xffff ltac:(lia) ltac:(lia) ltac:(lia)) as E5.
  pose proof (parse_number_print 0 rb 0 0 ltac:(lia) ltac:(lia) ltac:(lia)) as E6. simpl Z.eqb in *. cbn iota in *.
  unfold parse_arguments. cbn [getopt_loop o_val o_arg].
  set (s1 := print_num 10 dev) in *. set (s2 := print_num 10 ad) in *. set (s3 := print_num 10 seg) in *.
  set (s4 := print_num 10 ns) in *. set (s5 := print_num 10 nq) in *. set (s6 := print_num 10 rb) in *. clearbody s1 s2 s3 s4 s5 s6.
  repeat match goal with |- context [chr ?s] => let v := eval vm_compute in (chr s) in change (chr s) with v end.
  simpl Z.eqb. cbn iota. cbn [orb]. rewrite E1. cbn iota. rewrite E2. cbn iota. rewrite E3. cbn iota. rewrite E4. cbn iota.
  rewrite E5. cbn iota. rewrite E6. cbn iota.
  rewrite (proj2 (Z.eqb_neq rb 0)), (proj2 (Z.eqb_neq dev 0)), !u32_small, u16_small by lia. done.
Qed.

Lemma parse_arguments_roundtrip_witness :
  let a := Arguments_ (2 ^ 40 + 7) 2 123456 42 31 4096 (lit "out.bin") in
  args_ok a /\ parse_arguments
    [Opt (chr "c") (print_num 10 (ia_device_id a)); Opt (chr "a") (print_num 10 (ia_adapter a));
     Opt 1 (print_num 10 (ia_segment_id a)); Opt (chr "n") (print_num 10 (ia_ns_id a));
     Opt (chr "q") (print_num 10 (ia_n_queues a)); Opt (chr "r") (print_num 10 (ia_read_bytes a))]
    [ia_filename a] = Parsed a.
Proof.
  assert (args_ok (Arguments_ (2 ^ 40 + 7) 2 123456 42 31 4096 (lit "out.bin"))) as Hok by (unfold args_ok, MAX_ADAPTERS; cbn; lia).
  split; [exact Hok|]. apply (parse_arguments_roundtrip (Arguments_ (2 ^ 40 + 7) 2 123456 42 31 4096 (lit "out.bin"))); [exact Hok|cbn; lia|cbn; lia].
Defined.

(** What the server's parser holds. *)
Definition server_ok (a : server_args) : Prop :=
  0 <= va_n_dis_adapters a <= MAX_ADAPTS /\ length (va_dis_adapters a) = 4%nat
  /\ Forall (fun x => x in_u 32) (va_dis_adapters a) /\ va_ctrl_adapter a in_u 32.

(** The server's parser never writes outside [dis_adapters], whatever the number
    of options, and what it returns has a controller and between one and four
    adapters, each of 32 bits. *)
Theorem server_parse_opts_sound opts a : server_parse_opts opts = Parsed a ->
  server_ok a /\ va_smartio_dev_id a <> 0 /\ 1 <= va_n_dis_adapters a.
Proof.
  unfold server_parse_opts. destruct (getopt_loop _ _ opts) as [|b] eqn:E; [done|].
  assert (server_ok b) as Hok.
  { revert E. apply getopt_loop_inv; [|split; [simpl; unfold MAX_ADAPTS; lia|]; split; [done|]; split; [by apply Forall_replicate|simpl; lia]].
    intros [ic id ca n l v] o a' (H1 & H2 & H3 & H4) Hs. cbn in *. unfold bad_option in Hs.
    repeat match goal with
    | H : context [if ?b then _ else _] |- _ => let E := fresh "E" in destruct b eqn:E; try done
    | H : context [match parse_u64 ?s ?b with _ => _ end] |- _ => destruct (parse_u64 s b) as [[] []]; try done
    | H : context [match parse_u32 ?s ?b with _ => _ end] |- _ =>
        let E := fresh "E" in destruct (parse_u32 s b) as [[] []] eqn:E; try done; apply parse_u32_sound in E as (_ & ? & _); [|lia]
    end; injection Hs as <-; unfold server_ok, MAX_ADAPTS in *; cbn; zbool; try tauto.
    rewrite u64_small by lia. split; [lia|]. split; [by rewrite length_insert|]. split; [by apply Forall_insert|done]. }
  destruct (Z.eqb_spec (va_smartio_dev_id b) 0); [done|]. destruct Hok as (H1 & H2 & H3 & H4).
  destruct (Z.eqb_spec (va_n_dis_adapters b) 0) as [E0|]; intros [= <-]; unfold server_ok, MAX_ADAPTS in *; cbn.
  - rewrite E0, u64_small by lia. split; [|split; [done|lia]]. split; [lia|]. split; [by rewrite length_insert|].
    split; [by apply Forall_insert|done].
  - repeat split; try done; lia.
Qed.

Lemma server_parse_opts_sound_witness :
  let r := Opt (chr "r") in
  let opts := [r (lit "1"); Opt (chr "c") (lit "0x80000"); r (lit "2"); r (lit "3"); r (lit "4"); r (lit "5"); Opt (chr "v") []] in
  let a := ServerArgs false 0x80000 0 4 [1; 2; 3; 4] true in
  server_parse_opts opts = Parsed a /\ (server_ok a /\ va_smartio_dev_id a <> 0 /\ 1 <= va_n_dis_adapters a).
Proof.
  split; [vm_compute; reflexivity|]. apply (server_parse_opts_sound
    [Opt (chr "r") (lit "1"); Opt (chr "c") (lit "0x80000"); Opt (chr "r") (lit "2"); Opt (chr "r") (lit "3"); Opt (chr "r") (lit "4");
     Opt (chr "r") (lit "5"); Opt (chr "v") []]). vm_compute. reflexivity.
Defined.

(** The checks of [read-blocks] come after a 64-bit number was stored in a 32-bit
    field: an adapter or a namespace beyond 32 bits is accepted as its remainder. *)
Theorem parse_options_truncates k n :
  0 <= k < 4 -> 0 <= n < 2 ^ 32 - 1 ->
  exists a, parse_options true
    [Opt (chr "c") (lit "1"); Opt (chr "b") (lit "1"); Opt (chr "a") (print_num 10 (2 ^ 32 + k)); Opt (chr "n") (print_num 10 (2 ^ 32 + n))]
    = Parsed a /\ oa_adapter a = k /\ oa_namespace_id a = n.
Proof.
  intros Hk Hn. pose proof (strtoul_print 10 (2 ^ 32 + k) ltac:(lia) ltac:(lia)) as E1.
  pose proof (strtoul_print_0 (2 ^ 32 + n) ltac:(lia)) as E2.
  assert (forall x, 0 <= x < 2 ^ 32 -> u32 (2 ^ 32 + x) = x) as Eu.
  { intros x Hx. unfold u32, wrap. replace (2 ^ 32 + x) with (x + 1 * 2 ^ 32) by lia. rewrite Z.mod_add by lia. by apply Z.mod_small. }
  eexists. unfold parse_options. cbn [getopt_loop o_val o_arg].
  set (s1 := print_num 10 (2 ^ 32 + k)) in *. set (s2 := print_num 10 (2 ^ 32 + n)) in *. clearbody s1 s2.
  repeat match goal with |- context [chr ?s] => let v := eval vm_compute in (chr s) in change (chr s) with v end.
  change (strtoul (lit "1") 0) with (1, [] : cstring). simpl Z.eqb. cbn [orb andb]. cbn iota beta.
  rewrite bool_decide_eq_true_2 by done. cbn iota beta. simpl Z.eqb. cbn iota. rewrite E1. cbn iota beta. rewrite bool_decide_eq_true_2 by done. cbn iota beta.
  rewrite Eu by lia. rewrite (Z.geb_leb k 4), (proj2 (Z.leb_gt 4 k)) by lia. cbn iota. rewrite E2. cbn iota beta. rewrite bool_decide_eq_true_2 by done. cbn iota beta. rewrite Eu by lia.
  rewrite (proj2 (Z.eqb_neq n 0xffffffff)) by lia. simpl. done.
Qed.

Lemma parse_options_truncates_witness :
  exists a, parse_options true
    [Opt (chr "c") (lit "1"); Opt (chr "b") (lit "1"); Opt (chr "a") (print_num 10 (2 ^ 32 + 3)); Opt (chr "n") (print_num 10 (2 ^ 32 + 9))]
    = Parsed a /\ oa_adapter a = 3 /\ oa_namespace_id a = 9.
Proof. apply (parse_options_truncates 3 9); lia. Defined.


(** ** Bus-device-function *)

Definition no_char (c : Z) (s : cstring) : Prop := Forall (fun x => code x <> c) s.

Lemma strchr_none c s : no_char c s -> strchr c s = None.
Proof. induction 1 as [|x s Hx _ IH]; [done|]. simpl. by rewrite (proj2 (Z.eqb_neq _ _) Hx), IH. Qed.

Lemma strrchr_none c s : no_char c s -> strrchr c s = None.
Proof. induction 1 as [|x s Hx _ IH]; [done|]. simpl. by rewrite IH, (proj2 (Z.eqb_neq _ _) Hx). Qed.

Lemma strchr_app c s x t : no_char c s -> code x = c -> strchr c (s ++ x :: t) = Some (s, t).
Proof.
  intros Hs Hx. induction Hs as [|y s Hy _ IH]; simpl; [by rewrite Hx, Z.eqb_refl|].
  by rewrite (proj2 (Z.eqb_neq _ _) Hy), IH.
Qed.

Lemma strrchr_app c s x t : no_char c t -> code x = c -> strrchr c (s ++ x :: t) = Some (s, t).
Proof.
  intros Ht Hx. induction s as [|y s IH]; simpl; [|by rewrite IH]. by rewrite strrchr_none, Hx, Z.eqb_refl.
Qed.

(** Printed numbers contain neither separator. *)
Lemma print_pad_no_char k base n c : 2 <= base <= 36 -> n in_u 64 -> c = 58 \/ c = 46 -> no_char c (print_pad k base n).
Proof.
  intros Hb Hn Hc. destruct (print_digits_spec 64 base n ltac:(lia)) as (Hall & _); [split; [lia|]; apply pow_64; lia|].
  unfold print_pad, no_char. apply Forall_app. split.
  - apply Forall_replicate. vm_compute. lia.
  - eapply Forall_impl; [|exact Hall]. intros x (d & Hd & ->).
    destruct (digit_of_char d ltac:(lia)) as (_ & _ & _ & _ & _ & H1 & H2 & _). destruct Hc; congruence.
Qed.

Lemma print_num_no_char base n c : 2 <= base <= 36 -> n in_u 64 -> c = 58 \/ c = 46 -> no_char c (print_num base n).
Proof. apply (print_pad_no_char 0). Qed.

(** The length of a printed number is the number of its digits. *)
Lemma print_digits_length base k fuel n : 2 <= base -> 0 <= n < base ^ Z.of_nat (S k) ->
  (length (print_digits fuel base n) <= S k)%nat.
Proof.
  intros Hb. revert k n. induction fuel as [|fuel IH]; intros k n Hn; [simpl; lia|]. cbn [print_digits].
  destruct (Z.ltb_spec n base); [simpl; lia|]. rewrite length_app. cbn [length]. destruct k as [|k].
  - change (Z.of_nat 1) with 1 in Hn. lia.
  - assert (0 <= n / base < base ^ Z.of_nat (S k)) as Hd.
    { split; [apply Z.div_pos; lia|]. apply Z.div_lt_upper_bound; [lia|].
      rewrite (Nat2Z.inj_succ (S k)), Z.pow_succ_r in Hn by lia. lia. }
    specialize (IH k _ Hd). lia.
Qed.

Lemma print_pad_length k j base n : 2 <= base -> 0 <= n < base ^ Z.of_nat (S j) ->
  (length (print_pad k base n) <= Nat.max k (S j))%nat.
Proof.
  intros Hb Hn. unfold print_pad. rewrite length_app, length_replicate.
  pose proof (print_digits_length base j 64 n Hb Hn). unfold print_num. lia.
Qed.

Lemma s32_small x : 0 <= x < 2 ^ 31 -> s32 x = x.
Proof. intros. unfold s32. rewrite u32_small by lia. cbv zeta. by rewrite (proj2 (Z.ltb_lt x (2 ^ 31))) by lia. Qed.

Lemma strtoul_digit_0 n : 0 <= n < 8 -> strtoul (print_num 16 n) 0 = (n, []).
Proof.
  intros Hn. assert (Forall (fun n => strtoul (print_num 16 n) 0 = (n, [])) (seqZ 0 8)) as Hall by (repeat (constructor; [vm_compute; reflexivity|]); constructor).
  eapply Forall_forall in Hall; [exact Hall|]. apply list_elem_of_In, elem_of_seqZ. lia.
Qed.

(** A device that PCI allows. *)
Definition pci_ok (dev : bdf) : Prop :=
  0 <= bd_domain dev <= 0xffff /\ 0 <= bd_bus dev <= 0xff /\ 0 <= bd_device dev <= 0xff /\ 0 <= bd_function dev < 8.

(** The name under which the kernel lists a PCI device is parsed back to that
    device: domain, bus, device and function are found at the right separators and
    read in the right bases. *)
Theorem parse_bdf_name dev : pci_ok dev -> parse_bdf (bdf_name dev) = Some dev.
Proof.
  destruct dev as [dom bus slot fn]. unfold pci_ok. cbn. intros (H1 & H2 & H3 & H4).
  unfold bdf_name. cbn [bd_domain bd_bus bd_device bd_function]. rewrite !u32_small by lia.
  set (d := print_pad 4 16 dom). set (b := print_pad 2 16 bus). set (s := print_pad 2 16 slot). set (f := print_num 16 fn).
  assert (no_char 58 d /\ no_char 58 b /\ no_char 46 s /\ no_char 58 s /\ no_char 58 f) as (Hd & Hb & Hs & Hs' & Hf)
    by (subst d b s f; repeat split; (apply print_pad_no_char || apply print_num_no_char); lia).
  assert (strtoul d 16 = (dom, []) /\ strtoul b 16 = (bus, []) /\ strtoul s 16 = (slot, []) /\ strtoul f 0 = (fn, [])) as (Ed & Eb & Es & Ef)
    by (subst d b s f; repeat split; [apply strtoul_pad|apply strtoul_pad|apply strtoul_pad|apply strtoul_digit_0]; lia).
  unfold parse_bdf. change (chr ":") with 58. change (chr ".") with 46.
  set (colon := lit ":"). assert (exists x, colon = [x] /\ code x = 58) as (xc & -> & Hxc) by (by eexists).
  set (dot := lit "."). assert (exists x, dot = [x] /\ code x = 46) as (xd & -> & Hxd) by (by eexists).
  clearbody d b s f. cbn [app]. replace (d ++ xc :: b ++ xc :: s ++ xd :: f) with ((d ++ xc :: b) ++ xc :: (s ++ xd :: f)) by (by rewrite <-app_assoc).
  assert (no_char 58 (s ++ xd :: f)) as Hsf by (apply Forall_app; split; [done|]; constructor; [lia|done]).
  rewrite (strrchr_app 58 (d ++ xc :: b) xc _ Hsf Hxc), (strchr_app 46 s xd f Hs Hxd), (strchr_app 58 d xc b Hd Hxc), Ed, Eb, Es, Ef.
  rewrite !s32_small, (bool_decide_eq_true_2 ([] = [])) by (done || lia). cbn [negb orb].
  by rewrite !Z.gtb_ltb, (proj2 (Z.ltb_ge 65535 dom)), (proj2 (Z.ltb_ge 255 bus)), (proj2 (Z.ltb_ge 255 slot)) by lia.
Qed.

Lemma parse_bdf_name_witness : pci_ok (Bdf 0 0x3b 0x1f 7) /\ parse_bdf (lit "0000:3b:1f.7") = Some (Bdf 0 0x3b 0x1f 7).
Proof.
  assert (pci_ok (Bdf 0 0x3b 0x1f 7)) as Hok by (unfold pci_ok; cbn; lia). split; [exact Hok|].
  change (lit "0000:3b:1f.7") with (bdf_name (Bdf 0 0x3b 0x1f 7)). exact (parse_bdf_name _ Hok).
Defined.

Lemma s32_bound x : - 2 ^ 31 <= s32 x < 2 ^ 31.
Proof. unfold s32. cbv zeta. pose proof (u32_bound x). destruct (Z.ltb_spec (u32 x) (2 ^ 31)); lia. Qed.

(** Ranges of what [parse_bdf] accepts: the fields are bounded only from above. *)
Definition bdf_ok (dev : bdf) : Prop :=
  (- 2 ^ 31 <= bd_domain dev <= 0xffff) /\ (- 2 ^ 31 <= bd_bus dev <= 0xff)
  /\ (- 2 ^ 31 <= bd_device dev <= 0xff) /\ (- 2 ^ 31 <= bd_function dev < 2 ^ 31).

Lemma parse_bdf_ok str dev : parse_bdf str = Some dev -> bdf_ok dev.
Proof.
  unfold parse_bdf. intros H. repeat match type of H with
  | (let '(_, _) := ?x in _) = _ => destruct x
  | (if ?b then _ else _) = _ => let E := fresh "E" in destruct b eqn:E; [done|]
  end. injection H as <-. unfold bdf_ok. cbn.
  repeat match goal with E : _ || _ = false |- _ => apply orb_false_iff in E as [? E] end.
  rewrite Z.gtb_ltb in *. zbool.
  repeat match goal with |- context [s32 ?x] => pose proof (s32_bound x); generalize dependent (s32 x); intros end. lia.
Qed.

(** At most eight digits, and as many as the range has for what is not negative. *)
Lemma pad_width k x : (length (print_pad k 16 (u32 x)) <= Nat.max k 8)%nat.
Proof. apply print_pad_length; [lia|]. change (16 ^ Z.of_nat 8) with (2 ^ 32). apply u32_bound. Qed.

Lemma pad_exact k x : 0 <= x < 16 ^ Z.of_nat (S k) -> (k < 8)%nat -> (length (print_pad (S k) 16 (u32 x)) <= S k)%nat.
Proof.
  intros Hx Hk. rewrite u32_small.
  - pose proof (print_pad_length (S k) k 16 x ltac:(lia) Hx). lia.
  - pose proof (Z.pow_le_mono_r 16 (Z.of_nat (S k)) 8). change (2 ^ 32) with (16 ^ 8). lia.
Qed.

Lemma bdf_name_length dev : bdf_ok dev -> (length (bdf_name dev) <= 35)%nat /\
  (0 <= bd_domain dev \/ 0 <= bd_bus dev \/ 0 <= bd_device dev -> (length (bdf_name dev) <= 31)%nat).
Proof.
  destruct dev as [dom bus slot fn]. intros (H1 & H2 & H3 & H4). cbn in *. unfold bdf_name. cbn [bd_domain bd_bus bd_device bd_function].
  change (lit ":") with [":"%char]. change (lit ".") with ["."%char]. rewrite !length_app. cbn [length].
  pose proof (pad_width 4 dom). pose proof (pad_width 2 bus). pose proof (pad_width 2 slot). pose proof (pad_width 0 fn).
  change (print_pad 0 16 (u32 fn)) with (print_num 16 (u32 fn)) in *. cbn [Nat.max] in *.
  pose proof (pad_exact 3 dom) as P1. pose proof (pad_exact 1 bus) as P2. pose proof (pad_exact 1 slot) as P3.
  change (16 ^ Z.of_nat 4) with 65536 in P1. change (16 ^ Z.of_nat 2) with 256 in P2, P3.
  split; [lia|]. intros [Hp|[Hp|Hp]]; [specialize (P1 ltac:(lia) ltac:(lia))|specialize (P2 ltac:(lia) ltac:(lia))|specialize (P3 ltac:(lia) ltac:(lia))]; lia.
Qed.

(** What fits a [char path[64]], with its terminator. *)
Definition fits (path : cstring) : bool := (length path + 1 <=? 64)%nat.

(** C40: whatever the string that [parse_bdf] accepts, the paths built from it to
    check, enable and configure the device fit their buffers of 64 bytes; so does
    that of a resource file unless domain, bus and device are all negative. *)
Theorem parse_bdf_paths_fit str dev : parse_bdf str = Some dev ->
  fits (device_path dev []) && fits (device_path dev (lit "/enable")) && fits (device_path dev (lit "/config")) = true
  /\ (0 <= bd_domain dev \/ 0 <= bd_bus dev \/ 0 <= bd_device dev -> fits (device_path dev (lit "/resource0")) = true).
Proof.
  intros H%parse_bdf_ok. destruct (bdf_name_length dev H) as [Hl Hl']. unfold fits, device_path. rewrite !length_app.
  cbn [length lit list_ascii_of_string]. rewrite !andb_true_iff, !Nat.leb_le. split; [lia|]. intros Hp. apply Hl' in Hp. lia.
Qed.

Lemma parse_bdf_paths_fit_witness :
  let str := lit "80000000:80000000:80000000.0x7fffffff" in
  let dev := Bdf (- 2 ^ 31) (- 2 ^ 31) (- 2 ^ 31) (2 ^ 31 - 1) in
  parse_bdf str = Some dev /\ fits (device_path dev (lit "/config")) = true /\ fits (device_path dev (lit "/resource0")) = false.
Proof.
  split; [vm_compute; reflexivity|].
  pose proof (parse_bdf_paths_fit (lit "80000000:80000000:80000000.0x7fffffff") (Bdf (- 2 ^ 31) (- 2 ^ 31) (- 2 ^ 31) (2 ^ 31 - 1)) ltac:(vm_compute; reflexivity)) as [H _].
  apply andb_true_iff in H as [_ H]. split; [exact H|vm_compute; reflexivity].
Defined.
