(* ===== verification/Owned.v ===== *)
(** * A separation logic for heap objects and resources

    The whole programs under [examples/] acquire and release handles of many
    kinds. Their proofs are done in a small linear separation logic: an assertion
    describes a part of the heap together with a multiset of acquired resources,
    and [owp e E m Q] says that [m], run with that part, ends in [Q] or in a fault of
    the set [E], and leaves everything else alone. It is an instance of Iris's [bi],
    so that its proof mode does the bookkeeping. The rules are derived from those of
    [Runtime], and [owp_adequate] turns what is proved back into a statement about
    worlds. *)
From iris.bi Require Import bi.
From iris.proofmode Require Import proofmode.
From stdpp Require Import gmultiset.
From S2P Require Import Prelude Memory Effects Types Runtime.

(** ** Pieces of the state *)

Record piece := Piece { p_objs : gmap Z obj; p_keys : gmultiset key }.

Definition nothing : piece := Piece ∅ ∅.

(** [r] consists of [r1] and [r2]. *)
Definition splits (r r1 r2 : piece) : Prop :=
  p_objs r = p_objs r1 ∪ p_objs r2 /\ p_objs r1 ##ₘ p_objs r2 /\ p_keys r = p_keys r1 ⊎ p_keys r2.

Lemma splits_comm r r1 r2 : splits r r1 r2 -> splits r r2 r1.
Proof.
  intros (Ho & Hd & Hk). split; [by rewrite Ho map_union_comm|]. split; [done|]. rewrite Hk. multiset_solver.
Qed.

Lemma splits_nothing r : splits r nothing r.
Proof.
  split; [by rewrite (left_id_L ∅ (∪))|]. split; [apply map_disjoint_empty_l|]. simpl. multiset_solver.
Qed.

Lemma splits_nothing_inv r r' : splits r nothing r' -> r = r'.
Proof.
  destruct r as [N X], r' as [N' X']. intros (Ho & _ & Hk). simpl in *. f_equal; [|multiset_solver].
  by rewrite Ho (left_id_L ∅ (∪)).
Qed.

Lemma splits_assoc r s r1 r2 r3 : splits r s r3 -> splits s r1 r2 ->
  splits r r1 (Piece (p_objs r2 ∪ p_objs r3) (p_keys r2 ⊎ p_keys r3))
  /\ splits (Piece (p_objs r2 ∪ p_objs r3) (p_keys r2 ⊎ p_keys r3)) r2 r3.
Proof.
  intros (Ho & Hd & Hk) (Ho' & Hd' & Hk'). rewrite Ho' in Ho Hd. apply map_disjoint_union_l in Hd as [Hd1 Hd2].
  split; [|done]. split; [simpl; by rewrite Ho (assoc_L (∪))|].
  split; [by apply map_disjoint_union_r|]. simpl. rewrite Hk Hk'. multiset_solver.
Qed.

(** ** Assertions *)

Record hprop := HProp { holds : piece -> Prop }.
#[global] Bind Scope bi_scope with hprop.

Record entails (P Q : hprop) : Prop := Entails { entails_holds : forall r, holds P r -> holds Q r }.

Record same (P Q : hprop) : Prop := Same { same_holds : forall r, holds P r <-> holds Q r }.

#[local] Instance hprop_equiv : Equiv hprop := same.
#[local] Instance hprop_equivalence : Equivalence (≡@{hprop}).
Proof.
  split; [done| |].
  - intros P Q [H]. constructor. intros r. by rewrite H.
  - intros P Q R [H1] [H2]. constructor. intros r. by rewrite H1.
Qed.
Canonical Structure hpropO := discreteO hprop.

Definition h_emp : hprop := HProp (fun r => r = nothing).
Definition h_pure (φ : Prop) : hprop := HProp (fun _ => φ).
Definition h_and (P Q : hprop) : hprop := HProp (fun r => holds P r /\ holds Q r).
Definition h_or (P Q : hprop) : hprop := HProp (fun r => holds P r \/ holds Q r).
Definition h_impl (P Q : hprop) : hprop := HProp (fun r => holds P r -> holds Q r).
Definition h_forall (A : Type) (P : A -> hprop) : hprop := HProp (fun r => forall a, holds (P a) r).
Definition h_exist (A : Type) (P : A -> hprop) : hprop := HProp (fun r => exists a, holds (P a) r).
Definition h_sep (P Q : hprop) : hprop :=
  HProp (fun r => exists r1 r2, splits r r1 r2 /\ holds P r1 /\ holds Q r2).
Definition h_wand (P Q : hprop) : hprop :=
  HProp (fun r => forall r1 r2, splits r2 r r1 -> holds P r1 -> holds Q r2).
Definition h_persistently (P : hprop) : hprop := h_pure (entails h_emp P).

Lemma h_bi_mixin : BiMixin entails h_emp h_pure h_and h_or h_impl h_forall h_exist h_sep h_wand.
Proof.
  split.
  - split; [done|]. intros P Q R [H1] [H2]. constructor. auto.
  - intros P Q. split; [intros [H]; split; constructor; apply H|]. intros [[H1] [H2]]. constructor. split; auto.
  - intros n φ ψ H. constructor. intros r. exact H.
  - intros n P P' [HP] Q Q' [HQ]. constructor. intros r. simpl. by rewrite HP HQ.
  - intros n P P' [HP] Q Q' [HQ]. constructor. intros r. simpl. by rewrite HP HQ.
  - intros n P P' [HP] Q Q' [HQ]. constructor. intros r. simpl. by rewrite HP HQ.
  - intros A n P P' HP. constructor. intros r. simpl. split; intros H a; by apply (HP a).
  - intros A n P P' HP. constructor. intros r. simpl. split; intros [a H]; exists a; by apply (HP a).
  - intros n P P' [HP] Q Q' [HQ]. constructor. intros r. simpl. split; intros (r1 & r2 & ? & H1 & H2); exists r1, r2;
      (split; [done|]; split; [by apply HP|by apply HQ]).
  - intros n P P' [HP] Q Q' [HQ]. constructor. intros r. simpl. split; intros H r1 r2 Hs H1; apply HQ; eapply H; try done; by apply HP.
  - intros φ P H. constructor. done.
  - intros φ P H. constructor. intros r Hφ. by apply (H Hφ).
  - intros P Q. constructor. by intros r [].
  - intros P Q. constructor. by intros r [].
  - intros P Q R [H1] [H2]. constructor. split; auto.
  - intros P Q. constructor. by left.
  - intros P Q. constructor. by right.
  - intros P Q R [H1] [H2]. constructor. intros r []; auto.
  - intros P Q R [H]. constructor. intros r ? ?. by apply H.
  - intros P Q R [H]. constructor. intros r []. by apply H.
  - intros A P Q H. constructor. intros r ? a. by apply H.
  - intros A P a. constructor. intros r H. apply H.
  - intros A P a. constructor. intros r H. by exists a.
  - intros A P Q H. constructor. intros r [a Ha]. by apply (H a).
  - intros P P' Q Q' [HP] [HQ]. constructor. intros r (r1 & r2 & ? & ? & ?). exists r1, r2. auto.
  - intros P. constructor. intros r H. exists nothing, r. split; [apply splits_nothing|done].
  - intros P. constructor. intros r (r1 & r2 & Hs & -> & H). by apply splits_nothing_inv in Hs as ->.
  - intros P Q. constructor. intros r (r1 & r2 & Hs & H1 & H2). exists r2, r1. split; [by apply splits_comm|done].
  - intros P Q R. constructor. intros r (s & r3 & Hs & (r1 & r2 & Hs' & H1 & H2) & H3).
    destruct (splits_assoc _ _ _ _ _ Hs Hs') as [Ha Hb]. do 2 eexists. split; [exact Ha|]. split; [done|].
    by exists r2, r3.
  - intros P Q R [H]. constructor. intros r HP r1 r2 Hs HQ. apply H. by exists r, r1.
  - intros P Q R [H]. constructor. intros r (r1 & r2 & Hs & H1 & H2). by apply (H _ H1 r2).
Qed.

Lemma h_persistently_mixin : BiPersistentlyMixin entails h_emp h_and h_exist h_sep h_persistently.
Proof.
  eapply bi_persistently_mixin_discrete; [done| |done|apply h_bi_mixin].
  intros A P [H]. destruct (H nothing eq_refl) as [a Ha]. exists a. constructor. by intros r ->.
Qed.

Lemma h_later_mixin : BiLaterMixin entails h_pure h_or h_impl h_forall h_exist h_sep h_persistently id.
Proof. eapply bi_later_mixin_id; [done|apply h_bi_mixin]. Qed.

Canonical Structure hpropI : bi := {|
  bi_ofe_mixin := ofe_mixin_of hprop;
  bi_bi_mixin := h_bi_mixin;
  bi_bi_persistently_mixin := h_persistently_mixin;
  bi_bi_later_mixin := h_later_mixin;
|}.

(** Nothing may be dropped: [True] holds of every piece, [emp] of nothing only. *)
#[export] Instance hprop_pure_forall : BiPureForall hpropI.
Proof. intros A φ. constructor. intros r H a. apply H. Qed.

(** [p ↦ o]: the object [o] lies at [p]. [acquired X]: the resources [X] are held. *)
Definition points_to (p : Z) (o : obj) : hprop := HProp (fun r => r = Piece {[p := o]} ∅).
Definition acquired (X : gmultiset key) : hprop := HProp (fun r => r = Piece ∅ X).
Abbreviation own κ := (acquired {[+ κ +]}).
Notation "p ↦ o" := (points_to p o) (at level 20) : bi_scope.

(** ** Weakest preconditions

    [wpf] is [wp] with faults of [E] permitted; running out of fuel is not. *)
Definition wpf {A} (e : uenv) (E : fault -> Prop) (m : UM A) (w : uworld) (Q : A -> uworld -> Prop) : Prop :=
  match m e w with Ok a w' => Q a w' | Fault f _ => E f | OutOfFuel _ => False end.

(** [r] is what is owned, [F] is not touched. *)
Definition owp {A} (e : uenv) (E : fault -> Prop) (m : UM A) (Q : A -> hprop) : hprop := HProp (fun r =>
  forall w F, heap_ok w -> objs w = p_objs r ∪ F -> p_objs r ##ₘ F ->
  wpf e E m w (fun a w' => exists r', heap_ok w' /\ objs w' = p_objs r' ∪ F /\ p_objs r' ##ₘ F
    /\ (forall κ, bal w' κ + Z.of_nat (multiplicity κ (p_keys r)) = bal w κ + Z.of_nat (multiplicity κ (p_keys r')))
    /\ holds (Q a) r')).

Lemma acquired_empty : acquired ∅ ⊣⊢ emp.
Proof. by apply (anti_symm _); constructor. Qed.

Lemma acquired_disj_union X Y : acquired (X ⊎ Y) ⊣⊢ acquired X ∗ acquired Y.
Proof.
  apply (anti_symm _); constructor; intros r.
  - intros ->. exists (Piece ∅ X), (Piece ∅ Y). split; [|done]. split; [done|]. split; [apply map_disjoint_empty_l|done].
  - intros ([N1 X1] & [N2 X2] & (Ho & _ & Hk) & [= -> ->] & [= -> ->]). destruct r as [N Z]. simpl in *.
    by rewrite Ho Hk (left_id_L ∅ (∪)).
Qed.

#[export] Instance into_sep_acquired X Y : IntoSep (acquired (X ⊎ Y)) (acquired X) (acquired Y).
Proof. unfold IntoSep. by rewrite acquired_disj_union. Qed.
#[export] Instance from_sep_acquired X Y : FromSep (acquired (X ⊎ Y)) (acquired X) (acquired Y).
Proof. unfold FromSep. by rewrite acquired_disj_union. Qed.

Lemma multiplicity_one κ κ0 : Z.of_nat (multiplicity κ ({[+ κ0 +]} : gmultiset key)) = one κ0 κ.
Proof. rewrite multiplicity_singleton. unfold one. repeat case_decide; by subst. Qed.

(** The account of a step that moved [Hb]. *)
Ltac solve_account Hb :=
  let κ := fresh "κ" in intros κ; specialize (Hb κ); cbn beta in Hb;
  repeat match goal with H : p_keys _ = _ |- _ => rewrite H end; cbn [p_keys];
  rewrite ?multiplicity_disj_union ?multiplicity_empty; lia.

(** ** Rules *)

Lemma wp_wpf {A} e E (m : UM A) w Q : wp e m w Q -> wpf e E m w Q.
Proof. unfold wp, wpf. by destruct (m e w). Qed.

Lemma wpf_mono {A} e E (m : UM A) w (Q Q' : A -> uworld -> Prop) :
  wpf e E m w Q -> (forall a w', Q a w' -> Q' a w') -> wpf e E m w Q'.
Proof. unfold wpf. destruct (m e w); auto. Qed.

Lemma wpf_bind {A B} e E (m : UM A) (f : A -> UM B) w Q :
  wpf e E m w (fun a w' => wpf e E (f a) w' Q) -> wpf e E (m ≫= f) w Q.
Proof. unfold wpf, mbind, M_bind. by destruct (m e w). Qed.

Section rules.
Context (e : uenv) (E : fault -> Prop).

Lemma owp_ret {A} (a : A) (Q : A -> hprop) : Q a ⊢ owp e E (mret a) Q.
Proof.
  constructor. intros r H w F Hok Ho Hd. apply wp_wpf, wp_ret. exists r. split; [done|]. split; [done|]. split; [done|].
  split; [lia|done].
Qed.

Lemma owp_bind {A B} (m : UM A) (f : A -> UM B) Q : owp e E m (fun a => owp e E (f a) Q) ⊢ owp e E (m ≫= f) Q.
Proof.
  constructor. intros r H w F Hok Ho Hd. apply wpf_bind. eapply wpf_mono; [by apply H|].
  intros a w' (r' & Hok' & Ho' & Hd' & Hb & H'). eapply wpf_mono; [by apply H'|].
  intros b w'' (r'' & Hok'' & Ho'' & Hd'' & Hb' & HQ). exists r''. do 3 (split; [done|]). split; [|done].
  intros κ. specialize (Hb κ). specialize (Hb' κ). lia.
Qed.

(** Consequence and frame in one. *)
Lemma owp_wand {A} (m : UM A) (Q Q' : A -> hprop) : owp e E m Q ∗ (∀ a, Q a -∗ Q' a) ⊢ owp e E m Q'.
Proof.
  constructor. intros r (r1 & r2 & (Hs & Hd12 & Hk) & H & HQ) w F Hok Ho Hd.
  rewrite Hs in Ho Hd. apply map_disjoint_union_l in Hd as [Hd1 Hd2].
  eapply wpf_mono; [apply (H w (p_objs r2 ∪ F) Hok)|].
  - by rewrite Ho (assoc_L (∪)).
  - by apply map_disjoint_union_r.
  - intros a w' (r' & Hok' & Ho' & Hd' & Hb & HQa). apply map_disjoint_union_r in Hd' as [Hd1' Hd2'].
    exists (Piece (p_objs r' ∪ p_objs r2) (p_keys r' ⊎ p_keys r2)). split; [done|].
    split; [by rewrite Ho' (assoc_L (∪))|]. split; [by apply map_disjoint_union_l|]. split.
    + intros κ. specialize (Hb κ). rewrite Hk /= !multiplicity_disj_union. lia.
    + eapply (HQ a); [|exact HQa]. apply splits_comm. split; [done|]. done.
Qed.

(** Environment calls, by what they do to the ledger. *)
Lemma owp_ext_gen c X (Y : resp -> gmultiset key) (Q : resp -> hprop) :
  (forall r κ, delta c r κ + Z.of_nat (multiplicity κ X) = Z.of_nat (multiplicity κ (Y r))) ->
  acquired X ∗ (∀ r, ⌜exists w, answers e w c r⌝ → acquired (Y r) -∗ Q r) ⊢ owp e E (ext c) Q.
Proof.
  intros HY. constructor. intros r (r1 & r2 & (Hs & Hd12 & Hk) & -> & HQ) w F Hok Ho Hd. apply wp_wpf, wp_ext.
  set (rs := fst (e_resp e w c)). exists (Piece (p_objs r) (Y rs ⊎ p_keys r2)). split; [done|]. split; [done|]. split; [done|]. split.
  - intros κ. specialize (HY rs κ). rewrite bal_after Hk. simpl. rewrite !multiplicity_disj_union. fold rs. lia.
  - eapply (HQ rs); [by exists w| |reflexivity]. apply splits_comm. split; [|split; [apply map_disjoint_empty_l|done]].
    simpl. by rewrite Hs (left_id_L ∅ (∪)).
Qed.

Lemma owp_quiet c (Q : resp -> hprop) : (forall r κ, delta c r κ = 0) ->
  (∀ r, ⌜exists w, answers e w c r⌝ → Q r) ⊢ owp e E (ext c) Q.
Proof.
  intros Hc. iIntros "H". iApply (owp_ext_gen c ∅ (fun _ => ∅)); [intros; by rewrite Hc multiplicity_empty|].
  iSplitR; [by iApply acquired_empty|]. iIntros (r Hr) "E". iDestruct (acquired_empty with "E") as "_". by iApply "H".
Qed.

Lemma owp_acquire c (b : resp -> bool) (k : resp -> key) (Q : resp -> hprop) :
  (forall r κ, delta c r κ = if b r then one (k r) κ else 0) ->
  (∀ r, ⌜exists w, answers e w c r⌝ → (⌜b r = true⌝ → own (k r) -∗ Q r) ∧ (⌜b r = false⌝ → Q r)) ⊢ owp e E (ext c) Q.
Proof.
  intros Hc. iIntros "H". iApply (owp_ext_gen c ∅ (fun r => if b r then {[+ k r +]} else ∅)).
  - intros r κ. rewrite Hc multiplicity_empty. destruct (b r); [rewrite multiplicity_one; lia|by rewrite multiplicity_empty].
  - iSplitR; [by iApply acquired_empty|]. iIntros (r Hr) "E". iSpecialize ("H" $! r Hr).
    destruct (b r); [iDestruct "H" as "[H _]"; by iApply "H"|iDestruct "H" as "[_ H]"].
    iDestruct (acquired_empty with "E") as "_". by iApply "H".
Qed.

Lemma owp_release c κ (Q : resp -> hprop) : (forall r κ', delta c r κ' = - one κ κ') ->
  own κ -∗ (∀ r, ⌜exists w, answers e w c r⌝ → Q r) -∗ owp e E (ext c) Q.
Proof.
  intros Hc. iIntros "K H". iApply (owp_ext_gen c {[+ κ +]} (fun _ => ∅)).
  - intros r κ'. rewrite Hc multiplicity_one multiplicity_empty. lia.
  - iFrame "K". iIntros (r Hr) "E". iDestruct (acquired_empty with "E") as "_". by iApply "H".
Qed.

(** Operations with a contract. *)
Lemma owp_acquires {A} (m : UM (Z * A)) L (X : A -> gmultiset key) (Q : Z * A -> hprop) :
  acquires e m L -> (forall d κ, L d κ = Z.of_nat (multiplicity κ (X d))) ->
  (∀ s d, (⌜s = 0⌝ → acquired (X d) -∗ Q (s, d)) ∧ (⌜s <> 0⌝ → Q (s, d))) ⊢ owp e E m Q.
Proof.
  intros Hm HL. constructor. intros r H w F Hok Ho Hd. apply wp_wpf. eapply wp_mono; [apply Hm|].
  intros [s d] w' (Hst & H0 & H1). destruct (H s d) as [H2 H3]. simpl in H0, H1.
  destruct (decide (s = 0)) as [Hs|Hs].
  - specialize (H0 Hs). exists (Piece (p_objs r) (X d ⊎ p_keys r)). split; [by eapply heap_ok_st|]. rewrite Hst. do 2 (split; [done|]).
    split; [intros κ; specialize (H0 κ); rewrite HL in H0; simpl; rewrite multiplicity_disj_union; lia|].
    eapply (H2 Hs); [|reflexivity]. split; [simpl; by rewrite (right_id_L ∅ (∪))|]. split; [apply map_disjoint_empty_r|simpl; multiset_solver].
  - specialize (H1 Hs). exists r. split; [by eapply heap_ok_st|]. rewrite Hst. do 2 (split; [done|]).
    split; [intros κ; specialize (H1 κ); simpl in H1; lia|]. by apply H3.
Qed.

Lemma owp_gives_back {A} (m : UM A) L X (Q : A -> hprop) :
  gives_back e m L -> (forall κ, L κ = Z.of_nat (multiplicity κ X)) ->
  acquired X -∗ (∀ a, Q a) -∗ owp e E m Q.
Proof.
  intros Hm HL. apply bi.entails_wand, bi.wand_intro_r. constructor. intros r (r1 & r2 & (Hs & Hd12 & Hk) & -> & HQ) w F Hok Ho Hd. apply wp_wpf. eapply wp_mono; [apply Hm|].
  intros a w' (Hst & Hb). exists r2. simpl in Hs. rewrite (left_id_L ∅ (∪)) in Hs. rewrite -Hs. split; [by eapply heap_ok_st|]. rewrite Hst.
  do 2 (split; [done|]). split; [|apply HQ]. intros κ. specialize (Hb κ). simpl in Hb. rewrite HL in Hb. rewrite Hk /= multiplicity_disj_union. lia.
Qed.

(** Operations that move nothing. *)
Lemma owp_inert {A} (m : UM A) (φ : A -> Prop) (Q : A -> hprop) :
  (forall w, wp e m w (fun a w' => w_st w' = w_st w /\ moved w w' (fun _ => 0) /\ φ a)) ->
  (∀ a, ⌜φ a⌝ → Q a) ⊢ owp e E m Q.
Proof.
  intros Hm. constructor. intros r H w F Hok Ho Hd. apply wp_wpf. eapply wp_mono; [apply Hm|].
  intros a w' (Hst & Hb & Hφ). exists r. split; [by eapply heap_ok_st|]. rewrite Hst. do 2 (split; [done|]).
  split; [solve_account Hb|by apply H].
Qed.

Lemma owp_fail {A} f (P : hprop) (Q : A -> hprop) : E f -> P ⊢ owp e E (fail f) Q.
Proof. intros Hf. constructor. by intros r _ w F _ _ _. Qed.

(** The heap. *)
Lemma owp_malloc {A} `{Struct A} t x (a : A) (Q : Z -> hprop) :
  (⌜exists w r, answers e w (Malloc t x) r /\ r_val r = 0⌝ → Q NULL) ∧ (∀ p, ⌜p <> NULL⌝ → p ↦ to_obj a -∗ Q p)
  ⊢ owp e E (malloc t x a) Q.
Proof.
  constructor. intros r [H0 H1] w F Hok Ho Hd. apply wp_wpf. eapply wp_malloc; [done| |].
  - intros rs w' Ha Hz Hst Hb. exists r. split; [by eapply heap_ok_st|]. rewrite Hst. do 2 (split; [done|]).
    split; [solve_account Hb|]. apply H0. by exists w, rs.
  - intros w' Ho' Hf Hn Hok' Hb. set (p := h_next (w_st w)) in *. rewrite Ho in Hf. apply lookup_union_None in Hf as [Hf1 Hf2].
    exists (Piece (<[p := to_obj a]> (p_objs r)) (p_keys r)). split; [done|].
    split; [by rewrite Ho' Ho insert_union_l|]. split; [by apply map_disjoint_insert_l|].
    split; [solve_account Hb|]. eapply (H1 p); [by apply heap_ok_next| |reflexivity].
    apply splits_comm. split; [simpl; apply insert_union_singleton_l|]. split; [by apply map_disjoint_singleton_l|simpl; multiset_solver].
Qed.

Lemma owp_load {A} {S : Struct A} p (a : A) (Q : A -> hprop) :
  p ↦ to_obj a -∗ (p ↦ to_obj a -∗ Q a) -∗ owp e E (load p) Q.
Proof.
  apply bi.entails_wand, bi.wand_intro_r. constructor. intros r (r1 & r2 & Hs & -> & HQ) w F Hok Ho Hd. apply wp_wpf, (wp_load e p a); [done| |].
  - destruct Hs as (Hs & _). by rewrite Ho Hs -(assoc_L (∪)) lookup_union_l' ?lookup_singleton_eq.
  - exists r. do 3 (split; [done|]). split; [lia|]. eapply HQ; [|reflexivity]. by apply splits_comm.
Qed.

Lemma owp_store {A} {S : Struct A} p (a b : A) (Q : unit -> hprop) :
  p ↦ to_obj b -∗ (p ↦ to_obj a -∗ Q tt) -∗ owp e E (store p a) Q.
Proof.
  apply bi.entails_wand, bi.wand_intro_r. constructor. intros r (r1 & r2 & (Hs & Hd12 & Hk) & -> & HQ) w F Hok Ho Hd. simpl in Hs, Hd12.
  apply map_disjoint_singleton_l in Hd12. rewrite Hs in Ho Hd. rewrite -insert_union_singleton_l in Ho Hd.
  apply map_disjoint_insert_l in Hd as [HdF Hd]. apply wp_wpf, (wp_store e p a b); [done| |].
  - by rewrite Ho -insert_union_l lookup_insert_eq.
  - intros w' Ho' _ _ _ Hok' Hb. exists (Piece (<[p := to_obj a]> (p_objs r2)) (p_keys r2)). split; [done|].
    split; [by rewrite Ho' Ho -!insert_union_l insert_insert_eq|]. split; [by apply map_disjoint_insert_l|].
    split; [solve_account Hb|].
    eapply HQ; [|reflexivity]. apply splits_comm. split; [simpl; apply insert_union_singleton_l|].
    split; [by apply map_disjoint_singleton_l|simpl; multiset_solver].
Qed.

Lemma owp_free p o (Q : unit -> hprop) : p ↦ o -∗ Q tt -∗ owp e E (free p) Q.
Proof.
  apply bi.entails_wand, bi.wand_intro_r. constructor. intros r (r1 & r2 & (Hs & Hd12 & Hk) & -> & HQ) w F Hok Ho Hd. simpl in Hs, Hd12.
  apply map_disjoint_singleton_l in Hd12. rewrite Hs in Ho Hd. rewrite -insert_union_singleton_l in Ho Hd.
  apply map_disjoint_insert_l in Hd as [HdF Hd]. apply wp_wpf, (wp_free e p o); [done| |].
  - by rewrite Ho -insert_union_l lookup_insert_eq.
  - intros w' Ho' _ Hok' Hb. exists r2. split; [done|].
    split; [rewrite Ho' Ho -insert_union_l delete_insert_id //; by apply lookup_union_None|]. split; [done|].
    split; [solve_account Hb|done].
Qed.

(** Nothing is at address 0, and no address is owned twice. *)
Lemma owp_nonnull {A} p o (m : UM A) (Q : A -> hprop) :
  p ↦ o -∗ (⌜p <> NULL⌝ → p ↦ o -∗ owp e E m Q) -∗ owp e E m Q.
Proof.
  apply bi.entails_wand, bi.wand_intro_r. constructor. intros r (r1 & r2 & Hs & -> & HQ) w F Hok Ho Hd.
  assert (p <> NULL) as Hp.
  { eapply (heap_ok_nonnull w Hok p o). destruct Hs as (Hs & _). by rewrite Ho Hs -(assoc_L (∪)) lookup_union_l' ?lookup_singleton_eq. }
  eapply (HQ Hp); [|reflexivity|done..]. by apply splits_comm.
Qed.

Lemma owp_free_null (Q : unit -> hprop) : Q tt ⊢ owp e E (free NULL) Q.
Proof. apply owp_ret. Qed.

Lemma owp_upd_mem f (Q : unit -> hprop) : Q tt ⊢ owp e E (upd_mem f) Q.
Proof.
  constructor. intros r H w F Hok Ho Hd. unfold upd_mem. apply wp_wpf. repeat wp_step. exists r. do 3 (split; [done|]). split; [|done].
  intros κ. unfold bal. simpl. lia.
Qed.

Lemma owp_put_mem m (Q : unit -> hprop) : Q tt ⊢ owp e E (put_mem m) Q.
Proof.
  constructor. intros r H w F Hok Ho Hd. apply wp_wpf. repeat wp_step. exists r. do 3 (split; [done|]). split; [|done].
  intros κ. unfold bal. simpl. lia.
Qed.

Lemma owp_get_st_size (Q : nat -> hprop) : (∀ n, Q n) ⊢ owp e E (h ← get_st; mret (size (h_objs h))) Q.
Proof.
  constructor. intros r H w F Hok Ho Hd. apply wp_wpf. repeat wp_step. exists r. do 3 (split; [done|]). split; [lia|]. apply H.
Qed.

Lemma owp_get_mem (Q : mem -> hprop) : (∀ m, Q m) ⊢ owp e E get_mem Q.
Proof.
  constructor. intros r H w F Hok Ho Hd. apply wp_wpf, wp_get_mem. exists r. do 3 (split; [done|]). split; [lia|]. apply H.
Qed.

(** ** Back to worlds *)

Lemma owp_adequate {A} (m : UM A) (P : hprop) (Q : A -> hprop) r w F :
  (P ⊢ owp e E m Q) -> holds P r -> heap_ok w -> objs w = p_objs r ∪ F -> p_objs r ##ₘ F ->
  wpf e E m w (fun a w' => exists r', heap_ok w' /\ objs w' = p_objs r' ∪ F /\ p_objs r' ##ₘ F
    /\ (forall κ, bal w' κ + Z.of_nat (multiplicity κ (p_keys r)) = bal w κ + Z.of_nat (multiplicity κ (p_keys r')))
    /\ holds (Q a) r').
Proof. intros [H] HP. by apply (H r). Qed.

(** A computation that needs nothing and keeps nothing leaves no trace. *)
Lemma owp_clean {A} (m : UM A) (φ : A -> Prop) w : (⊢ owp e E m (fun a => ⌜φ a⌝ ∧ emp)) -> heap_ok w ->
  wpf e E m w (fun a w' => φ a /\ clean w w').
Proof.
  intros H Hok. eapply wpf_mono.
  - apply (owp_adequate m h_emp _ nothing w (objs w) H); try done; [by rewrite (left_id_L ∅ (∪))|apply map_disjoint_empty_l].
  - intros a w' (r' & Hok' & Ho & _ & Hb & [Hφ Hr]). change (r' = nothing) in Hr. subst r'. split; [done|]. split; [done|].
    split; [by rewrite Ho (left_id_L ∅ (∪))|]. intros κ. specialize (Hb κ). cbn [p_keys nothing] in Hb. rewrite !multiplicity_empty in Hb. lia.
Qed.

End rules.

(** ** Automation *)

(** Use the first owned assertion that matches. *)
Ltac o_load S p := iSelect (p ↦ _)%I (fun H => iApply (owp_load _ _ (S:=S) with H); iIntros H).
Ltac o_store S p := iSelect (p ↦ _)%I (fun H => iApply (owp_store _ _ (S:=S) with H); iIntros H).
Ltac o_free p := iSelect (p ↦ _)%I (fun H => iApply (owp_free with H)).

Ltac delta_refl := intros; unfold delta, udelta; cbn; reflexivity.

Ltac o_ext c :=
  first
  [ iApply owp_quiet; [solve [delta_refl]|iIntros (? ?)]
  | let Hd := fresh in
    eassert (forall r κ', delta c r κ' = - one _ κ') as Hd by delta_refl;
    lazymatch type of Hd with
    | forall r κ', _ = - one ?κ κ' =>
        iSelect (acquired {[+ κ +]}) (fun H => iApply (owp_release _ _ _ κ _ Hd with H)); clear Hd; iIntros (? ?)
    end
  | iApply owp_acquire; [solve [delta_refl]|];
    let r := fresh "r" in let Hr := fresh "Hr" in let Hb := fresh "Hb" in
    iIntros (r Hr); iSplit; iIntros (Hb); [iIntros "?"|] ].

(** Peel one step of a program; tests are decided by the caller. *)
Ltac ostep :=
  lazymatch goal with
  | |- environments.envs_entails _ (owp _ _ (_ ≫= _) _) => iApply owp_bind
  | |- environments.envs_entails _ (owp _ _ (_ <$> _) _) => iApply owp_bind
  | |- environments.envs_entails _ (owp _ _ (mret _) _) => iApply owp_ret
  | |- environments.envs_entails _ (owp _ _ (malloc _ _ _) _) => iApply owp_malloc; iSplit; [iIntros (?)|iIntros (? ?) "?"]
  | |- environments.envs_entails _ (owp _ _ (@load _ ?S ?p) _) => o_load S p
  | |- environments.envs_entails _ (owp _ _ (@store _ ?S ?p _) _) => o_store S p
  | |- environments.envs_entails _ (owp _ _ (free ?p) _) => o_free p
  | |- environments.envs_entails _ (owp _ _ (ext ?c) _) => o_ext c
  | |- environments.envs_entails _ (owp _ _ (upd_mem _) _) => iApply owp_upd_mem
  | |- environments.envs_entails _ (owp _ _ (put_mem _) _) => iApply owp_put_mem
  | |- environments.envs_entails _ (owp _ _ get_mem _) => iApply owp_get_mem; iIntros (?)
  end; cbn beta iota.
