(* ===== verification/Handles.v ===== *)
(** * The library's handles as owned assertions

    What a program owns when it holds a handle of the library, and what each call of
    the library does to it, in the logic of [Owned]: controller handles, DMA
    handles, admin queue references. *)
From iris.proofmode Require Import proofmode.
From stdpp Require Import gmultiset.
From S2P Require Import Prelude Bits Memory Effects Types Runtime Queue DisDevice DisMap Ctrl Dma DisDma Owned.

(** ** Resources of descriptors *)

Definition device_keys (d : device) : gmultiset key := {[+ KSd (dev_sd d); KDevice (dev_device d) +]}.
Definition device_memory_keys (m : device_memory) : gmultiset key :=
  device_keys (dm_device m) ⊎ {[+ KRemoteSegment (dm_segment m) +]}.
Definition local_memory_keys (m : local_memory) : gmultiset key := {[+ KSd (lm_sd m); KLocalSegment (lm_segment m) +]}.
Definition va_map_keys (m : va_map) : gmultiset key :=
  match va_type m with VA_MAP_NOT_MAPPED => ∅ | _ => {[+ KVaMap (va_md m) +]} end.
Definition io_map_keys (m : io_map) : gmultiset key :=
  match io_type m with
  | IO_MAP_NOT_MAPPED => ∅
  | IO_MAP_MAPPED_LOCAL => {[+ KIoLocal (io_lsegment m) (io_adapter m) (io_device m) +]}
  | IO_MAP_MAPPED_REMOTE => {[+ KIoRemote (io_rsegment m) (io_device m) +]}
  end.

Create HintDb keys discriminated.

(** The ledgers of the contracts count these. *)
Ltac solve_keys := intros; rewrite ?multiplicity_disj_union ?Nat2Z.inj_add ?multiplicity_one ?multiplicity_empty; lia.

Lemma zero_keys κ : 0 = Z.of_nat (multiplicity κ (∅ : gmultiset key)).
Proof. by rewrite multiplicity_empty. Qed.
Lemma one_keys κ0 κ : one κ0 κ = Z.of_nat (multiplicity κ ({[+ κ0 +]} : gmultiset key)).
Proof. by rewrite multiplicity_one. Qed.
Lemma device_owns_keys d κ : device_owns d κ = Z.of_nat (multiplicity κ (device_keys d)).
Proof. unfold device_owns, device_keys. solve_keys. Qed.
Lemma device_memory_owns_keys m κ : device_memory_owns m κ = Z.of_nat (multiplicity κ (device_memory_keys m)).
Proof. unfold device_memory_owns, device_memory_keys. rewrite device_owns_keys. solve_keys. Qed.
Lemma local_memory_owns_keys m κ : local_memory_owns m κ = Z.of_nat (multiplicity κ (local_memory_keys m)).
Proof. unfold local_memory_owns, local_memory_keys. solve_keys. Qed.
Lemma va_map_owns_keys m κ : va_map_owns m κ = Z.of_nat (multiplicity κ (va_map_keys m)).
Proof. unfold va_map_owns, va_map_keys. destruct (va_type m); solve_keys. Qed.
Lemma io_map_owns_keys m κ : io_map_owns m κ = Z.of_nat (multiplicity κ (io_map_keys m)).
Proof. unfold io_map_owns, io_map_keys. destruct (io_type m); solve_keys. Qed.

#[export] Hint Resolve zero_keys one_keys device_owns_keys device_memory_owns_keys local_memory_owns_keys
  va_map_owns_keys io_map_owns_keys : keys.

(** What the programs rely on: pages have [2^k] bytes, a failing system call sets
    [errno], [mmap] and locking succeed, memory is not at address 0, and SISCI is
    busy only for a while. *)
Record platform (e : uenv) (k : Z) : Prop := {
  pf_size : 12 <= k < 32;
  pf_pages : forall w r, answers e w Sysconf_pagesize r -> r_val r = 2 ^ k;
  pf_errno : forall w c r, answers e w c r -> r_val r < 0 -> r_errno r <> 0;
  pf_mmap : forall w n fd r, answers e w (Mmap n fd) r -> r_val r <> NULL /\ r_val r <> MAP_FAILED;
  pf_lock : forall w p r, answers e w (Mutex_lock p) r -> r_val r = 0;
  pf_memalign : forall w a n r, answers e w (Posix_memalign a n) r -> r_val r = 0 -> r_val2 r <> NULL;
  pf_busy : busy_bounded e;
}.

#[export] Hint Extern 1 (busy_bounded _) => eapply pf_busy; eassumption : contracts.

Section maps.
Context (e : uenv) (E : fault -> Prop).

(** A mapping operation acquires what its descriptor owns in every case. *)
Lemma owp_maps {A} (m : UM (Z * A)) L (X : A -> gmultiset key) (Q : Z * A -> hprop) :
  maps e m L -> (forall d κ, L d κ = Z.of_nat (multiplicity κ (X d))) ->
  (∀ s d, ⌜s <> 0 -> X d = ∅⌝ → acquired (X d) -∗ Q (s, d)) ⊢ owp e E m Q.
Proof.
  intros Hm HL. constructor. intros r H w F Hok Ho Hd. apply wp_wpf. eapply wp_mono; [apply Hm|].
  intros [s d] w' (Hst & Hb & Hz). simpl in *. exists (Piece (p_objs r) (X d ⊎ p_keys r)).
  split; [by eapply heap_ok_st|]. rewrite Hst. do 2 (split; [done|]). split.
  - intros κ. specialize (Hb κ). rewrite HL in Hb. cbn [p_keys]. rewrite multiplicity_disj_union. lia.
  - refine (H s d _ _ _ _ eq_refl); [|split; [|split; [apply map_disjoint_empty_r|]]].
    + intros Hs. apply gmultiset_eq. intros κ. specialize (Hz Hs κ). rewrite HL in Hz. rewrite multiplicity_empty. lia.
    + simpl. by rewrite (right_id_L ∅ (∪)).
    + simpl. multiset_solver.
Qed.
End maps.

(** Calls with a contract. *)
Ltac o_contract :=
  lazymatch goal with
  | |- environments.envs_entails _ (owp ?e ?E ?m _) =>
      first
      [ let H := fresh in let K := fresh in
        eassert (acquires e m _) as H by (solve [eauto with contracts]);
        lazymatch type of H with acquires _ _ ?L =>
          eassert (forall d κ, L d κ = Z.of_nat (multiplicity κ (_ d))) as K by (solve [eauto with keys]);
          iApply (owp_acquires e E m _ _ _ H K)
        end; clear H K;
        let Hs := fresh "Hs" in iIntros (? ?); iSplit; iIntros (Hs); [iIntros "?"|]
      | let H := fresh in let K := fresh in
        eassert (maps e m _) as H by (solve [eauto with contracts]);
        lazymatch type of H with maps _ _ ?L =>
          eassert (forall d κ, L d κ = Z.of_nat (multiplicity κ (_ d))) as K by (solve [eauto with keys]);
          iApply (owp_maps e E m _ _ _ H K)
        end; clear H K;
        let Hz := fresh "Hz" in iIntros (? ? Hz) "?"
      | let H := fresh in let K := fresh in
        eassert (gives_back e m _) as H by (solve [eauto with contracts]);
        lazymatch type of H with gives_back _ _ ?L =>
          eassert (forall κ, L κ = Z.of_nat (multiplicity κ _)) as K by (solve [eauto with keys]);
          lazymatch type of K with forall κ, _ = Z.of_nat (multiplicity κ ?X) =>
            first [ unify X (∅ : gmultiset key); iApply (owp_gives_back e E m _ _ _ H K with "[]"); [by iApply acquired_empty|]
                  | iSelect (acquired X) (fun I => iApply (owp_gives_back e E m _ _ _ H K with I)) ]
          end
        end; clear H K; iIntros (?) ]
  end; cbn beta iota.

(** Use what is known about a status, a pointer or a test. *)
Ltac odecide :=
  repeat match goal with
  | Hs : ?s = 0 |- _ => is_var s; subst s
  | H : ?s <> 0 |- context [?s =? 0] => rewrite (proj2 (Z.eqb_neq s 0) H)
  | H : ?s = 0 |- context [?s =? 0] => rewrite (proj2 (Z.eqb_eq s 0) H)
  | H : ?p <> NULL |- context [?p =? NULL] => rewrite (proj2 (Z.eqb_neq p NULL) H)
  | |- context [0 =? 0] => change (0 =? 0) with true
  | |- context [NULL =? NULL] => change (NULL =? NULL) with true
  | |- context [EINVAL =? 0] => change (EINVAL =? 0) with false
  | |- context [ENOMEM =? 0] => change (ENOMEM =? 0) with false
  | H : ?b = true |- context [if ?b then _ else _] => rewrite H
  | H : ?b = false |- context [if ?b then _ else _] => rewrite H
  end; cbn beta iota delta [negb andb orb].

(** Drop what turned out to be empty. *)
Ltac o_drop :=
  repeat match goal with
  | Hz : ?s <> 0 -> _ = ∅, Hs : ?s <> 0 |- _ => specialize (Hz Hs)
  | Hz : _ = (∅ : gmultiset key) |- _ => rewrite Hz; clear Hz; iSelect (acquired ∅) (fun H => iDestruct (acquired_empty with H) as "_")
  | Hz : 0 <> 0 -> _ |- _ => clear Hz
  | Hz : 0 = 0 -> _ /\ _ |- _ => specialize (Hz eq_refl)
  | H : _ /\ _ |- _ => destruct H
  | Hs : ?s = 0 |- _ => is_var s; subst s
  end.

Ltac o_if :=
  lazymatch goal with
  | |- environments.envs_entails _ (owp _ _ (if ?b then _ else _) _) =>
      let Hb := fresh "Hb" in destruct b eqn:Hb
  end.

(** Tests as facts; impossible branches are closed. *)
Ltac o_facts := path_simp; zbool; o_drop; try (exfalso; first [lia | congruence]).

(** Fields of structures that were just written. *)
Ltac o_norm :=
  cbn [ct_type ct_ref ct_fd ct_handle mr_bar mr_map md_dma_mapping md_device md_va_mapping md_io_mapping md_segment
    d_map d_release d_handle im_mapping im_type im_ioctl_fd im_mapped dm_vaddr dm_page_size dm_n_pages
    ar_ctrl ar_n_handles ar_handles ar_data ar_release ar_stub la_acq la_asq la_timeout
    to_obj struct_controller struct_memref struct_dma struct_dma_map struct_ioctl struct_mapdesc struct_localmem
    struct_devmem struct_localadmin struct_rpchandle struct_aqref struct_bindinghandle struct_binding struct_buffer
    struct_queues].

Ltac o_step := odecide; first [ostep | o_contract | o_if]; o_facts; o_norm.

(** Steps up to a call of [f]. *)
Ltac head_of t := lazymatch t with ?g _ => head_of g | _ => t end.
Ltac o_at f :=
  lazymatch goal with |- environments.envs_entails _ (owp _ _ ?m _) => let g := head_of m in constr_eq g f end.
Ltac o_until step f := repeat (tryif o_at f then fail else step).

(** A status and a pointer: on success [P], otherwise nothing. *)
Definition creates (P : Z -> hprop) (r : Z * Z) : hprop :=
  (⌜fst r <> 0 /\ snd r = NULL⌝ ∧ emp) ∨ (⌜fst r = 0 /\ snd r <> NULL⌝ ∧ P (snd r)).

Lemma creates_fail P s : s <> 0 -> ⊢ creates P (s, NULL).
Proof. iIntros (Hs). iLeft. auto. Qed.
Lemma creates_ok P p : p <> NULL -> P p ⊢ creates P (0, p).
Proof. iIntros (Hp) "H". iRight. auto. Qed.

(** Calls of operations with a specification. *)
Section calls.
Context (e : uenv) (E : fault -> Prop).

Lemma owp_call {A} (m : UM A) R (P Q : A -> hprop) :
  (R ⊢ owp e E m P) -> R -∗ (∀ a, P a -∗ Q a) -∗ owp e E m Q.
Proof. intros Hm. iIntros "R H". iApply owp_wand. iSplitL "R"; [by iApply Hm|done]. Qed.

Lemma owp_creates (m : UM (Z * Z)) R P Q :
  (R ⊢ owp e E m (creates P)) ->
  R -∗ (∀ s, ⌜s <> 0⌝ → Q (s, NULL)) ∧ (∀ p, ⌜p <> NULL⌝ → P p -∗ Q (0, p)) -∗ owp e E m Q.
Proof.
  intros Hm. iIntros "R H". iApply owp_wand. iSplitL "R"; [by iApply Hm|].
  iIntros ([s p]) "[(%Hs & _)|(%Hs & P)]"; simpl in Hs; destruct Hs as [Hs ->] || destruct Hs as [-> Hs].
  - iDestruct "H" as "[H _]". by iApply "H".
  - iDestruct "H" as "[_ H]". by iApply "H".
Qed.

(** The same when the operation only looks at [R]. *)
Lemma owp_creates_with (m : UM (Z * Z)) R P Q :
  (R ⊢ owp e E m (fun r => R ∗ creates P r)) ->
  R -∗ (∀ s, ⌜s <> 0⌝ → R -∗ Q (s, NULL)) ∧ (∀ p, ⌜p <> NULL⌝ → R -∗ P p -∗ Q (0, p)) -∗ owp e E m Q.
Proof.
  intros Hm. iIntros "R H". iApply owp_wand. iSplitL "R"; [by iApply Hm|].
  iIntros ([s p]) "[R [(%Hs & _)|(%Hs & P)]]"; simpl in Hs; destruct Hs as [Hs ->] || destruct Hs as [-> Hs].
  - iDestruct "H" as "[H _]". by iApply ("H" with "[//] R").
  - iDestruct "H" as "[_ H]". by iApply ("H" with "[//] R").
Qed.
End calls.

(** The specification needs nothing. *)
Tactic Notation "o_creates" uconstr(spec) :=
  let Hs := fresh "Hs" in
  iApply (owp_creates _ _ _ emp%I _ _ spec with "[]"); [done|];
  iSplit; [iIntros (? Hs)|iIntros (? Hs) "?"]; cbn beta iota.

(** A fault that is permitted. *)
Ltac o_fault := iApply owp_fail; [done|iAccu].

Ltac o_finish :=
  lazymatch goal with
  | |- environments.envs_entails _ (creates _ (_, NULL)) => iApply creates_fail; done
  | |- environments.envs_entails _ (creates _ (0, _)) => iApply creates_ok; [done|]
  end.

(** ** Controllers *)

Definition ctrl_owns (ct : controller) : hprop :=
  match ct_type ct with
  | DEVICE_TYPE_UNKNOWN => emp
  | DEVICE_TYPE_SYSFS => own (KMmap (ctrl_mm_ptr (ct_handle ct))) ∗ own (KFd (ct_fd ct))
  | DEVICE_TYPE_SMARTIO =>
      ∃ mr, ct_ref ct ↦ OMemRef mr ∗ acquired (va_map_keys (mr_map mr)) ∗ acquired (device_memory_keys (mr_bar mr))
  end.

Definition ctrl_ok (k : Z) (ct : controller) : Prop :=
  ctrl_page_size (ct_handle ct) = 2 ^ k /\ ctrl_max_entries (ct_handle ct) in_u 16.

Definition ctrl_handle (k p : Z) (ct : controller) : hprop :=
  ⌜ctrl_ok k ct⌝ ∧ (p ↦ OController ct ∗ ctrl_owns ct).

Definition new_ctrl (k p : Z) : hprop := ∃ ct, ctrl_handle k p ct.

Section ctrl.
Context `{Build} (e : uenv) (E : fault -> Prop) (k : Z).
Hypothesis Hpf : platform e k.

Lemma page_bounds : 0 < 2 ^ k < 2 ^ 32.
Proof. pose proof (pf_size _ _ Hpf). split; [lia|apply Z.pow_lt_mono_r; lia]. Qed.

Lemma page_size_is w r : answers e w Sysconf_pagesize r -> u64 (r_val r) = 2 ^ k.
Proof. intros Ha. rewrite (pf_pages _ _ Hpf _ _ Ha). pose proof page_bounds. apply u64_small. lia. Qed.

Lemma owp_initialize_handle c p n (Q : Z * nvm_ctrl_t -> hprop) :
  (∀ s h, ⌜s = 0 -> ctrl_mm_ptr h = p /\ ctrl_page_size h = 2 ^ k /\ ctrl_max_entries h in_u 16⌝ → Q (s, h)) ⊢ owp e E (initialize_handle c p n) Q.
Proof.
  iIntros "H". iApply (owp_inert e E _ (fun '(s, h) => s = 0 -> ctrl_mm_ptr h = p /\ ctrl_page_size h = 2 ^ k /\ ctrl_max_entries h in_u 16)).
  - intros w. eapply wp_mono; [apply initialize_handle_keeps|]. intros [s h] w' (? & ? & Hk). split; [done|]. split; [done|].
    intros Hs. destruct (Hk Hs) as (? & _ & _ & (w0 & r & Ha & ->) & ?). split; [done|]. split; [by eapply page_size_is|done].
  - iIntros ([s h] Hk). by iApply "H".
Qed.

Ltac use_answers :=
  repeat match goal with
  | H : exists w, answers e w (Mmap _ _) ?r |- _ => destruct H as [? H]; apply (pf_mmap _ _ Hpf) in H as [? ?]
  | H : exists w, answers e w _ ?r, Hb : r_val ?r < 0 |- _ =>
      lazymatch goal with _ : r_errno r <> 0 |- _ => fail | _ => destruct H as [? H]; pose proof (pf_errno _ _ Hpf _ _ _ H Hb) end
  | H : exists w, answers e w _ ?r, Hb : r_val ?r = -1 |- _ =>
      lazymatch goal with _ : r_errno r <> 0 |- _ => fail | _ => destruct H as [? H]; pose proof (pf_errno _ _ Hpf _ _ _ H ltac:(lia)) end
  end; try (exfalso; congruence).

Ltac cstep := first [o_step | odecide; iApply owp_initialize_handle; iIntros (? ? ?)]; use_answers.

Lemma owp_connect_register_memory dev adapter :
  ⊢ owp e E (connect_register_memory dev adapter) (creates (fun p => ∃ mr, p ↦ OMemRef mr
      ∗ acquired (va_map_keys (mr_map mr)) ∗ acquired (device_memory_keys (mr_bar mr)))).
Proof.
  iStartProof. unfold connect_register_memory. repeat cstep; try o_finish.
  iExists (MemoryReference _ _). iFrame.
Qed.

(** Register files mapped by the program. *)
Lemma owp_raw_ctrl_init p n :
  ⊢ owp e E (nvm_raw_ctrl_init p n) (creates (fun c => ∃ ct, ⌜ct_type ct = DEVICE_TYPE_UNKNOWN⌝ ∧ ctrl_handle k c ct)).
Proof.
  iStartProof. unfold nvm_raw_ctrl_init, create_container, set_type, set_handle. repeat cstep; try o_finish.
  iExists (Controller _ _ _ h). iSplit; [done|]. iSplit; [by iPureIntro|]. iFrame.
Qed.

(** The character device of the kernel module. *)
Lemma owp_ctrl_init fd : ⊢ owp e E (nvm_ctrl_init fd) (creates (new_ctrl k)).
Proof.
  iStartProof. unfold nvm_ctrl_init, create_container, set_type, set_handle, set_fd. repeat cstep; try o_finish.
  iExists (Controller DEVICE_TYPE_SYSFS NULL (r_val r) h). iSplit; [by iPureIntro|].
  match goal with H : ctrl_mm_ptr h = _ |- _ => rewrite -H end. iFrame.
Qed.

(** A device borrowed over the network. *)
Lemma owp_dis_ctrl_init dev_id adapter : ⊢ owp e E (nvm_dis_ctrl_init dev_id adapter) (creates (new_ctrl k)).
Proof.
  iStartProof. unfold nvm_dis_ctrl_init, create_container, set_type, set_handle, set_ref, disconnect_register_memory.
  repeat cstep; try o_finish.
  o_creates (owp_connect_register_memory _ _); [repeat cstep; o_finish|].
  iSelect (∃ mr, _)%I (fun H => iDestruct H as (mr) "(? & ? & ?)"). repeat cstep; o_finish.
  iExists (Controller DEVICE_TYPE_SMARTIO p0 (-1) h). iSplit; [by iPureIntro|]. iFrame.
Qed.

Lemma owp_ctrl_free p ct : ctrl_handle k p ct ⊢ owp e E (nvm_ctrl_free p) (fun _ => emp).
Proof.
  iIntros "(%Hps & P & O)". iApply (owp_nonnull with "P"). iIntros (Hp) "P". unfold nvm_ctrl_free, ctrl_owns, disconnect_register_memory.
  odecide. repeat cstep. destruct (ct_type ct).
  - repeat cstep. done.
  - iDestruct "O" as "[? ?]". repeat cstep. done.
  - iDestruct "O" as (mr) "(? & ? & ?)". repeat cstep. done.
Qed.

Lemma owp_ctrl_free_null : ⊢ owp e E (nvm_ctrl_free NULL) (fun _ => emp).
Proof. iApply owp_ret. done. Qed.
End ctrl.

(** ** DMA handles *)

Section loads.
Context `{Build} (e : uenv) (E : fault -> Prop).

Lemma owp_load_map p o m (Q : dma_map -> hprop) :
  dma_head o = Some m -> p ↦ o -∗ (p ↦ o -∗ Q m) -∗ owp e E (load_map p) Q.
Proof.
  intros Hm. apply bi.entails_wand, bi.wand_intro_r. constructor. intros r (r1 & r2 & Hs & -> & HQ) w F Hok Ho Hd.
  apply wp_wpf, (wp_load_map e p o m); [done| |done|].
  - destruct Hs as (Hs & _). by rewrite Ho Hs -(assoc_L (∪)) lookup_union_l' ?lookup_singleton_eq.
  - exists r. do 3 (split; [done|]). split; [lia|]. eapply HQ; [|reflexivity]. by apply splits_comm.
Qed.

Lemma owp_load_ctrl p ct (Q : nvm_ctrl_t -> hprop) :
  p ↦ OController ct -∗ (p ↦ OController ct -∗ Q (ct_handle ct)) -∗ owp e E (load_ctrl p) Q.
Proof. iIntros "? Q". unfold load_ctrl. repeat o_step. iApply "Q". iFrame. Qed.

End loads.

Ltac dstep :=
  first
  [ o_step
  | odecide;
    lazymatch goal with
    | |- environments.envs_entails _ (owp _ _ (load_map ?p) _) =>
        iSelect (p ↦ _)%I (fun H => iApply (owp_load_map with H); [reflexivity|iIntros H])
    | |- environments.envs_entails _ (owp _ _ (load_ctrl ?p) _) =>
        iSelect (p ↦ _)%I (fun H => iApply (owp_load_ctrl with H); iIntros H)
    end; cbn beta iota; o_norm ].

Section dma.
Context `{Build} (e : uenv) (E : fault -> Prop) (k : Z).
Hypothesis Hpf : platform e k.

Lemma owp_populate_loop h ps cps arr n i c (Q : unit -> hprop) :
  0 < ps -> 0 <= i ->
  (forall j, i <= j < i + Z.of_nat n -> (Z.to_nat (u64 (j * cps) / ps) < length arr)%nat) ->
  length (dma_ioaddrs (d_handle c)) = (Z.to_nat i + n)%nat ->
  h ↦ ODma c -∗ (∀ l, ⌜length l = (Z.to_nat i + n)%nat⌝ → h ↦ ODma (with_ioaddrs l c) -∗ Q tt) -∗
  owp e E (populate_loop n i h ps cps arr) Q.
Proof.
  revert i c. induction n as [|n IH]; intros i c Hps Hi Harr Hlen; iIntros "C Q"; simpl populate_loop.
  - iApply owp_ret. iApply ("Q" $! (dma_ioaddrs (d_handle c)) Hlen). by destruct c as [? ? []].
  - rewrite (proj2 (Z.eqb_neq ps 0)); [|lia].
    destruct (lookup_lt_is_Some_2 arr (Z.to_nat (u64 (i * cps) / ps))) as [a Ha]; [apply Harr; lia|].
    rewrite Ha. do 2 o_step. rewrite bool_decide_eq_true_2; [|lia]. do 2 o_step.
    iSelect (h ↦ _)%I (fun H => iApply (IH with H)); [done|lia|intros; apply Harr; lia| |].
    + simpl. rewrite length_insert. lia.
    + iIntros (l Hl) "C". iApply ("Q" $! l with "[] C"). iPureIntro. lia.
Qed.

(** The descriptor a handle's container refers to, and what its release callback
    gives back. *)
Definition mapping_keys (md : ioctl_mapping) : gmultiset key :=
  {[+ KFd (im_ioctl_fd md) +]} ⊎ if im_mapped md then {[+ KPinned (im_ioctl_fd md) (dm_vaddr (im_mapping md)) +]} else ∅.

Definition descriptor_keys (d : map_descriptor) : gmultiset key :=
  va_map_keys (md_va_mapping d) ⊎ io_map_keys (md_io_mapping d) ⊎ device_keys (md_device d).

Definition map_owns (p : Z) (release : option dma_map_free_t) : hprop :=
  match release with
  | None => emp
  | Some REL_free => ∃ m, p ↦ ODmaMap m
  | Some REL_remove_mapping => ∃ md, p ↦ OIoctl md ∗ acquired (mapping_keys md)
  | Some REL_remove_map_descriptor => ∃ d, p ↦ OMapDesc d ∗ acquired (descriptor_keys d)
  | Some REL_remove_local_segment =>
      ∃ d m, ⌜md_segment d <> NULL⌝ ∧ (p ↦ OMapDesc d ∗ acquired (descriptor_keys d)
        ∗ md_segment d ↦ OLocalMem m ∗ own (KLocalSegment (lm_segment m)))
  | Some REL_disconnect_remote_segment =>
      ∃ d m, ⌜md_segment d <> NULL⌝ ∧ (p ↦ OMapDesc d ∗ acquired (descriptor_keys d)
        ∗ md_segment d ↦ ODevMem m ∗ acquired (device_memory_keys m))
  end.

Definition dma_handle (h : Z) (c : dma) : hprop := h ↦ ODma c ∗ map_owns (d_map c) (d_release c).

(** A handle with an address for each page of [bytes] bytes. *)
Definition handle_ok (bytes : Z) (c : dma) : Prop :=
  dma_page_size (d_handle c) = 2 ^ k /\ dma_n_ioaddrs (d_handle c) = Z.of_nat (length (dma_ioaddrs (d_handle c)))
  /\ dma_n_ioaddrs (d_handle c) * 2 ^ k = bytes.

Definition new_dma (bytes h : Z) : hprop := ∃ c, ⌜handle_ok bytes c⌝ ∧ dma_handle h c.

Lemma owp_dma_unmap h c : dma_handle h c ⊢ owp e E (nvm_dma_unmap h) (fun _ => emp).
Proof.
  iIntros "(C & M)". iApply (owp_nonnull with "C"). iIntros (Hh) "C". unfold nvm_dma_unmap, _nvm_dma_remove.
  odecide. do 2 dstep. dstep. destruct (d_release c) as [[]|]; simpl.
  - iDestruct "M" as (m) "M". repeat dstep. done.
  - iDestruct "M" as (md) "[M K]". unfold remove_mapping, unmap_memory, mapping_keys.
    iDestruct "K" as "[? K]". do 3 dstep. destruct (im_mapped md); repeat dstep; done.
  - iDestruct "M" as (d) "[M K]". iApply (owp_nonnull with "M"). iIntros (Hd) "M". unfold descriptor_keys.
    iDestruct "K" as "[[? ?] ?]". unfold remove_map_descriptor, set_va_mapping, set_io_mapping. repeat dstep. done.
  - iDestruct "M" as (d m) "(%Hs & M & K & S & O)". iApply (owp_nonnull with "M"). iIntros (Hd) "M".
    unfold descriptor_keys.
    iDestruct "K" as "[[? ?] ?]". unfold remove_local_segment, set_va_mapping, set_io_mapping. repeat dstep. done.
  - iDestruct "M" as (d m) "(%Hs & M & K & S & O)". iApply (owp_nonnull with "M"). iIntros (Hd) "M".
    unfold descriptor_keys.
    iDestruct "K" as "[[? ?] ?]". unfold disconnect_remote_segment, set_va_mapping, set_io_mapping. repeat dstep. done.
  - repeat dstep. done.
Qed.

(** ** Making handles *)

(** Room for an address per controller page of the mapping. *)
Definition room (m : dma_map) (c : dma) : Prop :=
  dm_page_size m <> 0 /\ Z.of_nat (length (dma_ioaddrs (d_handle c))) * 2 ^ k = u64 (dm_page_size m * dm_n_pages m).

Lemma owp_dma_create ctrl ct md o m rel (Q : Z * Z -> hprop) :
  dma_head o = Some m -> ctrl_page_size (ct_handle ct) = 2 ^ k ->
  md ↦ o -∗ ctrl ↦ OController ct -∗
  ((∀ s, ⌜s <> 0⌝ → md ↦ o -∗ ctrl ↦ OController ct -∗ Q (s, NULL)) ∧
   (∀ h c, ⌜h <> NULL /\ d_map c = md /\ d_release c = rel /\ room m c⌝ →
      h ↦ ODma c -∗ md ↦ o -∗ ctrl ↦ OController ct -∗ Q (0, h))) -∗
  owp e E (_nvm_dma_create ctrl md rel) Q.
Proof.
  intros Hm Hcps. iIntros "M C Q". unfold _nvm_dma_create. dstep.
  iApply (owp_load_map with "M"); [done|]. iIntros "M".
  pose proof (page_bounds _ _ Hpf) as Hpb. rewrite -Hcps in Hpb. assert (ctrl_page_size (ct_handle ct) <> 0) by lia.
  repeat dstep.
  all: try (iDestruct "Q" as "[Q _]"; iApply ("Q" with "[] M C"); done).
  iDestruct "Q" as "[_ Q]". iApply ("Q" $! _ (DmaContainer _ _ _) with "[] [$] M C"). iPureIntro.
  unfold room. do 4 (split; [done|]). simpl. rewrite length_replicate. unfold n_ctrl_pages. rewrite -Hcps.
  pose proof (u64_bound (dm_page_size m * dm_n_pages m)). rewrite Z2Nat.id; [|apply Z.div_pos; lia].
  pose proof (Z.div_exact (u64 (dm_page_size m * dm_n_pages m)) (ctrl_page_size (ct_handle ct))). lia.
Qed.

Lemma owp_handle_populate h ctrl ct c o m arr (Q : unit -> hprop) :
  dma_head o = Some m -> ctrl_page_size (ct_handle ct) = 2 ^ k ->
  0 < dm_page_size m -> 0 <= dm_n_pages m <= Z.of_nat (length arr) -> room m c ->
  h ↦ ODma c -∗ d_map c ↦ o -∗ ctrl ↦ OController ct -∗
  (∀ c', ⌜handle_ok (u64 (dm_page_size m * dm_n_pages m)) c' /\ d_map c' = d_map c /\ d_release c' = d_release c⌝ →
     h ↦ ODma c' -∗ d_map c ↦ o -∗ ctrl ↦ OController ct -∗ Q tt) -∗
  owp e E (_nvm_dma_handle_populate h ctrl arr) Q.
Proof.
  intros Hm Hcps Hps Hn [_ Hlen]. iIntros "D M C Q". unfold _nvm_dma_handle_populate. do 3 dstep.
  iApply (owp_load_map with "M"); [done|]. iIntros "M".
  pose proof (page_bounds _ _ Hpf). assert (ctrl_page_size (ct_handle ct) <> 0) by lia.
  assert (Z.of_nat (length (dma_ioaddrs (d_handle c))) = n_ctrl_pages (ct_handle ct) (dm_page_size m) (dm_n_pages m)) as Hl.
  { unfold n_ctrl_pages. rewrite Hcps -Hlen Z.div_mul; lia. }
  do 4 dstep.
  iApply (owp_populate_loop with "D"); [done|lia| |simpl; lia|].
  - intros j Hj. destruct (page_index_bound (ct_handle ct) (dm_page_size m) (dm_n_pages m) j) as [-> ?]; lia.
  - iIntros (l Hl') "D". iApply ("Q" with "[] D M C"). iPureIntro. unfold handle_ok. simpl.
    split; [|done]. split; [done|]. rewrite -Hl -Hlen. split; [lia|done].
Qed.

(** Mappings the program supplies the addresses of. *)
Lemma owp_dma_map ctrl ct vaddr ps n arr :
  ctrl_page_size (ct_handle ct) = 2 ^ k -> 0 <= ps -> 0 <= n <= Z.of_nat (length arr) ->
  ctrl ↦ OController ct ⊢ owp e E (nvm_dma_map ctrl vaddr ps n arr)
    (fun r => ctrl ↦ OController ct ∗ creates (new_dma (u64 (ps * n))) r).
Proof.
  intros Hcps Hps Hn. iIntros "C". unfold nvm_dma_map. repeat dstep.
  - iFrame. o_finish.
  - iRename select (p ↦ _)%I into "M". iApply (owp_dma_create with "M C"); [reflexivity|done|]. iSplit.
    + iIntros (s Hs) "M C". repeat dstep. iFrame. o_finish.
    + iIntros (h c (Hh & <- & Hr & [Hp0 Hl])) "D M C". repeat dstep.
      iApply (owp_handle_populate with "D M C"); [reflexivity|done|simpl in *; lia|done|done|].
      iIntros (c' (Hk & Hm & Hr')) "D M C". repeat dstep. iFrame. o_finish. iExists c'. iSplit; [done|]. iFrame.
      rewrite Hm Hr' Hr. by iExists _.
Qed.

(** The kernel accepts mapping requests, and the buffer for the addresses is
    allocated: [Dma.dma_map_host_error_path_faults] shows what happens otherwise. *)
Definition maps_pages : Prop :=
  (forall w fd ty v n r, answers e w (Ioctl_map fd ty v n) r -> 0 <= r_val r)
  /\ (forall w n r, answers e w (Malloc T_ioaddrs n) r -> r_val r <> 0).
Hypothesis Hmap : maps_pages.

Lemma buffer_allocated {A : Prop} n : (exists w r, answers e w (Malloc T_ioaddrs n) r /\ r_val r = 0) -> A.
Proof. intros (w & r & Ha & Hr). by destruct (proj2 Hmap _ _ _ Ha). Qed.

Lemma owp_host_page_size (Q : Z -> hprop) : Q (2 ^ k) ⊢ owp e E _nvm_host_page_size Q.
Proof.
  iIntros "Q". iApply (owp_inert _ _ _ (fun ps => ps = 2 ^ k)); [|by iIntros (? ->)]. intros w. unfold _nvm_host_page_size.
  pose proof (page_bounds _ _ Hpf).
  repeat led_step; (split; [simpl; congruence|split; [solve_moved|]]).
  - match goal with H : answers _ _ _ r |- _ => apply (pf_pages _ _ Hpf) in H end. zbool. lia.
  - by eapply page_size_is.
Qed.

Lemma length_written (old l : list Z) : length (take (length old) l ++ drop (length l) old) = length old.
Proof. rewrite length_app length_take length_drop. lia. Qed.

(** Mappings by the kernel module. *)
Lemma owp_populate_handle h ctrl ct c md (Q : Z -> hprop) :
  ctrl_page_size (ct_handle ct) = 2 ^ k -> im_type md = MAP_TYPE_HOST -> im_mapped md = false ->
  0 < dm_page_size (im_mapping md) -> 0 <= dm_n_pages (im_mapping md) -> room (im_mapping md) c ->
  h ↦ ODma c -∗ d_map c ↦ OIoctl md -∗ ctrl ↦ OController ct -∗
  (∀ c', ⌜handle_ok (u64 (dm_page_size (im_mapping md) * dm_n_pages (im_mapping md))) c' /\ d_map c' = d_map c /\ d_release c' = d_release c⌝ → h ↦ ODma c' -∗
     d_map c ↦ OIoctl (mapped md) -∗ own (KPinned (im_ioctl_fd md) (dm_vaddr (im_mapping md))) -∗ ctrl ↦ OController ct -∗ Q 0) -∗
  owp e E (populate_handle h ctrl) Q.
Proof.
  intros Hcps Hty Hum Hps Hn Hlen. iIntros "D M C Q". unfold populate_handle. do 2 dstep. dstep.
  iApply (owp_load_map with "M"); [reflexivity|]. iIntros "M". dstep. dstep; [by eapply buffer_allocated|].
  iRename select (p ↦ _)%I into "B". odecide. unfold map_memory. dstep. dstep. dstep. rewrite Hty.
  dstep. dstep; [|destruct Hr as [? Ha]; apply (proj1 Hmap) in Ha; lia].
  o_until dstep constr:(@_nvm_dma_handle_populate). odecide. iApply (owp_handle_populate with "D [$] C"); [reflexivity|done|done| |done|].
  { rewrite length_written length_replicate /=. lia. }
  iIntros (c' (? & ? & ?)) "D M C". repeat dstep. iApply ("Q" $! c' with "[//] D [M] [$] C").
  unfold mapped. by rewrite Hty.
Qed.

Lemma owp_fd_from_ctrl ctrl ct (Q : Z -> hprop) :
  ctrl ↦ OController ct -∗ (∀ fd, ctrl ↦ OController ct -∗ Q fd) -∗ owp e E (_nvm_fd_from_ctrl ctrl) Q.
Proof.
  iIntros "C Q". unfold _nvm_fd_from_ctrl. do 2 dstep.
  destruct (ct_type ct); (iApply owp_ret; by iApply "Q").
Qed.

(** A new mapping of pages of the host, not yet known to the kernel. *)
Definition new_mapping (bytes p : Z) : hprop :=
  ∃ md, ⌜im_type md = MAP_TYPE_HOST /\ im_mapped md = false /\ dm_page_size (im_mapping md) = 2 ^ k
          /\ 0 <= dm_n_pages (im_mapping md) /\ u64 (2 ^ k * dm_n_pages (im_mapping md)) = bytes⌝
        ∧ (p ↦ OIoctl md ∗ own (KFd (im_ioctl_fd md))).

Lemma align_exact size : u64 (2 ^ k * (NVM_PAGE_ALIGN size (2 ^ k) / 2 ^ k)) = NVM_PAGE_ALIGN size (2 ^ k).
Proof.
  pose proof (pf_size _ _ Hpf). pose proof (page_bounds _ _ Hpf).
  unfold NVM_PAGE_ALIGN. set (x := u64 (u64 (size + 2 ^ k) - 1)). pose proof (u64_bound (u64 (size + 2 ^ k) - 1) : 0 <= x < 2 ^ 64) as Hx.
  rewrite land_page_mask; [|lia|done]. rewrite Z.div_mul; [|lia].
  pose proof (Z.mul_div_le x (2 ^ k) ltac:(lia)). pose proof (Z.div_pos x (2 ^ k) ltac:(lia) ltac:(lia)).
  rewrite u64_small; nia.
Qed.

Lemma owp_create_mapping fd vaddr size : ⊢ owp e E (create_mapping MAP_TYPE_HOST fd vaddr size) (creates (new_mapping (NVM_PAGE_ALIGN size (2 ^ k)))).
Proof.
  iStartProof. unfold create_mapping. dstep. iApply owp_host_page_size.
  pose proof (page_bounds _ _ Hpf). rewrite (proj2 (Z.eqb_neq (2 ^ k) 0)); [|lia].
  repeat dstep; try o_finish. iExists _. iFrame. iPureIntro.
  pose proof (align_pages_nonneg size (2 ^ k) ltac:(lia)). pose proof (align_exact size). simpl. auto with lia.
Qed.

Lemma mapped_keys md : acquired (mapping_keys (mapped md)) ⊣⊢
  own (KFd (im_ioctl_fd md)) ∗ own (KPinned (im_ioctl_fd md) (dm_vaddr (im_mapping md))).
Proof. apply acquired_disj_union. Qed.

Lemma owp_map_host ctrl ct vaddr size :
  ctrl_page_size (ct_handle ct) = 2 ^ k -> ctrl ↦ OController ct ⊢ owp e E (nvm_dma_map_host ctrl vaddr size)
    (fun r => ctrl ↦ OController ct ∗ creates (new_dma (NVM_PAGE_ALIGN size (2 ^ k))) r).
Proof.
  intros Hcps. iIntros "C". unfold nvm_dma_map_host, map_pages, remove_mapping, _nvm_dma_remove.
  dstep. iApply (owp_fd_from_ctrl with "C"). iIntros (fd) "C". dstep; [dstep; iFrame; o_finish|].
  dstep. o_creates (owp_create_mapping _ _ _); [repeat dstep; iFrame; o_finish|].
  iSelect (new_mapping _ _) (fun H => iDestruct H as (md) "((%Hty & %Hum & %Hps & %Hn & %Hby) & M & ?)"). o_until dstep constr:(@_nvm_dma_create).
  iApply (owp_dma_create with "M C"); [reflexivity|done|]. iSplit.
  - iIntros (s Hfail) "M C". repeat dstep. iFrame. o_finish.
  - iIntros (h c (Hh & <- & Hr & Hroom)) "D M C". simpl in Hroom. pose proof (page_bounds _ _ Hpf). o_until dstep constr:(@populate_handle).
    iApply (owp_populate_handle with "D M C"); [done|done|done|lia|done|done|]. rewrite Hps Hby. iIntros (c' (Hk & Hm & Hr')) "D M ? C". repeat dstep.
    iFrame. o_finish. iExists c'. iSplit; [done|]. iFrame. rewrite Hm Hr' Hr. iExists (mapped md). rewrite mapped_keys. iFrame.
Qed.
End dma.
