(* ===== verification/SegmentHandles.v ===== *)
(** * SISCI segments as owned assertions

    The mapping operations of [DisDma] in the logic of [Owned]. A local segment
    leaves its SISCI descriptor behind when it is removed; [residue n m] is what may be
    left behind: [n] admin queue descriptors and [m] resources of SISCI. *)
From iris.proofmode Require Import proofmode.
From stdpp Require Import gmultiset.
From S2P Require Import Prelude Bits Memory Effects Types Runtime Queue DisDevice DisMap Ctrl Dma DisDma Owned Handles.

(** ** What may be left behind *)

(** A virtual device, an interrupt, or the SISCI library itself. *)
Definition sisci_key (κ : key) : Prop := (exists sd, κ = KSd sd) \/ (exists i, κ = KLocalIntr i) \/ κ = KSci.

Definition residue (n m : nat) : hprop := HProp (fun r =>
  (size (p_objs r) <= n)%nat /\ (size (p_keys r) <= m)%nat
  /\ (forall p o, p_objs r !! p = Some o -> exists a, o = OLocalAdmin a)
  /\ (forall κ, κ ∈ p_keys r -> sisci_key κ)).

Lemma residue_intro n m N X : (size N <= n)%nat -> (size X <= m)%nat ->
  (forall p o, N !! p = Some o -> exists a, o = OLocalAdmin a) -> (forall κ, κ ∈ X -> sisci_key κ) ->
  holds (residue n m) (Piece N X).
Proof. done. Qed.

Lemma residue_empty : emp ⊢ residue 0 0.
Proof.
  constructor. intros r ->. apply residue_intro; [by rewrite map_size_empty|by rewrite gmultiset_size_empty| |].
  - intros p o. by rewrite lookup_empty.
  - intros κ. multiset_solver.
Qed.

Lemma residue_admin p a : p ↦ OLocalAdmin a ⊢ residue 1 0.
Proof.
  constructor. intros r ->. apply residue_intro; [by rewrite map_size_singleton|by rewrite gmultiset_size_empty| |].
  - intros q o [_ <-]%lookup_singleton_Some. by eexists.
  - intros κ. multiset_solver.
Qed.

Lemma residue_own κ : sisci_key κ -> own κ ⊢ residue 0 1.
Proof.
  intros Hκ. constructor. intros r ->. apply residue_intro; [by rewrite map_size_empty|by rewrite gmultiset_size_singleton| |].
  - intros p o. by rewrite lookup_empty.
  - by intros κ' ->%gmultiset_elem_of_singleton.
Qed.

Lemma residue_sd sd : own (KSd sd) ⊢ residue 0 1.
Proof. apply residue_own. left. by eexists. Qed.
Lemma residue_intr i : own (KLocalIntr i) ⊢ residue 0 1.
Proof. apply residue_own. right. left. by eexists. Qed.
Lemma residue_sci : own KSci ⊢ residue 0 1.
Proof. apply residue_own. by do 2 right. Qed.

Lemma residue_sep n m n' m' : residue n m ∗ residue n' m' ⊢ residue (n + n') (m + m').
Proof.
  constructor. intros r (r1 & r2 & (Ho & Hd & Hk) & (Hn & Hm & Ha & Hs) & (Hn' & Hm' & Ha' & Hs')).
  split; [rewrite Ho map_size_disj_union; [lia|done]|]. split; [rewrite Hk gmultiset_size_disj_union; lia|].
  rewrite Ho Hk. split.
  - intros p o [H|[_ H]]%lookup_union_Some_raw; [by eapply Ha|by eapply Ha'].
  - intros κ [H|H]%gmultiset_elem_of_disj_union; [by apply Hs|by apply Hs'].
Qed.

Lemma residue_mono n m n' m' : (n <= n')%nat -> (m <= m')%nat -> residue n m ⊢ residue n' m'.
Proof. intros ? ?. constructor. intros r (? & ? & ? & ?). split; [lia|]. split; [lia|done]. Qed.

Lemma residue_join n m n' m' a b : (n + n' <= a)%nat -> (m + m' <= b)%nat ->
  residue n m -∗ residue n' m' -∗ residue a b.
Proof. iIntros (? ?) "R R'". iApply (residue_mono (n + n') (m + m')); [done..|]. iApply residue_sep. iFrame. Qed.

Lemma residue_nothing n m : ⊢ residue n m.
Proof. iApply (residue_mono 0 0 n m); [lia..|]. by iApply residue_empty. Qed.

Section dis_dma.
Context `{Build} (e : uenv) (E : fault -> Prop) (k : Z).
Hypothesis Hpf : platform e k.

#[local] Hint Extern 1 (forall κ, io_map_owns _ κ = 0) => intros; reflexivity : contracts.

Lemma owp_load_handle ctrl ct (Q : nvm_ctrl_t -> hprop) :
  ctrl_handle k ctrl ct -∗ (⌜ctrl_page_size (ct_handle ct) = 2 ^ k⌝ → ctrl_handle k ctrl ct -∗ Q (ct_handle ct)) -∗
  owp e E (load_ctrl ctrl) Q.
Proof.
  iIntros "(%Hok & C & O) Q". iApply (owp_load_ctrl with "C"). iIntros "C". iApply "Q"; [iPureIntro; apply Hok|]. iSplit; [done|iFrame].
Qed.

Lemma owp_device_from_ctrl ctrl ct (Q : option device -> hprop) :
  ctrl_handle k ctrl ct -∗ (∀ d, ⌜is_Some d <-> cluster ct⌝ → ctrl_handle k ctrl ct -∗ Q d) -∗ owp e E (_nvm_device_from_ctrl ctrl) Q.
Proof.
  iIntros "(%Hps & C & O) Q". unfold _nvm_device_from_ctrl, ctrl_handle, ctrl_owns, cluster. do 2 o_step. destruct (ct_type ct) eqn:Ht.
  1,2: iApply owp_ret; iApply "Q"; [iPureIntro; split; [by intros []|by intros []]|iSplit; [done|iFrame]].
  iDestruct "O" as (mr) "(M & O)". repeat o_step; (iApply "Q"; [iPureIntro; split; [by intros []|by eauto; intros []]|]); eauto with iFrame.
Qed.

Definition map_desc (ct : controller) (bytes p : Z) : hprop :=
  ∃ d, ⌜cluster ct⌝ ∧ (p ↦ OMapDesc (MapDescriptor (DmaMap NULL bytes 1) d VA_MAP_INIT IO_MAP_INIT NULL)
    ∗ acquired (device_keys d)).

Lemma owp_create_map_descriptor ctrl ct size :
  ctrl_handle k ctrl ct ⊢ owp e E (create_map_descriptor ctrl size) (fun r => ctrl_handle k ctrl ct ∗ creates (map_desc ct size) r).
Proof.
  iIntros "C". unfold create_map_descriptor. o_step. iApply (owp_device_from_ctrl with "C"). iIntros (d Hd) "C".
  destruct d as [d|]; repeat o_step; iFrame; try o_finish. iExists _. iFrame. iPureIntro. naive_solver.
Qed.

(** What a descriptor holds besides the segment. *)
Definition holds_mappings (d : map_descriptor) : hprop :=
  acquired (va_map_keys (md_va_mapping d)) ∗ acquired (io_map_keys (md_io_mapping d)) ∗ acquired (device_keys (md_device d)).

Lemma descriptor_holds d : acquired (descriptor_keys d) ⊣⊢ holds_mappings d.
Proof. unfold descriptor_keys, holds_mappings. by rewrite !acquired_disj_union -assoc. Qed.

Lemma owp_remove_map_descriptor p d (Q : unit -> hprop) :
  p ↦ OMapDesc d -∗ holds_mappings d -∗ Q tt -∗ owp e E (remove_map_descriptor p) Q.
Proof.
  iIntros "P (? & ? & ?) Q". iApply (owp_nonnull with "P"). iIntros (Hp) "P".
  unfold remove_map_descriptor, set_va_mapping, set_io_mapping. repeat o_step. done.
Qed.

Lemma owp_remove_local_segment p d m (Q : unit -> hprop) : md_segment d <> NULL ->
  p ↦ OMapDesc d -∗ holds_mappings d -∗ md_segment d ↦ OLocalMem m -∗ own (KLocalSegment (lm_segment m)) -∗ Q tt -∗
  owp e E (remove_local_segment p) Q.
Proof.
  iIntros (Hs) "P (? & ? & ?) ? ? Q". iApply (owp_nonnull with "P"). iIntros (Hp) "P".
  unfold remove_local_segment, set_va_mapping, set_io_mapping. repeat o_step. done.
Qed.

Lemma owp_disconnect_remote_segment p d m (Q : unit -> hprop) : md_segment d <> NULL ->
  p ↦ OMapDesc d -∗ holds_mappings d -∗ md_segment d ↦ ODevMem m -∗ acquired (device_memory_keys m) -∗ Q tt -∗
  owp e E (disconnect_remote_segment p) Q.
Proof.
  iIntros (Hs) "P (? & ? & ?) ? ? Q". iApply (owp_nonnull with "P"). iIntros (Hp) "P".
  unfold disconnect_remote_segment, set_va_mapping, set_io_mapping. repeat o_step. done.
Qed.

(** One page of [bytes] bytes at the address the device mapping has. *)
Lemma owp_make_handle ctrl ct md d rel bytes (Q : Z * Z -> hprop) :
  dm_page_size (md_dma_mapping d) = bytes -> dm_n_pages (md_dma_mapping d) = 1 -> 0 <= bytes < 2 ^ 64 ->
  md ↦ OMapDesc d -∗ ctrl_handle k ctrl ct -∗
  ((∀ s, ⌜s <> 0⌝ → md ↦ OMapDesc d -∗ ctrl_handle k ctrl ct -∗ owp e E (dma_release rel md) (fun _ => Q (s, NULL))) ∧
   (∀ h c, ⌜h <> NULL /\ d_map c = md /\ d_release c = Some rel /\ handle_ok k bytes c⌝ →
      h ↦ ODma c -∗ md ↦ OMapDesc d -∗ ctrl_handle k ctrl ct -∗ Q (0, h))) -∗
  owp e E (make_handle ctrl md rel) Q.
Proof.
  iIntros (Hb Hn Hr) "M (%Hok & C & O) Q". pose proof (proj1 Hok) as Hcps. unfold make_handle. o_step.
  iApply (owp_dma_create with "M C"); [done|reflexivity|done|]. iSplit.
  - iIntros (s Hs) "M C". odecide. iDestruct "Q" as "[Q _]". o_step. iApply owp_wand.
    iSplitL; [iApply ("Q" with "[//] M [C O]"); iSplit; [done|iFrame]|]. iIntros (?) "Q". by o_step.
  - iIntros (h c (Hh & <- & Hrel & Hroom)) "D M C". iDestruct "Q" as "[_ Q]". odecide. o_until o_step constr:(@_nvm_dma_handle_populate).
    iApply (owp_handle_populate with "D M C"); [done|reflexivity|done| |simpl; lia|done|].
    { destruct Hroom as [Hz _]. lia. }
    iIntros (c' (Hk & Hm & Hr')) "D M C". o_step. iApply ("Q" with "[] D M [C O]"); [iPureIntro|iSplit; [done|iFrame]].
    rewrite Hb Hn Z.mul_1_r u64_small in Hk; [|done]. repeat split; try congruence; apply Hk.
Qed.

(** Mappings are kept in either case: a failed one holds nothing. *)
Ltac s_step :=
  odecide; first [ostep | o_contract | o_if]; path_simp; zbool;
  repeat match goal with Hz : 0 <> 0 -> _ |- _ => clear Hz end;
  try (exfalso; first [lia | congruence]); o_norm.

Ltac solve_mappings :=
  unfold holds_mappings; o_norm; change (va_map_keys VA_MAP_INIT) with (∅ : gmultiset key);
  change (io_map_keys IO_MAP_INIT) with (∅ : gmultiset key); rewrite ?acquired_empty; iFrame; done.
Ltac s_finish := repeat o_step; iFrame; try (iSplitR; [iApply residue_nothing|]); o_finish.

Lemma align_range size : 0 <= NVM_PAGE_ALIGN size (2 ^ k) < 2 ^ 64.
Proof.
  rewrite -(align_exact e k Hpf size). apply u64_bound.
Qed.

Lemma owp_create_local_segment id size :
  ⊢ owp e E (create_local_segment id size NULL) (creates (fun p => ∃ m, p ↦ OLocalMem m ∗ acquired (local_memory_keys m))).
Proof.
  iStartProof. unfold create_local_segment. repeat o_step; try o_finish; iExists _; iFrame.
Qed.

Lemma owp_connect_remote_segment dev adapter segno shared : is_Some dev ->
  ⊢ owp e E (connect_remote_segment dev adapter segno shared) (creates (fun p => ∃ m, p ↦ ODevMem m ∗ acquired (device_memory_keys m))).
Proof.
  intros [d ->]. iStartProof. unfold connect_remote_segment, deref. repeat o_step; try o_finish; iExists _; iFrame.
Qed.

Lemma owp_dis_dma_create ctrl ct adapter id size :
  ctrl_handle k ctrl ct ⊢ owp e E (nvm_dis_dma_create ctrl adapter id size)
    (fun r => ctrl_handle k ctrl ct ∗ residue 0 1 ∗ creates (new_dma k (NVM_PAGE_ALIGN size (2 ^ k))) r).
Proof.
  iIntros "C". unfold nvm_dis_dma_create, NVM_CTRL_ALIGN, set_segment, set_va_mapping, set_io_mapping, set_dma_vaddr.
  o_step. iApply (owp_load_handle with "C"). iIntros (Hps) "C". rewrite Hps. o_step.
  iApply (owp_creates_with _ _ _ _ _ _ (owp_create_map_descriptor ctrl ct _) with "C"). iSplit; iIntros (? Hs) "C"; [|iIntros "M"].
  { s_finish. }
  iDestruct "M" as (d) "(%Hcl & M & D)". o_step.
  o_creates (owp_create_local_segment _ _).
  { o_until s_step constr:(@remove_map_descriptor). iApply (owp_remove_map_descriptor with "M [D]").
    { solve_mappings. }
    s_finish. }
  iSelect (∃ m, _)%I (fun H => iDestruct H as (m) "[S K]"). iDestruct "K" as "[SD SG]".
  iDestruct (residue_sd with "SD") as "SD". repeat s_step.
  1,2: iRename select (p0 ↦ _)%I into "S"; iApply (owp_remove_local_segment with "M [-C SD S SG] S SG"); [done|solve_mappings|s_finish].
  iApply (owp_make_handle with "M C"); [done|done|apply align_range|]. iSplit.
  - iIntros (s Hs') "M C". simpl dma_release.
    iApply (owp_remove_local_segment with "M [-C SD S SG] S SG"); [done|solve_mappings|iFrame; o_finish].
  - iIntros (h c (Hh & <- & Hr & Hk)) "W M C". iFrame. o_finish. iExists c. iSplit; [done|]. iFrame. rewrite Hr /=.
    iExists _, m. iSplit; [|iFrame "M"; rewrite descriptor_holds; iFrame]. iPureIntro. exact Hs0.
Qed.

Lemma owp_dis_dma_connect ctrl ct adapter segno size shared :
  ctrl_handle k ctrl ct ⊢ owp e E (nvm_dis_dma_connect ctrl adapter segno size shared)
    (fun r => ctrl_handle k ctrl ct ∗ creates (new_dma k (NVM_PAGE_ALIGN size (2 ^ k))) r).
Proof.
  iIntros "C". unfold nvm_dis_dma_connect, NVM_CTRL_ALIGN, set_segment, set_va_mapping, set_io_mapping, set_dma_vaddr.
  o_step. iApply (owp_load_handle with "C"). iIntros (Hps) "C". rewrite Hps. o_step.
  iApply (owp_creates_with _ _ _ _ _ _ (owp_create_map_descriptor ctrl ct _) with "C"). iSplit; iIntros (? Hs) "C"; [s_finish|iIntros "M"].
  iDestruct "M" as (d) "(%Hcl & M & D)". o_step. iApply (owp_device_from_ctrl with "C"). iIntros (dev Hdev) "C". apply Hdev in Hcl. clear Hdev.
  o_step. o_creates (owp_connect_remote_segment _ _ _ _ Hcl).
  { o_until s_step constr:(@remove_map_descriptor). iApply (owp_remove_map_descriptor with "M [D]"); [solve_mappings|s_finish]. }
  iSelect (∃ m, _)%I (fun H => iDestruct H as (m) "[S K]"). repeat s_step.
  1,2: iRename select (p0 ↦ _)%I into "S"; iApply (owp_disconnect_remote_segment with "M [-C S K] S K"); [done|solve_mappings|s_finish].
  iApply (owp_make_handle with "M C"); [done|done|apply align_range|]. iSplit.
  - iIntros (s Hs') "M C". simpl dma_release.
    iApply (owp_disconnect_remote_segment with "M [-C S K] S K"); [done|solve_mappings|iFrame; o_finish].
  - iIntros (h c (Hh & <- & Hr & Hk)) "W M C". iFrame. o_finish. iExists c. iSplit; [done|]. iFrame. rewrite Hr /=.
    iExists _, m. iSplit; [|iFrame "M"; rewrite descriptor_holds; iFrame]. iPureIntro. exact Hs0.
Qed.

Lemma owp_make_handle_mapped ctrl ct md d bytes :
  dm_page_size (md_dma_mapping d) = bytes -> dm_n_pages (md_dma_mapping d) = 1 -> 0 <= bytes < 2 ^ 64 ->
  md ↦ OMapDesc d -∗ holds_mappings d -∗ ctrl_handle k ctrl ct -∗
  owp e E (make_handle ctrl md REL_remove_map_descriptor) (fun r => ctrl_handle k ctrl ct ∗ creates (new_dma k bytes) r).
Proof.
  iIntros (Hb Hn Hr) "M D C". iApply (owp_make_handle with "M C"); [exact Hb|done|done|]. iSplit.
  - iIntros (s Hs') "M C". simpl dma_release. iApply (owp_remove_map_descriptor with "M D"). iFrame. o_finish.
  - iIntros (h c (Hh & <- & Hrel & Hk)) "W M C". iFrame. o_finish. iExists c. iSplit; [done|]. iFrame. rewrite Hrel /=.
    iExists d. rewrite descriptor_holds. iFrame.
Qed.

Lemma owp_dis_dma_map_local ctrl ct adapter segment size map_va :
  ctrl_handle k ctrl ct ⊢ owp e E (nvm_dis_dma_map_local ctrl adapter segment size map_va)
    (fun r => ctrl_handle k ctrl ct ∗ creates (new_dma k (NVM_PAGE_ALIGN size (2 ^ k))) r).
Proof.
  iIntros "C". unfold nvm_dis_dma_map_local, NVM_CTRL_ALIGN, set_segment, set_va_mapping, set_io_mapping, set_dma_vaddr.
  o_step. iApply (owp_load_handle with "C"). iIntros (Hps) "C". rewrite Hps. o_step.
  iApply (owp_creates_with _ _ _ _ _ _ (owp_create_map_descriptor ctrl ct _) with "C"). iSplit; iIntros (? Hs) "C"; [s_finish|iIntros "M"].
  iDestruct "M" as (d) "(%Hcl & M & D)". repeat s_step.
  1,2: iApply (owp_remove_map_descriptor with "M [-C]"); [solve_mappings|s_finish].
  all: odecide; iApply (owp_make_handle_mapped with "M [-C] C"); [done|done|apply align_range|solve_mappings].
Qed.
End dis_dma.
