(* ===== verification/AdminHandles.v ===== *)
(** * Admin queue references as owned assertions

    A reference to a local admin queue pair in the logic of [Owned]: making it,
    running admin commands through it and destroying it. The stub and deleter
    callbacks are those of the interface [RpcCallbacks]. *)
From iris.proofmode Require Import proofmode.
From stdpp Require Import gmultiset.
From S2P Require Import Prelude Bits Memory Effects Types Runtime Command Error Queue DisDevice DisMap Ctrl Dma DisDma Rpc RpcHandles RpcCommand Admin Owned Handles SegmentHandles.

(** Faults of arithmetic on values the device supplies. *)
Definition arithmetic (f : fault) : Prop := f = DivByZero \/ f = BadShift.

Section local.
Context `{RpcCallbacks} `{Build} (e : uenv) (k : Z).
Hypothesis Hpf : platform e k.
#[local] Abbreviation E := arithmetic.

(** ** Running a command *)

Lemma owp_sq_submit q (Q : nvm_queue_t -> hprop) : (∀ q', Q q') ⊢ owp e E (nvm_sq_submit q) Q.
Proof. iIntros "Q". unfold nvm_sq_submit. repeat o_step; iApply "Q". Qed.

Lemma owp_dequeue_block q t (Q : Z * nvm_queue_t -> hprop) : (∀ r, Q r) ⊢ owp e E (nvm_cq_dequeue_block q t) Q.
Proof.
  iIntros "Q". iApply (owp_inert _ _ _ (fun _ => True)); [|iIntros (r _); iApply "Q"].
  intros w. eapply wp_mono; [apply dequeue_block_spec|]. intros r w' (_ & Hst & _ & _ & _ & Hm & _). done.
Qed.

Lemma owp_ctrl_reset c acq asq (Q : Z -> hprop) : (∀ r, Q r) ⊢ owp e E (nvm_raw_ctrl_reset c acq asq) Q.
Proof.
  iIntros "Q". iApply (owp_inert _ _ _ (fun _ => True)); [|iIntros (r _); iApply "Q"].
  intros w. eapply wp_mono; [apply raw_ctrl_reset_done|]. intros r w' (Hst & Hq & _). split; [done|]. split; [apply Hq|done].
Qed.

Lemma owp_execute_command admin cmd cpl a (Q : Z -> hprop) :
  admin ↦ OLocalAdmin a -∗ (∀ s a', admin ↦ OLocalAdmin a' -∗ Q s) -∗ owp e E (execute_command admin cmd cpl) Q.
Proof.
  iIntros "A Q". unfold execute_command, store_asq, store_acq, ld_mem. do 4 o_step.
  destruct (nvm_sq_enqueue _ _) as [[[slot asq] m']|]; [|iApply owp_fail; [by left|iAccu]].
  repeat first [o_step | iApply owp_sq_submit; iIntros (?) | iApply owp_dequeue_block; iIntros ([? ?])].
  all: iApply ("Q" with "[$]").
Qed.

(** ** References *)

(** What admin commands need of a reference to [ctrl], whatever is behind it. *)
Class Reference (ref ctrl : Z) (A : hprop) : Prop := {
  reference_rpc cmd cpl : A ⊢ owp e E (nvm_raw_rpc ref cmd cpl) (fun _ => A);
  reference_ctrl : A ⊢ owp e E (nvm_ctrl_from_aq_ref ref) (fun c => ⌜c = ctrl⌝ ∧ A);
}.

(** A local queue pair without handles. *)
Definition aq_local (ctrl ref : Z) : hprop :=
  ∃ r a, ⌜ar_ctrl r = ctrl /\ ar_handles r = NULL /\ ar_stub r = Some STUB_execute_command
           /\ ar_release r = Some DEL_remove_admin⌝ ∧ (ref ↦ OAqRef r ∗ ar_data r ↦ OLocalAdmin a).

Lemma owp_pack cpl err (Q : Z -> hprop) : (∀ m, Q (NVM_ERR_PACK m cpl err)) ⊢ owp e E (pack cpl err) Q.
Proof. iIntros "Q". unfold pack. repeat o_step. iApply "Q". Qed.

(** Locking succeeds. *)
Lemma owp_lock p (Q : resp -> hprop) : (∀ r, ⌜r_val r = 0⌝ → own (KLock p) -∗ Q r) ⊢ owp e E (ext (Mutex_lock p)) Q.
Proof.
  iIntros "Q". iApply owp_acquire; [delta_refl|]. iIntros (r (w & Ha)). apply (pf_lock _ _ Hpf) in Ha. rewrite Ha /=.
  iSplit; iIntros (?); [by iApply "Q"|done].
Qed.

Ltac a_step :=
  first
  [ lazymatch goal with
    | |- environments.envs_entails _ (owp _ _ (ext (Mutex_lock _)) _) => odecide; iApply owp_lock; iIntros (? ?) "?"
    | |- environments.envs_entails _ (owp _ _ (pack _ _) _) => odecide; iApply owp_pack; iIntros (?)
    end
  | o_step ]; cbn beta iota.

Lemma local_reference ctrl ref : Reference ref ctrl (aq_local ctrl ref).
Proof.
  split.
  - intros cmd cpl. iIntros "(%r & %a & (%Hc & %Hh & %Hs & %Hr) & R & A)". unfold nvm_raw_rpc. repeat a_step. rewrite Hs rpc_stub_local.
    a_step. iApply (owp_execute_command with "A"). iIntros (s a') "A". repeat a_step. iExists r, a'. by iFrame.
  - iIntros "(%r & %a & (%Hc & %Hh & %Hs & %Hr) & R & A)". iApply (owp_nonnull with "R"). iIntros (Hn) "R".
    unfold nvm_ctrl_from_aq_ref. repeat a_step. iSplit; [done|]. iExists r, a. by iFrame.
Qed.

(** ** Making and destroying a reference *)

Lemma owp_heap_fuel (Q : nat -> hprop) : (∀ n, Q (S n)) ⊢ owp e E heap_fuel Q.
Proof.
  iIntros "Q". iApply (owp_inert _ _ _ (fun n => exists n', n = S n')); [|iIntros (n [n' ->]); iApply "Q"].
  intros w. unfold heap_fuel. repeat wp_step. split; [done|]. split; [apply moved_refl|eauto].
Qed.

Lemma owp_free_0 (Q : unit -> hprop) : Q tt ⊢ owp e E (free 0) Q.
Proof. apply owp_free_null. Qed.

(** The queue descriptor is not freed. *)
Lemma owp_aq_destroy ctrl ref (Q : unit -> hprop) :
  aq_local ctrl ref -∗ (residue 1 0 -∗ Q tt) -∗ owp e E (nvm_aq_destroy ref) Q.
Proof.
  iIntros "(%r & %a & (%Hc & %Hh & %Hs & %Hr) & R & A) Q". iApply (owp_nonnull with "R"). iIntros (Hn) "R".
  unfold nvm_aq_destroy, _nvm_ref_put, release_handles, set_handles. rewrite (proj2 (Z.eqb_neq ref NULL) Hn) /=.
  repeat a_step. iApply owp_heap_fuel. iIntros (n). a_step. rewrite Hh /=. repeat a_step. rewrite Hr rpc_delete_admin. unfold remove_admin.
  iDestruct (residue_admin with "A") as "A".
  repeat first [a_step | iApply owp_free_0]; by iApply "Q".
Qed.

Lemma owp_aq_destroy_null (Q : unit -> hprop) : Q tt ⊢ owp e E (nvm_aq_destroy NULL) Q.
Proof. apply owp_ret. Qed.

Lemma owp_load_dma h c (Q : nvm_dma_t -> hprop) :
  h ↦ ODma c -∗ (h ↦ ODma c -∗ Q (d_handle c)) -∗ owp e E (load_dma h) Q.
Proof. iIntros "? Q". unfold load_dma. repeat o_step. iApply "Q". iFrame. Qed.

Lemma owp_ioaddr_at d i (Q : Z -> hprop) : (i < length (dma_ioaddrs d))%nat -> (∀ a, Q a) ⊢ owp e E (ioaddr_at d i) Q.
Proof.
  intros Hi. destruct (lookup_lt_is_Some_2 _ _ Hi) as [a Ha]. iIntros "Q". unfold ioaddr_at. rewrite Ha. o_step. iApply "Q".
Qed.

Lemma owp_create_admin ctrl ct window c (Q : Z -> hprop) : (2 <= length (dma_ioaddrs (d_handle c)))%nat ->
  ctrl ↦ OController ct -∗ window ↦ ODma c -∗
  (∀ p, ctrl ↦ OController ct -∗ window ↦ ODma c -∗ (⌜p = NULL⌝ ∧ emp ∨ ⌜p <> NULL⌝ ∧ ∃ a, p ↦ OLocalAdmin a) -∗ Q p) -∗
  owp e E (create_admin ctrl window) Q.
Proof.
  iIntros (Hl) "C W Q". unfold create_admin, store_acq, store_asq. do 2 a_step; odecide.
  { a_step. iApply ("Q" with "C W"). by iLeft. }
  o_until a_step constr:(@load_ctrl). iApply (owp_load_ctrl with "C"). iIntros "C".
  a_step. iApply (owp_load_dma with "W"). iIntros "W". a_step. iApply owp_ioaddr_at; [lia|]. iIntros (acq).
  o_until a_step constr:(ioaddr_at). iApply owp_ioaddr_at; [lia|]. iIntros (asq). repeat a_step.
  iApply ("Q" with "C W"). iRight. iSplit; [done|]. iExists _. iFrame.
Qed.

Lemma owp_ref_put_unbound p r (Q : unit -> hprop) : ar_handles r = NULL -> ar_release r = None ->
  p ↦ OAqRef r -∗ Q tt -∗ owp e E (_nvm_ref_put p) Q.
Proof.
  iIntros (Hh Hr) "R Q". iApply (owp_nonnull with "R"). iIntros (Hn) "R".
  unfold _nvm_ref_put, release_handles, set_handles. repeat a_step.
  iApply owp_heap_fuel. iIntros (n). a_step. rewrite Hh /=. repeat a_step. rewrite Hr. repeat a_step. done.
Qed.

(** The window is only looked at; two pages are needed. *)
Lemma owp_aq_create ctrl ct window c bytes (Q : Z * Z -> hprop) : handle_ok k bytes c ->
  ctrl_handle k ctrl ct -∗ window ↦ ODma c -∗
  ((∀ s, ⌜s <> 0⌝ → ctrl_handle k ctrl ct -∗ window ↦ ODma c -∗ Q (s, NULL))
   ∧ (∀ ref, ⌜ref <> NULL /\ 2 * 2 ^ k <= bytes⌝ → ctrl_handle k ctrl ct -∗ window ↦ ODma c -∗ aq_local ctrl ref -∗ Q (0, ref))) -∗
  owp e E (nvm_aq_create ctrl window) Q.
Proof.
  intros (Hps & Hn & Hby). pose proof (page_bounds _ _ Hpf). iIntros "(%Hok & C & O) W Q". pose proof (proj1 Hok) as Hcps. unfold nvm_aq_create, _nvm_ref_get, set_binding.
  dstep. iApply (owp_load_ctrl with "C"). iIntros "C". a_step. iApply (owp_load_dma with "W"). iIntros "W".
  repeat a_step.
  1,2,3,4: iDestruct "Q" as "[Q _]"; iApply ("Q" with "[] [C O] W"); [done|iSplit; [done|iFrame]].
  iApply (owp_create_admin with "C W"); [lia|]. iIntros (a) "C W [[-> _]|(%Ha & A)]".
  - repeat a_step. iRename select (p ↦ _)%I into "R". iApply (owp_ref_put_unbound with "R"); [done|done|]. a_step.
    iDestruct "Q" as "[Q _]"; iApply ("Q" with "[] [C O] W"); [done|iSplit; [done|iFrame]].
  - iDestruct "A" as (la) "A". repeat a_step. iApply owp_ctrl_reset. iIntros (st). a_step.
    iDestruct "Q" as "[_ Q]"; iApply ("Q" with "[] [C O] W"); [iPureIntro; split; [done|nia]|iSplit; [done|iFrame]|].
    iExists (AdminReference ctrl None NULL a (Some DEL_remove_admin) (Some STUB_execute_command)), la.
    iSplit; [iPureIntro; by split_and!|iFrame].
Qed.

(** ** Admin commands through any reference *)

Section commands.
Context (ref ctrl : Z) (A : hprop) `{!Reference ref ctrl A} (ct : controller).

Lemma owp_raw_rpc cmd cpl (Q : Z -> hprop) : A -∗ (∀ s, A -∗ Q s) -∗ owp e E (nvm_raw_rpc ref cmd cpl) Q.
Proof. iIntros "A Q". iApply owp_wand. iSplitL "A"; [by iApply reference_rpc|done]. Qed.

Lemma owp_ctrl_from_ref (Q : Z -> hprop) : A -∗ (A -∗ Q ctrl) -∗ owp e E (nvm_ctrl_from_aq_ref ref) Q.
Proof.
  iIntros "A Q". iApply owp_wand. iSplitL "A"; [by iApply reference_ctrl|]. iIntros (c) "(-> & A)". by iApply "Q".
Qed.

Lemma owp_read_field v w hi lo (Q : Z -> hprop) : (∀ r, Q r) ⊢ owp e E (read_field v w hi lo) Q.
Proof. iIntros "Q". unfold read_field, read_reg. repeat o_step. iApply "Q". Qed.

Lemma owp_shift1 w n (Q : Z -> hprop) : Q (2 ^ n) ⊢ owp e E (shift1 w n) Q.
Proof.
  iIntros "Q". unfold shift1. destruct (n <? w); [by o_step|]. iApply owp_fail; [by right|iAccu].
Qed.

(** The commands' local messages and everything they call. *)
Ltac m_step :=
  first
  [ a_step
  | iApply owp_shift1
  | iApply owp_read_field; iIntros (?)
  | iApply (owp_ctrl_from_ref with "A"); iIntros "A"
  | iApply (owp_load_handle with "C"); iIntros (?) "C"
  | iApply (owp_raw_rpc with "A"); iIntros (?) "A" ].

Ltac m_done := iApply ("Q" with "[] A C"); rewrite ?pack_errno; iPureIntro; try done.

(** Whatever is read from the device, the page size in the answer is the host's. *)
Lemma owp_admin_ctrl_info command completion info ptr ioaddr (Q : Z * option nvm_ctrl_info -> hprop) :
  A -∗ ctrl_handle k ctrl ct -∗
  (∀ s i, ⌜s = 0 -> exists i', i = Some i' /\ ci_page_size i' = 2 ^ k⌝ → A -∗ ctrl_handle k ctrl ct -∗ Q (s, i)) -∗
  owp e E (nvm_admin_ctrl_info command completion ref info ptr ioaddr) Q.
Proof.
  iIntros "A C Q". unfold nvm_admin_ctrl_info, nvm_ok, clear_messages, info_registers, info_identify, divide, CAP_CQR, CAP_MPSMIN, read_reg.
  pose proof (page_bounds _ _ Hpf).
  repeat m_step; try m_done; [iApply owp_fail; [by left|iAccu]|].
  intros _. by eexists.
Qed.

Lemma owp_admin_ns_info command completion info ns_id ptr ioaddr (Q : Z * option nvm_ns_info -> hprop) :
  A -∗ ctrl_handle k ctrl ct -∗
  (∀ s i, ⌜s = 0 -> exists i', i = Some i' /\ 0 < ns_lba_data_size i'⌝ → A -∗ ctrl_handle k ctrl ct -∗ Q (s, i)) -∗
  owp e E (nvm_admin_ns_info command completion ref info ns_id ptr ioaddr) Q.
Proof.
  iIntros "A C Q". unfold nvm_admin_ns_info, nvm_ok, clear_messages, ns_identify. repeat m_step; try m_done.
  intros _. eexists. split; [done|]. simpl. apply Z.pow_pos_nonneg; [lia|]. apply RB_bound; lia.
Qed.

Lemma owp_admin_cq_create command completion id vaddr ioaddr (Q : Z * option nvm_queue_t -> hprop) :
  A -∗ ctrl_handle k ctrl ct -∗ (∀ s q, ⌜s = 0 -> is_Some q⌝ → A -∗ ctrl_handle k ctrl ct -∗ Q (s, q)) -∗
  owp e E (nvm_admin_cq_create command completion ref id vaddr ioaddr) Q.
Proof. iIntros "A C Q". unfold nvm_admin_cq_create, nvm_ok, clear_messages. repeat m_step; m_done. Qed.

Lemma owp_admin_sq_create command completion cq id vaddr ioaddr (Q : Z * option nvm_queue_t -> hprop) :
  A -∗ ctrl_handle k ctrl ct -∗ (∀ s q, ⌜s = 0 -> is_Some q⌝ → A -∗ ctrl_handle k ctrl ct -∗ Q (s, q)) -∗
  owp e E (nvm_admin_sq_create command completion ref cq id vaddr ioaddr) Q.
Proof. iIntros "A C Q". unfold nvm_admin_sq_create, nvm_ok, clear_messages. repeat m_step; m_done. Qed.

Lemma owp_admin_get_num_queues command completion (Q : Z * option (Z * Z) -> hprop) :
  A -∗ (∀ s n, ⌜s = 0 -> is_Some n⌝ → A -∗ Q (s, n)) -∗ owp e E (nvm_admin_get_num_queues command completion ref) Q.
Proof.
  iIntros "A Q". unfold nvm_admin_get_num_queues, nvm_ok, clear_messages. repeat m_step; (iApply ("Q" with "[] A"); rewrite ?pack_errno; iPureIntro; done).
Qed.

Lemma owp_admin_request_num_queues command completion n_cqs n_sqs (Q : Z * option (Z * Z) -> hprop) :
  A -∗ (∀ s n, ⌜s = 0 -> is_Some n⌝ → A -∗ Q (s, n)) -∗
  owp e E (nvm_admin_request_num_queues command completion ref n_cqs n_sqs) Q.
Proof.
  iIntros "A Q". unfold nvm_admin_request_num_queues, nvm_ok, clear_messages. repeat m_step; (iApply ("Q" with "[] A"); rewrite ?pack_errno; iPureIntro; done).
Qed.

End commands.
End local.

(** The same steps outside of the section. *)
Ltac r_step :=
  first
  [ lazymatch goal with
    | |- environments.envs_entails _ (owp _ _ (ext (Mutex_lock _)) _) => odecide; iApply owp_lock; [eassumption|]; iIntros (? ?) "?"
    | |- environments.envs_entails _ (owp _ _ (pack _ _) _) => odecide; iApply owp_pack; iIntros (?)
    end
  | o_step ]; cbn beta iota.

#[export] Hint Extern 1 (Reference _ _ _ _) => eapply local_reference; eassumption : typeclass_instances.
