(* ===== verification/Programs.v ===== *)
(** * Running whole programs

    What the programs under [examples/] share: the calls of the library on the
    handles they own, memory of their own, and what a finished program may leave
    behind, as a statement about worlds. *)
From iris.proofmode Require Import proofmode.
From stdpp Require Import gmultiset.
From S2P Require Import Prelude Bits Memory Effects Types Runtime Queue DisDevice DisMap Ctrl Dma DisDma Rpc Admin Owned Handles SegmentHandles AdminHandles.

(** [w'] has at most [n] objects more than [w], all of them descriptors of admin
    queues, and at most [m] resources more, all of them SISCI descriptors or SISCI itself. *)
Definition left_over (n m : nat) (w w' : uworld) : Prop :=
  exists N X, heap_ok w' /\ objs w' = N ∪ objs w /\ N ##ₘ objs w
  /\ (forall κ, bal w' κ = bal w κ + Z.of_nat (multiplicity κ X))
  /\ (size N <= n)%nat /\ (size X <= m)%nat
  /\ (forall p o, N !! p = Some o -> exists a, o = OLocalAdmin a)
  /\ (forall κ, κ ∈ X -> sisci_key κ).

(** A program that owns nothing at first; what it leaves may depend on its result. *)
Lemma owp_program_by {A} e E (m : UM A) (φ : A -> Prop) (n k : A -> nat) w :
  (⊢ owp e E m (fun a => ⌜φ a⌝ ∧ residue (n a) (k a))) -> heap_ok w ->
  wpf e E m w (fun a w' => φ a /\ left_over (n a) (k a) w w').
Proof.
  intros H Hok. eapply wpf_mono.
  - apply (owp_adequate e E m h_emp _ nothing w (objs w) H); try done; [by rewrite (left_id_L ∅ (∪))|apply map_disjoint_empty_l].
  - intros a w' (r' & Hok' & Ho & Hd & Hb & Hφ & Hn & Hk & Ha & Hs). split; [done|].
    exists (p_objs r'), (p_keys r'). do 3 (split; [done|]). split; [|done].
    intros κ. specialize (Hb κ). cbn [p_keys nothing] in Hb. rewrite multiplicity_empty in Hb. lia.
Qed.

Lemma owp_program {A} e E (m : UM A) (φ : A -> Prop) n k w :
  (⊢ owp e E m (fun a => ⌜φ a⌝ ∧ residue n k)) -> heap_ok w ->
  wpf e E m w (fun a w' => φ a /\ left_over n k w w').
Proof. apply (owp_program_by e E m φ (fun _ => n) (fun _ => k)). Qed.

Lemma owp_leaves {A} e E (m : UM A) n k w :
  (⊢ owp e E m (fun _ => residue n k)) -> heap_ok w -> wpf e E m w (fun _ w' => left_over n k w w').
Proof.
  intros H Hok. eapply wpf_mono; [apply (owp_program e E m (fun _ => True) n k w); [|done]|by intros a w' [_ ?]].
  iApply owp_wand. iSplitL; [iApply H|]. iIntros (a) "R". by iSplit.
Qed.

(** [free] of memory the program allocated; [free(NULL)] does nothing. *)
Definition free_mem (p : Z) : UM unit := if p =? NULL then mret tt else ext (Free_mem p);; mret tt.

Section programs.
Context `{RpcCallbacks} `{Build} (e : uenv) (k : Z).
Hypothesis Hpf : platform e k.
#[local] Abbreviation E := arithmetic.

Lemma owp_free_ctrl p ct (Q : unit -> hprop) : ctrl_handle k p ct -∗ Q tt -∗ owp e E (nvm_ctrl_free p) Q.
Proof.
  iIntros "C Q". iApply owp_wand. iSplitL "C"; [by iApply owp_ctrl_free|]. iIntros ([]) "_". done.
Qed.

(** ** Windows *)

Lemma owp_unmap bytes h (Q : unit -> hprop) : new_dma k bytes h -∗ Q tt -∗ owp e E (nvm_dma_unmap h) Q.
Proof.
  iIntros "(%c & _ & W) Q". iApply owp_wand. iSplitL "W"; [by iApply owp_dma_unmap|]. iIntros ([]) "_". done.
Qed.

(** An address for each page of the window. *)
Definition window_pages (bytes : Z) (d : nvm_dma_t) : Prop :=
  dma_page_size d = 2 ^ k /\ Z.of_nat (length (dma_ioaddrs d)) * 2 ^ k = bytes.

Lemma owp_load_window bytes h (Q : nvm_dma_t -> hprop) :
  new_dma k bytes h -∗
  (∀ d, ⌜window_pages bytes d⌝ → new_dma k bytes h -∗ Q d) -∗
  owp e E (load_dma h) Q.
Proof.
  iIntros "(%c & (%Hps & %Hn & %Hb) & W & M) Q". iApply (owp_load_dma with "W"). iIntros "W". iApply "Q".
  - iPureIntro. split; [done|lia].
  - iExists c. iSplit; [done|]. iFrame.
Qed.

Lemma owp_make_aq ctrl ct bytes window (Q : Z * Z -> hprop) :
  ctrl_handle k ctrl ct -∗ new_dma k bytes window -∗
  ((∀ s, ⌜s <> 0⌝ → ctrl_handle k ctrl ct -∗ new_dma k bytes window -∗ Q (s, NULL))
   ∧ (∀ ref, ⌜ref <> NULL /\ 2 * 2 ^ k <= bytes⌝ → ctrl_handle k ctrl ct -∗ new_dma k bytes window -∗ aq_local ctrl ref -∗ Q (0, ref))) -∗
  owp e E (nvm_aq_create ctrl window) Q.
Proof.
  iIntros "C (%c & %Hc & W & M) Q". iApply (owp_aq_create with "C W"); [done..|]. iSplit.
  - iIntros (s Hs) "C W". iDestruct "Q" as "[Q _]". iApply ("Q" with "[] C"); [done|]. iExists c. iSplit; [done|]. iFrame.
  - iIntros (ref Href) "C W A". iDestruct "Q" as "[_ Q]". iApply ("Q" with "[] C [W M] A"); [done|]. iExists c. iSplit; [done|]. iFrame.
Qed.

Lemma owp_map_window ctrl ct v size (Q : Z * Z -> hprop) : maps_pages e ->
  ctrl_handle k ctrl ct -∗
  ((∀ s, ⌜s <> 0⌝ → ctrl_handle k ctrl ct -∗ Q (s, NULL))
   ∧ (∀ h, ⌜h <> NULL⌝ → ctrl_handle k ctrl ct -∗ new_dma k (NVM_PAGE_ALIGN size (2 ^ k)) h -∗ Q (0, h))) -∗
  owp e E (nvm_dma_map_host ctrl v size) Q.
Proof.
  iIntros (Hmap) "(%Hok & C & O) Q". pose proof (proj1 Hok) as Hps. iApply (owp_creates_with _ _ _ _ _ _ (owp_map_host _ _ _ Hpf Hmap ctrl ct v size Hps) with "C").
  iSplit; iIntros (? Hs) "C".
  - iDestruct "Q" as "[Q _]". iApply "Q"; [done|]. iSplit; [done|iFrame].
  - iDestruct "Q" as "[_ Q]". iIntros "W". iApply ("Q" with "[] [C O] W"); [done|]. iSplit; [done|iFrame].
Qed.

Lemma owp_map_given ctrl ct v ps n arr (Q : Z * Z -> hprop) : 0 <= ps -> 0 <= n <= Z.of_nat (length arr) ->
  ctrl_handle k ctrl ct -∗
  ((∀ s, ⌜s <> 0⌝ → ctrl_handle k ctrl ct -∗ Q (s, NULL))
   ∧ (∀ h, ⌜h <> NULL⌝ → ctrl_handle k ctrl ct -∗ new_dma k (u64 (ps * n)) h -∗ Q (0, h))) -∗
  owp e E (nvm_dma_map ctrl v ps n arr) Q.
Proof.
  iIntros (Hp Hn) "(%Hok & C & O) Q". pose proof (proj1 Hok) as Hps. iApply (owp_creates_with _ _ _ _ _ _ (owp_dma_map _ _ _ Hpf ctrl ct v ps n arr Hps Hp Hn) with "C").
  iSplit; iIntros (? Hs) "C".
  - iDestruct "Q" as "[Q _]". iApply "Q"; [done|]. iSplit; [done|iFrame].
  - iDestruct "Q" as "[_ Q]". iIntros "W". iApply ("Q" with "[] [C O] W"); [done|]. iSplit; [done|iFrame].
Qed.

Lemma owp_connect_segment ctrl ct adapter segno size shared (Q : Z * Z -> hprop) :
  ctrl_handle k ctrl ct -∗
  ((∀ s, ⌜s <> 0⌝ → ctrl_handle k ctrl ct -∗ Q (s, NULL))
   ∧ (∀ h, ⌜h <> NULL⌝ → ctrl_handle k ctrl ct -∗ new_dma k (NVM_PAGE_ALIGN size (2 ^ k)) h -∗ Q (0, h))) -∗
  owp e E (nvm_dis_dma_connect ctrl adapter segno size shared) Q.
Proof.
  iIntros "C Q". iApply (owp_creates_with _ _ _ _ _ _ (owp_dis_dma_connect _ _ _ Hpf ctrl ct adapter segno size shared) with "C"). done.
Qed.

(** A segment with a window on it: its SISCI descriptor stays open. *)
Lemma owp_make_segment ctrl ct adapter id size (Q : Z * Z -> hprop) :
  ctrl_handle k ctrl ct -∗
  (residue 0 1 -∗
   (∀ s, ⌜s <> 0⌝ → ctrl_handle k ctrl ct -∗ Q (s, NULL))
   ∧ (∀ h, ⌜h <> NULL⌝ → ctrl_handle k ctrl ct -∗ new_dma k (NVM_PAGE_ALIGN size (2 ^ k)) h -∗ Q (0, h))) -∗
  owp e E (nvm_dis_dma_create ctrl adapter id size) Q.
Proof.
  iIntros "C Q". iApply owp_wand. iSplitL "C"; [by iApply owp_dis_dma_create|].
  iIntros ([s h]) "(C & R & [(%Hs & _)|(%Hs & W)])"; simpl in Hs; destruct Hs as [Hs ->] || destruct Hs as [-> Hs];
    iSpecialize ("Q" with "R"); [iDestruct "Q" as "[Q _]"|iDestruct "Q" as "[_ Q]"].
  - by iApply ("Q" with "[] C").
  - by iApply ("Q" with "[] C W").
Qed.

(** SISCI can be started. *)
Definition sisci_starts : Prop := forall w r, answers e w SCIInitialize r -> r_sci r = SCI_ERR_OK.

Lemma owp_sci_initialize (Q : resp -> hprop) : sisci_starts ->
  (∀ r, ⌜r_sci r = SCI_ERR_OK⌝ → own KSci -∗ Q r) ⊢ owp e E (ext SCIInitialize) Q.
Proof.
  iIntros (Hs) "Q". iApply owp_acquire; [delta_refl|]. iIntros (r (w & Ha)). apply Hs in Ha. rewrite Ha.
  iSplit; iIntros (?); [by iApply "Q"|done].
Qed.

Lemma owp_memalign a n (Q : resp -> hprop) :
  (∀ r, (⌜r_val r = 0 /\ r_val2 r <> NULL⌝ → own (KMem (r_val2 r)) -∗ Q r) ∧ (⌜r_val r <> 0⌝ → Q r)) ⊢
  owp e E (ext (Posix_memalign a n)) Q.
Proof.
  iIntros "Q". iApply owp_acquire; [delta_refl|]. iIntros (r (w & Ha)). iSpecialize ("Q" $! r). iSplit; iIntros (Hz); zbool.
  - iDestruct "Q" as "[Q _]". iApply "Q". iPureIntro. split; [done|]. by eapply pf_memalign.
  - iDestruct "Q" as "[_ Q]". by iApply "Q".
Qed.

(** ** Sizes in pages *)

Lemma pages_aligned n : 0 <= n < 2 ^ 31 -> u64 (n * 2 ^ k) = n * 2 ^ k /\ NVM_PAGE_ALIGN (n * 2 ^ k) (2 ^ k) = n * 2 ^ k.
Proof.
  intros Hn. pose proof (pf_size _ _ Hpf). pose proof (page_bounds _ _ Hpf).
  split; [apply u64_small; nia|]. rewrite page_align_spec; [|lia|nia|nia].
  replace (n * 2 ^ k + 2 ^ k - 1) with (n * 2 ^ k + (2 ^ k - 1)); [|lia].
  rewrite Z.div_add_l; [|lia]. rewrite Z.div_small; lia.
Qed.

(** A segment of three times 4096 bytes: three pages of that size or one larger one. *)
Lemma segment_pages : k <> 13 -> NVM_PAGE_ALIGN (3 * 0x1000) (2 ^ k) = 3 * 2 ^ k \/ NVM_PAGE_ALIGN (3 * 0x1000) (2 ^ k) = 2 ^ k.
Proof.
  intros Hk. pose proof (pf_size _ _ Hpf). pose proof (page_bounds _ _ Hpf).
  rewrite page_align_spec; [|lia|lia|lia]. destruct (decide (k = 12)) as [->|]; [by left|right].
  assert (2 ^ 14 <= 2 ^ k) by (apply Z.pow_le_mono_r; lia).
  replace (3 * 0x1000 + 2 ^ k - 1) with (1 * 2 ^ k + (3 * 0x1000 - 1)); [|lia].
  rewrite Z.div_add_l; [|lia]. rewrite Z.div_small; lia.
Qed.

Lemma one_page n : 0 < n <= 2 ^ k -> NVM_PAGE_ALIGN n (2 ^ k) = 1 * 2 ^ k.
Proof.
  intros Hn. pose proof (pf_size _ _ Hpf). pose proof (page_bounds _ _ Hpf). rewrite page_align_spec; [|lia|lia|lia].
  replace (n + 2 ^ k - 1) with (1 * 2 ^ k + (n - 1)); [|lia]. rewrite Z.div_add_l; [|lia]. rewrite Z.div_small; lia.
Qed.

Lemma small_page : 0x1000 <= 2 ^ k.
Proof. pose proof (pf_size _ _ Hpf). change 0x1000 with (2 ^ 12). apply Z.pow_le_mono_r; lia. Qed.

(** The entries of one queue page. *)
Lemma page_entries : 0 < 2 ^ k / 64 < 2 ^ 26.
Proof.
  pose proof small_page. pose proof (page_bounds _ _ Hpf). split; [apply Z.div_str_pos; lia|].
  apply Z.div_lt_upper_bound; [lia|]. change (64 * 2 ^ 26) with (2 ^ 32). lia.
Qed.

Lemma window_length n d i : window_pages (n * 2 ^ k) d -> Z.of_nat i < n -> (i < length (dma_ioaddrs d))%nat.
Proof. intros [_ Hl] Hi. pose proof (page_bounds _ _ Hpf). nia. Qed.

Lemma owp_pagesize (Q : resp -> hprop) : (∀ r, ⌜r_val r = 2 ^ k⌝ → Q r) ⊢ owp e E (ext Sysconf_pagesize) Q.
Proof.
  iIntros "Q". iApply owp_quiet; [delta_refl|]. iIntros (r (w & Ha)). iApply "Q". iPureIntro. by eapply pf_pages.
Qed.

(** Memory of the program. *)
Lemma owp_free_mem p (Q : unit -> hprop) : p <> NULL -> own (KMem p) -∗ Q tt -∗ owp e E (free_mem p) Q.
Proof.
  iIntros (Hp) "M Q". unfold free_mem. odecide. repeat o_step. done.
Qed.

End programs.

(** Steps of a program whose controller, window and memory are called ["C"], ["W"]
    and ["M"]. *)
Ltac p_step :=
  first
  [ lazymatch goal with
    | |- environments.envs_entails _ (owp _ _ (ext (Posix_memalign _ _)) _) =>
        let m := fresh "m" in iApply owp_memalign; [eassumption|]; iIntros (m); iSplit; [iIntros ([? ?]) "M"|iIntros (?)]
    | |- environments.envs_entails _ (owp _ _ (ext Sysconf_pagesize) _) =>
        let ps := fresh "ps" in let Hps := fresh "Hps" in iApply owp_pagesize; [eassumption|]; iIntros (ps Hps)
    end
  | o_step
  | odecide;
    lazymatch goal with
    | |- environments.envs_entails _ (owp _ _ (nvm_ctrl_free _) _) => iApply (owp_free_ctrl with "C"); [eassumption|]
    | |- environments.envs_entails _ (owp _ _ (nvm_dma_unmap _) _) => iApply (owp_unmap with "W"); [eassumption|]
    | |- environments.envs_entails _ (owp _ _ (free_mem _) _) => iApply (owp_free_mem with "M"); [done|]
    | |- environments.envs_entails _ (owp _ _ (load_ctrl _) _) =>
        let Hp := fresh "Hcps" in iApply (owp_load_handle with "C"); iIntros (Hp) "C"
    | |- environments.envs_entails _ (owp _ _ (load_dma _) _) =>
        let Hw := fresh "Hwin" in iApply (owp_load_window with "W"); iIntros (? Hw) "W"
    end ].

(** ** A platform

    Pages of 4096 bytes; every call succeeds. A page map says that all pages are present,
    and replies of a peer are whole. *)
Definition program_answers (c : call) : resp :=
  match c with
  | Sysconf_pagesize => resp_ok 4096
  | Mutex_lock _ | Fseek_set _ _ => resp_ok 0
  | Posix_memalign _ _ => Resp 0 4096 0 SCI_ERR_OK []
  | Fread _ _ n => Resp n 0 5 SCI_ERR_OK (replicate (Z.to_nat n) (2 ^ 63))
  | SCIWaitForDataInterrupt _ _ _ => Resp 0 0 0 SCI_ERR_OK (replicate 80 0)
  | _ => resp_ok 1
  end.

Lemma const_platform f : f Sysconf_pagesize = resp_ok 4096 -> (forall c, r_val (f c) < 0 -> r_errno (f c) <> 0) ->
  (forall n fd, r_val (f (Mmap n fd)) <> NULL /\ r_val (f (Mmap n fd)) <> MAP_FAILED) ->
  (forall p, r_val (f (Mutex_lock p)) = 0) -> (forall a n, r_val2 (f (Posix_memalign a n)) <> NULL) ->
  (forall c, r_sci (f c) <> SCI_ERR_BUSY) -> platform (const_env f 1) 12.
Proof.
  intros Hp He Hm Hl Ha Hb. split; try done.
  - intros w r ->. by rewrite /= Hp.
  - intros w c r ->. apply He.
  - intros w n fd r ->. apply Hm.
  - intros w q r ->. apply Hl.
  - intros w a n r -> _. apply Ha.
  - apply const_env_busy; [lia|done].
Qed.

Definition program_env : uenv := const_env program_answers 1.

Lemma program_platform : platform program_env 12.
Proof. apply const_platform; try done; intros []; simpl; (lia || done). Qed.

Lemma program_maps : maps_pages program_env.
Proof. split; [by intros ? ? ? ? ? ? ->|by intros ? ? ? ->]. Qed.

Lemma program_sisci : sisci_starts program_env.
Proof. by intros w r ->. Qed.
