(* ===== verification/IdentifyModule.v ===== *)
(** * [examples/identify/module.c]

    The program that identifies a controller through the kernel module. *)
From Stdlib Require Import String Ascii.
From iris.proofmode Require Import proofmode.
From S2P Require Import Prelude Bits Memory Effects Types Runtime Queue DisDevice DisMap Ctrl Dma DisDma Rpc DisRpc Admin CArgs Options Owned Handles SegmentHandles AdminHandles Programs.
#[local] Open Scope list_scope.

(** [command], [completion] and [info] are the addresses of local variables. *)
Section module.
Context `{RpcCallbacks} `{Build} (command completion info : Z).

Definition execute_identify (ctrl window ptr ioaddr : Z) : UM Z :=
  '(status, ref) ← nvm_aq_create ctrl window;
  if negb (status =? 0) then mret 1
  else
    '(status, _) ← nvm_admin_ctrl_info command completion ref info ptr ioaddr;
    let status := if negb (status =? 0) then 1 else status in
    nvm_aq_destroy ref;;
    mret status.

Definition open_fd (dev_id : Z) : UM Z :=
  fd ← ext (Open (lit "/dev/disnvme" ++ print_num 10 dev_id));
  if r_val fd <? 0 then mret (-1) else mret (r_val fd).

(** Returns the exit status. *)
Definition main (opts : list opt) : UM Z :=
  page_size ← ext Sysconf_pagesize;
  match module_parse_args opts with
  | Exit c => mret c
  | Parsed dev_id =>
      fd ← open_fd dev_id;
      if fd <? 0 then mret 1
      else
        '(status, ctrl) ← nvm_ctrl_init fd;
        if negb (status =? 0) then ext (Close fd);; mret 1
        else
          ext (Close fd);;
          c ← load_ctrl ctrl;
          m ← ext (Posix_memalign (ctrl_page_size c) (u64 (3 * r_val page_size)));
          if negb (r_val m =? 0) then nvm_ctrl_free ctrl;; mret 2
          else
            let memory := r_val2 m in
            upd_mem (fun b => memset b memory 0 (Z.to_nat (u64 (3 * r_val page_size))));;
            '(status, window) ← nvm_dma_map_host ctrl memory (u64 (3 * r_val page_size));
            if negb (status =? 0) then free_mem memory;; nvm_ctrl_free ctrl;; mret 1
            else
              w ← load_dma window;
              ioaddr ← ioaddr_at w 2;
              status ← execute_identify ctrl window (NVM_DMA_OFFSET w 2) ioaddr;
              nvm_dma_unmap window;;
              free_mem memory;;
              nvm_ctrl_free ctrl;;
              mret status
  end.

Context (e : uenv) (k : Z).
Hypothesis Hpf : platform e k.

Lemma owp_execute_identify ctrl ct bytes window ptr ioaddr (Q : Z -> hprop) :
  ctrl_handle k ctrl ct -∗ new_dma k bytes window -∗
  (∀ s, ⌜s = 0 \/ s = 1⌝ → ctrl_handle k ctrl ct -∗ new_dma k bytes window -∗ residue 1 0 -∗ Q s) -∗
  owp e arithmetic (execute_identify ctrl window ptr ioaddr) Q.
Proof.
  iIntros "C W Q". unfold execute_identify. o_step. iApply (owp_make_aq with "C W"); [done|]. iSplit.
  - iIntros (s Hs) "C W". repeat o_step. iApply ("Q" with "[] C W"); [auto|]. iApply residue_nothing.
  - iIntros (ref Href) "C W A". repeat o_step. iApply (owp_admin_ctrl_info with "A C"); [done|]. iIntros (s i Hi) "A C".
    o_step. iApply (owp_aq_destroy with "A"); [done|]. iIntros "R". o_step. iApply ("Q" with "[] C W R").
    iPureIntro. destruct (Z.eqb_spec s 0); auto.
Qed.

Hypothesis Hmap : maps_pages e.

Lemma owp_open_fd dev_id (Q : Z -> hprop) :
  (∀ fd, ⌜fd < 0⌝ → Q fd) ∧ (∀ fd, ⌜0 <= fd⌝ → own (KFd fd) -∗ Q fd) ⊢ owp e arithmetic (open_fd dev_id) Q.
Proof.
  iIntros "Q". unfold open_fd. repeat o_step.
  - iDestruct "Q" as "[_ Q]". by iApply "Q".
  - iDestruct "Q" as "[Q _]". by iApply "Q".
Qed.

(** What the program exits with. *)
Definition exits (opts : list opt) (s : Z) : Prop :=
  match module_parse_args opts with Exit c => s = c | Parsed _ => s = 0 \/ s = 1 \/ s = 2 end.

Lemma owp_module_main opts : ⊢ owp e arithmetic (main opts) (fun s => ⌜exits opts s⌝ ∧ residue 1 0).
Proof.
  iStartProof. unfold main, exits. o_step. iApply owp_pagesize; [done|]. iIntros (ps Hps). rewrite Hps.
  destruct (module_parse_args opts) as [c|dev_id]; [o_step; iSplit; [done|iApply residue_nothing]|].
  o_step. iApply owp_open_fd. iSplit; iIntros (fd Hfd); [|iIntros "F"].
  { repeat o_step. iSplit; [auto|iApply residue_nothing]. }
  repeat o_step. o_creates (owp_ctrl_init _ _ _ Hpf _).
  { repeat o_step. iSplit; [auto|iApply residue_nothing]. }
  iSelect (new_ctrl _ _) (fun H => iDestruct H as (ct) "C"). repeat p_step.
  2: iSplit; [auto|iApply residue_nothing].
  iApply (owp_map_window with "C"); [done|done|]. destruct (pages_aligned e k Hpf 3 ltac:(lia)) as [-> ->].
  iSplit; [iIntros (s Hs') "C"|iIntros (h Hh) "C W"].
  { repeat p_step. iSplit; [auto|iApply residue_nothing]. }
  repeat p_step. iApply owp_ioaddr_at; [eapply window_length; [done|done|lia]|]. iIntros (a). o_step.
  iApply (owp_execute_identify with "C W"). iIntros (s Hs') "C W R". repeat p_step. iSplit; [iPureIntro; naive_solver|done].
Qed.
End module.


#[local] Instance sample_build : Build := {| NDEBUG := false; CUDA := false |}.

