(* ===== verification/IdentifyUserspace.v ===== *)
(** * [examples/identify/userspace.c]

    The program that identifies a controller through files of the kernel's device
    tree and looks its own physical addresses up. *)
From Stdlib Require Import String Ascii.
From iris.proofmode Require Import proofmode.
From S2P Require Import Prelude Bits Memory Effects Types Runtime Queue DisDevice DisMap Ctrl Dma DisDma Rpc DisRpc Admin CArgs Options Owned Handles SegmentHandles AdminHandles Programs IdentifyModule.
#[local] Open Scope list_scope.

(** ** Physical addresses of the program's pages *)

(** The loop over the entries of the page map, and the status it returns. *)
Fixpoint translate (page_size : Z) (ioaddrs : list Z) : Z * list Z :=
  match ioaddrs with
  | [] => (0, [])
  | a :: l =>
      if negb (Z.testbit a 63) then (EINVAL, ioaddrs)
      else let '(s, l') := translate page_size l in
           (s, u64 (Z.land a (2 ^ 54 - 1) * page_size) :: l')
  end.

(** The status and what the array [ioaddrs] holds afterwards. *)
Definition lookup_ioaddrs (ptr page_size n_pages : Z) (ioaddrs : list Z) : UM (Z * list Z) :=
  if page_size =? 0 then fail DivByZero
  else
    let offset := u64 (u64 ptr / page_size * 8) in
    fp ← ext (Fopen (lit "/proc/self/pagemap") (lit "r"));
    if r_val fp =? 0 then mret (r_errno fp, ioaddrs)
    else
      s ← ext (Fseek_set (r_val fp) offset);
      if negb (r_val s =? 0) then c ← ext (Fclose (r_val fp)); mret (r_errno c, ioaddrs)
      else
        n ← ext (Fread (r_val fp) 8 n_pages);
        let ioaddrs := take (length ioaddrs) (r_list n) ++ drop (length (r_list n)) ioaddrs in
        if negb (r_val n =? n_pages) then c ← ext (Fclose (r_val fp)); mret (r_errno c, ioaddrs)
        else
          ext (Fclose (r_val fp));;
          mret (translate page_size ioaddrs).

(** ** The device's files *)

Definition pci_enable_device (dev : bdf) : UM Z :=
  fp ← ext (Fopen (device_path dev (lit "/enable")) (lit "w"));
  if r_val fp =? 0 then mret (r_errno fp)
  else
    ext (Fwrite (r_val fp) [code "1"%char]);;
    ext (Fclose (r_val fp));;
    mret 0.

(** [command] is what the variable on the stack happens to hold. *)
Definition pci_set_bus_master (command : Z) (dev : bdf) : UM Z :=
  fp ← ext (Fopen (device_path dev (lit "/config")) (lit "r+"));
  if r_val fp =? 0 then mret (r_errno fp)
  else
    ext (Fseek_set (r_val fp) 4);;
    n ← ext (Fread (r_val fp) 2 1);
    let command := if r_val n =? 1 then hd 0 (r_list n) else command in
    let command := Z.lor command (Z.shiftl 1 2) in
    ext (Fseek_set (r_val fp) 4);;
    ext (Fwrite (r_val fp) (le_bytes 2 command));;
    ext (Fclose (r_val fp));;
    mret 0.

Definition pci_open_bar (dev : bdf) (bar : Z) : UM Z :=
  fd ← ext (Open (device_path dev (lit "/resource" ++ print_num 10 bar)));
  mret (r_val fd).

(** [command], [completion] and [info] are the addresses of local variables;
    [stack_ioaddrs] and [stack_command] are what uninitialised ones hold. *)
Section userspace.
Context `{RpcCallbacks} `{Build} (command completion info : Z) (stack_ioaddrs : list Z) (stack_command : Z).

Definition execute_identify (ctrl queues ptr ioaddr : Z) : UM Z :=
  '(status, ref) ← nvm_aq_create ctrl queues;
  if negb (status =? 0) then mret 1
  else
    '(status, _) ← nvm_admin_ctrl_info command completion ref info ptr ioaddr;
    let status := if negb (status =? 0) then 1 else status in
    nvm_aq_destroy ref;;
    mret status.

Definition identify_ctrl (ctrl : Z) : UM Z :=
  page_size ← ext Sysconf_pagesize;
  if r_val page_size =? -1 then mret 1
  else
    c ← load_ctrl ctrl;
    let size := u64 (3 * r_val page_size) in
    m ← ext (Posix_memalign (ctrl_page_size c) size);
    if negb (r_val m =? 0) then mret 1
    else
      let memory := r_val2 m in
      l ← ext (Mlock memory size);
      if negb (r_val l =? 0) then free_mem memory;; mret 1
      else
        '(status, ioaddrs) ← lookup_ioaddrs memory (r_val page_size) 3 stack_ioaddrs;
        status ← (if negb (status =? 0) then
                    ext (Munlock memory size);;
                    free_mem memory;;
                    mret status
                  else
                    '(status, window) ← nvm_dma_map ctrl memory (u64 (r_val page_size)) 3 ioaddrs;
                    if negb (status =? 0) then mret 2
                    else
                      ioaddr ← (match ioaddrs !! 2%nat with Some a => mret a | None => fail BadPointer end);
                      status ← execute_identify ctrl window (memory + u64 (2 * ctrl_page_size c)) ioaddr;
                      nvm_dma_unmap window;;
                      mret status);
        ext (Munlock memory size);;
        free_mem memory;;
        mret status.

(** Returns the exit status. *)
Definition main (is_dir : cstring -> bool) (opts : list opt) : UM Z :=
  match userspace_parse_args is_dir opts with
  | Exit c => mret c
  | Parsed device =>
      status ← pci_enable_device device;
      if negb (status =? 0) then mret 1
      else
        status ← pci_set_bus_master stack_command device;
        if negb (status =? 0) then mret 2
        else
          fd ← pci_open_bar device 0;
          if fd <? 0 then mret 3
          else
            r ← ext (Mmap NVM_CTRL_MEM_MINSIZE fd);
            if (r_val r =? NULL) || (r_val r =? MAP_FAILED) then ext (Close fd);; mret 3
            else
              let ctrl_registers := r_val r in
              '(status, ctrl) ← nvm_raw_ctrl_init ctrl_registers NVM_CTRL_MEM_MINSIZE;
              if negb (status =? 0) then
                ext (Munmap ctrl_registers NVM_CTRL_MEM_MINSIZE);; ext (Close fd);; mret 4
              else
                status ← identify_ctrl ctrl;
                nvm_ctrl_free ctrl;;
                ext (Munmap ctrl_registers NVM_CTRL_MEM_MINSIZE);;
                ext (Close fd);;
                mret status
  end.

Context (e : uenv) (k : Z).
Hypothesis Hpf : platform e k.

Lemma owp_userspace_identify ctrl ct bytes window ptr ioaddr (Q : Z -> hprop) :
  ctrl_handle k ctrl ct -∗ new_dma k bytes window -∗
  (∀ s, ⌜s = 0 \/ s = 1⌝ → ctrl_handle k ctrl ct -∗ new_dma k bytes window -∗ residue 1 0 -∗ Q s) -∗
  owp e arithmetic (execute_identify ctrl window ptr ioaddr) Q.
Proof. exact (IdentifyModule.owp_execute_identify command completion info e k Hpf ctrl ct bytes window ptr ioaddr Q). Qed.

Lemma owp_pci_enable_device dev (Q : Z -> hprop) : (∀ s, Q s) ⊢ owp e arithmetic (pci_enable_device dev) Q.
Proof. iIntros "Q". unfold pci_enable_device. repeat o_step; iApply "Q". Qed.

Lemma owp_pci_set_bus_master c dev (Q : Z -> hprop) : (∀ s, Q s) ⊢ owp e arithmetic (pci_set_bus_master c dev) Q.
Proof. iIntros "Q". unfold pci_set_bus_master. repeat o_step; iApply "Q". Qed.

Lemma owp_pci_open_bar dev bar (Q : Z -> hprop) :
  (∀ fd, ⌜fd < 0⌝ → Q fd) ∧ (∀ fd, ⌜0 <= fd⌝ → own (KFd fd) -∗ Q fd) ⊢ owp e arithmetic (pci_open_bar dev bar) Q.
Proof.
  iIntros "Q". unfold pci_open_bar. repeat o_step.
  - iDestruct "Q" as "[_ Q]". by iApply "Q".
  - iDestruct "Q" as "[Q _]". by iApply "Q".
Qed.

Lemma translate_length ps l : length (snd (translate ps l)) = length l.
Proof.
  induction l as [|a l IH]; [done|]. cbn [translate]. destruct (Z.testbit a 63); cbn [negb]; [|done].
  destruct (translate ps l). simpl in *. by rewrite IH.
Qed.

Lemma translate_present ps l : Forall (fun a => Z.testbit a 63 = true) l -> fst (translate ps l) = 0.
Proof. induction 1 as [|a l Ha Hl IH]; [done|]. cbn [translate]. rewrite Ha /=. by destruct (translate ps l). Qed.

(** The page map can be read, and pages locked in memory are present. *)
Record pagemap (e : uenv) : Prop := {
  pm_open : forall w mode r, answers e w (Fopen (lit "/proc/self/pagemap") mode) r -> r_val r <> 0;
  pm_seek : forall w fp off r, answers e w (Fseek_set fp off) r -> r_val r = 0;
  pm_read : forall w fp n r, answers e w (Fread fp 8 n) r -> r_val r = n;
  pm_list : forall w fp n r, 0 <= n -> answers e w (Fread fp 8 n) r ->
    Z.of_nat (length (r_list r)) = n /\ Forall (fun a => Z.testbit a 63 = true) (r_list r);
}.
Hypothesis Hpm : pagemap e.
Hypothesis Hstack : length stack_ioaddrs = 3%nat.

Lemma owp_lookup_ioaddrs ptr ps (Q : Z * list Z -> hprop) : ps <> 0 ->
  (∀ l, ⌜length l = 3%nat⌝ → Q (0, l)) ⊢ owp e arithmetic (lookup_ioaddrs ptr ps 3 stack_ioaddrs) Q.
Proof.
  iIntros (Hps) "Q". unfold lookup_ioaddrs. odecide.
  repeat o_step.
  all: repeat match goal with
  | H : exists w, answers e w (Fopen _ _) _ |- _ => destruct H as [? H]; apply (pm_open _ Hpm) in H; try done
  | H : exists w, answers e w (Fseek_set _ _) _ |- _ => destruct H as [? H]; apply (pm_seek _ Hpm) in H; try done
  | H : exists w, answers e w (Fread _ _ _) _ |- _ =>
      destruct H as [? H]; pose proof (pm_read _ Hpm _ _ _ _ H); apply (pm_list _ Hpm) in H as [? ?]; [|lia]; try done
  end.
  assert (length (r_list r1) = 3%nat) as Hl by lia.
  rewrite Hstack Hl take_ge ?Hl //. rewrite drop_ge ?Hstack // app_nil_r.
  pose proof (translate_length ps (r_list r1)). pose proof (translate_present ps (r_list r1) ltac:(done)).
  destruct (translate ps (r_list r1)) as [s l]. simpl in *. subst s. iApply "Q". iPureIntro. congruence.
Qed.

Lemma owp_identify_ctrl ctrl ct (Q : Z -> hprop) :
  ctrl_handle k ctrl ct -∗ (∀ s, ⌜s = 0 \/ s = 1 \/ s = 2⌝ → ctrl_handle k ctrl ct -∗ residue 1 0 -∗ Q s) -∗
  owp e arithmetic (identify_ctrl ctrl) Q.
Proof.
  iIntros "C Q". unfold identify_ctrl. pose proof (page_bounds _ _ Hpf).
  o_step. iApply owp_pagesize; [done|]. iIntros (ps Hps). rewrite Hps.
  repeat p_step.
  2,3: iApply ("Q" with "[] C"); [auto|iApply residue_nothing].
  iApply owp_lookup_ioaddrs; [lia|]. iIntros (l Hl). repeat o_step.
  iApply (owp_map_given with "C"); [done|apply u64_bound|rewrite Hl; lia|].
  iSplit; [iIntros (s Hs) "C"|iIntros (h Hh) "C W"].
  { repeat p_step. iApply ("Q" with "[] C"); [auto|iApply residue_nothing]. }
  destruct (lookup_lt_is_Some_2 l 2) as [a Ha]; [lia|]. repeat o_step. rewrite Ha. repeat o_step.
  iApply (owp_userspace_identify with "C W"). iIntros (s Hs) "C W R". repeat p_step. iApply ("Q" with "[] C R"). iPureIntro. naive_solver.
Qed.

(** What the program exits with. *)
Definition exits (is_dir : cstring -> bool) (opts : list opt) (s : Z) : Prop :=
  match userspace_parse_args is_dir opts with Exit c => s = c | Parsed _ => 0 <= s <= 4 end.

Ltac early := iSplit; [iPureIntro; lia|iApply residue_nothing].

Lemma owp_userspace_main is_dir opts : ⊢ owp e arithmetic (main is_dir opts) (fun s => ⌜exits is_dir opts s⌝ ∧ residue 1 0).
Proof.
  iStartProof. unfold main, exits. destruct (userspace_parse_args is_dir opts) as [c|dev]; [o_step; iSplit; [done|iApply residue_nothing]|].
  o_step. iApply owp_pci_enable_device. iIntros (s). repeat o_step; [early|].
  iApply owp_pci_set_bus_master. iIntros (s'). repeat o_step; [early|].
  iApply owp_pci_open_bar. iSplit; iIntros (fd Hfd); [|iIntros "F"]; repeat o_step; [early|..].
  all: match goal with H : exists w, answers e w (Mmap _ _) _ |- _ => destruct H as [? H]; destruct (pf_mmap _ _ Hpf _ _ _ _ H) end.
  all: rewrite -> ?orb_true_iff, ?orb_false_iff in *; zbool; try (exfalso; naive_solver lia).
  o_creates (owp_raw_ctrl_init _ _ _ Hpf _ _); [repeat o_step; early|].
  iSelect (∃ ct, _)%I (fun H => iDestruct H as (ct) "[_ C]"). repeat o_step.
  iApply (owp_identify_ctrl with "C"). iIntros (s Hs') "C R". repeat p_step. iSplit; [iPureIntro; lia|done].
Qed.
End userspace.


(** C37: when the page map cannot be opened, everything [identify_ctrl] has allocated is
    given back twice: it either fails before, and is clean, or ends with an error and
    has unlocked and freed once more than it has allocated. *)
Theorem identify_ctrl_frees_twice `{RpcCallbacks} `{Build} command completion info stack e k ctrl ct w :
  platform e k ->
  (forall w mode r, answers e w (Fopen (lit "/proc/self/pagemap") mode) r -> r_val r = 0 /\ r_errno r <> 0) ->
  heap_ok w -> objs w !! ctrl = Some (OController ct) ->
  wp e (identify_ctrl command completion info stack ctrl) w (fun s w' => s = 1 /\ clean w w'
    \/ s <> 0 /\ exists p, moved w w' (fun κ => - one (KMem p) κ - one (KMlock p) κ)).
Proof.
  intros Hpf Hopen Hok Hct. unfold identify_ctrl, lookup_ioaddrs, free_mem. pose proof (page_bounds _ _ Hpf).
  do 3 heap_step. { heap_step. left. split; [done|solve_clean]. }
  heap_step. eapply wp_load_ctrl; [done|solve_lookup|]. repeat heap_step.
  all: path_simp; zbool; repeat match goal with
    | H : answers _ _ (Fopen _ _) _ |- _ => apply Hopen in H as [? ?]
    | H : answers _ _ Sysconf_pagesize _ |- _ => apply (pf_pages _ _ Hpf) in H
    | H : answers _ _ (Posix_memalign _ _) ?r, E : r_val ?r = 0 |- _ => apply (pf_memalign _ _ Hpf) in H; [|exact E]
    end; zbool; try (exfalso; first [congruence|lia]).
  all: first [left; split; [done|solve_clean] | right; split; [done|]; eexists (r_val2 r0); solve_moved].
Qed.

(** ** Witnesses *)

#[local] Instance sample_build : Build := {| NDEBUG := false; CUDA := false |}.

Lemma program_pagemap : pagemap program_env.
Proof.
  split; intros w; [by intros ? ? ->|by intros ? ? ? ->|by intros ? ? ? ->|].
  intros ? n ? Hn ->. split; [rewrite /= length_replicate; lia|]. by apply Forall_replicate.
Qed.


(** Files cannot be opened. *)
Definition closed_env : uenv := const_env (fun c => match c with
  | Fopen _ _ => Resp 0 0 2 SCI_ERR_OK []
  | c => program_answers c
  end) 1.

Definition raw_world : uworld :=
  World empty (Heap {[1 := OController (Controller DEVICE_TYPE_UNKNOWN NULL 0 (Ctrl 4096 1 1 1 8192 1))]} 2) [].

Lemma raw_world_ok : heap_ok raw_world.
Proof. split; [done|]. intros p o. cbn. intros [<- _]%lookup_singleton_Some. lia. Qed.

Lemma identify_ctrl_frees_twice_witness :
  wp closed_env (identify_ctrl 0 0 0 [0; 0; 0] 1) raw_world (fun s w' => s = 1 /\ clean raw_world w'
    \/ s <> 0 /\ exists p, moved raw_world w' (fun κ => - one (KMem p) κ - one (KMlock p) κ)).
Proof.
  apply (identify_ctrl_frees_twice 0 0 0 [0; 0; 0] closed_env 12 1 _ raw_world) with (4 := eq_refl).
  - apply const_platform; try done; intros []; simpl; (lia || done).
  - by intros w mode r ->.
  - exact raw_world_ok.
Defined.
