(* ===== verification/IdentifySmartio.v ===== *)
(** * [examples/identify/smartio.c]

    The program that identifies a borrowed controller over the network. *)
From Stdlib Require Import String Ascii.
From iris.proofmode Require Import proofmode.
From S2P Require Import Prelude Bits Memory Effects Types Runtime Queue DisDevice DisMap Ctrl Dma DisDma Rpc DisRpc Admin CArgs Options Owned Handles SegmentHandles AdminHandles Programs.
#[local] Open Scope list_scope.

(** [command], [completion] and [info] are the addresses of local variables. *)
Section smartio.
Context `{RpcCallbacks} `{Build} (command completion info : Z).

(** Returns the exit status. *)
Definition main (opts : list opt) : UM Z :=
  match smartio_parse_args opts with
  | Exit c => mret c
  | Parsed args =>
      ext SCIInitialize;;
      '(status, ctrl) ← nvm_dis_ctrl_init (sa_dev_id args) (sa_dis_adapter args);
      if negb (status =? 0) then mret status
      else
        '(status, window) ← nvm_dis_dma_create ctrl (sa_dis_adapter args) (sa_segment_id args) (3 * 0x1000);
        if negb (status =? 0) then nvm_ctrl_free ctrl;; mret status
        else
          w ← load_dma window;
          upd_mem (fun m => memset m (dma_vaddr w) 0 (Z.to_nat (3 * 0x1000)));;
          '(status, aq) ← nvm_aq_create ctrl window;
          if negb (status =? 0) then nvm_dma_unmap window;; nvm_ctrl_free ctrl;; mret status
          else
            nvm_admin_get_num_queues command completion aq;;
            w ← load_dma window;
            ioaddr ← ioaddr_at w 2;
            '(status, _) ← nvm_admin_ctrl_info command completion aq info (NVM_DMA_OFFSET w 2) ioaddr;
            nvm_aq_destroy aq;;
            nvm_dma_unmap window;;
            nvm_ctrl_free ctrl;;
            ext SCITerminate;;
            mret status
  end.

Context (e : uenv) (k : Z).
Hypothesis Hpf : platform e k.

Lemma owp_smartio_main opts : sisci_starts e -> k <> 13 -> ⊢ owp e arithmetic (main opts) (fun _ => residue 1 2).
Proof.
  iStartProof. iIntros (Hsci Hk). unfold main. destruct (smartio_parse_args opts) as [c|args]; [o_step; iApply residue_nothing|].
  o_step. iApply owp_sci_initialize; [done|]. iIntros (r Hr) "S". repeat o_step.
  o_creates (owp_dis_ctrl_init _ _ _ Hpf _ _).
  { repeat o_step. iDestruct (residue_sci with "S") as "S". iApply (residue_mono with "S"); lia. }
  iSelect (new_ctrl _ _) (fun H => iDestruct H as (ct) "C"). repeat p_step.
  iApply (owp_make_segment with "C"); [done|]. iIntros "R". iSplit; [iIntros (s Hs') "C"|iIntros (h Hh) "C W"].
  { repeat p_step. iDestruct (residue_sci with "S") as "S". iApply (residue_join with "S R"); lia. }
  repeat p_step. iApply (owp_make_aq with "C W"); [done|]. iSplit; [iIntros (s Hs') "C W"|iIntros (aq [Haq0 Haq]) "C W A"].
  { repeat p_step. iDestruct (residue_sci with "S") as "S". iApply (residue_join with "S R"); lia. }
  repeat p_step. iApply (owp_admin_get_num_queues with "A"). iIntros (s n Hn) "A". repeat p_step.
  iApply owp_ioaddr_at.
  { destruct (segment_pages _ _ Hpf Hk) as [Hp|Hp]; rewrite Hp in Hwin0 Haq; [eapply window_length; [done|exact Hwin0|lia]|]. pose proof (page_bounds _ _ Hpf). lia. }
  iIntros (a). o_step. iApply (owp_admin_ctrl_info with "A C"); [done|]. iIntros (s' i Hi) "A C".
  o_step. iApply (owp_aq_destroy with "A"); [done|]. iIntros "R'". repeat p_step. iApply (residue_join with "R R'"); lia.
Qed.
End smartio.

(** Unless pages have 8 KiB, the program never accesses memory it does not own,
    whatever the device and SISCI do, and leaves behind at most a descriptor of the admin
    queues and two resources of SISCI: the virtual device of its segment, and the
    library itself when it ends early. *)
Theorem smartio_main_clean `{RpcCallbacks} `{Build} command completion info e k opts w :
  platform e k -> sisci_starts e -> k <> 13 -> heap_ok w ->
  wpf e arithmetic (main command completion info opts) w (fun _ w' => left_over 1 2 w w').
Proof. intros Hpf Hs Hk. by apply owp_leaves, owp_smartio_main with k. Qed.

#[local] Instance sample_build : Build := {| NDEBUG := false; CUDA := false |}.

Lemma smartio_main_clean_witness :
  wpf program_env arithmetic (main 0 0 0 [Opt (chr "c") (lit "1")]) empty_world (fun _ w' => left_over 1 2 empty_world w').
Proof.
  exact (smartio_main_clean 0 0 0 program_env 12 _ _ program_platform program_sisci ltac:(done) empty_heap_ok).
Defined.
