(* ===== verification/Segment.v ===== *)
(** * Segments of the RPC programs

    [examples/rpc/segment.c] and the identifiers of [examples/rpc/util.c]: a local
    segment with a window of the controller on it, and its owned assertion. *)
From iris.proofmode Require Import proofmode.
From stdpp Require Import gmultiset.
From S2P Require Import Prelude Bits Memory Effects Types Runtime Queue DisDevice DisMap Ctrl Dma DisDma Owned Handles SegmentHandles AdminHandles Programs.

Record segment := Segment { seg_id : Z; seg_sd : Z; seg_segment : Z; seg_size : Z }.

Section segment.
Context `{Build}.

Definition segment_create (segment_id size : Z) : UM (Z * option segment) :=
  d ← ext SCIOpen;
  if negb (is_ok (r_sci d)) then mret (EIO, None)
  else
    s ← ext (SCICreateSegment (r_val d) segment_id size []);
    if negb (is_ok (r_sci s)) then
      ext (SCIClose (r_val d));;
      match r_sci s with
      | SCI_ERR_SEGMENTID_USED => mret (EEXIST, None)
      | _ => mret (ENOSPC, None)
      end
    else mret (0, Some (Segment segment_id (r_val d) (r_val s) size)).

Definition segment_remove (segment : segment) : UM unit :=
  retry (SCIRemoveSegment (seg_segment segment));;
  ext (SCIClose (seg_sd segment));;
  mret tt.

Definition dma_create (ctrl : Z) (segment : segment) (adapter : Z) : UM (Z * Z) :=
  p ← ext (SCIPrepareSegment (seg_segment segment) adapter);
  if negb (is_ok (r_sci p)) then mret (ENOSPC, NULL)
  else
    a ← ext (SCISetSegmentAvailable (seg_segment segment) adapter);
    if negb (is_ok (r_sci a)) then mret (EIO, NULL)
    else
      '(status, window) ← nvm_dis_dma_map_local ctrl adapter (seg_segment segment) (seg_size segment) true;
      if negb (status =? 0) then
        retry (SCISetSegmentUnavailable (seg_segment segment) adapter);;
        mret (status, NULL)
      else mret (0, window).

Definition dma_remove (window : Z) (segment : segment) (adapter : Z) : UM unit :=
  nvm_dma_unmap window;;
  retry (SCISetSegmentUnavailable (seg_segment segment) adapter);;
  mret tt.

(** The static [unique_counter] before and after the call. *)
Definition random_id (unique_counter : Z) : UM (Z * Z) :=
  t ← ext Time;
  ext (Srand (u32 (r_val t)));;
  g ← ext Gettimeofday;
  (if r_val g =? 0 then ext (Srand (u32 (r_val2 g)));; mret tt else mret tt);;
  r ← ext Rand;
  mret (Z.land (r_val r + unique_counter) 0xffff, u16 (unique_counter + 1)).

(** ** What a segment holds *)

Definition segment_keys (s : segment) : gmultiset key := {[+ KSd (seg_sd s); KLocalSegment (seg_segment s) +]}.

Context (e : uenv) (k : Z).
Hypothesis Hpf : platform e k.
#[local] Abbreviation E := arithmetic.

Lemma owp_segment_create id size (Q : Z * option segment -> hprop) :
  (∀ s, ⌜s <> 0⌝ → Q (s, None)) ∧ (∀ sg, ⌜seg_size sg = size⌝ → acquired (segment_keys sg) -∗ Q (0, Some sg)) ⊢
  owp e E (segment_create id size) Q.
Proof.
  iIntros "Q". unfold segment_create. repeat o_step.
  - iDestruct "Q" as "[_ Q]". iApply "Q"; [done|]. iApply acquired_disj_union. iFrame.
  - destruct (r_sci r0); iApply owp_ret; iDestruct "Q" as "[Q _]"; by iApply "Q".
  - iDestruct "Q" as "[Q _]". by iApply "Q".
Qed.

Lemma owp_unavailable s a (Q : sci_error -> hprop) : (∀ r, Q r) ⊢ owp e E (retry (SCISetSegmentUnavailable s a)) Q.
Proof.
  iIntros "Q". iApply (owp_gives_back _ _ _ _ ∅ with "[] Q").
  - apply retry_moves_nothing; [eapply pf_busy; eassumption|]. intros r κ. by destruct (negb _).
  - intros κ. by rewrite multiplicity_empty.
  - by iApply acquired_empty.
Qed.

Lemma owp_segment_remove s (Q : unit -> hprop) : acquired (segment_keys s) -∗ Q tt -∗ owp e E (segment_remove s) Q.
Proof. iIntros "[? ?] Q". unfold segment_remove. repeat o_step. done. Qed.

Lemma owp_random_id c (Q : Z * Z -> hprop) : (∀ i c', Q (i, c')) ⊢ owp e E (random_id c) Q.
Proof. iIntros "Q". unfold random_id. repeat o_step; iApply "Q". Qed.

Lemma owp_seg_dma_create ctrl ct sg adapter (Q : Z * Z -> hprop) :
  ctrl_handle k ctrl ct -∗
  ((∀ s, ⌜s <> 0⌝ → ctrl_handle k ctrl ct -∗ Q (s, NULL))
   ∧ (∀ h, ⌜h <> NULL⌝ → ctrl_handle k ctrl ct -∗ new_dma k (NVM_PAGE_ALIGN (seg_size sg) (2 ^ k)) h -∗ Q (0, h))) -∗
  owp e E (dma_create ctrl sg adapter) Q.
Proof.
  iIntros "C Q". unfold dma_create. repeat o_step.
  1,2: iDestruct "Q" as "[Q _]"; iApply ("Q" with "[] C"); done.
  iApply (owp_creates_with _ _ _ _ _ _ (owp_dis_dma_map_local _ _ _ Hpf ctrl ct _ _ _ _) with "C"). iSplit; iIntros (? Hs) "C".
  - repeat o_step. iApply owp_unavailable. iIntros (?). o_step. iDestruct "Q" as "[Q _]". by iApply ("Q" with "[] C").
  - iIntros "W". repeat o_step. iDestruct "Q" as "[_ Q]". by iApply ("Q" with "[] C W").
Qed.

Lemma owp_seg_dma_remove h sg adapter bytes (Q : unit -> hprop) :
  new_dma k bytes h -∗ Q tt -∗ owp e E (dma_remove h sg adapter) Q.
Proof.
  iIntros "W Q". unfold dma_remove. p_step. p_step. o_step. iApply owp_unavailable. iIntros (?). by o_step.
Qed.
End segment.
