(* ===== verification/BindingHandles.v ===== *)
(** * Remote references and servers as owned assertions

    Both ends of the RPC over SISCI in the logic of [Owned]: a reference bound to a
    remote queue pair, and a local reference that serves remote clients through a
    list of handles. *)
From iris.proofmode Require Import proofmode.
From stdpp Require Import gmultiset.
From S2P Require Import Prelude Bits Memory Effects Types Runtime Command Error Queue DisDevice DisMap DisInterrupt Ctrl Dma DisDma Rpc DisRpc Admin Owned Handles SegmentHandles AdminHandles Programs.

Definition local_intr_keys (i : local_intr) : gmultiset key := {[+ KSd (li_sd i); KLocalIntr (li_intr i) +]}.
Definition remote_intr_keys (i : remote_intr) : gmultiset key := {[+ KSd (ri_sd i); KRemoteIntr (ri_intr i) +]}.

Lemma local_intr_owns_keys i κ : local_intr_owns i κ = Z.of_nat (multiplicity κ (local_intr_keys i)).
Proof. unfold local_intr_owns, local_intr_keys. solve_keys. Qed.
Lemma remote_intr_owns_keys i κ : remote_intr_owns i κ = Z.of_nat (multiplicity κ (remote_intr_keys i)).
Proof. unfold remote_intr_owns, remote_intr_keys. solve_keys. Qed.
#[export] Hint Resolve local_intr_owns_keys remote_intr_owns_keys : keys.

(** The peer sends whole replies. *)
Definition whole_replies (e : uenv) : Prop := forall w i n t r,
  answers e w (SCIWaitForDataInterrupt i n t) r -> r_sci r = SCI_ERR_OK -> (80 <= length (r_list r))%nat.

Section binding.
Context `{Build} (e : uenv) (k : Z).
Hypothesis Hpf : platform e k.
Hypothesis Hdebug : NDEBUG = false.
Hypothesis Hpeer : whole_replies e.
#[local] Abbreviation E := arithmetic.

(** ** The client's reference *)

Definition binding_holds (p : Z) : hprop :=
  ∃ b, p ↦ OBinding b ∗ acquired (device_memory_keys (b_dmem b)) ∗ acquired (local_intr_keys (b_lintr b))
    ∗ acquired (remote_intr_keys (b_rintr b)).

Definition aq_remote (ctrl ref : Z) : hprop :=
  ∃ r, ⌜ar_ctrl r = ctrl /\ ar_handles r = NULL /\ ar_stub r = Some STUB_remote_command
         /\ ar_release r = Some DEL_remove_binding⌝ ∧ (ref ↦ OAqRef r ∗ binding_holds (ar_data r)).

Lemma owp_intr_wait i n t (Q : Z * list Z -> hprop) :
  (∀ s l, ⌜s = 0 -> (80 <= length l)%nat⌝ → Q (s, l)) ⊢ owp e E (_nvm_local_intr_wait i n t) Q.
Proof.
  iIntros "Q". unfold _nvm_local_intr_wait. ostep. iApply owp_quiet; [delta_refl|]. iIntros (r [w Ha]).
  destruct (r_sci r) eqn:Hs; (iApply owp_ret; iApply "Q"; iPureIntro; try done; intros _; by eapply Hpeer).
Qed.

Ltac b_step :=
  first
  [ lazymatch goal with
    | |- environments.envs_entails _ (owp _ _ (_nvm_local_intr_wait _ _ _) _) => odecide; iApply owp_intr_wait; iIntros (? ? ?)
    end
  | r_step ]; cbn beta iota.

Lemma owp_remote_command p cmd cpl (Q : Z -> hprop) :
  binding_holds p -∗ (∀ s, binding_holds p -∗ Q s) -∗ owp e E (remote_command p cmd cpl) Q.
Proof.
  iIntros "(%b & P & K) Q". unfold remote_command, ld_mem. repeat b_step.
  all: first [by iApply "Q"; iExists b; iFrame | exfalso; rewrite ->?Nat.ltb_lt in *; lia].
Qed.

Lemma remote_reference ctrl ref : Reference e ref ctrl (aq_remote ctrl ref).
Proof.
  split.
  - intros cmd cpl. iIntros "(%r & (%Hc & %Hh & %Hs & %Hr) & R & B)". unfold nvm_raw_rpc. repeat b_step. rewrite Hs /=.
    b_step. iApply (owp_remote_command with "B"). iIntros (s) "B". repeat b_step. iExists r. by iFrame.
  - iIntros "(%r & (%Hc & %Hh & %Hs & %Hr) & R & A)". iApply (owp_nonnull with "R"). iIntros (Hn) "R".
    unfold nvm_ctrl_from_aq_ref. repeat b_step. iSplit; [done|]. iExists r. by iFrame.
Qed.

(** ** Making and removing a binding *)

Lemma owp_try_bind_loop n i p mapping b (Q : Z -> hprop) :
  p ↦ OBinding b -∗ acquired (va_map_keys mapping) -∗
  (∀ s b', ⌜b_dmem b' = b_dmem b /\ b_lintr b' = b_lintr b⌝ → p ↦ OBinding b' -∗
     (⌜s = 0⌝ → acquired (remote_intr_keys (b_rintr b')) -∗ Q s) ∧ (⌜s <> 0⌝ → Q s)) -∗
  owp e E (try_bind_loop n i p mapping) Q.
Proof.
  iInduction n as [|n] "IH" forall (i b); iIntros "P M Q"; simpl try_bind_loop.
  - repeat b_step. iDestruct ("Q" with "[] P") as "[_ Q]"; [done|]. by iApply "Q".
  - unfold set_rintr. repeat b_step.
    + iApply ("IH" with "P M Q").
    + iDestruct ("Q" with "[] P") as "[Q _]"; [done|]. by iApply "Q".
    + iApply ("IH" with "P M"). iIntros (s' b' Hb') "P". by iApply ("Q" with "[] P").
Qed.

Lemma owp_try_bind n p b (Q : Z -> hprop) :
  p ↦ OBinding b -∗
  (∀ s b', ⌜b_dmem b' = b_dmem b /\ b_lintr b' = b_lintr b⌝ → p ↦ OBinding b' -∗
     (⌜s = 0⌝ → acquired (remote_intr_keys (b_rintr b')) -∗ Q s) ∧ (⌜s <> 0⌝ → Q s)) -∗
  owp e E (try_bind p n) Q.
Proof.
  iIntros "P Q". unfold try_bind. repeat b_step.
  - iDestruct ("Q" with "[] P") as "[_ Q]"; [done|]. by iApply "Q".
  - iApply (owp_try_bind_loop with "P [$] Q").
Qed.

Lemma owp_create_binding dev adapter : ⊢ owp e E (create_binding dev adapter) (creates binding_holds).
Proof.
  iStartProof. unfold create_binding, set_b_dmem, set_lintr. repeat b_step; try o_finish.
  iRename select (p ↦ _)%I into "P". iApply (owp_try_bind with "P"). iIntros (s b [Hd Hl]) "P". simpl in Hd, Hl.
  rewrite -Hd -Hl. iSplit; iIntros (Hs'); [iIntros "R"|]; repeat b_step; try o_finish.
  iExists b. iFrame.
Qed.

Lemma owp_remove_binding p (Q : unit -> hprop) : binding_holds p -∗ Q tt -∗ owp e E (remove_binding p) Q.
Proof. iIntros "(%b & P & D & L & R) Q". unfold remove_binding. repeat b_step. done. Qed.

(** The controller is only looked at. *)
Lemma owp_rpc_bind ctrl ct adapter (Q : Z * Z -> hprop) :
  ctrl_handle k ctrl ct -∗
  ((∀ s, ⌜s <> 0⌝ → ctrl_handle k ctrl ct -∗ Q (s, NULL))
   ∧ (∀ ref, ⌜ref <> NULL⌝ → ctrl_handle k ctrl ct -∗ aq_remote ctrl ref -∗ Q (0, ref))) -∗
  owp e E (nvm_dis_rpc_bind ctrl adapter) Q.
Proof.
  iIntros "C Q". unfold nvm_dis_rpc_bind, _nvm_ref_get. b_step. iApply (owp_device_from_ctrl with "C"). iIntros ([d|] Hd) "C".
  2: { repeat b_step. iDestruct "Q" as "[Q _]". by iApply ("Q" with "[] C"). }
  repeat b_step. 1,2: iDestruct "Q" as "[Q _]"; by iApply ("Q" with "[] C").
  iRename select (p ↦ _)%I into "R". o_creates (owp_create_binding _ _).
  - b_step. iApply (owp_ref_put_unbound with "R"); [done..|]. repeat b_step. iDestruct "Q" as "[Q _]". by iApply ("Q" with "[] C").
  - iRename select (binding_holds _) into "B". unfold _nvm_rpc_bind, set_binding. repeat b_step.
    iDestruct "Q" as "[_ Q]". iApply ("Q" with "[] C"); [done|]. iExists _. iFrame. done.
Qed.

Lemma owp_rpc_unbind ctrl ref (Q : unit -> hprop) : aq_remote ctrl ref -∗ Q tt -∗ owp e E (nvm_rpc_unbind ref) Q.
Proof.
  iIntros "(%r & (%Hc & %Hh & %Hs & %Hr) & R & B) Q". iApply (owp_nonnull with "R"). iIntros (Hn) "R".
  unfold nvm_rpc_unbind, _nvm_ref_put, release_handles, set_handles. rewrite (proj2 (Z.eqb_neq ref NULL) Hn) /=.
  repeat b_step. iApply owp_heap_fuel. iIntros (n). b_step. rewrite Hh /=. repeat b_step. rewrite Hr /=.
  iApply (owp_remove_binding with "B"). repeat b_step. done.
Qed.
End binding.

#[export] Hint Extern 1 (Reference _ _ _ _) => eapply remote_reference; eassumption : typeclass_instances.
