(* ===== verification/ServerHandles.v ===== *)
(** * The server of an admin queue pair as an owned assertion

    A reference that serves remote clients: a local queue pair and the list of the
    handles that are exported to them. *)
From iris.proofmode Require Import proofmode.
From stdpp Require Import gmultiset.
From S2P Require Import Prelude Bits Memory Effects Types Runtime Command Error Queue DisDevice DisMap DisInterrupt Ctrl Dma DisDma Rpc DisRpc Admin Owned Handles SegmentHandles AdminHandles Programs BindingHandles.

(** ** Counting objects *)

(** At least [n] objects are owned. *)
Definition objects (n : nat) : hprop := HProp (fun r => (n <= size (p_objs r))%nat).

Lemma objects_none P : P ⊢ objects 0.
Proof. constructor. intros r _. apply Nat.le_0_l. Qed.

Lemma objects_one p o : p ↦ o ⊢ objects 1.
Proof. constructor. intros r ->. simpl. by rewrite map_size_singleton. Qed.

Lemma objects_add n m : objects n ∗ objects m ⊢ objects (n + m).
Proof.
  constructor. intros r (r1 & r2 & (Ho & Hd & _) & Hn & Hm). simpl in *. rewrite Ho map_size_disj_union; [lia|done].
Qed.

(** A loop that visits what is owned has enough fuel. *)
Lemma owp_heap_fuel_for e E P n (Q : nat -> hprop) : (P ⊢ objects n) ->
  P -∗ (∀ m, ⌜(n <= m)%nat⌝ → P -∗ Q (S m)) -∗ owp e E heap_fuel Q.
Proof.
  intros [Hn]. apply bi.entails_wand, bi.wand_intro_r. constructor. intros r (r1 & r2 & Hs & HP & HQ) w F Hok Ho Hd.
  apply wp_wpf. unfold heap_fuel. repeat wp_step. exists r. do 3 (split; [done|]). split; [lia|].
  assert (n <= size (h_objs (w_st w)))%nat as Hle.
  { pose proof (Hn r1 HP : (n <= size (p_objs r1))%nat). destruct Hs as (Hu & Hd' & _). change (h_objs (w_st w)) with (objs w).
    rewrite Ho (map_size_disj_union _ _ Hd) Hu (map_size_disj_union _ _ Hd'). lia. }
  eapply (HQ (size (h_objs (w_st w))) Hle); [by apply splits_comm|exact HP].
Qed.

Section server.
Context `{Build} (e : uenv) (k : Z).
Hypothesis Hpf : platform e k.
Hypothesis Hdebug : NDEBUG = false.
#[local] Abbreviation E := arithmetic.

(** ** The exported handles *)

Definition binding_handle_holds (p : Z) : hprop :=
  ∃ h, p ↦ OBindingHandle h ∗ acquired (device_memory_keys (bh_dmem h)) ∗ acquired (local_intr_keys (bh_intr h)).

Definition handle_node (next : Z) (x : Z * Z) : rpc_handle :=
  RpcHandle next (fst x) (snd x) (Some DEL_remove_binding_handle).

(** The list from [p]: keys and instances. *)
Fixpoint handles (p : Z) (l : list (Z * Z)) : hprop :=
  match l with
  | [] => ⌜p = NULL⌝ ∧ emp
  | x :: l' => ∃ n, p ↦ ORpcHandle (handle_node n x) ∗ binding_handle_holds (snd x) ∗ handles n l'
  end.

Definition aq_server (ctrl ref : Z) : hprop :=
  ∃ r a l, ⌜ar_ctrl r = ctrl /\ ar_stub r = Some STUB_execute_command /\ ar_release r = Some DEL_remove_admin⌝
    ∧ (ref ↦ OAqRef r ∗ ar_data r ↦ OLocalAdmin a ∗ handles (ar_handles r) l).

Lemma aq_local_server ctrl ref : aq_local ctrl ref ⊢ aq_server ctrl ref.
Proof. iIntros "(%r & %a & (%Hc & %Hh & %Hs & %Hr) & R & A)". iExists r, a, []. rewrite Hh. iFrame. done. Qed.

Lemma handles_objects p l : handles p l ⊢ objects (length l).
Proof.
  revert p. induction l as [|x l IH]; intros p; [apply objects_none|]. simpl handles.
  iIntros "(%n & P & B & L)". iApply (objects_add 1 (length l)). iSplitL "P"; [by iApply objects_one|].
  rewrite -(Nat.add_0_r (length l)). iApply objects_add. iSplitL "L"; [by iApply IH|iApply (objects_none with "B")].
Qed.

(** ** Inserting *)

(** The last node of a list, and the list without it. *)
Definition last_node (p : Z) (l : list (Z * Z)) (q : Z) : hprop :=
  ∃ c, ⌜rh_next c = NULL⌝ ∧ (q ↦ ORpcHandle c
    ∗ (∀ n x, q ↦ ORpcHandle (RpcHandle n (rh_key c) (rh_data c) (rh_release c)) -∗ handles n [x] -∗ handles p (l ++ [x]))).

Lemma owp_insert_position fuel key prev p l (Q : option Z -> hprop) : (length l < fuel)%nat ->
  handles p l -∗
  ((handles p l -∗ Q None)
   ∧ (⌜l = [] /\ p = NULL⌝ → Q (Some prev))
   ∧ (∀ q, ⌜l <> [] /\ q <> NULL⌝ → last_node p l q -∗ Q (Some q))) -∗
  owp e E (insert_position fuel key prev p) Q.
Proof.
  iInduction fuel as [|fuel] "IH" forall (prev p l); iIntros (Hl) "L Q"; [lia|]. simpl insert_position.
  destruct l as [|[key' data] l]; simpl handles.
  - iDestruct "L" as "[-> _]". simpl. iApply owp_ret. iDestruct "Q" as "(_ & Q & _)". by iApply "Q".
  - iDestruct "L" as (n) "(P & B & L)". iApply (owp_nonnull with "P"). iIntros (Hp) "P". odecide. ostep. ostep. simpl.
    destruct (key' =? key).
    + iApply owp_ret. iDestruct "Q" as "[Q _]". iApply "Q". iExists n. iFrame.
    + iApply ("IH" with "[] L"); [simpl in Hl; iPureIntro; lia|]. iSplit; [|iSplit].
      * iIntros "L". iDestruct "Q" as "[Q _]". iApply "Q". iExists n. iFrame.
      * iIntros ([-> ->]). iDestruct "Q" as "(_ & _ & Q)". iApply "Q"; [done|]. iExists _. iSplit; [|iFrame "P"]; [done|].
        iIntros (m x) "P X". iExists m. iFrame.
      * iIntros (q [_ Hq]) "(%c & %Hc & C & W)". iDestruct "Q" as "(_ & _ & Q)". iApply "Q"; [done|]. iExists c. iSplit; [done|]. iFrame "C".
        iIntros (m x) "C X". simpl. iExists n. iFrame "P B". iApply ("W" with "C X").
Qed.

(** The list grows by the handle, or the binding is still the caller's. *)
Lemma owp_handle_insert ctrl ref key data (Q : Z -> hprop) : data <> NULL ->
  aq_server ctrl ref -∗ binding_handle_holds data -∗
  ((∀ s, ⌜s <> 0⌝ → aq_server ctrl ref -∗ binding_handle_holds data -∗ Q s) ∧ (aq_server ctrl ref -∗ Q 0)) -∗
  owp e E (_nvm_rpc_handle_insert ref key data (Some DEL_remove_binding_handle)) Q.
Proof.
  iIntros (Hd) "(%r & %a & %l & (%Hc & %Hs & %Hr) & R & A & L) B Q".
  unfold _nvm_rpc_handle_insert, set_next, set_handles, set_n_handles. odecide. repeat r_step.
  { iDestruct "Q" as "[Q _]". iApply ("Q" with "[] [R A L] B"); [done|]. iExists r, a, l. by iFrame. }
  iApply (owp_heap_fuel_for with "L"); [apply handles_objects|]. iIntros (m Hm) "L". r_step.
  iRename select (p ↦ _)%I into "N".
  iApply (owp_insert_position with "L"); [lia|]. iSplit; [|iSplit].
  - iIntros "L". repeat r_step. iDestruct "Q" as "[Q _]". iApply ("Q" with "[] [R A L] B"); [done|]. iExists r, a, l. by iFrame.
  - iIntros ([-> Hn]). repeat r_step. iDestruct "Q" as "[_ Q]". iApply "Q". iExists _, a, [(key, data)]. iFrame. done.
  - iIntros (q [Hq0 Hq]) "(%c & %Hcn & C & W)". repeat r_step. iDestruct "Q" as "[_ Q]". iApply "Q".
    iExists _, a, (l ++ [(key, data)]). iFrame "R A". iSplit; [done|].
    iApply ("W" with "C"). simpl. iExists NULL. by iFrame.
Qed.

(** ** Exporting a handle *)

Lemma owp_write_handle_info p h adapter clear (Q : Z -> hprop) :
  p ↦ OBindingHandle h -∗ (∀ s, p ↦ OBindingHandle h -∗ Q s) -∗ owp e E (write_handle_info p adapter clear) Q.
Proof. iIntros "P Q". unfold write_handle_info. repeat r_step; iApply ("Q" with "P"). Qed.

Lemma owp_remove_binding_handle p adapter (Q : unit -> hprop) :
  binding_handle_holds p -∗ Q tt -∗ owp e E (remove_binding_handle p adapter) Q.
Proof.
  iIntros "(%h & P & D & I) Q". unfold remove_binding_handle. r_step. iApply (owp_write_handle_info with "P").
  iIntros (s) "P". repeat r_step. done.
Qed.

Lemma owp_server_ctrl ctrl ref (Q : Z -> hprop) :
  aq_server ctrl ref -∗ (aq_server ctrl ref -∗ Q ctrl) -∗ owp e E (nvm_ctrl_from_aq_ref ref) Q.
Proof.
  iIntros "(%r & %a & %l & (%Hc & %Hs & %Hr) & R & A & L) Q". iApply (owp_nonnull with "R"). iIntros (Hn) "R".
  unfold nvm_ctrl_from_aq_ref. repeat r_step. rewrite Hc. iApply "Q". iExists r, a, l. by iFrame.
Qed.

(** When the handle cannot be published its interrupt stays. *)
Lemma owp_create_binding_handle ctrl ct ref adapter cb (Q : Z * Z -> hprop) :
  ctrl_handle k ctrl ct -∗ aq_server ctrl ref -∗
  ((∀ s, ⌜s <> 0⌝ → ctrl_handle k ctrl ct -∗ aq_server ctrl ref -∗ residue 0 2 -∗ Q (s, NULL))
   ∧ (∀ p, ⌜p <> NULL⌝ → ctrl_handle k ctrl ct -∗ aq_server ctrl ref -∗ binding_handle_holds p -∗ Q (0, p))) -∗
  owp e E (create_binding_handle ref adapter cb) Q.
Proof.
  iIntros "C A Q". unfold create_binding_handle, set_bh_dmem, set_bh_ref, set_bh_intr. r_step.
  iApply (owp_server_ctrl with "A"). iIntros "A".
  r_step; [r_step; iDestruct "Q" as "[Q _]"; iApply ("Q" with "[] C A"); [done|iApply residue_nothing]|].
  r_step. iApply (owp_device_from_ctrl with "C"). iIntros ([d|] Hdev) "C".
  2: { r_step; iDestruct "Q" as "[Q _]"; iApply ("Q" with "[] C A"); [done|iApply residue_nothing]. }
  repeat r_step.
  all: try (iDestruct "Q" as "[Q _]"; iApply ("Q" with "[] C A"); [done|iApply residue_nothing]).
  iRename select (p ↦ _)%I into "P". iApply (owp_write_handle_info with "P"). iIntros (s) "P".
  iRename select (acquired (local_intr_keys _)) into "I". repeat r_step.
  - iDestruct "Q" as "[Q _]"; iApply ("Q" with "[] C A"); [done|]. iDestruct "I" as "[S I]".
    iDestruct (residue_sd with "S") as "S". iDestruct (residue_intr with "I") as "I". iApply (residue_join with "S I"); lia.
  - iDestruct "Q" as "[_ Q]"; iApply ("Q" with "[] C A"); [done|]. iExists _. iFrame.
Qed.

Lemma owp_rpc_enable ctrl ct ref adapter filter (Q : Z -> hprop) :
  ctrl_handle k ctrl ct -∗ aq_server ctrl ref -∗
  (∀ s, ctrl_handle k ctrl ct -∗ aq_server ctrl ref -∗ residue 0 2 -∗ Q s) -∗
  owp e E (nvm_dis_rpc_enable ref adapter filter) Q.
Proof.
  iIntros "C A Q". unfold nvm_dis_rpc_enable. r_step; [r_step; iApply ("Q" with "C A"); iApply residue_nothing|].
  r_step. iApply (owp_create_binding_handle with "C A"). iSplit; [iIntros (s Hs) "C A R"|iIntros (p Hp) "C A B"].
  { repeat r_step. iApply ("Q" with "C A R"). }
  r_step. iApply (owp_handle_insert with "A B"); [done|]. iSplit; [iIntros (s Hs) "A B"|iIntros "A"].
  - r_step. iApply (owp_remove_binding_handle with "B"). r_step. iApply ("Q" with "C A"). iApply residue_nothing.
  - repeat r_step. iApply ("Q" with "C A"). iApply residue_nothing.
Qed.

(** ** The end of the server *)

Lemma owp_release_loop fuel ref r p l (Q : unit -> hprop) : (length l < fuel)%nat ->
  ref ↦ OAqRef r -∗ handles p l -∗
  (∀ r', ⌜ar_release r' = ar_release r /\ ar_data r' = ar_data r⌝ → ref ↦ OAqRef r' -∗ Q tt) -∗
  owp e E (release_loop fuel ref p) Q.
Proof.
  iInduction fuel as [|fuel] "IH" forall (r p l); iIntros (Hl) "R L Q"; [lia|]. simpl release_loop.
  destruct l as [|[key data] l]; simpl handles.
  - iDestruct "L" as "[-> _]". simpl. r_step. by iApply ("Q" with "[] R").
  - iDestruct "L" as (n) "(P & B & L)". iApply (owp_nonnull with "P"). iIntros (Hp) "P". unfold set_n_handles. odecide.
    repeat r_step. simpl. iApply (owp_remove_binding_handle with "B"). repeat r_step.
    iApply ("IH" with "[] R L Q"). iPureIntro. simpl in Hl. lia.
Qed.

Lemma owp_server_destroy ctrl ref (Q : unit -> hprop) :
  aq_server ctrl ref -∗ (residue 1 0 -∗ Q tt) -∗ owp e E (nvm_aq_destroy ref) Q.
Proof.
  iIntros "(%r & %a & %l & (%Hc & %Hs & %Hr) & R & A & L) Q". iApply (owp_nonnull with "R"). iIntros (Hn) "R".
  unfold nvm_aq_destroy, _nvm_ref_put, release_handles, set_handles. rewrite (proj2 (Z.eqb_neq ref NULL) Hn) /=.
  repeat r_step. iApply (owp_heap_fuel_for with "L"); [apply handles_objects|]. iIntros (m Hm) "L". r_step.
  iApply (owp_release_loop with "R L"); [lia|]. iIntros (r' [Hr' Hd']) "R". repeat r_step. rewrite Hr' Hr Hd'. simpl. unfold remove_admin.
  iDestruct (residue_admin with "A") as "A".
  repeat first [r_step | iApply owp_free_null]; by iApply "Q".
Qed.

(** ** Admin commands of the server itself *)

Lemma server_reference ctrl ref : Reference e ref ctrl (aq_server ctrl ref).
Proof.
  split.
  - intros cmd cpl. iIntros "(%r & %a & %l & (%Hc & %Hs & %Hr) & R & A & L)". unfold nvm_raw_rpc. repeat r_step. rewrite Hs rpc_stub_local.
    r_step. iApply (owp_execute_command with "A"). iIntros (s a') "A". repeat r_step. iExists r, a', l. by iFrame.
  - iIntros "A". iApply (owp_server_ctrl with "A"). iIntros "A". by iSplit.
Qed.
End server.

#[export] Hint Extern 1 (Reference _ _ _ _) => eapply server_reference; eassumption : typeclass_instances.
