(* ===== verification/RpcClient.v ===== *)
(** * [examples/rpc/rpc_client.c]

    The program that identifies a controller through the server of its admin queues. *)
From Stdlib Require Import String Ascii.
From iris.proofmode Require Import proofmode.
From S2P Require Import Prelude Bits Memory Effects Types Runtime Queue DisDevice DisMap DisInterrupt Ctrl Dma DisDma Rpc DisRpc Admin CArgs Options Owned Handles SegmentHandles AdminHandles Programs Segment BindingHandles.
#[local] Open Scope list_scope.

(** [command], [completion] and [info] are the addresses of local variables. *)
Section client.
Context `{Build} (command completion info : Z).

(** [unique_counter] is 0 in the only call of [random_id]. *)
Definition show_info (rpc ctrl adapter : Z) : UM Z :=
  '(id, _) ← random_id 0;
  '(status, page) ← segment_create id 0x1000;
  match page with
  | None => mret 1
  | Some memory_page =>
      '(status, dma) ← dma_create ctrl memory_page adapter;
      if negb (status =? 0) then segment_remove memory_page;; mret 2
      else
        w ← load_dma dma;
        ioaddr ← ioaddr_at w 0;
        '(status, _) ← nvm_admin_ctrl_info command completion rpc info (dma_vaddr w) ioaddr;
        dma_remove dma memory_page adapter;;
        segment_remove memory_page;;
        mret status
  end.

(** Returns the exit status. *)
Definition main (opts : list opt) : UM Z :=
  match client_parse_opts opts with
  | Exit c => mret c
  | Parsed args =>
      i ← ext SCIInitialize;
      if negb (is_ok (r_sci i)) then mret 1
      else
        '(status, ctrl) ← nvm_dis_ctrl_init (ca_smartio_dev_id args) (ca_adapter args);
        if negb (status =? 0) then mret 2
        else
          '(status, rpc) ← nvm_dis_rpc_bind ctrl (ca_adapter args);
          if negb (status =? 0) then nvm_ctrl_free ctrl;; mret 2
          else
            status ← show_info rpc ctrl (ca_adapter args);
            nvm_rpc_unbind rpc;;
            nvm_ctrl_free ctrl;;
            ext SCITerminate;;
            mret status
  end.

Context (e : uenv) (k : Z).
Hypothesis Hpf : platform e k.
Hypothesis Hdebug : NDEBUG = false.
Hypothesis Hpeer : whole_replies e.
#[local] Abbreviation E := arithmetic.

Lemma owp_show_info rpc ctrl ct adapter (Q : Z -> hprop) :
  aq_remote ctrl rpc -∗ ctrl_handle k ctrl ct -∗ (∀ s, aq_remote ctrl rpc -∗ ctrl_handle k ctrl ct -∗ Q s) -∗
  owp e E (show_info rpc ctrl adapter) Q.
Proof.
  iIntros "A C Q". unfold show_info. o_step. iApply owp_random_id. iIntros (i c). o_step. iApply owp_segment_create.
  iSplit; [iIntros (s Hs)|iIntros (sg Hsg) "G"]; [o_step; iApply ("Q" with "A C")|].
  o_step. iApply (owp_seg_dma_create with "C"); [done|]. rewrite Hsg. iSplit; [iIntros (s Hs) "C"|iIntros (h Hh) "C W"].
  { repeat o_step. iApply (owp_segment_remove with "G"); [done|]. repeat o_step. iApply ("Q" with "A C"). }
  repeat p_step. iApply owp_ioaddr_at.
  { rewrite (one_page e k Hpf) in Hwin; [|pose proof (small_page _ _ Hpf); lia]. eapply window_length; [done|exact Hwin|done]. }
  iIntros (a). o_step. iApply (owp_admin_ctrl_info with "A C"); [done|]. iIntros (s j Hj) "A C".
  o_step. iApply (owp_seg_dma_remove with "W"); [done|]. o_step. iApply (owp_segment_remove with "G"); [done|].
  repeat o_step. iApply ("Q" with "A C").
Qed.

Lemma owp_client_main opts : ⊢ owp e E (main opts) (fun s => residue 0 (if s =? 2 then 1%nat else 0%nat)).
Proof.
  iStartProof. unfold main. destruct (client_parse_opts opts) as [c|args]; [o_step; iApply residue_nothing|].
  repeat o_step; [|iApply residue_nothing]. iRename select (own KSci) into "S".
  o_creates (owp_dis_ctrl_init _ _ _ Hpf _ _); [repeat o_step; by iApply residue_sci|].
  iSelect (new_ctrl _ _) (fun H => iDestruct H as (ct) "C"). repeat p_step.
  iApply (owp_rpc_bind with "C"); [done..|]. iSplit; [iIntros (s Hs') "C"|iIntros (rpc Hrpc) "C A"].
  { repeat p_step. by iApply residue_sci. }
  repeat p_step. iApply (owp_show_info with "A C"). iIntros (s) "A C". o_step. iApply (owp_rpc_unbind with "A"); [done..|].
  repeat p_step. iApply residue_nothing.
Qed.
End client.


#[local] Instance client_build : Build := {| NDEBUG := false; CUDA := false |}.

