(* ===== verification/RpcServer.v ===== *)
(** * [examples/rpc/rpc_server.c]

    The program that serves a controller's admin queues to other hosts. *)
From Stdlib Require Import String Ascii.
From iris.proofmode Require Import proofmode.
From S2P Require Import Prelude Bits Memory Effects Types Runtime Queue DisDevice DisMap DisInterrupt Ctrl Dma DisDma Rpc DisRpc Admin CArgs Options Owned Handles SegmentHandles AdminHandles Programs Segment BindingHandles ServerHandles.
#[local] Open Scope list_scope.

(** [command], [completion] and [info] are the addresses of local variables,
    [request_accepter] is that of the callback, which accepts every command. *)
Section server.
Context `{Build} (command completion info request_accepter : Z).

(** The second call of [random_id]: [unique_counter] is 1. *)
Definition identify_controller (ctrl adapter rpc : Z) : UM unit :=
  '(id, _) ← random_id 1;
  '(status, sg) ← segment_create id 0x1000;
  match sg with
  | None => mret tt
  | Some segment =>
      '(status, identify_wnd) ← dma_create ctrl segment adapter;
      if negb (status =? 0) then segment_remove segment
      else
        w ← load_dma identify_wnd;
        ioaddr ← ioaddr_at w 0;
        nvm_admin_ctrl_info command completion rpc info (dma_vaddr w) ioaddr;;
        dma_remove identify_wnd segment adapter;;
        segment_remove segment
  end.

(** The remaining [n] adapters from index [i]. *)
Fixpoint enable_loop (n i : nat) (rpc : Z) (dis_adapters : list Z) : UM unit :=
  match n with
  | O => mret tt
  | S n' =>
      match dis_adapters !! i with
      | None => fail BadPointer
      | Some adapter => nvm_dis_rpc_enable rpc adapter request_accepter;; enable_loop n' (S i) rpc dis_adapters
      end
  end.

(** [pthread_cond_wait] answers whether the handler has run meanwhile; without it
    [signal_caught] is still false. *)
Fixpoint wait_loop (fuel : nat) : UM unit :=
  match fuel with
  | O => out_of_fuel
  | S fuel' => r ← ext Cond_wait; if r_val r =? 0 then wait_loop fuel' else mret tt
  end.

Definition wait_signal : UM unit := n ← get_fuel; wait_loop n.

Definition SIGINT : Z := 2.
Definition SIGTERM : Z := 15.

(** [signal_lk] is the address of the mutex. *)
Definition run_service (signal_lk ctrl q_wnd : Z) (args : server_args) : UM Z :=
  '(status, rpc) ← nvm_aq_create ctrl q_wnd;
  if negb (status =? 0) then mret 2
  else
    (if va_identify_ctrl args then identify_controller ctrl (va_ctrl_adapter args) rpc else mret tt);;
    enable_loop (Z.to_nat (va_n_dis_adapters args)) 0 rpc (va_dis_adapters args);;
    ext (Mutex_lock signal_lk);;
    ext (Signal SIGTERM);;
    ext (Signal SIGINT);;
    wait_signal;;
    ext (Mutex_unlock signal_lk);;
    nvm_aq_destroy rpc;;
    mret 0.

(** Returns the exit status. *)
Definition main (signal_lk : Z) (opts : list opt) : UM Z :=
  match server_parse_opts opts with
  | Exit c => mret c
  | Parsed args =>
      i ← ext SCIInitialize;
      if negb (is_ok (r_sci i)) then mret 1
      else
        '(status, ctrl) ← nvm_dis_ctrl_init (va_smartio_dev_id args) (va_ctrl_adapter args);
        if negb (status =? 0) then mret 2
        else
          '(id, _) ← random_id 0;
          c ← load_ctrl ctrl;
          '(status, sg) ← segment_create id (u64 (ctrl_page_size c * 2));
          match sg with
          | None => nvm_ctrl_free ctrl;; mret 1
          | Some segment =>
              '(status, q_wnd) ← dma_create ctrl segment (va_ctrl_adapter args);
              if negb (status =? 0) then segment_remove segment;; nvm_ctrl_free ctrl;; mret status
              else
                status ← run_service signal_lk ctrl q_wnd args;
                dma_remove q_wnd segment (va_ctrl_adapter args);;
                segment_remove segment;;
                nvm_ctrl_free ctrl;;
                ext SCITerminate;;
                mret status
          end
  end.

Context (e : uenv) (k : Z).
Hypothesis Hpf : platform e k.
Hypothesis Hdebug : NDEBUG = false.
#[local] Abbreviation E := arithmetic.

Lemma owp_identify_controller ctrl ct adapter rpc (Q : unit -> hprop) :
  aq_server ctrl rpc -∗ ctrl_handle k ctrl ct -∗ (aq_server ctrl rpc -∗ ctrl_handle k ctrl ct -∗ Q tt) -∗
  owp e E (identify_controller ctrl adapter rpc) Q.
Proof.
  iIntros "A C Q". unfold identify_controller. o_step. iApply owp_random_id. iIntros (i c). o_step. iApply owp_segment_create.
  iSplit; [iIntros (s Hs)|iIntros (sg Hsg) "G"]; [o_step; iApply ("Q" with "A C")|].
  o_step. iApply (owp_seg_dma_create with "C"); [done|]. rewrite Hsg. iSplit; [iIntros (s Hs) "C"|iIntros (h Hh) "C W"].
  { repeat o_step. odecide. iApply (owp_segment_remove with "G"); [done|]. iApply ("Q" with "A C"). }
  repeat p_step. iApply owp_ioaddr_at.
  { rewrite (one_page e k Hpf) in Hwin; [|pose proof (small_page _ _ Hpf); lia]. eapply window_length; [done|exact Hwin|done]. }
  iIntros (a). o_step. iApply (owp_admin_ctrl_info with "A C"); [done|]. iIntros (s j Hj) "A C".
  o_step. iApply (owp_seg_dma_remove with "W"); [done|]. iApply (owp_segment_remove with "G"); [done|].
  iApply ("Q" with "A C").
Qed.

Lemma owp_enable_loop n i ctrl ct rpc l (Q : unit -> hprop) : (i + n <= length l)%nat ->
  aq_server ctrl rpc -∗ ctrl_handle k ctrl ct -∗ (aq_server ctrl rpc -∗ ctrl_handle k ctrl ct -∗ residue 0 (2 * n) -∗ Q tt) -∗
  owp e E (enable_loop n i rpc l) Q.
Proof.
  iInduction n as [|n] "IH" forall (i Q); iIntros (Hl) "A C Q"; simpl enable_loop.
  - o_step. iApply ("Q" with "A C"). iApply residue_nothing.
  - destruct (lookup_lt_is_Some_2 l i) as [a Ha]; [lia|]. rewrite Ha. o_step.
    iApply (owp_rpc_enable with "C A"); [done..|]. iIntros (s) "C A R". iApply ("IH" with "[] A C"); [iPureIntro; lia|].
    iIntros "A C R'". iApply ("Q" with "A C"). iApply (residue_join with "R R'"); lia.
Qed.

(** A signal arrives: waits without one are at most [k] in a row. *)
Definition signalled : Prop := exists n, (n < e_fuel e)%nat
  /\ forall w, (n <= trailing Cond_wait (w_log w))%nat -> r_val (fst (e_resp e w Cond_wait)) <> 0.
Hypothesis Hsignal : signalled.

Lemma wait_loop_returns n fuel w :
  (forall w, (n <= trailing Cond_wait (w_log w))%nat -> r_val (fst (e_resp e w Cond_wait)) <> 0) ->
  (0 < fuel)%nat -> (n < fuel + trailing Cond_wait (w_log w))%nat ->
  wp e (wait_loop fuel) w (fun _ w' => w_st w' = w_st w /\ moved w w' (fun _ => 0)).
Proof.
  intros Hn. revert w. induction fuel as [|fuel IH]; intros w Hf Hlt; [lia|]. simpl wait_loop. repeat wp_step.
  - zbool. assert (trailing Cond_wait (w_log w) < n)%nat as Hlt'.
    { destruct (decide (n <= trailing Cond_wait (w_log w))%nat) as [Hge|]; [by destruct (Hn w Hge)|lia]. }
    eapply wp_mono; [apply IH; [lia|simpl; lia]|].
    intros _ w' [Hst Hm]. split; [done|]. intros κ. specialize (Hm κ). rewrite bal_after in Hm. cbn in Hm. lia.
  - split; [done|]. intros κ. rewrite bal_after. cbn. lia.
Qed.

Lemma owp_wait_signal (Q : unit -> hprop) : Q tt ⊢ owp e E wait_signal Q.
Proof.
  iIntros "Q". unfold wait_signal. iApply (owp_inert _ _ _ (fun _ => True)); [|by iIntros ([] _)]. intros w. repeat wp_step. destruct Hsignal as (n & Hn & Hs).
  eapply wp_mono; [eapply wait_loop_returns; [done|lia|lia]|]. intros _ w' [? ?]. done.
Qed.

Lemma owp_run_service signal_lk ctrl ct bytes q_wnd args (Q : Z -> hprop) : server_ok args ->
  ctrl_handle k ctrl ct -∗ new_dma k bytes q_wnd -∗
  (∀ s, ⌜s = 0 \/ s = 2⌝ → ctrl_handle k ctrl ct -∗ new_dma k bytes q_wnd -∗ residue 1 8 -∗ Q s) -∗
  owp e E (run_service signal_lk ctrl q_wnd args) Q.
Proof.
  iIntros ((Hn & Hl & _) ) "C W Q". unfold MAX_ADAPTS in Hn. unfold run_service. o_step. iApply (owp_make_aq with "C W"); [done|]. iSplit.
  { iIntros (s Hs) "C W". repeat o_step. iApply ("Q" with "[] C W"); [auto|]. iApply residue_nothing. }
  iIntros (rpc Hrpc) "C W A". iDestruct (aq_local_server with "A") as "A". o_step.
  iApply (owp_wand _ _ _ (fun _ => aq_server ctrl rpc ∗ ctrl_handle k ctrl ct)%I). iSplitL "A C".
  { destruct (va_identify_ctrl args); [|o_step; iFrame]. iApply (owp_identify_controller with "A C"). iIntros "$ $". }
  iIntros ([]) "[A C]". o_step. iApply (owp_enable_loop with "A C"); [lia|]. iIntros "A C R".
  repeat r_step. iApply owp_wait_signal. repeat r_step. iApply (owp_server_destroy with "A"); [done|]. iIntros "R'". r_step.
  iApply ("Q" with "[] C W"); [auto|]. iApply (residue_join with "R R'"); lia.
Qed.

Lemma owp_server_main signal_lk opts : ⊢ owp e E (main signal_lk opts) (fun s => residue 1 9).
Proof.
  iStartProof. unfold main. destruct (server_parse_opts opts) as [c|args] eqn:Hargs; [o_step; iApply residue_nothing|].
  apply server_parse_opts_sound in Hargs as (Hargs & _).
  repeat o_step; [|iApply residue_nothing]. iRename select (own KSci) into "S".
  o_creates (owp_dis_ctrl_init _ _ _ Hpf _ _).
  { repeat o_step. iDestruct (residue_sci with "S") as "S". iApply (residue_mono with "S"); lia. }
  iSelect (new_ctrl _ _) (fun H => iDestruct H as (ct) "C"). o_step. iApply owp_random_id. iIntros (i c).
  p_step. p_step. p_step. iApply owp_segment_create. rewrite Hcps.
  iSplit; [iIntros (s Hs')|iIntros (sg Hsg) "G"].
  { repeat p_step. iDestruct (residue_sci with "S") as "S". iApply (residue_mono with "S"); lia. }
  o_step. iApply (owp_seg_dma_create with "C"); [done|]. iSplit; [iIntros (s Hs') "C"|iIntros (h Hh) "C W"].
  { o_step. iApply (owp_segment_remove with "G"); [done|]. repeat p_step.
    iDestruct (residue_sci with "S") as "S". iApply (residue_mono with "S"); lia. }
  o_step. iApply (owp_run_service with "C W"); [done|]. iIntros (s Hs') "C W R".
  o_step. iApply (owp_seg_dma_remove with "W"); [done|]. o_step. iApply (owp_segment_remove with "G"); [done|].
  repeat p_step. iApply (residue_mono with "R"); lia.
Qed.
End server.


#[local] Instance server_build : Build := {| NDEBUG := false; CUDA := false |}.

