(* ===== verification/RpcSignal.v ===== *)
(** * The signal handler of [examples/rpc/rpc_server.c]

    [run_service] waits on a condition variable for [catch_signal], which takes the
    mutex that [run_service] holds. The handler runs on the thread that waits, between
    any two of its steps, or on one of the threads of SISCI; one signal is handled at a
    time. *)
From S2P Require Import Prelude.
#[local] Open Scope list_scope.

(** Where [run_service] is, from the lock on. *)
Inductive service_pc :=
  | S_lock      (** pthread_mutex_lock *)
  | S_install   (** signal *)
  | S_test      (** while *)
  | S_wait      (** inside of pthread_cond_wait, without the mutex *)
  | S_relock    (** inside of pthread_cond_wait, woken *)
  | S_unlock    (** pthread_mutex_unlock *)
  | S_done.

(** Where [catch_signal] is. *)
Inductive handler_pc := H_lock | H_set | H_signal | H_unlock.

Inductive thread := Service | Other.

Inductive holder := By_service | By_handler.

Record service := State {
  sv_pc : service_pc;
  sv_lk : option holder;                        (** [signal_lk] *)
  sv_caught : bool;                             (** [signal_caught] *)
  sv_handler : option (thread * handler_pc);    (** a running [catch_signal] *)
}.

#[export] Instance service_pc_eq : EqDecision service_pc.
Proof. solve_decision. Defined.
#[export] Instance handler_pc_eq : EqDecision handler_pc.
Proof. solve_decision. Defined.
#[export] Instance thread_eq : EqDecision thread.
Proof. solve_decision. Defined.
#[export] Instance holder_eq : EqDecision holder.
Proof. solve_decision. Defined.
#[export] Instance service_eq : EqDecision service.
Proof. solve_decision. Defined.

Definition service0 : service := State S_lock None false None.

(** One step of [catch_signal]; a mutex that is held blocks, by whomever. *)
Definition catch_signal (s : service) : list service :=
  match sv_handler s with
  | None => []
  | Some (t, H_lock) => match sv_lk s with None => [State (sv_pc s) (Some By_handler) (sv_caught s) (Some (t, H_set))] | Some _ => [] end
  | Some (t, H_set) => [State (sv_pc s) (sv_lk s) true (Some (t, H_signal))]
  | Some (t, H_signal) => [State (sv_pc s) (sv_lk s) (sv_caught s) (Some (t, H_unlock))]
  | Some (t, H_unlock) => [State (sv_pc s) None (sv_caught s) None]
  end.

(** The waiting thread executes the handler. *)
Definition interrupted (s : service) : bool :=
  match sv_handler s with Some (Service, _) => true | _ => false end.

(** One step of [run_service]; [pthread_cond_wait] may also return without a signal. *)
Definition service_step (s : service) : list service :=
  let goto pc lk := [State pc lk (sv_caught s) (sv_handler s)] in
  if interrupted s then []
  else
    match sv_pc s with
    | S_lock => match sv_lk s with None => goto S_install (Some By_service) | Some _ => [] end
    | S_install => goto S_test (sv_lk s)
    | S_test => if sv_caught s then goto S_unlock (sv_lk s) else goto S_wait None
    | S_wait => goto S_relock (sv_lk s)
    | S_relock => match sv_lk s with None => goto S_test (Some By_service) | Some _ => [] end
    | S_unlock => goto S_done None
    | S_done => []
    end.

(** A signal, once there is a handler and until the service has ended. *)
Definition deliver (s : service) : list service :=
  match sv_handler s, sv_pc s with
  | Some _, _ | None, (S_lock | S_install | S_done) => []
  | None, _ => [State (sv_pc s) (sv_lk s) (sv_caught s) (Some (Service, H_lock));
                State (sv_pc s) (sv_lk s) (sv_caught s) (Some (Other, H_lock))]
  end.

Definition steps (s : service) : list service := catch_signal s ++ service_step s ++ deliver s.

Definition runs : service -> service -> Prop := rtc (fun s s' => s' ∈ steps s).

(** ** Invariant *)

(** Who holds the mutex. *)
Definition consistent (s : service) : bool :=
  match sv_lk s, sv_pc s, sv_handler s with
  | Some By_service, (S_install | S_test | S_unlock), (None | Some (_, H_lock)) => true
  | Some By_handler, (S_lock | S_wait | S_relock | S_done), Some (_, (H_set | H_signal | H_unlock)) => true
  | None, (S_lock | S_wait | S_relock | S_done), (None | Some (_, H_lock)) => true
  | _, _, _ => false
  end
  && match sv_pc s with S_lock | S_install => bool_decide (sv_handler s = None) | S_done => negb (interrupted s) && sv_caught s | S_unlock => sv_caught s | _ => true end.

Lemma consistent_steps s : consistent s = true -> forallb consistent (steps s) = true.
Proof. destruct s as [[] [[]|] [] [[[] []]|]]; intros Hs; first [discriminate Hs | reflexivity]. Qed.

Lemma consistent_step s s' : consistent s = true -> s' ∈ steps s -> consistent s' = true.
Proof. intros Hs%consistent_steps Hin. rewrite forallb_forall in Hs. by apply Hs, list_elem_of_In. Qed.

Lemma runs_consistent s : runs service0 s -> consistent s = true.
Proof.
  intros H. remember service0 as s0 eqn:E. assert (consistent s0 = true) as H0 by by subst. clear E.
  induction H as [|s s1 s2 H1 _ IH]; [done|]. by eapply IH, consistent_step.
Qed.

(** ** Deadlock and progress *)

(** The handler waits for the thread it has interrupted. *)
Definition blocked (s : service) : Prop :=
  sv_lk s = Some By_service /\ sv_handler s = Some (Service, H_lock).
#[export] Instance blocked_dec s : Decision (blocked s).
Proof. unfold blocked. apply _. Defined.

(** A scheduler: the handler first, then a signal for a waiting service, then the service. *)
Definition choose (s : service) : service :=
  match catch_signal s, sv_pc s, sv_caught s with
  | s' :: _, _, _ => s'
  | [], S_wait, false => hd s (rev (deliver s))
  | _, _, _ => hd s (service_step s)
  end.

Definition finished (s : service) : bool := bool_decide (sv_pc s = S_done) && sv_caught s.

Fixpoint run (n : nat) (s : service) : service :=
  match n with O => s | S n' => if finished s then s else run n' (choose s) end.

(** The scheduler makes steps of the service, and ends it. *)
Lemma choose_step s : consistent s = true -> bool_decide (blocked s) = false -> finished s = false ->
  bool_decide (choose s ∈ steps s) && negb (bool_decide (blocked (choose s))) = true.
Proof. destruct s as [[] [[]|] [] [[[] []]|]]; intros Hs Hb Hf; first [discriminate Hs | discriminate Hb | discriminate Hf | reflexivity]. Qed.

Lemma run_finished s : consistent s = true -> bool_decide (blocked s) = false -> finished (run 20 s) = true.
Proof. destruct s as [[] [[]|] [] [[[] []]|]]; intros Hs Hb; first [discriminate Hs | discriminate Hb | reflexivity]. Qed.

Lemma run_runs n s : consistent s = true -> bool_decide (blocked s) = false -> runs s (run n s).
Proof.
  revert s. induction n as [|n IH]; intros s Hs Hb; [apply rtc_refl|]. simpl. destruct (finished s) eqn:Hf; [apply rtc_refl|].
  pose proof (choose_step s Hs Hb Hf) as [Hin Hb']%andb_true_iff. apply bool_decide_eq_true in Hin.
  eapply rtc_l; [exact Hin|]. apply IH; [by eapply consistent_step|]. by apply negb_true_iff.
Qed.

