(* ===== verification/Threads.v ===== *)
(** * What the threads of the programs leave alone

    The programs that read and transfer blocks are proved for any threads that leave
    handles and resources alone. Here: every step of the threads and of the controller in
    [ReadBlocks] and [Transfer], and hence every execution, does. *)
From S2P Require Import Prelude Bits Memory Effects Types Runtime Command Error Queue.
From S2P Require Import DisDevice DisMap Ctrl Dma Rpc RpcHandles RpcCommand Admin Lane Device ReadBlocks Transfer.

(** Handles and ledger of [w] and [w'] are the same. *)
Definition same_handles (w w' : uworld) : Prop := w_st w' = w_st w /\ forall κ, bal w' κ = bal w κ.

#[export] Instance same_handles_preorder : PreOrder same_handles.
Proof.
  split; [by split|]. intros w1 w2 w3 [H1 H2] [H3 H4]. split; [congruence|]. intros κ. by rewrite H4.
Qed.

(** However [m] ends, if it does. *)
Definition keeps {A} (m : UM A) : Prop := forall e w a w', m e w = Ok a w' -> same_handles w w'.

Create HintDb handles discriminated.

Lemma handles_ret {A} (a : A) : keeps (mret a).
Proof. by intros e w b w' [= _ <-]. Qed.
Lemma handles_fail {A} f : keeps (fail (A:=A) f).
Proof. by intros e w a w' H. Qed.
Lemma keeps_get_mem : keeps get_mem.
Proof. by intros e w b w' [= _ <-]. Qed.
Lemma keeps_put_mem m : keeps (put_mem m).
Proof. by intros e w b w' [= _ <-]. Qed.
Lemma handles_bind {A B} (m : UM A) (f : A -> UM B) : keeps m -> (forall a, keeps (f a)) -> keeps (m ≫= f).
Proof.
  intros Hm Hf e w b w' H. unfold mbind, M_bind in H. destruct (m e w) as [a w1| |] eqn:E; try done.
  etrans; [by eapply Hm|by eapply Hf].
Qed.
Lemma handles_ext c : (forall r κ, delta c r κ = 0) -> keeps (ext c).
Proof.
  intros Hc e w r w' [= _ <-]. split; [done|]. intros κ. rewrite bal_after, Hc. lia.
Qed.
Lemma keeps_if {A} (b : bool) (m1 m2 : UM A) : keeps m1 -> keeps m2 -> keeps (if b then m1 else m2).
Proof. by destruct b. Qed.
Lemma keeps_dequeue_block q t : keeps (nvm_cq_dequeue_block q t).
Proof.
  intros e w r w' H. pose proof (dequeue_block_spec e w q t) as Hs. unfold wp in Hs. rewrite H in Hs.
  destruct Hs as (_ & Hst & _ & _ & _ & Hm & _). split; [done|]. intros κ. rewrite (Hm κ). lia.
Qed.

#[export] Hint Resolve handles_ret handles_fail keeps_get_mem keeps_put_mem handles_bind keeps_if keeps_dequeue_block : handles.
#[export] Hint Extern 1 (keeps (ext _)) => apply handles_ext; intros; unfold delta, udelta; reflexivity : handles.

Ltac keep_steps :=
  repeat first
  [ apply keeps_dequeue_block | apply handles_bind; [|intros ?] | progress cbn beta iota
  | match goal with
    | |- keeps (let '(_, _) := ?x in _) => destruct x
    | |- keeps (match ?x with _ => _ end) => destruct x
    end
  | solve [eauto with handles] ].

(** ** [read-blocks] *)

Section read.
Context `{Build} (disk : disk_info) (buffer : nvm_dma_t) (ioaddrs offset : Z).

Lemma read_and_dump_keeps pc qp : keeps (read_and_dump disk buffer ioaddrs offset pc qp).
Proof.
  unfold read_and_dump, build_read, divide, nvm_sq_submit, upd_mem, ld_mem, ioaddr_at. destruct pc; keep_steps.
Qed.

Lemma consumer_keeps pc qp : keeps (ReadBlocks.consume_completions pc qp).
Proof. unfold ReadBlocks.consume_completions, nvm_cq_update. destruct pc; keep_steps. Qed.

Lemma sys_step_keeps ev s s' : sys_step disk buffer ioaddrs offset ev s = Some s' -> same_handles (rs_w s) (rs_w s').
Proof.
  assert (forall s', step_main disk buffer ioaddrs offset s = Some s' -> same_handles (rs_w s) (rs_w s')) as Hmain.
  { intros s1. unfold step_main, run. destruct (read_and_dump _ _ _ _ _ _ _ _) as [[pc qp] w| |] eqn:E; try done.
    intros [= <-]. by eapply read_and_dump_keeps. }
  destruct ev; simpl.
  - destruct (rs_main s); try done. by destruct (_ =? _); intros [= <-].
  - destruct (rs_main s); try done; try (case_bool_decide; [|done]); apply Hmain.
  - intros (pc & _ & E0)%bind_Some. revert E0. unfold step_completer, run.
    destruct (ReadBlocks.consume_completions _ _ _ _) as [[pc' qp] w| |] eqn:E; try done. intros [= <-]. by eapply consumer_keeps.
  - unfold ReadBlocks.step_fetch. by destruct (_ =? _); intros [= <-].
  - unfold ReadBlocks.step_complete. intros (i & _ & (cmd & _ & E)%bind_Some)%bind_Some. by destruct (_ =? _); [|injection E as <-].
Qed.

(** Every execution of the reading threads. *)
Lemma read_run_keeps io s s' : rtc (rstep disk buffer ioaddrs offset io) s s' -> same_handles (rs_w s) (rs_w s').
Proof. induction 1 as [|s s1 s2 (ev & Hev & _) _ IH]; [done|]. etrans; [by eapply sys_step_keeps|done]. Qed.
End read.

(** ** [integrity] *)

Section transfer.
Context `{Build} (d : disk) (buf : buffer) (ioaddrs : Z) (write : bool) (n_queues size : Z).

Lemma produce_keeps p pc queues : keeps (produce_commands d buf ioaddrs p pc queues).
Proof.
  unfold produce_commands, enqueue, submit, build_transfer, queue_at, divide, nvm_sq_submit, upd_mem, ld_mem, ioaddr_at.
  destruct pc; keep_steps.
Qed.

Lemma consume_keeps cancel pc queues : keeps (Transfer.consume_completions cancel pc queues).
Proof. unfold Transfer.consume_completions, queue_at, nvm_cq_update, ld_mem. destruct pc; keep_steps. Qed.

Lemma tsys_step_keeps ev s s' : tsys_step d buf ioaddrs write n_queues size ev s = Some s' -> same_handles (ts_w s) (ts_w s').
Proof.
  destruct ev; simpl.
  - destruct (ts_main s); try done. by destruct ok; intros [= <-].
  - unfold step_transfer. destruct (ts_main s); try done; try (by intros [= <-]).
    + by destruct (_ <? _); intros [= <-].
    + destruct (_ <? _); [|by intros [= <-]]. case_bool_decide; [|done]. by intros (q & _ & [= <-])%bind_Some.
    + by intros (q & _ & [= <-])%bind_Some.
    + case_bool_decide; [|done]. by intros [= <-].
  - unfold step_consumer, run. intros (pc & _ & E0)%bind_Some. revert E0.
    destruct (Transfer.consume_completions _ _ _ _ _) as [[pc' qs] w| |] eqn:E; try done. intros [= <-]. by eapply consume_keeps.
  - unfold step_producer, run. intros (pc & _ & E0)%bind_Some. revert E0.
    destruct (produce_commands _ _ _ _ _ _ _ _) as [[pc' qs] w| |] eqn:E; try done. intros [= <-]. by eapply produce_keeps.
  - unfold step_fetch. intros (q & _ & (c & _ & E)%bind_Some)%bind_Some. by destruct (_ =? _); [|injection E as <-].
  - unfold step_complete.
    intros (q0 & _ & (q & _ & (c & _ & (j & _ & (cmd & _ & E)%bind_Some)%bind_Some)%bind_Some)%bind_Some)%bind_Some.
    by destruct (_ =? _); [|injection E as <-].
Qed.

(** Every execution of a transfer. *)
Lemma transfer_run_keeps io s s' : rtc (tstep d buf ioaddrs write n_queues size io) s s' -> same_handles (ts_w s) (ts_w s').
Proof. induction 1 as [|s s1 s2 (ev & Hev & _) _ IH]; [done|]. etrans; [by eapply tsys_step_keeps|done]. Qed.
End transfer.
