(* ===== verification/ReadPrograms.v ===== *)
(** * What the programs of [examples/read-blocks] share

    [get_disk_info] and [create_queue_pair] of [read.c] on the handles the programs
    own, the output of what was read, and handles that may not have been made yet,
    as the programs' exits find them. The threads of [read_and_dump] are the subject of
    [ReadBlocks]; here they are any computation that leaves the handles alone. *)
From Stdlib Require Import String Ascii.
From iris.proofmode Require Import proofmode.
From S2P Require Import Prelude Bits Memory Effects Types Runtime Command Error Queue DisDevice DisMap Ctrl Dma DisDma Rpc DisRpc Admin Lane Device ReadBlocks CArgs Options Owned Handles SegmentHandles AdminHandles Programs.
#[local] Open Scope list_scope.

(** [command] and [completion] are the addresses of the local messages of the admin
    functions, [identify] that of the local structures that are filled in. *)
Section read.
Context `{RpcCallbacks} `{Build} (command completion identify : Z).

(** On an error what [info] holds is not used. *)
Definition get_disk_info (ref ns_id ptr ioaddr : Z) : UM (Z * option disk_info) :=
  '(status, ctrl_info) ← nvm_admin_ctrl_info command completion ref identify ptr ioaddr;
  if negb (nvm_ok status) then mret (status, None)
  else
    '(status, ns_info) ← nvm_admin_ns_info command completion ref identify ns_id ptr ioaddr;
    if negb (nvm_ok status) then mret (status, None)
    else
      match ctrl_info, ns_info with
      | Some c, Some n => mret (0, Some (DiskInfo (ns_ns_id n) (ci_max_data_size c) (ci_page_size c) (ns_lba_data_size n)))
      | _, _ => fail Uninitialised
      end.

(** The pair holds what the handles [cq_mem] and [sq_mem] refer to. *)
Definition create_queue_pair (ref cq_mem sq_mem : Z) : UM (Z * option queue_pair) :=
  status ← nvm_admin_set_num_queues command completion ref 1 1;
  if negb (nvm_ok status) then mret (status, None)
  else
    c ← load_dma cq_mem;
    upd_mem (fun m => memset m (dma_vaddr c) 0 (Z.to_nat (dma_page_size c)));;
    ioaddr ← ioaddr_at c 0;
    '(status, cq) ← nvm_admin_cq_create command completion ref 2 (dma_vaddr c) ioaddr;
    if negb (nvm_ok status) then mret (status, None)
    else
      s ← load_dma sq_mem;
      upd_mem (fun m => memset m (dma_vaddr s) 0 (Z.to_nat (dma_page_size c)));;
      match cq with
      | None => fail Uninitialised
      | Some cq =>
          ioaddr ← ioaddr_at s 0;
          '(status, sq) ← nvm_admin_sq_create command completion ref cq 2 (dma_vaddr s) ioaddr;
          if negb (nvm_ok status) then mret (status, None)
          else
            match sq with
            | None => fail Uninitialised
            | Some sq => mret (0, Some (QueuePair s c sq cq false 0))
            end
      end.

(** To a file; printing has no other effect. *)
Definition dump_memory (buffer : nvm_dma_t) (args : options) (size : Z) : UM unit :=
  match oa_output args with
  | Some output =>
      fp ← ext (Fopen output (lit "w"));
      if r_val fp =? 0 then mret tt
      else
        m ← get_mem;
        ext (Fwrite (r_val fp) (bytes_at (Z.to_nat size) m (dma_vaddr buffer)));;
        ext (Fclose (r_val fp));;
        mret tt
  | None => mret tt
  end.
End read.

(** The threads, as a computation on the queues and the buffer: they may fail to be
    started. *)
Abbreviation reader := (disk_info -> queue_pair -> nvm_dma_t -> Z -> UM Z).

Definition read_and_dump (threads : reader) (disk : disk_info) (qp : queue_pair) (buffer : Z) (args : options) : UM Z :=
  b ← load_dma buffer;
  status ← threads disk qp b (oa_offset args);
  if negb (status =? 0) then mret status
  else
    dump_memory b args (u64 (oa_num_blocks args * di_block_size disk));;
    mret 0.

(** They end, and leave all handles and resources alone. *)
Definition quiet_reader (e : uenv) (threads : reader) : Prop :=
  forall d qp b offset w, wp e (threads d qp b offset) w (fun _ w' => w_st w' = w_st w /\ moved w w' (fun _ => 0)).

(** ** Specifications *)

Section specs.
Context `{RpcCallbacks} `{Build} (command completion identify : Z) (e : uenv) (k : Z).
Hypothesis Hpf : platform e k.
#[local] Abbreviation E := arithmetic.

Section reference.
Context (ref ctrl : Z) (A : hprop) `{!Reference e ref ctrl A} (ct : controller).

(** The pages of the disk are those of the host. *)
Definition disk_ok (d : disk_info) : Prop := di_page_size d = 2 ^ k /\ 0 < di_block_size d.

Lemma owp_get_disk_info ns_id ptr ioaddr (Q : Z * option disk_info -> hprop) :
  A -∗ ctrl_handle k ctrl ct -∗
  ((∀ s, ⌜s <> 0⌝ → A -∗ ctrl_handle k ctrl ct -∗ Q (s, None))
   ∧ (∀ d, ⌜disk_ok d⌝ → A -∗ ctrl_handle k ctrl ct -∗ Q (0, Some d))) -∗
  owp e E (get_disk_info command completion identify ref ns_id ptr ioaddr) Q.
Proof.
  iIntros "A C Q". unfold get_disk_info, nvm_ok. o_step. iApply (owp_admin_ctrl_info with "A C"); [done|]. iIntros (s i Hi) "A C".
  repeat o_step. { iDestruct "Q" as "[Q _]". by iApply ("Q" with "[] A C"). }
  destruct Hi as (ci & -> & Hps).
  iApply (owp_admin_ns_info with "A C"). iIntros (s' j Hj) "A C".
  repeat o_step. { iDestruct "Q" as "[Q _]". by iApply ("Q" with "[] A C"). }
  destruct Hj as (ni & -> & Hbs). o_step. iDestruct "Q" as "[_ Q]". by iApply ("Q" with "[] A C").
Qed.

Lemma owp_set_num_queues n_cqs n_sqs (Q : Z -> hprop) :
  A -∗ (∀ s, A -∗ Q s) -∗ owp e E (nvm_admin_set_num_queues command completion ref n_cqs n_sqs) Q.
Proof.
  iIntros "A Q". unfold nvm_admin_set_num_queues. o_step. iApply (owp_admin_request_num_queues with "A"). iIntros (s n Hn) "A".
  o_step. by iApply "Q".
Qed.

Lemma owp_create_queue_pair cq sq bc bs (Q : Z * option queue_pair -> hprop) : 2 ^ k <= bc -> 2 ^ k <= bs ->
  A -∗ ctrl_handle k ctrl ct -∗ new_dma k bc cq -∗ new_dma k bs sq -∗
  (∀ s q, ⌜s = 0 -> is_Some q⌝ → A -∗ ctrl_handle k ctrl ct -∗ new_dma k bc cq -∗ new_dma k bs sq -∗ Q (s, q)) -∗
  owp e E (create_queue_pair command completion ref cq sq) Q.
Proof.
  iIntros (Hbc Hbs) "A C X Y Q". unfold create_queue_pair, nvm_ok. o_step. iApply (owp_set_num_queues with "A"). iIntros (s) "A".
  pose proof (page_bounds _ _ Hpf).
  repeat o_step. { by iApply ("Q" with "[] A C X Y"). }
  iApply (owp_load_window with "X"). iIntros (c [Hpc Hlc]) "X". repeat o_step. iApply owp_ioaddr_at; [nia|]. iIntros (a). o_step.
  iApply (owp_admin_cq_create with "A C"). iIntros (s qc Hqc) "A C". repeat o_step. { by iApply ("Q" with "[] A C X Y"). }
  iApply (owp_load_window with "Y"). iIntros (d [Hpd Hld]) "Y". repeat o_step. destruct Hqc as [c' ->].
  o_step. iApply owp_ioaddr_at; [nia|]. iIntros (a'). o_step.
  iApply (owp_admin_sq_create with "A C"). iIntros (s qs Hqs) "A C". repeat o_step. { by iApply ("Q" with "[] A C X Y"). }
  destruct Hqs as [s' ->]. o_step. iApply ("Q" with "[] A C X Y"). by eauto.
Qed.
End reference.

Lemma owp_read_and_dump threads disk qp buffer args bytes (Q : Z -> hprop) : quiet_reader e threads ->
  new_dma k bytes buffer -∗ (∀ s, new_dma k bytes buffer -∗ Q s) -∗ owp e E (read_and_dump threads disk qp buffer args) Q.
Proof.
  iIntros (Ht) "W Q". unfold read_and_dump. o_step. iApply (owp_load_window with "W"). iIntros (b Hb) "W". o_step.
  iApply (owp_inert _ _ _ (fun _ => True)).
  { intros w. eapply wp_mono; [apply Ht|]. intros s w' [? ?]. done. }
  iIntros (s _). unfold dump_memory. repeat o_step; first [iApply ("Q" with "W") | idtac].
  destruct (oa_output args); repeat o_step; iApply ("Q" with "W").
Qed.

(** ** What a program may not have made yet *)

Definition dma_or_null (h : Z) : hprop := (⌜h = NULL⌝ ∧ emp) ∨ (∃ bytes, new_dma k bytes h).
Definition mem_or_null (p : Z) : hprop := (⌜p = NULL⌝ ∧ emp) ∨ (⌜p <> NULL⌝ ∧ own (KMem p)).
Definition ctrl_or_null (p : Z) : hprop := (⌜p = NULL⌝ ∧ emp) ∨ new_ctrl k p.
Definition aq_or_null (p : Z) : hprop := (⌜p = NULL⌝ ∧ emp) ∨ (∃ ctrl, aq_local ctrl p).

Lemma null_dma : ⊢ dma_or_null NULL.
Proof. iLeft. by iSplit. Qed.
Lemma null_mem : ⊢ mem_or_null NULL.
Proof. iLeft. by iSplit. Qed.
Lemma null_ctrl : ⊢ ctrl_or_null NULL.
Proof. iLeft. by iSplit. Qed.
Lemma null_aq : ⊢ aq_or_null NULL.
Proof. iLeft. by iSplit. Qed.
Lemma some_dma bytes h : new_dma k bytes h ⊢ dma_or_null h.
Proof. iIntros "W". iRight. by iExists bytes. Qed.
Lemma some_mem p : p <> NULL -> own (KMem p) ⊢ mem_or_null p.
Proof. iIntros (Hp) "M". iRight. by iSplit. Qed.
Lemma some_ctrl p ct : ctrl_handle k p ct ⊢ ctrl_or_null p.
Proof. iIntros "C". iRight. by iExists ct. Qed.
Lemma some_aq ctrl p : aq_local ctrl p ⊢ aq_or_null p.
Proof. iIntros "C". iRight. by iExists ctrl. Qed.

Lemma owp_unmap_or_null h (Q : unit -> hprop) : dma_or_null h -∗ Q tt -∗ owp e E (nvm_dma_unmap h) Q.
Proof.
  iIntros "[[-> _]|(%b & W)] Q"; [by iApply owp_ret|]. by iApply (owp_unmap with "W").
Qed.
Lemma owp_free_mem_or_null p (Q : unit -> hprop) : mem_or_null p -∗ Q tt -∗ owp e E (free_mem p) Q.
Proof.
  iIntros "[[-> _]|[%Hp M]] Q"; [by iApply owp_ret|]. by iApply (owp_free_mem with "M").
Qed.
Lemma owp_ctrl_free_or_null p (Q : unit -> hprop) : ctrl_or_null p -∗ Q tt -∗ owp e E (nvm_ctrl_free p) Q.
Proof.
  iIntros "[[-> _]|(%ct & C)] Q"; [by iApply owp_ret|]. by iApply (owp_free_ctrl with "C").
Qed.
Lemma owp_aq_destroy_or_null p (Q : unit -> hprop) : aq_or_null p -∗ (residue 1 0 -∗ Q tt) -∗ owp e E (nvm_aq_destroy p) Q.
Proof.
  iIntros "[[-> _]|(%c & A)] Q"; [|by iApply (owp_aq_destroy with "A")].
  iApply owp_ret. iApply "Q". iApply residue_nothing.
Qed.
End specs.

(** One of the handles a program exits with. *)
Ltac or_null :=
  first
  [ iApply null_dma | iApply null_mem | iApply null_ctrl | iApply null_aq
  | iSelect (new_dma _ _ _) (fun H => iApply (some_dma with H))
  | iSelect (own (KMem _)) (fun H => iApply (some_mem with H); done)
  | iSelect (ctrl_handle _ _ _) (fun H => iApply (some_ctrl with H))
  | iSelect (aq_local _ _) (fun H => iApply (some_aq with H)) ].

(** Threads that only ring the doorbell of the submission queue. *)
Definition one_submit : reader := fun _ qp _ _ => sq ← nvm_sq_submit (qp_sq qp); mret 0.

Lemma one_submit_quiet e : quiet_reader e one_submit.
Proof.
  intros d qp b offset w. unfold one_submit, nvm_sq_submit. repeat led_step; (split; [done|solve_moved]).
Qed.
