(* ===== verification/ReadModule.v ===== *)
(** * [examples/read-blocks/module.c]

    The program that reads blocks through the kernel module. *)
From Stdlib Require Import String Ascii.
From iris.proofmode Require Import proofmode.
From S2P Require Import Prelude Bits Memory Effects Types Runtime Command Error Queue DisDevice DisMap Ctrl Dma DisDma Rpc DisRpc Admin Lane Device ReadBlocks CArgs Options Owned Handles SegmentHandles AdminHandles Programs ReadPrograms.
#[local] Open Scope list_scope.

Section module.
Context `{RpcCallbacks} `{Build} (command completion identify : Z) (threads : reader).

(** What [prepare_and_read] does after its label. *)
Definition leave_read (buffer sq_mem cq_mem buffer_ptr queue_ptr status : Z) : UM Z :=
  nvm_dma_unmap buffer;;
  nvm_dma_unmap sq_mem;;
  nvm_dma_unmap cq_mem;;
  free_mem buffer_ptr;;
  free_mem queue_ptr;;
  mret status.

(** A failing [posix_memalign] leaves the pointer alone. *)
Definition prepare_and_read (ref : Z) (disk : disk_info) (args : options) : UM Z :=
  let page_size := di_page_size disk in
  let n_prp_lists := page_size / sizeof_cmd in
  let size := u64 (oa_num_blocks args * di_block_size disk) in
  ctrl ← nvm_ctrl_from_aq_ref ref;
  c ← load_ctrl ctrl;
  b ← ext (Posix_memalign page_size (NVM_CTRL_ALIGN c size));
  if negb (r_val b =? 0) then leave_read NULL NULL NULL NULL NULL (r_val b)
  else
    let buffer_ptr := r_val2 b in
    q ← ext (Posix_memalign page_size (u64 (page_size * (n_prp_lists + 2))));
    if negb (r_val q =? 0) then leave_read NULL NULL NULL buffer_ptr NULL (r_val q)
    else
      let queue_ptr := r_val2 q in
      '(status, sq_mem) ← nvm_dma_map_host ctrl (NVM_PTR_OFFSET queue_ptr page_size 1) (u64 (page_size * (n_prp_lists + 1)));
      if negb (nvm_ok status) then leave_read NULL sq_mem NULL buffer_ptr queue_ptr status
      else
        '(status, cq_mem) ← nvm_dma_map_host ctrl queue_ptr page_size;
        if negb (nvm_ok status) then leave_read NULL sq_mem cq_mem buffer_ptr queue_ptr status
        else
          '(status, buffer) ← nvm_dma_map_host ctrl buffer_ptr size;
          if negb (nvm_ok status) then leave_read buffer sq_mem cq_mem buffer_ptr queue_ptr status
          else
            '(status, queues) ← create_queue_pair command completion ref cq_mem sq_mem;
            if negb (status =? 0) then leave_read buffer sq_mem cq_mem buffer_ptr queue_ptr status
            else
              match queues with
              | None => fail Uninitialised
              | Some queues =>
                  status ← read_and_dump threads disk queues buffer args;
                  leave_read buffer sq_mem cq_mem buffer_ptr queue_ptr status
              end.

(** What [main] does after its label. *)
Definition leave_main (aq_ref aq_mem aq_ptr ctrl fd status : Z) : UM Z :=
  nvm_aq_destroy aq_ref;;
  nvm_dma_unmap aq_mem;;
  free_mem aq_ptr;;
  nvm_ctrl_free ctrl;;
  ext (Close fd);;
  mret status.

(** Returns the exit status. *)
Definition main (opts : list opt) : UM Z :=
  match parse_options false opts with
  | Exit c => mret c
  | Parsed args =>
      f ← ext (Open (default [] (oa_controller_path args)));
      let fd := r_val f in
      if fd <? 0 then mret 1
      else
        '(status, ctrl) ← nvm_ctrl_init fd;
        if negb (nvm_ok status) then leave_main NULL NULL NULL ctrl fd status
        else
          c ← load_ctrl ctrl;
          m ← ext (Posix_memalign (ctrl_page_size c) (u64 (ctrl_page_size c * 3)));
          if negb (r_val m =? 0) then leave_main NULL NULL NULL ctrl fd (r_val m)
          else
            let aq_ptr := r_val2 m in
            '(status, aq_mem) ← nvm_dma_map_host ctrl aq_ptr (u64 (ctrl_page_size c * 3));
            if negb (nvm_ok status) then leave_main NULL aq_mem aq_ptr ctrl fd status
            else
              '(status, aq_ref) ← nvm_aq_create ctrl aq_mem;
              if negb (nvm_ok status) then leave_main aq_ref aq_mem aq_ptr ctrl fd status
              else
                w ← load_dma aq_mem;
                ioaddr ← ioaddr_at w 2;
                '(status, disk) ← get_disk_info command completion identify aq_ref (oa_namespace_id args) (NVM_DMA_OFFSET w 2) ioaddr;
                if negb (status =? 0) then leave_main aq_ref aq_mem aq_ptr ctrl fd status
                else
                  match disk with
                  | None => fail Uninitialised
                  | Some disk =>
                      status ← prepare_and_read aq_ref disk args;
                      leave_main aq_ref aq_mem aq_ptr ctrl fd status
                  end
  end.

Context (e : uenv) (k : Z).
Hypothesis Hpf : platform e k.
Hypothesis Hmap : maps_pages e.
Hypothesis Hthreads : quiet_reader e threads.
#[local] Abbreviation E := arithmetic.

Lemma owp_leave_read b s c bp qp status (Q : Z -> hprop) :
  dma_or_null k b -∗ dma_or_null k s -∗ dma_or_null k c -∗ mem_or_null bp -∗ mem_or_null qp -∗ Q status -∗
  owp e E (leave_read b s c bp qp status) Q.
Proof.
  iIntros "B S C P R Q". unfold leave_read.
  o_step. iApply (owp_unmap_or_null with "B"); [done|]. o_step. iApply (owp_unmap_or_null with "S"); [done|].
  o_step. iApply (owp_unmap_or_null with "C"); [done|]. o_step. iApply (owp_free_mem_or_null with "P").
  o_step. iApply (owp_free_mem_or_null with "R"). by o_step.
Qed.

Lemma owp_prepare_and_read ref ctrl ct disk args (Q : Z -> hprop) : disk_ok k disk ->
  aq_local ctrl ref -∗ ctrl_handle k ctrl ct -∗ (∀ s, aq_local ctrl ref -∗ ctrl_handle k ctrl ct -∗ Q s) -∗
  owp e E (prepare_and_read ref disk args) Q.
Proof.
  iIntros ([Hps Hbs]) "A C Q". unfold prepare_and_read, nvm_ok. rewrite Hps. o_step. iApply (owp_ctrl_from_ref with "A"). iIntros "A".
  o_step. iApply (owp_load_handle with "C"). iIntros (Hcps) "C". unfold NVM_CTRL_ALIGN. rewrite Hcps.
  pose proof (page_bounds _ _ Hpf).
  pose proof (page_entries _ _ Hpf : 0 < 2 ^ k / sizeof_cmd < 2 ^ 26).
  destruct (pages_aligned e k Hpf (2 ^ k / sizeof_cmd + 1) ltac:(lia)) as [Hu Ha].
  rewrite (Z.mul_comm (2 ^ k) (2 ^ k / sizeof_cmd + 1)) Hu.
  o_step. iApply owp_memalign; [done|]. iIntros (b). iSplit; [iIntros ([? ?]) "B"|iIntros (?)].
  2: { odecide. iApply (owp_leave_read with "[] [] [] [] []"); [or_null..|]. iApply ("Q" with "A C"). }
  o_step. iApply owp_memalign; [done|]. iIntros (q). iSplit; [iIntros ([? ?]) "R"|iIntros (?)].
  2: { odecide. iApply (owp_leave_read with "[] [] [] [B] []"); [or_null..|]. iApply ("Q" with "A C"). }
  o_step. iApply (owp_map_window with "C"); [done|done|]. rewrite Ha. iSplit; [iIntros (s Hs) "C"|iIntros (sq Hsq) "C S"].
  { odecide. iApply (owp_leave_read with "[] [] [] [B] [R]"); [or_null..|]. iApply ("Q" with "A C"). }
  o_step. iApply (owp_map_window with "C"); [done|done|]. rewrite (one_page e k Hpf (2 ^ k)); [|lia]. iSplit; [iIntros (s Hs) "C"|iIntros (cq Hcq) "C D"].
  { odecide. iApply (owp_leave_read with "[] [S] [] [B] [R]"); [or_null..|]. iApply ("Q" with "A C"). }
  o_step. iApply (owp_map_window with "C"); [done|done|]. iSplit; [iIntros (s Hs) "C"|iIntros (w Hw) "C W"].
  { odecide. iApply (owp_leave_read with "[] [S] [D] [B] [R]"); [or_null..|]. iApply ("Q" with "A C"). }
  o_step. iApply (owp_create_queue_pair with "A C D S"); [done|lia|nia|]. iIntros (s qp Hqp) "A C D S". repeat o_step.
  { iApply (owp_leave_read with "[W] [S] [D] [B] [R]"); [or_null..|]. iApply ("Q" with "A C"). }
  destruct Hqp as [x ->]. o_step. iApply (owp_read_and_dump with "W"); [done|]. iIntros (s) "W".
  iApply (owp_leave_read with "[W] [S] [D] [B] [R]"); [or_null..|]. iApply ("Q" with "A C").
Qed.

Lemma owp_leave_main aq am ap c fd status (Q : Z -> hprop) :
  aq_or_null aq -∗ dma_or_null k am -∗ mem_or_null ap -∗ ctrl_or_null k c -∗ own (KFd fd) -∗ (residue 1 0 -∗ Q status) -∗
  owp e E (leave_main aq am ap c fd status) Q.
Proof.
  iIntros "A W M C F Q". unfold leave_main.
  o_step. iApply (owp_aq_destroy_or_null with "A"); [done|]. iIntros "R". o_step. iApply (owp_unmap_or_null with "W"); [done|].
  o_step. iApply (owp_free_mem_or_null with "M"). o_step. iApply (owp_ctrl_free_or_null with "C"); [done|].
  repeat o_step. by iApply "Q".
Qed.

Lemma owp_read_main opts : ⊢ owp e E (main opts) (fun _ => residue 1 0).
Proof.
  iStartProof. unfold main, nvm_ok. destruct (parse_options false opts) as [c|args]; [o_step; iApply residue_nothing|].
  pose proof (page_bounds _ _ Hpf). destruct (pages_aligned e k Hpf 3 ltac:(lia)) as [Hu Ha].
  repeat o_step; [|iApply residue_nothing]. iRename select (own (KFd _)) into "F". o_creates (owp_ctrl_init _ _ _ Hpf _).
  { odecide. iApply (owp_leave_main with "[] [] [] [] F"); [or_null..|]. auto. }
  iSelect (new_ctrl _ _) (fun H => iDestruct H as (ct) "C"). o_step. iApply (owp_load_handle with "C"). iIntros (Hcps) "C".
  rewrite Hcps (Z.mul_comm (2 ^ k) 3) Hu.
  o_step. iApply owp_memalign; [done|]. iIntros (m). iSplit; [iIntros ([? ?]) "M"|iIntros (?)].
  2: { odecide. iApply (owp_leave_main with "[] [] [] [C] F"); [or_null..|]. auto. }
  o_step. iApply (owp_map_window with "C"); [done|done|]. rewrite Ha. iSplit; [iIntros (s Hs') "C"|iIntros (h Hh) "C W"].
  { odecide. iApply (owp_leave_main with "[] [] [M] [C] F"); [or_null..|]. auto. }
  o_step. iApply (owp_make_aq with "C W"); [done|]. iSplit; [iIntros (s Hs') "C W"|iIntros (aq [Haq0 Haq]) "C W A"].
  { odecide. iApply (owp_leave_main with "[] [W] [M] [C] F"); [or_null..|]. auto. }
  o_step. iApply (owp_load_window with "W"). iIntros (d Hd) "W". o_step. iApply owp_ioaddr_at; [eapply window_length; [done|done|lia]|]. iIntros (a).
  o_step. iApply (owp_get_disk_info with "A C"); [done|]. iSplit; [iIntros (s Hs') "A C"|iIntros (disk Hdisk) "A C"].
  { odecide. iApply (owp_leave_main with "[A] [W] [M] [C] F"); [or_null..|]. auto. }
  o_step. iApply (owp_prepare_and_read with "A C"); [done|]. iIntros (s) "A C".
  iApply (owp_leave_main with "[A] [W] [M] [C] F"); [or_null..|]. auto.
Qed.
End module.


#[local] Instance read_build : Build := {| NDEBUG := false; CUDA := false |}.

