(* ===== verification/ReadSmartio.v ===== *)
(** * [examples/read-blocks/smartio.c]

    The program that reads blocks from a borrowed controller over the network. *)
From Stdlib Require Import String Ascii.
From iris.proofmode Require Import proofmode.
From S2P Require Import Prelude Bits Memory Effects Types Runtime Command Error Queue DisDevice DisMap Ctrl Dma DisDma Rpc DisRpc Admin Lane Device ReadBlocks CArgs Options Owned Handles SegmentHandles AdminHandles Programs ReadPrograms.
#[local] Open Scope list_scope.

Section smartio.
Context `{RpcCallbacks} `{Build} (command completion identify : Z) (threads : reader).

(** What the program does after its label. *)
Definition leave_smartio (cq_mem sq_mem buffer aq_ref aq_mem ctrl status : Z) : UM Z :=
  nvm_dma_unmap cq_mem;;
  nvm_dma_unmap sq_mem;;
  nvm_dma_unmap buffer;;
  nvm_aq_destroy aq_ref;;
  nvm_dma_unmap aq_mem;;
  nvm_ctrl_free ctrl;;
  ext SCITerminate;;
  mret status.

(** Returns the exit status. *)
Definition main (opts : list opt) : UM Z :=
  match parse_options true opts with
  | Exit c => mret c
  | Parsed args =>
      i ← ext SCIInitialize;
      if negb (is_ok (r_sci i)) then mret 1
      else
        '(status, ctrl) ← nvm_dis_ctrl_init (oa_controller_id args) (oa_adapter args);
        if negb (nvm_ok status) then leave_smartio NULL NULL NULL NULL NULL ctrl status
        else
          let id := oa_segment_id args in
          c ← load_ctrl ctrl;
          '(status, aq_mem) ← nvm_dis_dma_create ctrl (oa_adapter args) id (u64 (ctrl_page_size c * 3));
          if negb (nvm_ok status) then leave_smartio NULL NULL NULL NULL aq_mem ctrl status
          else
            '(status, aq_ref) ← nvm_aq_create ctrl aq_mem;
            if negb (nvm_ok status) then leave_smartio NULL NULL NULL aq_ref aq_mem ctrl status
            else
              w ← load_dma aq_mem;
              ioaddr ← ioaddr_at w 2;
              '(status, disk) ← get_disk_info command completion identify aq_ref (oa_namespace_id args) (NVM_DMA_OFFSET w 2) ioaddr;
              if negb (status =? 0) then leave_smartio NULL NULL NULL aq_ref aq_mem ctrl status
              else
                match disk with
                | None => fail Uninitialised
                | Some info =>
                    '(status, buffer) ← nvm_dis_dma_create ctrl (oa_adapter args) (u32 (id + 1)) (u64 (oa_num_blocks args * di_block_size info));
                    if negb (nvm_ok status) then leave_smartio NULL NULL buffer aq_ref aq_mem ctrl status
                    else
                      c ← load_ctrl ctrl;
                      '(status, cq_mem) ← nvm_dis_dma_create ctrl (oa_adapter args) (u32 (id + 2)) (ctrl_page_size c);
                      if negb (nvm_ok status) then leave_smartio cq_mem NULL buffer aq_ref aq_mem ctrl status
                      else
                        let n_prp_lists := ctrl_page_size c / sizeof_cmd in
                        let n_prp_lists := if ctrl_max_entries c <? n_prp_lists then ctrl_max_entries c else n_prp_lists in
                        '(status, sq_mem) ← nvm_dis_dma_connect ctrl (oa_adapter args) 1 (u64 (ctrl_page_size c * (n_prp_lists + 1))) true;
                        if negb (nvm_ok status) then leave_smartio cq_mem sq_mem buffer aq_ref aq_mem ctrl status
                        else
                          '(status, queues) ← create_queue_pair command completion aq_ref cq_mem sq_mem;
                          if negb (nvm_ok status) then leave_smartio cq_mem sq_mem buffer aq_ref aq_mem ctrl status
                          else
                            match queues with
                            | None => fail Uninitialised
                            | Some queues =>
                                status ← read_and_dump threads info queues buffer args;
                                leave_smartio cq_mem sq_mem buffer aq_ref aq_mem ctrl status
                            end
                end
  end.

Context (e : uenv) (k : Z).
Hypothesis Hpf : platform e k.
Hypothesis Hthreads : quiet_reader e threads.
#[local] Abbreviation E := arithmetic.

Lemma owp_leave_smartio cq sq b aq am c status (Q : Z -> hprop) :
  dma_or_null k cq -∗ dma_or_null k sq -∗ dma_or_null k b -∗ aq_or_null aq -∗ dma_or_null k am -∗ ctrl_or_null k c -∗ own KSci -∗
  (residue 1 0 -∗ Q status) -∗ owp e E (leave_smartio cq sq b aq am c status) Q.
Proof.
  iIntros "X Y B A W C S Q". unfold leave_smartio.
  o_step. iApply (owp_unmap_or_null with "X"); [done|]. o_step. iApply (owp_unmap_or_null with "Y"); [done|].
  o_step. iApply (owp_unmap_or_null with "B"); [done|]. o_step. iApply (owp_aq_destroy_or_null with "A"); [done|]. iIntros "R".
  o_step. iApply (owp_unmap_or_null with "W"); [done|]. o_step. iApply (owp_ctrl_free_or_null with "C"); [done|].
  repeat o_step. by iApply "Q".
Qed.

Lemma owp_read_smartio opts : ⊢ owp e E (main opts) (fun _ => residue 1 3).
Proof.
  iStartProof. unfold main, nvm_ok. destruct (parse_options true opts) as [c|args]; [o_step; iApply residue_nothing|].
  pose proof (page_bounds _ _ Hpf). destruct (pages_aligned e k Hpf 3 ltac:(lia)) as [Hu Ha].
  repeat o_step; [|iApply residue_nothing]. iRename select (own KSci) into "K". o_creates (owp_dis_ctrl_init _ _ _ Hpf _ _).
  { odecide. iApply (owp_leave_smartio with "[] [] [] [] [] [] K"); [or_null..|]. iIntros "R". iApply (residue_mono with "R"); lia. }
  iSelect (new_ctrl _ _) (fun H => iDestruct H as (ct) "C"). o_step. iApply (owp_load_handle with "C"). iIntros (Hcps) "C".
  rewrite Hcps (Z.mul_comm (2 ^ k) 3) Hu.
  o_step. iApply (owp_make_segment with "C"); [done|]. iIntros "L1". rewrite Ha. iSplit; [iIntros (s Hs') "C"|iIntros (am Ham) "C W"].
  { odecide. iApply (owp_leave_smartio with "[] [] [] [] [] [C] K"); [or_null..|]. iIntros "R". iApply (residue_join with "L1 R"); lia. }
  o_step. iApply (owp_make_aq with "C W"); [done|]. iSplit; [iIntros (s Hs') "C W"|iIntros (aq [Haq0 Haq]) "C W A"].
  { odecide. iApply (owp_leave_smartio with "[] [] [] [] [W] [C] K"); [or_null..|]. iIntros "R". iApply (residue_join with "L1 R"); lia. }
  o_step. iApply (owp_load_window with "W"). iIntros (d Hd) "W". o_step. iApply owp_ioaddr_at; [eapply window_length; [done|done|lia]|]. iIntros (a).
  o_step. iApply (owp_get_disk_info with "A C"); [done|]. iSplit; [iIntros (s Hs') "A C"|iIntros (disk Hdisk) "A C"].
  { odecide. iApply (owp_leave_smartio with "[] [] [] [A] [W] [C] K"); [or_null..|]. iIntros "R". iApply (residue_join with "L1 R"); lia. }
  o_step. iApply (owp_make_segment with "C"); [done|]. iIntros "L2". iDestruct (residue_join _ _ _ _ 0 2 with "L1 L2") as "L"; [lia..|].
  iSplit; [iIntros (s Hs') "C"|iIntros (b Hb') "C B"].
  { odecide. iApply (owp_leave_smartio with "[] [] [] [A] [W] [C] K"); [or_null..|]. iIntros "R". iApply (residue_join with "L R"); lia. }
  o_step. iDestruct "C" as "[%Hok C]". iAssert (ctrl_handle k p ct) with "[C]" as "C"; [by iSplit|].
  iApply (owp_load_handle with "C"). iIntros (_) "C". rewrite Hcps.
  o_step. iApply (owp_make_segment with "C"); [done|]. iIntros "L3". iDestruct (residue_join _ _ _ _ 0 3 with "L L3") as "L"; [lia..|].
  rewrite (one_page e k Hpf (2 ^ k)); [|lia]. iSplit; [iIntros (s Hs') "C"|iIntros (cq Hcq) "C X"].
  { odecide. iApply (owp_leave_smartio with "[] [] [B] [A] [W] [C] K"); [or_null..|]. iIntros "R". iApply (residue_join with "L R"); lia. }
  pose proof (page_entries _ _ Hpf : 0 < 2 ^ k / sizeof_cmd < 2 ^ 26). destruct Hok as [_ Hent].
  set (n := if ctrl_max_entries (ct_handle ct) <? 2 ^ k / sizeof_cmd then ctrl_max_entries (ct_handle ct) else 2 ^ k / sizeof_cmd).
  assert (0 <= n < 2 ^ 26) as Hn by (unfold n; destruct (_ <? _); lia).
  destruct (pages_aligned e k Hpf (n + 1) ltac:(lia)) as [Hun Han]. rewrite (Z.mul_comm (2 ^ k) (n + 1)) Hun.
  o_step. iApply (owp_connect_segment with "C"); [done|]. rewrite Han. iSplit; [iIntros (s Hs') "C"|iIntros (sq Hsq) "C Y"].
  { odecide. iApply (owp_leave_smartio with "[X] [] [B] [A] [W] [C] K"); [or_null..|]. iIntros "R". iApply (residue_join with "L R"); lia. }
  o_step. iApply (owp_create_queue_pair with "A C X Y"); [done|lia|nia|]. iIntros (s qp Hqp) "A C X Y". repeat o_step.
  { iApply (owp_leave_smartio with "[X] [Y] [B] [A] [W] [C] K"); [or_null..|]. iIntros "R". iApply (residue_join with "L R"); lia. }
  destruct Hqp as [x ->]. o_step. iApply (owp_read_and_dump with "B"); [done|]. iIntros (s) "B".
  iApply (owp_leave_smartio with "[X] [Y] [B] [A] [W] [C] K"); [or_null..|]. iIntros "R". iApply (residue_join with "L R"); lia.
Qed.
End smartio.

(** The read program never accesses memory it does not own over SISCI either, for
    every page size. On every path it gives back
    windows, segments and the controller, and ends SISCI; one descriptor of the admin
    queues stays and, for each of the up to three segments it has made, the virtual device. *)
Theorem read_smartio_clean `{RpcCallbacks} `{Build} command completion identify threads e k opts w :
  platform e k -> quiet_reader e threads -> heap_ok w ->
  wpf e arithmetic (main command completion identify threads opts) w (fun _ w' => left_over 1 3 w w').
Proof. intros Hpf Ht. by apply owp_leaves, owp_read_smartio with k. Qed.

#[local] Instance smartio_build : Build := {| NDEBUG := false; CUDA := false |}.

Lemma read_smartio_clean_witness :
  let opts := [Opt (chr "c") (lit "1"); Opt (chr "b") (lit "1")] in
  wpf program_env arithmetic (main 0 0 0 one_submit opts) empty_world (fun _ w' => left_over 1 3 empty_world w').
Proof.
  exact (read_smartio_clean 0 0 0 one_submit program_env 12 _ _ program_platform (one_submit_quiet _) empty_heap_ok).
Defined.
