(* ===== verification/IntegrityQueues.v ===== *)
(** * Buffers and queues of [examples/integrity]

    [util.c] and the functions of [integrity.c] that make and remove the queues and
    identify the disk, with the owned assertion of an array of queues. *)
From iris.proofmode Require Import proofmode.
From S2P Require Import Prelude Bits Memory Effects Types Runtime Command Error Queue DisDevice DisMap Ctrl Dma DisDma Rpc DisRpc Admin Owned Handles SegmentHandles AdminHandles Programs.
#[local] Open Scope list_scope.

(** [command], [completion] and [info] are the addresses of local variables. *)
Section queues.
Context `{RpcCallbacks} `{Build} (command completion info : Z).

(** ** [util.c] *)

Definition create_buffer (ref size adapter id : Z) : UM (Z * option mem_buffer) :=
  ctrl ← nvm_ctrl_from_aq_ref ref;
  '(status, dma) ← nvm_dis_dma_create ctrl adapter id size;
  if negb (nvm_ok status) then mret (status, None)
  else
    w ← load_dma dma;
    upd_mem (fun m => memset m (dma_vaddr w) 0 (Z.to_nat (u64 (dma_page_size w * dma_n_ioaddrs w))));;
    mret (0, Some (MemBuffer id adapter dma)).

Definition remove_buffer (b : mem_buffer) : UM unit := nvm_dma_unmap (mb_dma b).

(** [cq] is the completion queue of a submission queue, which has room for a PRP list
    per entry. *)
Definition create_queue (ref : Z) (cq : option nvm_queue_t) (qno adapter id : Z) : UM (Z * option queue_desc) :=
  ctrl ← nvm_ctrl_from_aq_ref ref;
  c ← load_ctrl ctrl;
  let n_entries := ctrl_page_size c / sizeof_cmd in
  let prp_lists := match cq with
    | Some _ => if n_entries <=? ctrl_max_entries c then n_entries else ctrl_max_entries c
    | None => 0
    end in
  '(status, b) ← create_buffer ref (u64 (prp_lists * ctrl_page_size c + ctrl_page_size c)) adapter id;
  if negb (nvm_ok status) then mret (status, None)
  else
  match b with
  | None => fail Uninitialised
  | Some qmem =>
      w ← load_dma (mb_dma qmem);
      ioaddr ← ioaddr_at w 0;
      '(status, queue) ←
        match cq with
        | None => nvm_admin_cq_create command completion ref qno (NVM_DMA_OFFSET w 0) ioaddr
        | Some cq => nvm_admin_sq_create command completion ref cq qno (NVM_DMA_OFFSET w 0) ioaddr
        end;
      if negb (nvm_ok status) then remove_buffer qmem;; mret (status, None)
      else
        match queue with
        | None => fail Uninitialised
        | Some queue => mret (0, Some (QueueDesc qmem queue 0))
        end
  end.

Definition remove_queue (q : queue_desc) : UM unit := remove_buffer (qd_qmem q).

(** ** [integrity.c] *)

(** The remaining [n] queues from index [i]. *)
Fixpoint remove_loop (n i : nat) (queues : Z) : UM unit :=
  match n with
  | O => mret tt
  | S n' =>
      qs ← load (A:=list queue_desc) queues;
      match qs !! i with
      | None => fail BadPointer
      | Some q => remove_queue q;; remove_loop n' (S i) queues
      end
  end.

Definition remove_queues (queues n_queues : Z) : UM unit :=
  if negb (queues =? NULL) then remove_loop (Z.to_nat (n_queues + 1)) 0 queues;; free queues
  else mret tt.

(** What [calloc] makes. *)
Definition no_queue : queue_desc := QueueDesc (MemBuffer 0 0 NULL) (Queue 0 0 0 0 0 0 0 0 NULL 0) 0.

(** The remaining [n] submission queues from index [i]. *)
Fixpoint create_loop (n i : nat) (ref q adapter segment_id : Z) : UM Z :=
  match n with
  | O => mret 0
  | S n' =>
      qs ← load (A:=list queue_desc) q;
      match qs !! 0%nat with
      | None => fail BadPointer
      | Some cq =>
          '(status, d) ← create_queue ref (Some (qd_queue cq)) (Z.of_nat i + 1) adapter segment_id;
          if negb (status =? 0) then remove_queues q (Z.of_nat i);; mret status
          else
          match d with
          | None => fail Uninitialised
          | Some d =>
              qs ← load (A:=list queue_desc) q;
              store q (<[S i := d]> qs);;
              create_loop n' (S i) ref q adapter (u32 (segment_id + 1))
          end
      end
  end.

Definition request_queues (ref n_queues adapter segment_id : Z) : UM (Z * Z) :=
  '(status, counts) ← nvm_admin_request_num_queues command completion ref 1 n_queues;
  if negb (nvm_ok status) then mret (status, NULL)
  else
    match counts with
    | None => fail Uninitialised
    | Some (_, n_sqs) =>
        if n_sqs <? n_queues then mret (ENOMEM, NULL)
        else
          q ← malloc T_queues (n_queues + 1) (replicate (Z.to_nat (n_queues + 1)) no_queue);
          if q =? NULL then mret (ENOMEM, NULL)
          else
            '(status, d) ← create_queue ref None 1 adapter segment_id;
            if negb (status =? 0) then free q;; mret (status, NULL)
            else
            match d with
            | None => fail Uninitialised
            | Some d =>
                qs ← load (A:=list queue_desc) q;
                store q (<[0%nat := d]> qs);;
                status ← create_loop (Z.to_nat n_queues) 0 ref q adapter (u32 (segment_id + 1));
                mret (status, if status =? 0 then q else NULL)
            end
    end.

(** The copies made of what a failed command left indeterminate are not used. *)
Definition identify_controller (ref adapter segment_id : Z) : UM (Z * option (Z * Z)) :=
  ctrl ← nvm_ctrl_from_aq_ref ref;
  c ← load_ctrl ctrl;
  '(status, window) ← nvm_dis_dma_create ctrl adapter segment_id (ctrl_page_size c);
  if negb (nvm_ok status) then mret (status, None)
  else
    w ← load_dma window;
    ioaddr ← ioaddr_at w 0;
    '(status, i) ← nvm_admin_ctrl_info command completion ref info (dma_vaddr w) ioaddr;
    nvm_dma_unmap window;;
    mret (status, (fun i => (ci_page_size i, ci_max_data_size i)) <$> i).

Definition identify_namespace (ref ns_id adapter segment_id : Z) : UM (Z * option (Z * Z)) :=
  ctrl ← nvm_ctrl_from_aq_ref ref;
  c ← load_ctrl ctrl;
  '(status, window) ← nvm_dis_dma_create ctrl adapter segment_id (ctrl_page_size c);
  if negb (nvm_ok status) then mret (status, None)
  else
    w ← load_dma window;
    ioaddr ← ioaddr_at w 0;
    '(status, i) ← nvm_admin_ns_info command completion ref info ns_id (dma_vaddr w) ioaddr;
    nvm_dma_unmap window;;
    mret (status, (fun i => (ns_ns_id i, ns_lba_data_size i)) <$> i).

(** ** Specifications *)

Context (e : uenv) (k : Z).
Hypothesis Hpf : platform e k.
#[local] Abbreviation E := arithmetic.

Section reference.
Context (ref ctrl : Z) (A : hprop) `{!Reference e ref ctrl A} (ct : controller).

Definition buffer_holds (bytes : Z) (b : mem_buffer) : hprop := new_dma k bytes (mb_dma b).

(** The segment's virtual device stays open. *)
Lemma owp_create_buffer size adapter id (Q : Z * option mem_buffer -> hprop) :
  A -∗ ctrl_handle k ctrl ct -∗
  (residue 0 1 -∗ A -∗ ctrl_handle k ctrl ct -∗
   (∀ s, ⌜s <> 0⌝ → Q (s, None)) ∧ (∀ b, buffer_holds (NVM_PAGE_ALIGN size (2 ^ k)) b -∗ Q (0, Some b))) -∗
  owp e E (create_buffer ref size adapter id) Q.
Proof.
  iIntros "A C Q". unfold create_buffer, nvm_ok. o_step. iApply (owp_ctrl_from_ref with "A"). iIntros "A". o_step.
  iApply (owp_make_segment with "C"); [done|]. iIntros "R". iSplit; [iIntros (s Hs) "C"|iIntros (h Hh) "C W"].
  - repeat o_step. iDestruct ("Q" with "R A C") as "[Q _]". by iApply "Q".
  - repeat p_step. iDestruct ("Q" with "R A C") as "[_ Q]". by iApply "Q".
Qed.

Definition queue_holds (q : queue_desc) : hprop := ∃ bytes, buffer_holds bytes (qd_qmem q).

Lemma owp_remove_buffer bytes b (Q : unit -> hprop) : buffer_holds bytes b -∗ Q tt -∗ owp e E (remove_buffer b) Q.
Proof. apply owp_unmap, Hpf. Qed.

Lemma owp_create_queue cq qno adapter id (Q : Z * option queue_desc -> hprop) :
  A -∗ ctrl_handle k ctrl ct -∗
  (residue 0 1 -∗ A -∗ ctrl_handle k ctrl ct -∗
   (∀ s, ⌜s <> 0⌝ → Q (s, None)) ∧ (∀ q, queue_holds q -∗ Q (0, Some q))) -∗
  owp e E (create_queue ref cq qno adapter id) Q.
Proof.
  iIntros "A [%Hok C] Q". iAssert (ctrl_handle k ctrl ct) with "[C]" as "C"; [by iSplit|].
  unfold create_queue, nvm_ok. o_step. iApply (owp_ctrl_from_ref with "A"). iIntros "A". o_step.
  iApply (owp_load_handle with "C"). iIntros (Hcps) "C". rewrite Hcps. o_step.
  set (n := match cq with Some _ => _ | None => 0 end).
  pose proof (page_entries _ _ Hpf : 0 < 2 ^ k / sizeof_cmd < 2 ^ 26). pose proof (page_bounds _ _ Hpf). destruct Hok as [_ Hent].
  assert (0 <= n < 2 ^ 26) as Hn by (unfold n; destruct cq; [destruct (_ <=? _); lia|lia]).
  destruct (pages_aligned e k Hpf (n + 1) ltac:(lia)) as [Hun Han].
  replace (n * 2 ^ k + 2 ^ k) with ((n + 1) * 2 ^ k); [|lia]. rewrite Hun.
  iApply (owp_create_buffer with "A C"). iIntros "R A C". rewrite Han. iSplit; [iIntros (s Hs)|iIntros (b) "B"].
  { repeat o_step. iDestruct ("Q" with "R A C") as "[Q _]". by iApply "Q". }
  o_step. iApply (owp_load_window with "B"). iIntros (w [Hwp Hwl]) "B". o_step. iApply owp_ioaddr_at; [nia|]. iIntros (a). o_step.
  iApply (owp_wand _ _ _ (fun r => A ∗ ctrl_handle k ctrl ct ∗ ⌜fst r = 0 -> is_Some (snd r)⌝ ∧ emp)%I). iSplitL "A C".
  { destruct cq as [cq|].
    - iApply (owp_admin_sq_create with "A C"). iIntros (s q Hq) "A C". iFrame. by iSplit.
    - iApply (owp_admin_cq_create with "A C"). iIntros (s q Hq) "A C". iFrame. by iSplit. }
  iIntros ([s q]) "(A & C & %Hq & _)". simpl in Hq. repeat o_step.
  { iApply (owp_remove_buffer with "B"). o_step. iDestruct ("Q" with "R A C") as "[Q _]". by iApply "Q". }
  destruct Hq as [q' ->]. o_step. iDestruct ("Q" with "R A C") as "[_ Q]". iApply "Q". by iExists _.
Qed.

(** An array of which the first [n] queues have been made. *)
Definition queues_ready (p : Z) (n : nat) : hprop :=
  ∃ qs, ⌜(n <= length qs)%nat⌝ ∧ (p ↦ OQueues qs ∗ [∗ list] q ∈ take n qs, queue_holds q).

Lemma owp_remove_loop n i p qs (Q : unit -> hprop) : (i + n <= length qs)%nat ->
  p ↦ OQueues qs -∗ ([∗ list] q ∈ take n (drop i qs), queue_holds q) -∗ (p ↦ OQueues qs -∗ Q tt) -∗
  owp e E (remove_loop n i p) Q.
Proof.
  iInduction n as [|n] "IH" forall (i); iIntros (Hn) "P L Q"; simpl remove_loop; [o_step; by iApply "Q"|].
  destruct (lookup_lt_is_Some_2 qs i) as [x Hx]; [lia|]. rewrite (drop_S _ _ _ Hx) /=. iDestruct "L" as "[(%b & X) L]".
  repeat o_step. rewrite Hx. unfold remove_queue. o_step. iApply (owp_remove_buffer with "X").
  iApply ("IH" with "[] P L Q"). iPureIntro. lia.
Qed.

Lemma owp_remove_queues p n (Q : unit -> hprop) : 0 <= n ->
  queues_ready p (Z.to_nat (n + 1)) -∗ Q tt -∗ owp e E (remove_queues p n) Q.
Proof.
  iIntros (Hn) "(%qs & %Hl & P & L) Q". iApply (owp_nonnull with "P"). iIntros (Hp) "P". unfold remove_queues. odecide.
  o_step. iApply (owp_remove_loop with "P [L]"); [exact Hl|by rewrite drop_0|]. iIntros "P". repeat o_step. done.
Qed.

Lemma queues_insert qs i q : (i < length qs)%nat ->
  ([∗ list] x ∈ take i qs, queue_holds x) -∗ queue_holds q -∗ [∗ list] x ∈ take (S i) (<[i := q]> qs), queue_holds x.
Proof.
  iIntros (Hi) "L X". rewrite (take_S_r _ _ q); [|by apply list_lookup_insert_eq]. rewrite take_insert_ge; [|lia].
  rewrite big_sepL_app /=. iFrame.
Qed.

Lemma owp_create_loop n i q qs adapter id (Q : Z -> hprop) : (i + n < length qs)%nat ->
  A -∗ ctrl_handle k ctrl ct -∗ q ↦ OQueues qs -∗ ([∗ list] x ∈ take (S i) qs, queue_holds x) -∗
  (∀ s, residue 0 n -∗ A -∗ ctrl_handle k ctrl ct -∗
     (⌜s = 0⌝ → queues_ready q (S (i + n)) -∗ Q s) ∧ (⌜s <> 0⌝ → Q s)) -∗
  owp e E (create_loop n i ref q adapter id) Q.
Proof.
  iInduction n as [|n] "IH" forall (i qs id Q); iIntros (Hn) "A C P L Q"; simpl create_loop.
  { o_step. iDestruct ("Q" with "[] A C") as "[Q _]"; [iApply residue_nothing|]. iApply ("Q" with "[] [P L]"); [done|].
    rewrite Nat.add_0_r. iExists qs. iFrame. iPureIntro. lia. }
  destruct (lookup_lt_is_Some_2 qs 0) as [cq Hcq]; [lia|]. o_step. o_step. rewrite Hcq. o_step.
  iApply (owp_create_queue with "A C"). iIntros "R A C". iSplit; [iIntros (s Hs)|iIntros (d) "X"].
  - o_step. iApply (owp_remove_queues with "[P L]"); [lia| |].
    { iExists qs. replace (Z.to_nat (Z.of_nat i + 1)) with (S i); [|lia]. iFrame. iPureIntro. lia. }
    o_step. iDestruct ("Q" with "[R] A C") as "[_ Q]"; [iApply (residue_mono with "R"); lia|]. by iApply "Q".
  - do 4 o_step. iDestruct (queues_insert with "L X") as "L"; [lia|].
    iApply ("IH" with "[] A C P L"); [rewrite length_insert; iPureIntro; lia|].
    iIntros (s) "R' A C". rewrite (Nat.add_succ_r i n). iApply ("Q" with "[R R'] A C"). iApply (residue_join with "R R'"); lia.
Qed.

Lemma owp_request_queues n adapter id (Q : Z * Z -> hprop) : 0 <= n ->
  A -∗ ctrl_handle k ctrl ct -∗
  (∀ s q, residue 0 (S (Z.to_nat n)) -∗ A -∗ ctrl_handle k ctrl ct -∗
     (⌜s = 0 /\ q <> NULL⌝ → queues_ready q (Z.to_nat (n + 1)) -∗ Q (s, q)) ∧ (⌜s <> 0 /\ q = NULL⌝ → Q (s, q))) -∗
  owp e E (request_queues ref n adapter id) Q.
Proof.
  iIntros (Hn) "A C Q". unfold request_queues, nvm_ok. o_step. iApply (owp_admin_request_num_queues with "A"). iIntros (s c Hc) "A".
  repeat o_step. { iDestruct ("Q" with "[] A C") as "[_ Q]"; [iApply residue_nothing|]. by iApply "Q". }
  destruct Hc as [[n_cqs n_sqs] ->]. repeat o_step.
  1,2: iDestruct ("Q" with "[] A C") as "[_ Q]"; [iApply residue_nothing|]; by iApply "Q".
  iApply (owp_create_queue with "A C"). iIntros "R A C". iSplit; [iIntros (s Hs)|iIntros (d) "X"].
  { repeat o_step. iDestruct ("Q" with "[R] A C") as "[_ Q]"; [iApply (residue_mono with "R"); lia|]. by iApply "Q". }
  iRename select (p ↦ _)%I into "P". repeat o_step.
  iApply (owp_create_loop with "A C P [X]"); [rewrite length_insert length_replicate; lia| |].
  { iApply (queues_insert with "[] X"); [rewrite length_replicate; lia|]. by rewrite take_0. }
  iIntros (s) "R' A C". iAssert (residue 0 (S (Z.to_nat n))) with "[R R']" as "R"; [iApply (residue_join with "R R'"); lia|].
  iSplit; iIntros (Hs); [iIntros "L"|]; repeat o_step.
  - iDestruct ("Q" with "R A C") as "[Q _]". iApply "Q"; [done|]. rewrite Z2Nat.inj_add // Nat.add_1_r. iFrame.
  - iDestruct ("Q" with "R A C") as "[_ Q]". by iApply "Q".
Qed.

Lemma owp_identify_ctrl_page adapter id (Q : Z * option (Z * Z) -> hprop) :
  A -∗ ctrl_handle k ctrl ct -∗
  (∀ s i, ⌜s = 0 -> exists m, i = Some (2 ^ k, m)⌝ → residue 0 1 -∗ A -∗ ctrl_handle k ctrl ct -∗ Q (s, i)) -∗
  owp e E (identify_controller ref adapter id) Q.
Proof.
  iIntros "A C Q". unfold identify_controller, nvm_ok. o_step. iApply (owp_ctrl_from_ref with "A"). iIntros "A". o_step.
  iApply (owp_load_handle with "C"). iIntros (Hcps) "C". rewrite Hcps. o_step. pose proof (page_bounds _ _ Hpf).
  iApply (owp_make_segment with "C"); [done|]. iIntros "R". rewrite (one_page e k Hpf (2 ^ k)); [|lia].
  iSplit; [iIntros (s Hs) "C"|iIntros (h Hh) "C W"]. { repeat o_step. by iApply ("Q" with "[] R A C"). }
  repeat p_step. iApply owp_ioaddr_at; [eapply window_length; [done|done|lia]|]. iIntros (a). o_step.
  iApply (owp_admin_ctrl_info with "A C"); [done|]. iIntros (s i Hi) "A C". repeat p_step. iApply ("Q" with "[] R A C").
  iPureIntro. intros Hs. destruct (Hi Hs) as (c & -> & Hc). simpl. rewrite Hc. by eexists.
Qed.

Lemma owp_identify_ns_page ns_id adapter id (Q : Z * option (Z * Z) -> hprop) :
  A -∗ ctrl_handle k ctrl ct -∗
  (∀ s i, ⌜s = 0 -> exists n b, i = Some (n, b) /\ 0 < b⌝ → residue 0 1 -∗ A -∗ ctrl_handle k ctrl ct -∗ Q (s, i)) -∗
  owp e E (identify_namespace ref ns_id adapter id) Q.
Proof.
  iIntros "A C Q". unfold identify_namespace, nvm_ok. o_step. iApply (owp_ctrl_from_ref with "A"). iIntros "A". o_step.
  iApply (owp_load_handle with "C"). iIntros (Hcps) "C". rewrite Hcps. o_step. pose proof (page_bounds _ _ Hpf).
  iApply (owp_make_segment with "C"); [done|]. iIntros "R". rewrite (one_page e k Hpf (2 ^ k)); [|lia].
  iSplit; [iIntros (s Hs) "C"|iIntros (h Hh) "C W"]. { repeat o_step. by iApply ("Q" with "[] R A C"). }
  repeat p_step. iApply owp_ioaddr_at; [eapply window_length; [done|done|lia]|]. iIntros (a). o_step.
  iApply (owp_admin_ns_info with "A C"). iIntros (s i Hi) "A C". repeat p_step. iApply ("Q" with "[] R A C").
  iPureIntro. intros Hs. destruct (Hi Hs) as (c & -> & Hc). simpl. by eexists _, _.
Qed.
End reference.
End queues.
