(* ===== verification/Integrity.v ===== *)
(** * [examples/integrity/integrity.c]

    The program that copies a file to the disk, or back. The threads of
    [transfer] are the subject of [Transfer] and [TransferRun]; here they are any
    computation that leaves handles and queue memory alone. *)
From Stdlib Require Import String Ascii.
From iris.proofmode Require Import proofmode.
From S2P Require Import Prelude Bits Memory Effects Types Runtime Command Error Queue DisDevice DisMap Ctrl Dma DisDma Rpc DisRpc Admin Transfer CArgs Options Owned Handles SegmentHandles AdminHandles Programs IntegrityQueues.
#[local] Open Scope list_scope.

(** The disk, the buffer, the queues and how many, the size, and whether to write: a
    status, and the queues afterwards. *)
Abbreviation transfers := (disk -> nvm_dma_t -> list queue_desc -> Z -> Z -> bool -> UM (Z * list queue_desc)).

(** They end, leave all handles and resources alone and the queues where they are. *)
Definition quiet_transfers (e : uenv) (threads : transfers) : Prop :=
  forall d b qs n size write w, wp e (threads d b qs n size write) w
    (fun r w' => w_st w' = w_st w /\ moved w w' (fun _ => 0) /\ qd_qmem <$> snd r = qd_qmem <$> qs).

Section integrity.
Context `{RpcCallbacks} `{Build} (command completion info : Z) (threads : transfers).

Definition run_transfer (d : disk) (b : nvm_dma_t) (queues n_queues size : Z) (write : bool) : UM Z :=
  qs ← load (A:=list queue_desc) queues;
  '(status, qs) ← threads d b qs n_queues size write;
  store queues qs;;
  mret status.

(** [fread] fills the buffer as far as the file goes. *)
Definition disk_write (d : disk) (buffer : mem_buffer) (queues n_queues fp size : Z) : UM Z :=
  b ← load_dma (mb_dma buffer);
  r ← ext (Fread fp 1 size);
  upd_mem (fun m => st_bytes m (dma_vaddr b) (take (Z.to_nat size) (r_list r)));;
  run_transfer d b queues n_queues size true.

Definition disk_read (d : disk) (buffer : mem_buffer) (queues n_queues fp size : Z) : UM Z :=
  b ← load_dma (mb_dma buffer);
  status ← run_transfer d b queues n_queues size false;
  if status =? 0 then
    m ← get_mem;
    ext (Fwrite fp (bytes_at (Z.to_nat size) m (dma_vaddr b)));;
    mret status
  else mret status.

(** What [main] does after its label. *)
Definition leave (queues n_queues aq_ref aq_dma : Z) (buffer : mem_buffer) (ctrl fp status : Z) : UM Z :=
  remove_queues queues n_queues;;
  nvm_aq_destroy aq_ref;;
  nvm_dma_unmap aq_dma;;
  remove_buffer buffer;;
  nvm_ctrl_free ctrl;;
  ext (Fclose fp);;
  ext SCITerminate;;
  mret status.

(** The size of the transfer: of the file, unless a number of bytes to read is given. *)
Definition transfer_size (args : arguments) (fp : Z) : UM Z :=
  if ia_read_bytes args >? 0 then mret (ia_read_bytes args)
  else
    ext (Fseek_end fp);;
    size ← ext (Ftell fp);
    ext (Rewind fp);;
    mret (r_val size).

(** Returns the exit status. *)
Definition main (opts : list opt) (files : list cstring) : UM Z :=
  match parse_arguments opts files with
  | Exit c => mret c
  | Parsed args =>
      let reading := ia_read_bytes args >? 0 in
      f ← ext (Fopen (ia_filename args) (if reading then lit "w" else lit "r"));
      let fp := r_val f in
      if fp =? 0 then mret 2
      else
        file_size ← transfer_size args fp;
        if negb reading && (file_size =? 0) then ext (Fclose fp);; mret 2
        else
          let adapter := ia_adapter args in
          let id i := u32 (ia_segment_id args + i) in
          ext SCIInitialize;;
          '(status, ctrl) ← nvm_dis_ctrl_init (ia_device_id args) adapter;
          if negb (status =? 0) then ext (Fclose fp);; mret 1
          else
            c ← load_ctrl ctrl;
            '(status, aq_dma) ← nvm_dis_dma_create ctrl adapter (id 0) (u64 (ctrl_page_size c * 2));
            if negb (status =? 0) then nvm_ctrl_free ctrl;; ext (Fclose fp);; mret 1
            else
              '(status, aq_ref) ← nvm_aq_create ctrl aq_dma;
              if negb (status =? 0) then nvm_dma_unmap aq_dma;; nvm_ctrl_free ctrl;; ext (Fclose fp);; mret 1
              else
                c ← load_ctrl ctrl;
                '(status, b) ← create_buffer aq_ref (NVM_CTRL_ALIGN c file_size) adapter (id 1);
                if negb (status =? 0) then
                  nvm_aq_destroy aq_ref;; nvm_dma_unmap aq_dma;; nvm_ctrl_free ctrl;; ext (Fclose fp);; mret 1
                else
                  match b with
                  | None => fail Uninitialised
                  | Some buffer =>
                      let out queues n status := leave queues n aq_ref aq_dma buffer ctrl fp status in
                      '(status, page) ← identify_controller command completion info aq_ref adapter (id 2);
                      if negb (status =? 0) then out NULL (ia_n_queues args) status
                      else
                        '(status, ns) ← identify_namespace command completion info aq_ref (ia_ns_id args) adapter (id 2);
                        if negb (status =? 0) then out NULL (ia_n_queues args) status
                        else
                          match page, ns with
                          | Some (page_size, max_data_size), Some (ns_id, block_size) =>
                              let disk := Disk page_size max_data_size ns_id block_size in
                              n_blocks ← divide (NVM_PAGE_ALIGN file_size block_size) block_size;
                              let n_queues := if ia_n_queues args >? n_blocks then u16 n_blocks else ia_n_queues args in
                              '(status, queues) ← request_queues command completion aq_ref n_queues adapter (id 2);
                              if negb (status =? 0) then out queues n_queues status
                              else
                                status ← (if reading then disk_read disk buffer queues n_queues fp file_size
                                          else disk_write disk buffer queues n_queues fp file_size);
                                out queues n_queues status
                          | _, _ => fail Uninitialised
                          end
                  end
  end.

Context (e : uenv) (k : Z).
Hypothesis Hpf : platform e k.
Hypothesis Hsci : sisci_starts e.
Hypothesis Hthreads : quiet_transfers e threads.
#[local] Abbreviation E := arithmetic.

Lemma queues_same qs qs' : qd_qmem <$> qs' = qd_qmem <$> qs ->
  ([∗ list] q ∈ qs, queue_holds k q) ⊢ [∗ list] q ∈ qs', queue_holds k q.
Proof.
  intros Hqs. pose (P (m : mem_buffer) := (∃ bytes, buffer_holds k bytes m)%I : hprop).
  change (([∗ list] q ∈ qs, P (qd_qmem q)) ⊢ [∗ list] q ∈ qs', P (qd_qmem q)).
  by rewrite -!(big_sepL_fmap qd_qmem (fun _ => P)) Hqs.
Qed.

Lemma owp_run_transfer d b p n nq size write (Q : Z -> hprop) :
  queues_ready k p n -∗ (∀ s, queues_ready k p n -∗ Q s) -∗ owp e E (run_transfer d b p nq size write) Q.
Proof.
  iIntros "(%qs & %Hn & P & L) Q". unfold run_transfer. do 3 o_step.
  iApply (owp_inert _ _ _ (fun r => qd_qmem <$> snd r = qd_qmem <$> qs)).
  { intros w. eapply wp_mono; [apply Hthreads|]. done. }
  iIntros ([s qs'] Hqs). simpl in Hqs. repeat o_step. iApply "Q". iExists qs'.
  assert (length qs' = length qs) as Hlen by (by rewrite -(length_fmap qd_qmem) Hqs length_fmap).
  iSplit; [iPureIntro; lia|]. iFrame "P". iApply (queues_same with "L"). by rewrite !fmap_take Hqs.
Qed.

Lemma owp_disk_write d bytes b p n nq fp size (Q : Z -> hprop) :
  buffer_holds k bytes b -∗ queues_ready k p n -∗ (∀ s, buffer_holds k bytes b -∗ queues_ready k p n -∗ Q s) -∗
  owp e E (disk_write d b p nq fp size) Q.
Proof.
  iIntros "B L Q". unfold disk_write. o_step. iApply (owp_load_window with "B"). iIntros (w _) "B". repeat o_step.
  iApply (owp_run_transfer with "L"). iIntros (s) "L". iApply ("Q" with "B L").
Qed.

Lemma owp_disk_read d bytes b p n nq fp size (Q : Z -> hprop) :
  buffer_holds k bytes b -∗ queues_ready k p n -∗ (∀ s, buffer_holds k bytes b -∗ queues_ready k p n -∗ Q s) -∗
  owp e E (disk_read d b p nq fp size) Q.
Proof.
  iIntros "B L Q". unfold disk_read. o_step. iApply (owp_load_window with "B"). iIntros (w _) "B". o_step.
  iApply (owp_run_transfer with "L"). iIntros (s) "L". repeat o_step; iApply ("Q" with "B L").
Qed.

Lemma owp_transfer_size args fp (Q : Z -> hprop) : (∀ n, Q n) ⊢ owp e E (transfer_size args fp) Q.
Proof. iIntros "Q". unfold transfer_size. repeat o_step; iApply "Q". Qed.

(** No queues, or all of them. *)
Definition queues_or_null (q n : Z) : hprop := (⌜q = NULL⌝ ∧ emp) ∨ queues_ready k q (Z.to_nat (n + 1)).

Lemma owp_leave q n ref ctrl ct dma bytes bytes' b fp status (Q : Z -> hprop) : 0 <= n ->
  queues_or_null q n -∗ aq_local ctrl ref -∗ new_dma k bytes dma -∗ buffer_holds k bytes' b -∗ ctrl_handle k ctrl ct -∗
  own (KFile fp) -∗ own KSci -∗ (residue 1 0 -∗ Q status) -∗ owp e E (leave q n ref dma b ctrl fp status) Q.
Proof.
  iIntros (Hn) "L A W B C F S Q". unfold leave. o_step.
  iApply (owp_wand _ _ _ (fun _ => emp)%I). iSplitL "L".
  { iDestruct "L" as "[[-> _]|L]"; [by iApply owp_ret|]. by iApply (owp_remove_queues with "L"). }
  iIntros ([]) "_". o_step. iApply (owp_aq_destroy with "A"); [done|]. iIntros "R". o_step. iApply (owp_unmap with "W"); [done|].
  o_step. iApply (owp_remove_buffer with "B"); [done|]. repeat p_step. by iApply "Q".
Qed.

Lemma owp_integrity_main opts files : ⊢ owp e E (main opts files)
  (fun _ => residue 1 (match parse_arguments opts files with Exit _ => 0 | Parsed a => Z.to_nat (ia_n_queues a) + 5 end)).
Proof.
  iStartProof. unfold main, nvm_ok. destruct (parse_arguments opts files) as [c|args] eqn:Hargs; [o_step; iApply residue_nothing|].
  apply parse_arguments_sound in Hargs as ((_ & _ & _ & _ & Hnq & _) & _).
  pose proof (page_bounds _ _ Hpf). destruct (pages_aligned e k Hpf 2 ltac:(lia)) as [Hu Ha].
  set (N := Z.to_nat (ia_n_queues args)).
  repeat o_step; [|iApply residue_nothing]. iRename select (own (KFile _)) into "F".
  iApply owp_transfer_size. iIntros (size).
  destruct (negb _ && _); [repeat o_step; iApply residue_nothing|]. o_step.
  iApply owp_sci_initialize; [done|]. iIntros (i Hi) "S". o_step. o_creates (owp_dis_ctrl_init _ _ _ Hpf _ _).
  { repeat o_step. iDestruct (residue_sci with "S") as "S". iApply (residue_mono with "S"); lia. }
  iSelect (new_ctrl _ _) (fun H => iDestruct H as (ct) "C"). o_step. iApply (owp_load_handle with "C"). iIntros (Hcps) "C".
  rewrite Hcps (Z.mul_comm (2 ^ k) 2) Hu.
  o_step. iApply (owp_make_segment with "C"); [done|]. iIntros "L1". rewrite Ha. iSplit; [iIntros (s Hs') "C"|iIntros (dma Hdma) "C W"].
  { repeat p_step. iDestruct (residue_sci with "S") as "S". iApply (residue_join with "S L1"); lia. }
  o_step. iApply (owp_make_aq with "C W"); [done|]. iSplit; [iIntros (s Hs') "C W"|iIntros (ref [Href0 Href]) "C W A"].
  { repeat p_step. iDestruct (residue_sci with "S") as "S". iApply (residue_join with "S L1"); lia. }
  repeat p_step. iApply (owp_create_buffer with "A C"); [done|]. iIntros "L2 A C".
  iDestruct (residue_join _ _ _ _ 0 2 with "L1 L2") as "L"; [lia..|]. iSplit; [iIntros (s Hs')|iIntros (b) "B"].
  { o_step. iApply (owp_aq_destroy with "A"); [done|]. iIntros "R". repeat p_step.
    iDestruct (residue_sci with "S") as "S". iDestruct (residue_join _ _ _ _ 0 3 with "S L") as "L"; [lia..|]. iApply (residue_join with "L R"); lia. }
  o_step. iApply (owp_identify_ctrl_page with "A C"); [done|]. iIntros (s i' Hpage) "L3 A C".
  iDestruct (residue_join _ _ _ _ 0 3 with "L L3") as "L"; [lia..|].
  o_step.
  { iApply (owp_leave with "[] A W B C F S"); [lia|by iLeft; iSplit|]. iIntros "R". iApply (residue_join with "L R"); lia. }
  o_step. iApply (owp_identify_ns_page with "A C"); [done|]. iIntros (s j Hns) "L4 A C".
  iDestruct (residue_join _ _ _ _ 0 4 with "L L4") as "L"; [lia..|]. o_step.
  { iApply (owp_leave with "[] A W B C F S"); [lia|by iLeft; iSplit|]. iIntros "R". iApply (residue_join with "L R"); lia. }
  destruct Hpage as [m ->], Hns as (ns_id & bs & -> & Hbs). unfold divide. rewrite (proj2 (Z.eqb_neq bs 0)); [|lia]. do 3 o_step.
  set (n := if ia_n_queues args >? _ then _ else _).
  assert (0 <= n <= ia_n_queues args) as Hn.
  { unfold n. destruct (Z.gtb_spec (ia_n_queues args) (NVM_PAGE_ALIGN size bs / bs)); [|lia].
    pose proof (align_pages_nonneg size bs ltac:(lia)). rewrite u16_small; lia. }
  iApply (owp_request_queues with "A C"); [done|lia|]. iIntros (s q) "L5 A C". iDestruct (residue_join _ _ _ _ 0 (N + 5) with "L L5") as "L"; [lia..|].
  iSplit; iIntros ([? ?]); [iIntros "X"|]; repeat o_step.
  1: iApply (owp_disk_read with "B X"). 2: iApply (owp_disk_write with "B X"). 3: odecide.
  1,2: iIntros (s') "B X"; iApply (owp_leave with "[X] A W B C F S"); [lia|by iRight|].
  3: iApply (owp_leave with "[] A W B C F S"); [lia|by iLeft; iSplit|].
  all: iIntros "R"; iApply (residue_join with "L R"); lia.
Qed.
End integrity.


#[local] Instance integrity_build : Build := {| NDEBUG := false; CUDA := false |}.

(** Threads that only ring the doorbell of the first submission queue. *)
Definition first_submit : transfers := fun _ _ qs _ _ _ =>
  match qs !! 1%nat with Some q => nvm_sq_submit (qd_queue q);; mret (0, qs) | None => mret (0, qs) end.

Lemma first_submit_quiet e : quiet_transfers e first_submit.
Proof.
  intros d b qs n size write w. unfold first_submit, nvm_sq_submit.
  destruct (qs !! 1%nat); repeat led_step; (split; [done|split; [solve_moved|done]]).
Qed.

